(* ===== verification/_CoqProject ===== *)
-Q . S2P
Prelude.v
Text.v
NetAddr.v
Errors.v
Channels.v
Config.v
ConfigSpec.v
Totp.v
Stream.v
Protocol.v
ReverseServer.v
Tunnel.v
ReverseClient.v
F64.v
Metrics.v
Selector.v
Blackhole.v
Stealth.v
Resilient.v
Splice.v
Copy.v
Forward.v
UdpRelay.v
Concurrent.v
TunnelRelay.v
ReversePath.v
ProxyServer.v
ForwardPath.v
Runtime.v
Deployment.v
Handler.v
EnhancedHandler.v
Monitoring.v
Crypto.v
StreamCipher.v
Service.v
Utils.v
Bench.v
Terminal.v
Sha1.v
Enrolment.v
Conformance.v
