(* ===== verification/Prelude.v ===== *)
(** * gsc-fq: a verification development of the TCP proxy

    gsc-fq reads one TOML file and runs up to three services: a forward proxy,
    which relays local ports to fixed remote addresses; a reverse proxy server,
    which opens public ports for clients behind a NAT; and the reverse proxy
    client, which connects to such a server and serves its ports from local
    services.  This development models the Rust sources under src/src and proves
    what they do; where the code does not do what it means to, the theorem says
    what it does instead.

    ** Parts and files

    Every file lists in its first comment the source it models.  Definitions
    keep the names of the source; a method [T::f] is [f], in a Module when
    several types have it.

    - Prelude: [result] with [let?] for the [?] operator, [outcome] with [let!]
      for code that can panic, machine integers ([wrap], [in_u], [u64_add]),
      big- and little-endian bytes, windows, the class [Typed] of values within
      their machine types, the tactics and the hint database [gsc].  Text: the
      operations of [str] and of paths; NetAddr: parsing and printing of
      IP and socket addresses; F64: IEEE double arithmetic; Stream: readers and
      writers of bytes that can fail.  These are the parts of the standard
      library the program relies on.
    - Errors (error/types.rs): the error types, their texts, severity and
      recoverability.
    - Config, ConfigSpec (config/loader.rs): the sections and their accessors,
      [validate], the sanitizer and the search for a file; then [acceptable], a
      declarative description of the accepted configurations, which [validate]
      is proved to decide.
    - Runtime (config/runtime.rs, main.rs): which services a configuration
      starts.  It builds on ProxyServer, ReverseServer and ReverseClient.
      Deployment joins two such programs: the reverse server and client that
      their configurations start, from the handshake to the service reached.
    - ProxyServer (proxy/server.rs): rules into instances, an instance from
      binding to shutdown, the server's status.  Each instance owns a handler
      of Stealth (stealth_connection_handler.rs): access list, limits and
      counters as a transition system over interleaved events, with Blackhole
      (blackhole.rs, stealth_handler.rs) for rejected clients.  Handler
      (handler.rs, high_perf.rs) is the handler without limits.
    - Splice (zero_copy.rs, splice_optimizer.rs) and Copy (adaptive_copy.rs,
      adaptive_stream.rs, high_perf.rs): the loops that move the bytes, one
      direction at a time.  Channels states what forwarding promises: a pair of
      byte channels for a connection, a family of such pairs for a service.
      Forward (zero_copy.rs, stealth_handler.rs, stealth_connection_handler.rs)
      puts a connection together: the two splice threads, their pipes and the
      task that joins them, and the handler from accept to release.  UdpRelay is
      the same for datagrams: the sessions of Stealth with their relay tasks.
      Concurrent runs the connections of a rule, the UDP packets and the shared
      handler interleaved; a connection's address is read twice, as the code does.
      ForwardPath follows a rule from the configuration
      through builder, instance and handler to its remote server, for a
      connection alone and for one among any others.
    - Metrics (connection_metrics.rs), Selector (connection_selector.rs,
      quality_aware_connection.rs) and Resilient (resilient.rs): the quality of
      connections, choosing one, and reconnecting.  EnhancedHandler
      (enhanced_handler.rs, handler_copy.rs): the handler on top of Resilient.
    - Totp (utils/totp.rs), Protocol (reverse_proxy/protocol.rs), ReverseServer
      and Tunnel (reverse_proxy/server.rs, client.rs) and ReverseClient
      (client.rs): the reverse proxy.  The server and its clients are a step
      relation whose state holds the session table, the connections in their
      binding loops and the operating system's ports; ReverseClient ends by
      composing client and server over two streams.  TunnelRelay runs the listener
      tasks, the loop over the multiplexed connection and the tasks of all streams
      and datagrams interleaved.  ReversePath follows a public connection through
      server, tunnel and client to the local service, alone and in any run of
      TunnelRelay, and has the whole of the server's [handle_client].
    - Monitoring (monitoring/mod.rs) and Crypto (crypto/mod.rs): bookkeeping
      beside the data path.  StreamCipher (crypto/stream_cipher.rs,
      handshake.rs): the encrypted stream over the keys of Crypto.
    - Service (service/manager.rs, cli.rs): installing and controlling the
      system service.  Utils (utils/debug.rs, signal.rs, system.rs): the debug
      switch, shutdown signals and the system checks.  Bench
      (bin/bench_throughput.rs): the benchmark.  Terminal: the lines these
      parts print.
    - Sha1, Enrolment and Conformance: SHA-1, HMAC and Base32 as the standards
      define them; a one-time-password secret from [gsc-fq -g] over client and
      server to the server's check, with these functions; and the unit tests of
      the source stated of the model and evaluated, which compares the model with
      what its authors expect of the program and is no property of it.

    ** Interfaces

    Third-party code is a class or an argument, with what the program relies on
    as the laws of the class.  [Protocol.Codec] is bincode with its round trip,
    instantiated by the concrete codec [FixedWidth]; [ReverseServer.Env] is
    HMAC-SHA1, Base32, JSON and SHA-256, instantiated by [sample_env];
    [Crypto.Aead] is ring's AES-GCM, to which [StreamCipher.AeadAuthentic] adds
    that a text does not open under another counter; [Service.ServiceManager] is
    the service_manager crate, of which nothing is assumed.  In TunnelRelay
    [Copying] is one direction of tokio's [copy_bidirectional], which copies in
    order, when and as far as it likes; [Mpsc] is tokio's bounded channel, which
    receives at most once what was sent, in no assumed order; and [Multiplexer]
    says whether yamux carries the bytes of the open streams while the loop waits
    for a new one.  Each has a sample instance for the witnesses.  The toml crate, the file system, clocks,
    random draws and the operating system's answers to socket calls are
    arguments of the definitions that use them.

    ** What the theorems show

    - Safety and invariants: who gets past the handshake, ports and sessions
      agree and no port has two owners, the limits per address hold under every
      interleaving, UDP sessions and relays stay one to one, the handler's
      counters and slots are exact, the connections of a port and their bytes reach
      the configured target only, and a connection leaves nothing behind on the
      server.
    - Refinement: the connections of a rule, and the public connections of a
      tunnel, are independent pairs of byte channels whatever the tasks, threads
      and the kernel do; client and server implement the handshake and agree on its
      end, and what their two configurations start serves the reverse rules; the
      built server implements the validated rules.  Of the tunnel these are safety
      properties: nothing is said about when its bytes move, since the loop does not
      poll the connection for its streams while it waits for a new one, nor about
      the order in which requests or datagrams are served.
    - Functional correctness: validation decides [acceptable]; a validated
      configuration is served as written, a forward rule from its port to its
      remote server and a reverse rule from its port to its local service; the
      copies deliver the stream, on every platform the same; the selection
      strategies choose what they name.
    - Round trips and equivalences: messages over the wire, TOTP against the
      RFC definitions, the codec of Base32 and the import of a printed secret, UDP
      datagrams through the tunnel.
    - Termination and bounds: the two splice threads when no call fails
      ([Splice.work_left] is the measure), reconnection, retries, the blackhole's delay, the
      quality score.
    - Deviations: credentials in the configuration that are not used, sessions
      evicted while busy, lost UDP replies, lock-out by UDP packets and by panics,
      the splice thread that never ends, the forwarder that echoes, encrypted
      streams that carry one message, and the like, each as a theorem about the
      code as it is.

    ** Conventions, bounds and fuel

    Times are nanoseconds in [Z]; counters are [Z] with the wrap-around of their
    width; strings are UTF-8 bytes; an [async] function is modelled between its
    awaits, and tasks that interleave are events or steps.  Loops are structural
    in the list of what they read, which is also why a run can be cut short
    ([None], or a phase that is not [Finished]): the theorems on complete inputs
    show the loop returns.  Fuel appears in decimal printing, where the binary
    logarithm of the number plus one steps suffice ([Text.show_dec_fuel]), in
    trimming, where the length of the text suffices, and in the reconnection
    loop of ReverseClient, whose eleven rounds cover the ten retries
    ([ReverseClient.reconnect_bounded]).  The channel of requests in TunnelRelay
    is made with the 256 places the source gives it and its datagrams are cut at
    the 65535 bytes of their buffer.  The blackhole's bounds allow for the
    lateness of its clock and timer ([Blackhole.timely]).

    ** Not modelled

    Module declarations and re-exports, types without fields or behaviour, the
    drawing of QR codes, terminal escapes, the settings of the yamux multiplexer,
    and the few unit tests that only look at the machine they run on.  The
    multiplexer itself is third-party code and gives ordered streams; which window
    or slow peer delays a stream is not part of the model.  No [mod] declaration reaches
    enhanced_handler.rs, handler_copy.rs, crypto/stream_cipher.rs,
    crypto/handshake.rs and service/: the program is built without them, some of
    them do not compile as they are, and their models show what they would do. *)

From stdpp Require Import base gmap strings list.
From Stdlib Require Import ZArith Lia.
From coqutil Require Import Byte Word.LittleEndianList.

Declare Scope gsc_scope.
Delimit Scope gsc_scope with gsc.
Open Scope Z_scope.
Open Scope gsc_scope.

(** ** Fallible computations

    Rust's [Result<T, E>]; [let?] is the [?] operator. *)
Inductive result (A E : Type) : Type :=
| Ok (a : A)
| Err (e : E).
Arguments Ok {A E} a.
Arguments Err {A E} e.

Notation "'let?' x ':=' c 'in' k" :=
  (match c with Ok x => k | Err e => Err e end)
  (at level 10, x name, c at level 100, k at level 200) : gsc_scope.
Notation "'let?' ' p ':=' c 'in' k" :=
  (match c with Ok p => k | Err e => Err e end)
  (at level 10, p pattern, c at level 100, k at level 200) : gsc_scope.

#[export] Instance result_eq_dec {A E} `{EqDecision A, EqDecision E} : EqDecision (result A E).
Proof. solve_decision. Defined.

Section ResultOps.
Context {A B E F : Type}.

Definition map_err (f : E -> F) (r : result A E) : result A F :=
  match r with Ok a => Ok a | Err e => Err (f e) end.

Definition map_ok (f : A -> B) (r : result A E) : result B E :=
  match r with Ok a => Ok (f a) | Err e => Err e end.

Definition result_ok (r : result A E) : option A :=
  match r with Ok a => Some a | Err _ => None end.

Definition is_ok (r : result A E) : bool :=
  match r with Ok _ => true | Err _ => false end.

Definition ok_or (o : option A) (e : E) : result A E :=
  match o with Some a => Ok a | None => Err e end.

(** A loop whose body may return early with an error. *)
Fixpoint map_result (f : A -> result B E) (l : list A) : result (list B) E :=
  match l with
  | [] => Ok []
  | x :: l => let? y := f x in let? ys := map_result f l in Ok (y :: ys)
  end.

Lemma map_result_Ok_iff f l bs :
  map_result f l = Ok bs <-> Forall2 (fun a b => f a = Ok b) l bs.
Proof.
  revert bs. induction l as [|x l IH]; intros bs; simpl.
  - split; [intros [= <-]; constructor | by inversion 1].
  - destruct (f x) as [y|e] eqn:Hf.
    + destruct (map_result f l) as [ys|e] eqn:Hl.
      * split; [intros [= <-] | inversion 1; simplify_eq].
        -- constructor; [done | by apply IH].
        -- f_equal. f_equal; [congruence |].
           assert (Ok ys = Ok l' :> result (list B) E) by (by apply IH). congruence.
      * split; [done | inversion 1 as [|? ? ? l' ? Hl']; simplify_eq].
        apply IH in Hl'. done.
    + split; [done | inversion 1; simplify_eq; congruence].
Qed.
End ResultOps.

(** A computation that may also panic: slicing off a character boundary,
    indexing out of range, overflow in a checked build. *)
Inductive outcome (A : Type) : Type :=
| Val (a : A)
| Panic.
Arguments Val {A} a.
Arguments Panic {A}.

Notation "'let!' x ':=' c 'in' k" :=
  (match c with Val x => k | Panic => Panic end)
  (at level 10, x name, c at level 100, k at level 200) : gsc_scope.

(** ** Tactics *)

Ltac case_if :=
  match goal with
  | |- context [if ?b then _ else _] => destruct b eqn:?
  | H : context [if ?b then _ else _] |- _ => destruct b eqn:?
  end.

Ltac case_result :=
  match goal with
  | |- context [match ?r with Ok _ => _ | Err _ => _ end] => destruct r eqn:?
  | H : context [match ?r with Ok _ => _ | Err _ => _ end] |- _ => destruct r eqn:?
  end.

Ltac case_all := repeat (case_if || case_result || case_match); simplify_eq/=.

(** Turn boolean tests on [Z] and [nat] into propositions. *)
Ltac boolp :=
  repeat match goal with
  | H : (_ <? _) = true |- _ => apply Z.ltb_lt in H
  | H : (_ <? _) = false |- _ => apply Z.ltb_ge in H
  | H : (_ <=? _) = true |- _ => apply Z.leb_le in H
  | H : (_ <=? _) = false |- _ => apply Z.leb_gt in H
  | H : (_ =? _) = true |- _ => apply Z.eqb_eq in H
  | H : (_ =? _) = false |- _ => apply Z.eqb_neq in H
  | H : (_ <? _)%nat = true |- _ => apply Nat.ltb_lt in H
  | H : (_ <? _)%nat = false |- _ => apply Nat.ltb_ge in H
  | H : (_ <=? _)%nat = true |- _ => apply Nat.leb_le in H
  | H : (_ <=? _)%nat = false |- _ => apply Nat.leb_gt in H
  | H : (_ =? _)%nat = true |- _ => apply Nat.eqb_eq in H
  | H : (_ =? _)%nat = false |- _ => apply Nat.eqb_neq in H
  | H : String.eqb _ _ = true |- _ => apply String.eqb_eq in H
  | H : String.eqb _ _ = false |- _ => apply String.eqb_neq in H
  | H : _ && _ = true |- _ => apply andb_prop in H as [? ?]
  | H : _ || _ = false |- _ => apply orb_false_elim in H as [? ?]
  | H : negb _ = true |- _ => apply negb_true_iff in H
  | H : negb _ = false |- _ => apply negb_false_iff in H
  | H : bool_decide _ = true |- _ => apply bool_decide_eq_true in H
  | H : bool_decide _ = false |- _ => apply bool_decide_eq_false in H
  end.

(** A non-empty list is not [[]]. *)
Ltac len_absurd H :=
  exfalso; apply (f_equal length) in H; rewrite ?length_app in H; simpl in H; lia.

(** ** Machine integers

    A [w]-bit unsigned integer is a [Z] in [[0, 2^w)]; a wrapping operation
    reduces modulo [2^w], a saturating one clamps. *)
Definition wrap (w z : Z) : Z := z mod 2 ^ w.
Definition in_u (w z : Z) : Prop := 0 <= z < 2 ^ w.
Definition u64_add (a b : Z) : Z := wrap 64 (a + b).
Definition u64_sub (a b : Z) : Z := wrap 64 (a - b).
Definition sat_add (w a b : Z) : Z := Z.min (a + b) (2 ^ w - 1).
Definition sat_sub (a b : Z) : Z := Z.max 0 (a - b).
Definition usize_max : Z := 2 ^ 64 - 1.

Lemma wrap_small w z : in_u w z -> wrap w z = z.
Proof. intros H. by apply Z.mod_small. Qed.

Lemma wrap_in w z : 0 <= w -> in_u w (wrap w z).
Proof. intros H. apply Z.mod_pos_bound, Z.pow_pos_nonneg; lia. Qed.

Lemma wrap_add_l w a b : wrap w (wrap w a + b) = wrap w (a + b).
Proof. apply Zplus_mod_idemp_l. Qed.

Lemma wrap_add_r w a b : wrap w (a + wrap w b) = wrap w (a + b).
Proof. apply Zplus_mod_idemp_r. Qed.

(** The machine types of a record: every integer in the range of its width,
    every bounded collection within its bound. *)
Class Typed (A : Type) := typed : A -> Prop.

Create HintDb gsc discriminated.
Create Rewrite HintDb gsc.
#[export] Hint Resolve wrap_small : gsc.
#[export] Hint Resolve wrap_in : gsc.
#[export] Hint Rewrite wrap_add_l wrap_add_r : gsc.

Lemma u64_add_in a b : in_u 64 (u64_add a b).
Proof. apply wrap_in. lia. Qed.

Lemma u64_sub_in a b : in_u 64 (u64_sub a b).
Proof. apply wrap_in. lia. Qed.

Lemma sat_sub_in w a b : 0 <= b -> in_u w a -> in_u w (sat_sub a b).
Proof. unfold in_u, sat_sub. lia. Qed.

Lemma zero_in w : 0 <= w -> in_u w 0.
Proof. intros H. unfold in_u. split; [lia|]. apply Z.pow_pos_nonneg; lia. Qed.

Lemma div_in w a b : 0 < b -> in_u w a -> in_u w (a / b).
Proof.
  intros Hb [H1 H2]. split; [by apply Z.div_pos|]. apply Z.div_lt_upper_bound; [done|]. nia.
Qed.

#[export] Hint Resolve u64_add_in u64_sub_in sat_sub_in zero_in div_in : gsc.

(** ** Bytes and their integer encodings *)

Abbreviation byte := Init.Byte.byte.
Definition be_bytes (n : nat) (z : Z) : list byte := rev (le_split n z).
Definition be_value (bs : list byte) : Z := le_combine (rev bs).
Definition le_bytes (n : nat) (z : Z) : list byte := le_split n z.
Definition le_value (bs : list byte) : Z := le_combine bs.

Lemma length_be_bytes n z : length (be_bytes n z) = n.
Proof. unfold be_bytes. by rewrite length_rev, length_le_split. Qed.

Lemma length_le_bytes n z : length (le_bytes n z) = n.
Proof. apply length_le_split. Qed.

Lemma be_value_bytes n z : be_value (be_bytes n z) = wrap (8 * Z.of_nat n) z.
Proof.
  unfold be_value, be_bytes, wrap. rewrite rev_involutive, le_combine_split.
  by rewrite Z.mul_comm.
Qed.

Lemma le_value_bytes n z : le_value (le_bytes n z) = wrap (8 * Z.of_nat n) z.
Proof. unfold le_value, le_bytes, wrap. rewrite le_combine_split. by rewrite Z.mul_comm. Qed.

Lemma be_bytes_value bs : be_bytes (length bs) (be_value bs) = bs.
Proof.
  unfold be_value, be_bytes. rewrite <- (length_rev bs), split_le_combine.
  apply rev_involutive.
Qed.

Lemma be_value_bound bs : in_u (8 * Z.of_nat (length bs)) (be_value bs).
Proof.
  unfold be_value, in_u. rewrite <- (length_rev bs).
  pose proof (le_combine_bound (rev bs)). by rewrite (Z.mul_comm 8), Z.mul_comm.
Qed.

Lemma be_value_bytes_small n z :
  in_u (8 * Z.of_nat n) z -> be_value (be_bytes n z) = z.
Proof. intros H. rewrite be_value_bytes. by apply wrap_small. Qed.

Lemma be_bytes_inj n a b :
  in_u (8 * Z.of_nat n) a -> in_u (8 * Z.of_nat n) b ->
  be_bytes n a = be_bytes n b -> a = b.
Proof.
  intros Ha Hb H. apply (f_equal be_value) in H.
  by rewrite !be_value_bytes_small in H.
Qed.

#[export] Hint Rewrite length_be_bytes length_le_bytes : gsc.
#[export] Hint Resolve length_be_bytes length_le_bytes be_value_bound : gsc.

Definition byte_z (b : byte) : Z := byte.unsigned b.
Definition z_byte (z : Z) : byte := byte.of_Z z.

Lemma byte_z_range b : 0 <= byte_z b < 256.
Proof. apply byte.unsigned_range. Qed.

Lemma byte_z_of z : byte_z (z_byte z) = z mod 256.
Proof. unfold byte_z, z_byte. rewrite byte.unsigned_of_Z. reflexivity. Qed.

Lemma z_byte_of b : z_byte (byte_z b) = b.
Proof. apply byte.of_Z_unsigned. Qed.

#[export] Hint Resolve byte_z_range : gsc.

(** ** Windows *)

(** A window of the last [n] elements. *)
Definition last_n {A} (n : nat) (l : list A) : list A := drop (length l - n) l.

Lemma last_n_snoc {A} n (l : list A) x :
  (0 < n)%nat ->
  last_n n (l ++ [x]) =
  (let w := last_n n l ++ [x] in if (n <? length w)%nat then tail w else w).
Proof.
  intros Hn. unfold last_n. cbn zeta. rewrite !length_app, length_drop. simpl length.
  destruct (Nat.ltb_spec n (length l - (length l - n) + 1)) as [H|H].
  - rewrite drop_app_le by lia.
    replace (length l + 1 - n)%nat with (S (length l - n)) by lia.
    destruct (drop (length l - n) l) as [|y ys] eqn:Hd.
    + apply (f_equal length) in Hd. rewrite length_drop in Hd. simpl in Hd. lia.
    + simpl. f_equal. rewrite <- Nat.add_1_r, <- drop_drop, Hd. done.
  - replace (length l + 1 - n)%nat with 0%nat by lia.
    by replace (length l - n)%nat with 0%nat by lia.
Qed.
