(* ===== verification/Text.v ===== *)
(** * Text: the string operations the program uses

    A Rust [String] is its sequence of UTF-8 bytes, a [string] here.  The
    operations of [str] that the sources call are defined on bytes: [split],
    [contains], [join], [trim] (Unicode white space, spelled as its UTF-8
    encodings), ASCII case folding, decimal parsing and printing. *)

From Stdlib Require Import Ascii String ZArith Lia.
From stdpp Require Import base gmap strings list.

From S2P Require Import Prelude.

(** ** Append and bytes *)

Lemma str_app_nil_l s : "" +:+ s = s.
Proof. reflexivity. Qed.

Lemma str_app_cons a s t : String a s +:+ t = String a (s +:+ t).
Proof. reflexivity. Qed.

Lemma str_app_assoc s t u : (s +:+ t) +:+ u = s +:+ (t +:+ u).
Proof. induction s as [|a s IH]; [done|]. by rewrite !str_app_cons, IH. Qed.

Lemma str_app_nil_r s : s +:+ "" = s.
Proof. induction s as [|a s IH]; [done|]. by rewrite str_app_cons, IH. Qed.

Lemma str_length_app s t : String.length (s +:+ t) = (String.length s + String.length t)%nat.
Proof. induction s as [|a s IH]; [done|]. rewrite str_app_cons; simpl. by rewrite IH. Qed.

Create Rewrite HintDb text.
#[export] Hint Rewrite str_app_nil_l str_app_cons str_app_assoc str_app_nil_r str_length_app : text.

Definition bytes_of (s : string) : list byte := String.list_byte_of_string s.
Definition of_bytes (bs : list byte) : string := String.string_of_list_byte bs.

Lemma of_bytes_of s : of_bytes (bytes_of s) = s.
Proof. apply String.string_of_list_byte_of_string. Qed.

Lemma bytes_of_bytes bs : bytes_of (of_bytes bs) = bs.
Proof. apply String.list_byte_of_string_of_list_byte. Qed.

Lemma length_bytes_of s : length (bytes_of s) = String.length s.
Proof. induction s as [|a s IH]; [done|]. simpl. by rewrite <- IH. Qed.

#[export] Hint Rewrite of_bytes_of bytes_of_bytes length_bytes_of : text.

(** ** Characters *)

Definition char_z (c : ascii) : Z := Z.of_N (N_of_ascii c).
Definition z_char (z : Z) : ascii := ascii_of_N (Z.to_N z).

(** [s.contains(c)] *)
Fixpoint has_char (c : ascii) (s : string) : bool :=
  match s with
  | "" => false
  | String a s => Ascii.eqb a c || has_char c s
  end.

(** [s.starts_with(p)], [s.strip_prefix(p)] and [s.contains(p)] *)
Fixpoint strip_prefix (p s : string) : option string :=
  match p, s with
  | "", _ => Some s
  | String a p, String b s => if Ascii.eqb a b then strip_prefix p s else None
  | _, "" => None
  end.

Definition starts_with (p s : string) : bool :=
  match strip_prefix p s with Some _ => true | None => false end.

Fixpoint contains (p s : string) : bool :=
  starts_with p s || match s with "" => false | String _ s => contains p s end.

Lemma strip_prefix_app p s : strip_prefix p (p +:+ s) = Some s.
Proof. induction p as [|a p IH]; [done|]. rewrite str_app_cons; simpl. by rewrite Ascii.eqb_refl. Qed.

Lemma strip_prefix_Some p s r : strip_prefix p s = Some r -> s = p +:+ r.
Proof.
  revert s. induction p as [|a p IH]; intros s; simpl; [by intros [= ->]|].
  destruct s as [|b s]; [done|]. destruct (Ascii.eqb_spec a b) as [->|]; [|done].
  intros H%IH. by rewrite H.
Qed.

Lemma contains_app p s t : contains p (s +:+ p +:+ t) = true.
Proof.
  induction s as [|a s IH].
  - rewrite str_app_nil_l. destruct p as [|b p]; [by destruct t|].
    simpl. unfold starts_with. by rewrite <- str_app_cons, strip_prefix_app.
  - rewrite str_app_cons. simpl. by rewrite IH, orb_true_r.
Qed.

Lemma has_char_app c s t : has_char c (s +:+ t) = has_char c s || has_char c t.
Proof. induction s as [|a s IH]; [done|]. rewrite str_app_cons; simpl. by rewrite IH, orb_assoc. Qed.

#[export] Hint Rewrite has_char_app : text.

(** ** [split] and [join] *)

(** [s.split(c).collect()]: one piece more than there are separators. *)
Fixpoint split_char (c : ascii) (s : string) : list string :=
  match s with
  | "" => [""]
  | String a s =>
      if Ascii.eqb a c then "" :: split_char c s
      else match split_char c s with
           | p :: ps => String a p :: ps
           | [] => [String a ""]
           end
  end.

(** [s.rsplit(c).collect()] *)
Definition rsplit_char (c : ascii) (s : string) : list string := rev (split_char c s).

Fixpoint join (sep : string) (l : list string) : string :=
  match l with
  | [] => ""
  | [p] => p
  | p :: l => p +:+ sep +:+ join sep l
  end.

Lemma split_char_cons c s : exists p ps, split_char c s = p :: ps.
Proof.
  induction s as [|a s (p & ps & IH)]; simpl; [by eauto|].
  destruct (Ascii.eqb a c); [by eauto|]. rewrite IH. by eauto.
Qed.

Lemma split_char_none c s : has_char c s = false -> split_char c s = [s].
Proof.
  induction s as [|a s IH]; simpl; [done|].
  intros [Ha Hs]%orb_false_elim. by rewrite Ha, IH.
Qed.

(** Splitting after appending a piece with no separator. *)
Lemma split_char_app c s t :
  has_char c t = false ->
  split_char c (s +:+ String c t) = split_char c s ++ [t].
Proof.
  intros Ht. induction s as [|a s IH].
  - rewrite str_app_nil_l. simpl. by rewrite Ascii.eqb_refl, split_char_none.
  - rewrite str_app_cons. simpl. destruct (Ascii.eqb a c); [by rewrite IH|].
    rewrite IH. by destruct (split_char_cons c s) as (p & ps & ->).
Qed.

Lemma join_split c s : join (String c "") (split_char c s) = s.
Proof.
  induction s as [|a s IH]; [done|]. simpl.
  destruct (split_char_cons c s) as (p & ps & Hs). rewrite Hs in *.
  destruct (Ascii.eqb_spec a c) as [->|].
  - simpl. simpl in IH. by rewrite IH.
  - destruct ps; simpl in *; by rewrite <- IH.
Qed.

Lemma split_char_length c s :
  (has_char c s = true <-> (2 <= length (split_char c s))%nat).
Proof.
  induction s as [|a s IH]; simpl; [split; [done|lia]|].
  destruct (split_char_cons c s) as (p & ps & Hs). rewrite Hs in *.
  destruct (Ascii.eqb a c); simpl in *; [split; [lia|done]|]. exact IH.
Qed.

(** ** White space: [trim], [trim_start] *)

(** The characters with Unicode property [White_Space], in UTF-8. *)
Definition unicode_ws : list string :=
  map of_bytes
    ([[Init.Byte.x09]; [Init.Byte.x0a]; [Init.Byte.x0b]; [Init.Byte.x0c]; [Init.Byte.x0d]; [Init.Byte.x20];
      [Init.Byte.xc2; Init.Byte.x85]; [Init.Byte.xc2; Init.Byte.xa0];
      [Init.Byte.xe1; Init.Byte.x9a; Init.Byte.x80]] ++
     map (fun b => [Init.Byte.xe2; Init.Byte.x80; b])
       [Init.Byte.x80; Init.Byte.x81; Init.Byte.x82; Init.Byte.x83; Init.Byte.x84; Init.Byte.x85;
        Init.Byte.x86; Init.Byte.x87; Init.Byte.x88; Init.Byte.x89; Init.Byte.x8a; Init.Byte.xa8;
        Init.Byte.xa9; Init.Byte.xaf] ++
     [[Init.Byte.xe2; Init.Byte.x81; Init.Byte.x9f]; [Init.Byte.xe3; Init.Byte.x80; Init.Byte.x80]]).

(** Remove one of the given strings from the front. *)
Fixpoint strip_one (ps : list string) (s : string) : option string :=
  match ps with
  | [] => None
  | p :: ps => match strip_prefix p s with Some r => Some r | None => strip_one ps s end
  end.

Fixpoint strip_many (ps : list string) (fuel : nat) (s : string) : string :=
  match fuel with
  | O => s
  | S fuel => match strip_one ps s with Some r => strip_many ps fuel r | None => s end
  end.

Definition trim_start (s : string) : string := strip_many unicode_ws (String.length s) s.
Definition trim_end (s : string) : string :=
  String.rev (strip_many (map String.rev unicode_ws) (String.length s) (String.rev s)).
Definition trim (s : string) : string := trim_end (trim_start s).

(** [char::is_whitespace] of the first character of [s]. *)
Definition ws_start (s : string) : bool :=
  match strip_one unicode_ws s with Some _ => true | None => false end.

(** ** ASCII case *)

Definition lower_char (c : ascii) : ascii :=
  let z := char_z c in if (65 <=? z) && (z <=? 90) then z_char (z + 32) else c.
Definition upper_char (c : ascii) : ascii :=
  let z := char_z c in if (97 <=? z) && (z <=? 122) then z_char (z - 32) else c.

Fixpoint map_str (f : ascii -> ascii) (s : string) : string :=
  match s with "" => "" | String a s => String (f a) (map_str f s) end.

Definition ascii_lower : string -> string := map_str lower_char.
Definition ascii_upper : string -> string := map_str upper_char.

(** [a.eq_ignore_ascii_case(b)] *)
Definition eq_ignore_ascii_case (a b : string) : bool :=
  String.eqb (ascii_lower a) (ascii_lower b).

(** ** Decimal numbers *)

Definition digit_val (c : ascii) : option Z :=
  let z := char_z c - 48 in if (0 <=? z) && (z <=? 9) then Some z else None.

Definition digit_char (d : Z) : ascii := z_char (d + 48).

Fixpoint parse_from (acc : Z) (s : string) : option Z :=
  match s with
  | "" => Some acc
  | String c s => match digit_val c with Some d => parse_from (acc * 10 + d) s | None => None end
  end.

(** [s.parse::<uN>()]: an optional [+], at least one digit, no overflow. *)
Definition parse_uint (max : Z) (s : string) : option Z :=
  let body := match s with
              | String c r => if Ascii.eqb c "+" then r else s
              | "" => ""
              end in
  match body with
  | "" => None
  | _ => match parse_from 0 body with
         | Some n => if n <=? max then Some n else None
         | None => None
         end
  end.

Definition parse_u16 : string -> option Z := parse_uint 65535.

(** [format!("{}", n)] for an unsigned integer. *)
Fixpoint show_fuel (fuel : nat) (n : Z) : string :=
  match fuel with
  | O => ""
  | S fuel => if n <? 10 then String (digit_char n) ""
              else show_fuel fuel (n / 10) +:+ String (digit_char (n mod 10)) ""
  end.

Definition show_dec (n : Z) : string := show_fuel (S (Z.to_nat (Z.log2 n))) n.

Lemma char_z_of z : 0 <= z < 256 -> char_z (z_char z) = z.
Proof.
  intros H. unfold char_z, z_char. rewrite N_ascii_embedding by lia. lia.
Qed.

Lemma z_char_of c : z_char (char_z c) = c.
Proof. unfold char_z, z_char. rewrite N2Z.id. apply ascii_N_embedding. Qed.

Lemma char_z_range c : 0 <= char_z c < 256.
Proof. unfold char_z. pose proof (N_ascii_bounded c). lia. Qed.

Lemma digit_val_char d : 0 <= d < 10 -> digit_val (digit_char d) = Some d.
Proof.
  intros H. unfold digit_val, digit_char. rewrite char_z_of by lia.
  replace (d + 48 - 48) with d by lia.
  destruct (Z.leb_spec 0 d), (Z.leb_spec d 9); simpl; done || lia.
Qed.

Lemma digit_val_range c d : digit_val c = Some d -> 0 <= d < 10.
Proof.
  unfold digit_val. intros H. case_if; [|done]. simplify_eq. boolp. lia.
Qed.

Lemma parse_from_app acc s t :
  parse_from acc (s +:+ t) = match parse_from acc s with Some a => parse_from a t | None => None end.
Proof.
  revert acc. induction s as [|c s IH]; intros acc; [done|].
  rewrite str_app_cons. simpl. by destruct (digit_val c).
Qed.

Lemma parse_from_nonneg acc s n : 0 <= acc -> parse_from acc s = Some n -> acc <= n.
Proof.
  revert acc. induction s as [|c s IH]; intros acc Hacc; simpl; [intros [= ->]; lia|].
  destruct (digit_val c) as [d|] eqn:Hd; [|done].
  apply digit_val_range in Hd. intros H%IH; lia.
Qed.

Lemma show_fuel_spec fuel n :
  0 <= n < 2 ^ Z.of_nat fuel -> (0 < fuel)%nat ->
  parse_from 0 (show_fuel fuel n) = Some n /\
  exists c s, show_fuel fuel n = String c s /\ digit_val c <> None.
Proof.
  revert n. induction fuel as [|fuel IH]; intros n Hn Hf; [lia|]. simpl.
  destruct (Z.ltb_spec n 10).
  - split; [simpl; rewrite digit_val_char by lia; f_equal; lia|].
    eexists _, _. split; [done|]. by rewrite digit_val_char by lia.
  - destruct (Nat.eq_dec fuel 0%nat) as [->|Hf']; [simpl in Hn; lia|].
    destruct (IH (n / 10)) as (IH1 & c & s & IH2 & IH3); [|lia|].
    { rewrite Nat2Z.inj_succ, Z.pow_succ_r in Hn by lia.
      split; [apply Z.div_pos; lia|]. apply Z.div_lt_upper_bound; lia. }
    split.
    + rewrite parse_from_app, IH1. simpl. pose proof (Z.mod_pos_bound n 10 ltac:(lia)).
      rewrite digit_val_char by lia. f_equal. pose proof (Z.div_mod n 10 ltac:(lia)). lia.
    + rewrite IH2, str_app_cons. by eauto.
Qed.

Lemma show_dec_fuel n : 0 <= n -> 0 <= n < 2 ^ Z.of_nat (S (Z.to_nat (Z.log2 n))).
Proof.
  intros Hn. split; [done|]. rewrite Nat2Z.inj_succ, Z2Nat.id by apply Z.log2_nonneg.
  destruct (Z.eq_dec n 0) as [->|]; [done|]. apply Z.log2_spec; lia.
Qed.

Lemma parse_show_dec n : 0 <= n -> parse_from 0 (show_dec n) = Some n.
Proof. intros Hn. apply show_fuel_spec; [by apply show_dec_fuel | lia]. Qed.

Lemma show_dec_cons n : 0 <= n -> exists c s, show_dec n = String c s /\ digit_val c <> None.
Proof. intros Hn. apply show_fuel_spec; [by apply show_dec_fuel | lia]. Qed.

Lemma parse_uint_show max n : 0 <= n <= max -> parse_uint max (show_dec n) = Some n.
Proof.
  intros Hn. unfold parse_uint. pose proof (parse_show_dec n ltac:(lia)) as Hp.
  destruct (show_dec_cons n ltac:(lia)) as (c & s & Hs & Hc). rewrite Hs in *.
  destruct (Ascii.eqb_spec c "+") as [->|]; [by exfalso; apply Hc|].
  rewrite Hp. destruct (Z.leb_spec n max); [done|lia].
Qed.

Lemma parse_uint_range max s n : parse_uint max s = Some n -> 0 <= n <= max.
Proof.
  unfold parse_uint. intros H. repeat case_match; simplify_eq; boolp;
  match goal with Hp : parse_from _ _ = _ |- _ => apply parse_from_nonneg in Hp; lia end.
Qed.

Lemma parse_u16_range s n : parse_u16 s = Some n -> in_u 16 n.
Proof. intros H%parse_uint_range. unfold in_u. lia. Qed.

Lemma show_dec_inj a b : 0 <= a -> 0 <= b -> show_dec a = show_dec b -> a = b.
Proof.
  intros Ha Hb H. apply (f_equal (parse_from 0)) in H. rewrite !parse_show_dec in H by done.
  congruence.
Qed.

(** A decimal numeral has digits only. *)
Lemma show_fuel_no_char c fuel n :
  0 <= n -> (forall d, 0 <= d < 10 -> digit_char d <> c) -> has_char c (show_fuel fuel n) = false.
Proof.
  intros Hn Hc. revert n Hn. induction fuel as [|fuel IH]; intros n Hn; [done|]. simpl.
  destruct (Z.ltb_spec n 10).
  - simpl. destruct (Ascii.eqb_spec (digit_char n) c); [|done]. exfalso. by apply (Hc n); [lia|].
  - rewrite has_char_app, IH by (apply Z.div_pos; lia). simpl.
    destruct (Ascii.eqb_spec (digit_char (n mod 10)) c); [|done]. exfalso.
    apply (Hc (n mod 10)); [apply Z.mod_pos_bound; lia | done].
Qed.

Lemma digit_char_range d : 0 <= d < 10 -> 48 <= char_z (digit_char d) <= 57.
Proof. intros H. unfold digit_char. rewrite char_z_of; lia. Qed.

Lemma show_dec_no_char c n :
  0 <= n -> ~ (48 <= char_z c <= 57) -> has_char c (show_dec n) = false.
Proof.
  intros Hn Hc. apply show_fuel_no_char; [done|]. intros d Hd <-.
  by apply Hc, digit_char_range.
Qed.

(** ** [trim] is idempotent *)

Definition any_prefix (ps : list string) (s : string) : Prop := strip_one ps s <> None.

Lemma strip_one_None ps s : strip_one ps s = None <-> Forall (fun p => strip_prefix p s = None) ps.
Proof.
  induction ps as [|p ps IH]; simpl; [done|]. rewrite Forall_cons, <- IH.
  destruct (strip_prefix p s); split; try done; by intros [].
Qed.

Lemma strip_one_shorter ps s r :
  Forall (fun p => p <> "") ps -> strip_one ps s = Some r -> (String.length r < String.length s)%nat.
Proof.
  induction 1 as [|p ps Hp _ IH]; simpl; [done|].
  destruct (strip_prefix p s) as [r'|] eqn:Hs; [|done]. intros [= ->].
  apply strip_prefix_Some in Hs as ->. rewrite str_length_app. destruct p; simpl; [done|lia].
Qed.

Lemma strip_many_done ps fuel s :
  Forall (fun p => p <> "") ps -> (String.length s <= fuel)%nat ->
  strip_one ps (strip_many ps fuel s) = None.
Proof.
  intros Hps. revert s. induction fuel as [|fuel IH]; intros s Hl; simpl.
  - destruct s; [|simpl in Hl; lia]. destruct (strip_one ps "") eqn:Hs; [|done].
    apply strip_one_shorter in Hs; [simpl in Hs; lia|done].
  - destruct (strip_one ps s) eqn:Hs; [|done]. apply IH.
    apply strip_one_shorter in Hs; [lia|done].
Qed.

Lemma strip_many_id ps fuel s : strip_one ps s = None -> strip_many ps fuel s = s.
Proof. intros H. destruct fuel; simpl; [done|]. by rewrite H. Qed.

Lemma strip_prefix_app_None p s t : strip_prefix p (s +:+ t) = None -> strip_prefix p s = None.
Proof.
  revert s. induction p as [|a p IH]; intros s; simpl; [done|].
  destruct s as [|b s]; [done|]. rewrite str_app_cons. destruct (Ascii.eqb a b); [apply IH|done].
Qed.

Lemma strip_one_app_None ps s t : strip_one ps (s +:+ t) = None -> strip_one ps s = None.
Proof.
  rewrite !strip_one_None. intros H. eapply Forall_impl; [exact H|].
  intros p. apply strip_prefix_app_None.
Qed.

Lemma strip_many_suffix ps fuel s : exists p, s = p +:+ strip_many ps fuel s.
Proof.
  revert s. induction fuel as [|fuel IH]; intros s; simpl; [by exists ""|].
  destruct (strip_one ps s) as [r|] eqn:Hs; [|by exists ""].
  destruct (IH r) as (p0 & Hp).
  assert (exists q, s = q +:+ r) as (q & ->).
  { clear Hp IH p0. induction ps as [|p ps IH]; simpl in Hs; [done|].
    destruct (strip_prefix p s) eqn:H; [|by apply IH]. simplify_eq.
    exists p. by apply strip_prefix_Some. }
  exists (q +:+ p0). rewrite str_app_assoc. congruence.
Qed.

Lemma rev_app_spec s t : String.rev_app s t = String.rev s +:+ t.
Proof.
  unfold String.rev. revert t. assert (forall s t u, String.rev_app s (t +:+ u) = String.rev_app s t +:+ u) as H.
  { clear. intros s. induction s as [|a s IH]; intros t u; simpl; [done|]. by rewrite <- IH. }
  intros t. by rewrite <- H.
Qed.

Lemma str_rev_cons a s : String.rev (String a s) = String.rev s +:+ String a "".
Proof. unfold String.rev at 1. simpl. by rewrite rev_app_spec. Qed.

Lemma str_rev_app s t : String.rev (s +:+ t) = String.rev t +:+ String.rev s.
Proof.
  induction s as [|a s IH]; [by rewrite str_app_nil_l, str_app_nil_r|].
  by rewrite str_app_cons, !str_rev_cons, IH, str_app_assoc.
Qed.

Lemma str_rev_involutive s : String.rev (String.rev s) = s.
Proof. induction s as [|a s IH]; [done|]. by rewrite str_rev_cons, str_rev_app, IH. Qed.

Lemma str_rev_length s : String.length (String.rev s) = String.length s.
Proof.
  induction s as [|a s IH]; [done|]. rewrite str_rev_cons, str_length_app, IH. simpl. lia.
Qed.

Lemma unicode_ws_nonempty : Forall (fun p => p <> "") unicode_ws.
Proof. apply Forall_fold_right. vm_compute. repeat split; done. Qed.

Lemma unicode_ws_rev_nonempty : Forall (fun p => p <> "") (map String.rev unicode_ws).
Proof. apply Forall_fold_right. vm_compute. repeat split; done. Qed.

Lemma trim_no_leading_ws s : strip_one unicode_ws (trim s) = None.
Proof.
  unfold trim, trim_end. set (t := trim_start s).
  assert (strip_one unicode_ws t = None) as Ht
    by (apply strip_many_done; [apply unicode_ws_nonempty | done]).
  destruct (strip_many_suffix (map String.rev unicode_ws) (String.length t) (String.rev t)) as (p & Hp).
  apply (f_equal String.rev) in Hp. rewrite str_rev_involutive, str_rev_app in Hp.
  rewrite Hp in Ht at 1. by apply strip_one_app_None in Ht.
Qed.

Lemma trim_idem s : trim (trim s) = trim s.
Proof.
  unfold trim at 1. unfold trim_start.
  rewrite strip_many_id by apply trim_no_leading_ws.
  unfold trim, trim_end. rewrite str_rev_involutive. f_equal.
  rewrite strip_many_id; [done|]. apply strip_many_done; [apply unicode_ws_rev_nonempty|].
  by rewrite str_rev_length.
Qed.

(** ** [std::path::Path] on Unix *)

Module Path.

(** [components()] of a path, the root left out: empty parts and every [.] but a
    leading one of a relative path are dropped. *)
Definition components (p : string) : list string :=
  match split_char "/" p with
  | [] => []
  | first :: rest =>
      let kept := filter (fun c => c <> "" /\ c <> ".") rest in
      if String.eqb first "" then kept else first :: kept
  end.

Definition is_absolute (p : string) : bool := starts_with "/" p.

(** The path with these components, up to the equality of paths. *)
Definition of_components (absolute : bool) (cs : list string) : string :=
  (if absolute then "/" else "") +:+ join "/" cs.

(** [None] for the root and the empty path. *)
Definition parent (p : string) : option string :=
  match components p with
  | [] => None
  | cs => Some (of_components (is_absolute p) (removelast cs))
  end.

Definition file_name (p : string) : option string :=
  match last (components p) with
  | Some "." | Some ".." | None => None
  | Some f => Some f
  end.

(** The name up to its last dot, unless that is its first character. *)
Definition file_stem (p : string) : option string :=
  f ← file_name p;
  match rsplit_char "." f with
  | _ :: (_ :: _) as before =>
      let stem := join "." (rev (tail (rsplit_char "." f))) in
      Some (if String.eqb stem "" then f else stem)
  | _ => Some f
  end.

Definition path_join (p q : string) : string :=
  if is_absolute q then q else if String.eqb p "" || String.eqb (default "" (head (rsplit_char "/" p))) "" then p +:+ q else p +:+ "/" +:+ q.

Example path_examples :
  map file_stem ["/etc/ssl/server.pem"; "a.tar.gz"; ".bashrc"; "/etc/.."; "/"; "cert"] =
    [Some "server"; Some "a.tar"; Some ".bashrc"; None; None; Some "cert"] /\
  map parent ["/usr/bin/gsc-fq"; "/x"; "x"; "/"; ""; "a//b/"] =
    [Some "/usr/bin"; Some "/"; Some ""; None; None; Some "a"].
Proof. by vm_compute. Qed.

End Path.
