(* ===== verification/NetAddr.v ===== *)
(** * NetAddr: [std::net] addresses

    The parsers and printers of [IpAddr] and [SocketAddr] that the
    configuration, the access list and the session table rely on, written
    after the standard library's recursive-descent parser: a reader takes the
    remaining text and returns a value with what is left of it. *)

From Stdlib Require Import Ascii String ZArith Lia.
From stdpp Require Import base gmap strings list.
From S2P Require Import Prelude Text.

(** [Ipv4Addr] is its four octets, [Ipv6Addr] its eight 16-bit groups. *)
Inductive IpAddr : Type :=
| V4 (a b c d : Z)
| V6 (groups : list Z).

Record SocketAddr := mkSocketAddr { sa_ip : IpAddr; sa_port : Z }.

#[export] Instance IpAddr_eq_dec : EqDecision IpAddr.
Proof. solve_decision. Defined.
#[export] Instance SocketAddr_eq_dec : EqDecision SocketAddr.
Proof. solve_decision. Defined.

#[export] Instance IpAddr_countable : Countable IpAddr.
Proof.
  refine (inj_countable'
    (fun ip => match ip with V4 a b c d => inl (a, b, c, d) | V6 g => inr g end)
    (fun x => match x with inl (a, b, c, d) => V4 a b c d | inr g => V6 g end) _).
  by intros [].
Defined.

#[export] Instance SocketAddr_countable : Countable SocketAddr.
Proof.
  refine (inj_countable' (fun s => (sa_ip s, sa_port s)) (fun x => mkSocketAddr x.1 x.2) _).
  by intros [].
Defined.

Definition wf_ip (ip : IpAddr) : Prop :=
  match ip with
  | V4 a b c d => Forall (in_u 8) [a; b; c; d]
  | V6 g => length g = 8%nat /\ Forall (in_u 16) g
  end.

Definition is_v4 (ip : IpAddr) : bool := match ip with V4 _ _ _ _ => true | V6 _ => false end.

Definition LOCALHOST : IpAddr := V4 127 0 0 1.
Definition UNSPECIFIED : IpAddr := V4 0 0 0 0.

(** ** The parser *)

Definition reader (A : Type) : Type := string -> option (A * string).

Definition read_given_char (c : ascii) : reader unit := fun s =>
  match s with String a s => if Ascii.eqb a c then Some (tt, s) else None | "" => None end.

(** [char::to_digit(radix)] *)
Definition to_digit (radix : Z) (c : ascii) : option Z :=
  let z := char_z (lower_char c) in
  let d := if (48 <=? z) && (z <=? 57) then z - 48
           else if (97 <=? z) && (z <=? 122) then z - 87 else radix in
  if d <? radix then Some d else None.

Fixpoint read_digits (radix : Z) (s : string) : list Z * string :=
  match s with
  | "" => ([], "")
  | String c r => match to_digit radix c with
                  | Some d => let '(ds, r) := read_digits radix r in (d :: ds, r)
                  | None => ([], s)
                  end
  end.

(** [read_number]: at most [max_digits] digits, no superfluous leading zero
    unless allowed, and a value that fits. *)
Definition read_number (radix : Z) (max_digits : option nat) (zero_prefix : bool) (max : Z) : reader Z :=
  fun s =>
    let '(ds, r) := read_digits radix s in
    let n := fold_left (fun acc d => acc * radix + d) ds 0 in
    if match max_digits with Some m => (m <? length ds)%nat | None => false end then None
    else if (length ds =? 0)%nat then None
    else if negb zero_prefix && (1 <? length ds)%nat && (hd 1 ds =? 0) then None
    else if n <=? max then Some (n, r) else None.

(** [read_separator]: every element but the first is preceded by [sep]. *)
Definition read_separator {A} (sep : ascii) (index : nat) (inner : reader A) : reader A := fun s =>
  if (index =? 0)%nat then inner s
  else match read_given_char sep s with Some (_, s) => inner s | None => None end.

Definition read_octet (i : nat) : reader Z :=
  read_separator "." i (read_number 10 (Some 3%nat) false 255).

Definition read_ipv4_addr : reader (Z * Z * Z * Z) := fun s =>
  match read_octet 0 s with
  | Some (a, s) => match read_octet 1 s with
    | Some (b, s) => match read_octet 2 s with
      | Some (c, s) => match read_octet 3 s with
        | Some (d, s) => Some ((a, b, c, d), s)
        | None => None end
      | None => None end
    | None => None end
  | None => None end.

(** [read_groups]: up to [left] further colon-separated groups, with an
    optional embedded IPv4 address when two groups are left; returns the
    groups and whether an IPv4 address ended them. *)
Fixpoint read_groups (i left : nat) (s : string) : list Z * bool * string :=
  match left with
  | O => ([], false, s)
  | S left' =>
      match (if (0 <? left')%nat then read_separator ":" i read_ipv4_addr s else None) with
      | Some ((a, b, c, d), r) => ([a * 256 + b; c * 256 + d], true, r)
      | None =>
          match read_separator ":" i (read_number 16 (Some 4%nat) true 65535) s with
          | Some (g, r) => let '(gs, v4, r) := read_groups (S i) left' r in (g :: gs, v4, r)
          | None => ([], false, s)
          end
      end
  end.

Definition read_ipv6_addr : reader (list Z) := fun s =>
  let '(head, head_v4, r) := read_groups 0 8 s in
  if (length head =? 8)%nat then Some (head, r)
  else if head_v4 then None
  else match read_given_char ":" r with
       | Some (_, r) => match read_given_char ":" r with
         | Some (_, r) =>
             let '(tail, _, r) := read_groups 0 (8 - (length head + 1)) r in
             Some (head ++ repeat 0 (8 - length head - length tail) ++ tail, r)
         | None => None end
       | None => None end.

Definition read_ip_addr : reader IpAddr := fun s =>
  match read_ipv4_addr s with
  | Some ((a, b, c, d), r) => Some (V4 a b c d, r)
  | None => match read_ipv6_addr s with Some (g, r) => Some (V6 g, r) | None => None end
  end.

Definition read_port : reader Z := fun s =>
  match read_given_char ":" s with Some (_, s) => read_number 10 None true 65535 s | None => None end.

Definition read_socket_addr : reader SocketAddr := fun s =>
  match (match read_ipv4_addr s with
         | Some ((a, b, c, d), r) =>
             match read_port r with Some (p, r) => Some (mkSocketAddr (V4 a b c d) p, r) | None => None end
         | None => None end) with
  | Some x => Some x
  | None =>
      match read_given_char "[" s with
      | Some (_, r) => match read_ipv6_addr r with
        | Some (g, r) =>
            let r := match read_given_char "%" r with
                     | Some (_, r') => match read_number 10 None true (2 ^ 32 - 1) r' with
                                       | Some (_, r'') => r'' | None => r end
                     | None => r end in
            match read_given_char "]" r with
            | Some (_, r) => match read_port r with
                             | Some (p, r) => Some (mkSocketAddr (V6 g) p, r) | None => None end
            | None => None end
        | None => None end
      | None => None end
  end.

Definition parse_with {A} (p : reader A) (s : string) : option A :=
  match p s with Some (a, "") => Some a | _ => None end.

(** [s.parse::<IpAddr>()] and [s.parse::<SocketAddr>()] *)
Definition parse_ip : string -> option IpAddr := parse_with read_ip_addr.
Definition parse_socket_addr : string -> option SocketAddr := parse_with read_socket_addr.

(** ** The printer *)

Definition show_hex_digit (d : Z) : ascii := if d <? 10 then z_char (d + 48) else z_char (d + 87).

Definition show_group (g : Z) : string :=
  let d i := g / 16 ^ i mod 16 in
  let all := [d 3; d 2; d 1; d 0] in
  let body := if d 3 =? 0 then if d 2 =? 0 then if d 1 =? 0 then [d 0] else [d 1; d 0]
              else [d 2; d 1; d 0] else all in
  fold_right (fun d s => String (show_hex_digit d) s) "" body.

Definition show_groups (gs : list Z) : string := join ":" (map show_group gs).

Definition show_v4 (a b c d : Z) : string :=
  show_dec a +:+ "." +:+ show_dec b +:+ "." +:+ show_dec c +:+ "." +:+ show_dec d.

(** The first longest run of zero groups: (start, length). *)
Fixpoint zero_run (i : nat) (cur best : nat * nat) (gs : list Z) : nat * nat :=
  match gs with
  | [] => best
  | g :: gs =>
      let cur := if g =? 0 then (if (cur.2 =? 0)%nat then i else cur.1, S cur.2) else (0%nat, 0%nat) in
      zero_run (S i) cur (if (best.2 <? cur.2)%nat then cur else best) gs
  end.

Definition show_v6 (gs : list Z) : string :=
  match gs with
  | [0; 0; 0; 0; 0; 65535; x; y] =>
      "::ffff:" +:+ show_v4 (x / 256) (x mod 256) (y / 256) (y mod 256)
  | _ =>
      let '(start, len) := zero_run 0 (0%nat, 0%nat) (0%nat, 0%nat) gs in
      if (1 <? len)%nat
      then show_groups (take start gs) +:+ "::" +:+ show_groups (drop (start + len) gs)
      else show_groups gs
  end.

Definition show_ip (ip : IpAddr) : string :=
  match ip with V4 a b c d => show_v4 a b c d | V6 gs => show_v6 gs end.

Definition show_socket_addr (s : SocketAddr) : string :=
  match sa_ip s with
  | V4 a b c d => show_v4 a b c d +:+ ":" +:+ show_dec (sa_port s)
  | V6 gs => "[" +:+ show_v6 gs +:+ "]:" +:+ show_dec (sa_port s)
  end.

Example parse_ip_v4 : parse_ip "192.168.1.1" = Some (V4 192 168 1 1).
Proof. reflexivity. Qed.
Example parse_ip_bad : map parse_ip ["1.2.3"; "1.2.3.256"; "01.2.3.4"; "1.2.3.4 "; "example.com"; ""]
                       = repeat None 6.
Proof. vm_compute. reflexivity. Qed.
Example parse_ip_v6 : map parse_ip ["::1"; "::"; "2001:db8::8:1"; "::ffff:1.2.3.4"; "1:2:3:4:5:6:7:8"; "1::2::3"; "1:2"]
  = [Some (V6 [0;0;0;0;0;0;0;1]); Some (V6 [0;0;0;0;0;0;0;0]); Some (V6 [8193;3512;0;0;0;0;8;1]);
     Some (V6 [0;0;0;0;0;65535;258;772]); Some (V6 [1;2;3;4;5;6;7;8]); None; None].
Proof. vm_compute. reflexivity. Qed.
Example show_ip_v6 : map show_ip [V6 [0;0;0;0;0;0;0;1]; V6 [8193;3512;0;0;0;0;8;1]; V6 [1;0;2;0;0;3;0;0]; V6 [0;0;0;0;0;65535;258;772]]
  = ["::1"; "2001:db8::8:1"; "1:0:2::3:0:0"; "::ffff:1.2.3.4"].
Proof. vm_compute. reflexivity. Qed.
Example parse_socket_v4v6 : map parse_socket_addr ["1.2.3.4:80"; "[::1]:9001"; "1.2.3.4"; "host:80"; "1.2.3.4:65536"]
  = [Some (mkSocketAddr (V4 1 2 3 4) 80); Some (mkSocketAddr (V6 [0;0;0;0;0;0;0;1]) 9001); None; None; None].
Proof. vm_compute. reflexivity. Qed.

(** ** Printing and parsing IPv4 addresses *)

Definition no_digit_start (radix : Z) (s : string) : Prop :=
  match s with "" => True | String c _ => to_digit radix c = None end.

Lemma read_digits_app radix s t ds :
  read_digits radix s = (ds, "") -> no_digit_start radix t ->
  read_digits radix (s +:+ t) = (ds, t).
Proof.
  revert ds. induction s as [|c s IH]; intros ds; simpl.
  - intros [= <-] Ht. rewrite str_app_nil_l. destruct t as [|c t]; simpl; [done|].
    by rewrite Ht.
  - destruct (to_digit radix c); [|done].
    destruct (read_digits radix s) as [ds' r]. intros [= <- ->] Ht.
    fold (s +:+ t). by rewrite (IH ds').
Qed.

Lemma read_number_app radix m z max s t n :
  read_number radix m z max s = Some (n, "") -> no_digit_start radix t ->
  read_number radix m z max (s +:+ t) = Some (n, t).
Proof.
  unfold read_number. destruct (read_digits radix s) as [ds r] eqn:Hs.
  intros H Ht. assert (r = "") as -> by (repeat case_if; simplify_eq; done).
  rewrite (read_digits_app _ _ _ _ Hs Ht). repeat case_if; by simplify_eq.
Qed.

Lemma read_number_show_octet n :
  in_u 8 n -> read_number 10 (Some 3%nat) false 255 (show_dec n) = Some (n, "").
Proof.
  intros Hn.
  assert (forallb (fun n => bool_decide (read_number 10 (Some 3%nat) false 255 (show_dec n) = Some (n, "")))
            (map Z.of_nat (seq 0 256)) = true) as H by (vm_compute; reflexivity).
  rewrite forallb_forall in H. specialize (H n). rewrite bool_decide_eq_true in H. apply H.
  apply in_map_iff. exists (Z.to_nat n). unfold in_u in Hn. split; [lia|]. apply in_seq. lia.
Qed.

Lemma read_octet_show i n t :
  in_u 8 n -> no_digit_start 10 t ->
  read_octet i ((if (i =? 0)%nat then "" else ".") +:+ show_dec n +:+ t) = Some (n, t).
Proof.
  intros Hn Ht. unfold read_octet, read_separator.
  pose proof (read_number_app _ _ _ _ _ _ _ (read_number_show_octet n Hn) Ht) as H.
  destruct (i =? 0)%nat; [done|]. simpl. by rewrite str_app_nil_l.
Qed.

Lemma read_ipv4_show a b c d t :
  Forall (in_u 8) [a; b; c; d] -> no_digit_start 10 t ->
  read_ipv4_addr (show_v4 a b c d +:+ t) = Some ((a, b, c, d), t).
Proof.
  rewrite !Forall_cons. intros (Ha & Hb & Hc & Hd & _) Ht. unfold read_ipv4_addr, show_v4.
  rewrite !str_app_assoc.
  pose proof (fun t => read_octet_show 0 a t Ha) as H0.
  pose proof (fun t => read_octet_show 1 b t Hb) as H1.
  pose proof (fun t => read_octet_show 2 c t Hc) as H2.
  pose proof (fun t => read_octet_show 3 d t Hd) as H3.
  simpl in H0, H1, H2, H3. setoid_rewrite str_app_nil_l in H0.
  rewrite H0 by done. rewrite H1 by done. rewrite H2 by done. by rewrite H3.
Qed.

Lemma parse_show_v4 a b c d :
  wf_ip (V4 a b c d) -> parse_ip (show_ip (V4 a b c d)) = Some (V4 a b c d).
Proof.
  intros H. unfold parse_ip, parse_with, read_ip_addr. simpl show_ip.
  pose proof (read_ipv4_show a b c d "" H I) as Hr. rewrite str_app_nil_r in Hr. by rewrite Hr.
Qed.

(** The value a reader of numbers returns is within the requested bound. *)
Lemma to_digit_range radix c d : 0 < radix -> to_digit radix c = Some d -> 0 <= d < radix.
Proof. unfold to_digit. intros Hr H. repeat case_if; simplify_eq; boolp; lia. Qed.

Lemma read_digits_range radix s :
  0 < radix -> Forall (fun d => 0 <= d < radix) (read_digits radix s).1.
Proof.
  intros Hr. induction s as [|c s IH]; simpl; [done|].
  destruct (to_digit radix c) eqn:Hd; [|done].
  destruct (read_digits radix s) as [ds r]. constructor; [by eapply to_digit_range|done].
Qed.

Lemma read_number_range radix m z max s n r :
  0 < radix -> read_number radix m z max s = Some (n, r) -> 0 <= n <= max.
Proof.
  intros Hr. unfold read_number. pose proof (read_digits_range radix s Hr) as Hd.
  destruct (read_digits radix s) as [ds t]; simpl in Hd.
  assert (forall acc, 0 <= acc -> 0 <= fold_left (fun acc d => acc * radix + d) ds acc) as Hf.
  { clear - Hd Hr. induction Hd as [|d ds Hd _ IH]; intros acc Hacc; simpl; [done|]. apply IH. nia. }
  intros H. repeat case_if; simplify_eq; boolp. specialize (Hf 0 ltac:(lia)). lia.
Qed.
