(* ===== verification/Errors.v ===== *)
(** * Errors: the error types (src/src/error/types.rs)

    The error types of the program with their rendered messages, severity and
    recoverability, and the [ErrorExt] combinators.  [io::Error] is its kind
    with the operating system's text; [toml::de::Error] is its message. *)

From Stdlib Require Import Ascii String ZArith Lia.
From stdpp Require Import base gmap strings list.
From S2P Require Import Prelude Text.

(** [std::io::ErrorKind], the kinds the program distinguishes. *)
Inductive ErrorKind : Type :=
| NotFound | ConnectionRefused | ConnectionReset | ConnectionAborted | BrokenPipe
| WouldBlock | Interrupted | UnexpectedEof | TimedOut | WriteZero | OtherKind.

#[export] Instance ErrorKind_eq_dec : EqDecision ErrorKind.
Proof. solve_decision. Defined.

Record IoError := mkIoError { io_kind : ErrorKind; io_text : string }.

#[export] Instance IoError_eq_dec : EqDecision IoError.
Proof. solve_decision. Defined.

Inductive ConfigError : Type :=
| InvalidIpAddress (s : string)
| PortInUse (port : Z)
| PortBindError (port : Z) (s : string)
| InsufficientPrivileges (port : Z)
| InvalidPort (port : Z)
| InvalidTomlFormat (s : string)
| InvalidConfigValue (path reason : string)
| MissingRequiredField (s : string)
| ConfigFileNotFound (s : string)
| ReadFailed (s : string)
| InvalidConfig (s : string).

Inductive NetworkError : Type :=
| ConnectionFailed (s : string)
| ListenFailed (s : string)
| SocketCreationFailed (s : string)
| AddressResolutionFailed (s : string)
| ConnectionTimeout
| ConnectionClosed
| ConnectionResetError
| NetworkUnreachable
| InvalidBufferSize (n : Z)
| InvalidSocketOption (s : string).

Inductive ProxyError : Type :=
| StartupFailed (s : string)
| StopFailed (s : string)
| ForwardingFailed (s : string)
| ConnectionPoolError (s : string)
| BufferPoolError (s : string)
| InvalidProxyConfig (s : string)
| InstanceNotFound (s : string)
| ForwardingStrategyError (s : string).

Inductive PerformanceError : Type :=
| TcpOptimizationFailed (s : string)
| BufferPoolInitFailed (s : string)
| ConnectionPoolInitFailed (s : string)
| InsufficientResources (s : string)
| InvalidPerformanceParameter (s : string)
| ZeroCopyFailed (s : string).

Inductive SystemError : Type :=
| SignalHandlingFailed (s : string)
| InsufficientFileDescriptors
| SystemCallFailed (s : string)
| PermissionDenied (s : string)
| ResourceExhausted (s : string).

Inductive ReverseProxyError : Type :=
| ProtocolError (s : string)
| HandshakeFailed (s : string)
| ClientDisconnected
| InvalidMessage (s : string)
| SerializationFailed (s : string)
| DeserializationFailed (s : string)
| ControlChannelError (s : string)
| PortAllocationFailed (s : string)
| MultiplexingError (s : string)
| RpConnectionFailed (s : string)
| UnsupportedVersion (v : Z)
| CryptoError (s : string).

Inductive AppError : Type :=
| Config (e : ConfigError)
| Network (e : NetworkError)
| Proxy (e : ProxyError)
| Performance (e : PerformanceError)
| System (e : SystemError)
| ReverseProxy (e : ReverseProxyError)
| Io (e : IoError)
| Serialization (s : string)
| Internal (message : string).

#[export] Instance ConfigError_eq_dec : EqDecision ConfigError.
Proof. solve_decision. Defined.
#[export] Instance NetworkError_eq_dec : EqDecision NetworkError.
Proof. solve_decision. Defined.
#[export] Instance ProxyError_eq_dec : EqDecision ProxyError.
Proof. solve_decision. Defined.
#[export] Instance PerformanceError_eq_dec : EqDecision PerformanceError.
Proof. solve_decision. Defined.
#[export] Instance SystemError_eq_dec : EqDecision SystemError.
Proof. solve_decision. Defined.
#[export] Instance ReverseProxyError_eq_dec : EqDecision ReverseProxyError.
Proof. solve_decision. Defined.
#[export] Instance AppError_eq_dec : EqDecision AppError.
Proof. solve_decision. Defined.

(** ** Rendered messages (the [#[error("...")]] attributes) *)

Definition show_ConfigError (e : ConfigError) : string :=
  match e with
  | InvalidIpAddress s => "Invalid IP address: " +:+ s
  | PortInUse p => "Port " +:+ show_dec p +:+ " is already in use"
  | PortBindError p s => "Cannot bind to port " +:+ show_dec p +:+ ": " +:+ s
  | InsufficientPrivileges p => "Insufficient privileges to bind to port " +:+ show_dec p
  | InvalidPort p => "Invalid port: " +:+ show_dec p
  | InvalidTomlFormat s => "Invalid TOML format: " +:+ s
  | InvalidConfigValue path reason => "Invalid configuration value at " +:+ path +:+ ": " +:+ reason
  | MissingRequiredField s => "Missing required configuration field: " +:+ s
  | ConfigFileNotFound s => "Configuration file not found: " +:+ s
  | ReadFailed s => "Configuration file read failed: " +:+ s
  | InvalidConfig s => "Invalid configuration: " +:+ s
  end.

Definition show_NetworkError (e : NetworkError) : string :=
  match e with
  | ConnectionFailed s => "Connection failed: " +:+ s
  | ListenFailed s => "Listen failed: " +:+ s
  | SocketCreationFailed s => "Socket creation failed: " +:+ s
  | AddressResolutionFailed s => "Address resolution failed: " +:+ s
  | ConnectionTimeout => "Connection timeout"
  | ConnectionClosed => "Connection closed by remote"
  | ConnectionResetError => "Connection reset"
  | NetworkUnreachable => "Network unreachable"
  | InvalidBufferSize n => "Invalid buffer size: " +:+ show_dec n
  | InvalidSocketOption s => "Invalid socket option: " +:+ s
  end.

Definition show_ProxyError (e : ProxyError) : string :=
  match e with
  | StartupFailed s => "Proxy startup failed: " +:+ s
  | StopFailed s => "Proxy stop failed: " +:+ s
  | ForwardingFailed s => "Data forwarding failed: " +:+ s
  | ConnectionPoolError s => "Connection pool error: " +:+ s
  | BufferPoolError s => "Buffer pool error: " +:+ s
  | InvalidProxyConfig s => "Invalid proxy configuration: " +:+ s
  | InstanceNotFound s => "Proxy instance not found: " +:+ s
  | ForwardingStrategyError s => "Forwarding strategy error: " +:+ s
  end.

Definition show_PerformanceError (e : PerformanceError) : string :=
  match e with
  | TcpOptimizationFailed s => "TCP optimization failed: " +:+ s
  | BufferPoolInitFailed s => "Buffer pool initialization failed: " +:+ s
  | ConnectionPoolInitFailed s => "Connection pool initialization failed: " +:+ s
  | InsufficientResources s => "Insufficient system resources: " +:+ s
  | InvalidPerformanceParameter s => "Invalid performance parameter: " +:+ s
  | ZeroCopyFailed s => "Zero-Copy operation failed: " +:+ s
  end.

Definition show_SystemError (e : SystemError) : string :=
  match e with
  | SignalHandlingFailed s => "Signal handling failed: " +:+ s
  | InsufficientFileDescriptors => "Insufficient file descriptors"
  | SystemCallFailed s => "System call failed: " +:+ s
  | PermissionDenied s => "Permission denied: " +:+ s
  | ResourceExhausted s => "System resource exhausted: " +:+ s
  end.

Definition show_ReverseProxyError (e : ReverseProxyError) : string :=
  match e with
  | ProtocolError s => "Protocol error: " +:+ s
  | HandshakeFailed s => "Handshake failed: " +:+ s
  | ClientDisconnected => "Client disconnected"
  | InvalidMessage s => "Invalid message: " +:+ s
  | SerializationFailed s => "Message serialization failed: " +:+ s
  | DeserializationFailed s => "Message deserialization failed: " +:+ s
  | ControlChannelError s => "Control channel error: " +:+ s
  | PortAllocationFailed s => "Port allocation failed: " +:+ s
  | MultiplexingError s => "Connection multiplexing error: " +:+ s
  | RpConnectionFailed s => "Connection failed: " +:+ s
  | UnsupportedVersion v => "Unsupported protocol version: " +:+ show_dec v
  | CryptoError s => "Cryptography error: " +:+ s
  end.

Definition show_AppError (e : AppError) : string :=
  match e with
  | Config e => "Configuration error: " +:+ show_ConfigError e
  | Network e => "Network error: " +:+ show_NetworkError e
  | Proxy e => "Proxy error: " +:+ show_ProxyError e
  | Performance e => "Performance error: " +:+ show_PerformanceError e
  | System e => "System error: " +:+ show_SystemError e
  | ReverseProxy e => "Reverse proxy error: " +:+ show_ReverseProxyError e
  | Io e => "IO error: " +:+ io_text e
  | Serialization s => "Serialization error: " +:+ s
  | Internal m => "Internal error: " +:+ m
  end.

(** ** Classification *)

(** [AppError::is_recoverable], arm by arm. *)
Definition is_recoverable (e : AppError) : bool :=
  match e with
  | Network ConnectionTimeout | Network ConnectionClosed | Network ConnectionResetError => true
  | System InsufficientFileDescriptors => false
  | Config (InsufficientPrivileges _) => false
  | _ => true
  end.

Inductive ErrorSeverity : Type := Fatal | ErrorSev | Warning | Info.

(** [AppError::severity] *)
Definition severity (e : AppError) : ErrorSeverity :=
  match e with
  | Config _ => Fatal
  | System InsufficientFileDescriptors => Fatal
  | Network ConnectionClosed => Warning
  | Network ConnectionTimeout => ErrorSev
  | _ => ErrorSev
  end.

(** ** [ErrorExt] for a [Result] whose error converts into [AppError] *)
Section ErrorExt.
Context {A E : Type} (into : E -> AppError).

Definition with_context (r : result A E) (context : string) : result A AppError :=
  map_err (fun e => Internal (context +:+ ": " +:+ show_AppError (into e))) r.

Definition internal_error (r : result A E) : result A AppError :=
  map_err (fun e => Internal ("Internal error: " +:+ show_AppError (into e))) r.
End ErrorExt.

Notation Result A := (result A AppError).

(** ** Properties *)

(** An error the program calls unrecoverable is always of the severity that
    ends the program, and such errors are exactly descriptor exhaustion and
    missing port privileges. *)
Theorem unrecoverable_is_fatal e :
  (is_recoverable e = false <->
     e = System InsufficientFileDescriptors \/ exists p, e = Config (InsufficientPrivileges p)) /\
  (is_recoverable e = false -> severity e = Fatal).
Proof.
  split; [split|].
  - destruct e as [[]|[]| | |[]| | | |]; simpl; intros H; try discriminate; eauto.
  - intros [->|(p & ->)]; reflexivity.
  - destruct e as [[]|[]| | |[]| | | |]; simpl; intros H; try discriminate; reflexivity.
Qed.

Theorem unrecoverable_is_fatal_witness :
  is_recoverable (Config (InsufficientPrivileges 80)) = false /\
  severity (Config (InsufficientPrivileges 80)) = Fatal.
Proof.
  split; [reflexivity|].
  apply (unrecoverable_is_fatal (Config (InsufficientPrivileges 80))). reflexivity.
Defined.

(** Wrapping an error in a context keeps the successes and makes every error
    an internal, recoverable one whose text ends with the original message. *)
Lemma with_context_recoverable {A E} (into : E -> AppError) (r : result A E) ctx e :
  with_context into r ctx = Err e -> is_recoverable e = true /\ severity e = ErrorSev.
Proof. destruct r; simpl; intros [= <-]; done. Qed.
