(* ===== verification/Channels.v ===== *)
(** * Channels: what forwarding promises

    The abstract specifications the forwarding components refine: a duplex pair
    of byte channels that lose, repeat and reorder nothing, and a system of any
    number of such pairs, opened and moving independently of each other.  No
    file of the source is modelled here. *)

From Stdlib Require Import Ascii String ZArith Lia.
From stdpp Require Import base gmap strings list relations.
From S2P Require Import Prelude.

(** ** One connection: two one-way byte channels *)

Record channel := mkChannel {
  offered : list byte;    (** what the sending peer has still to be read *)
  transit : list byte;
  delivered : list byte;  (** what the receiving peer has got *)
  closed : bool }.

Inductive channel_step : channel -> channel -> Prop :=
| channel_accept xs ys t d :
    channel_step (mkChannel (xs ++ ys) t d false) (mkChannel ys (t ++ xs) d false)
| channel_deliver xs o t d :
    channel_step (mkChannel o (xs ++ t) d false) (mkChannel o t (d ++ xs) false)
| channel_close o t d :
    channel_step (mkChannel o t d false) (mkChannel o t d true).

Inductive duplex_step : channel * channel -> channel * channel -> Prop :=
| duplex_left a a' b : channel_step a a' -> duplex_step (a, b) (a', b)
| duplex_right a b b' : channel_step b b' -> duplex_step (a, b) (a, b').

Definition fresh_channel (data : list byte) : channel := mkChannel data [] [] false.

(** A channel of [data]: nothing lost, repeated or reordered. *)
Definition carries (data : list byte) (c : channel) : Prop :=
  delivered c ++ transit c ++ offered c = data.

Lemma channel_step_carries data a b : channel_step a b -> carries data a -> carries data b.
Proof. unfold carries. intros []; simpl; intros <-; by rewrite <- ?(assoc_L (++)). Qed.

Lemma duplex_steps_carry c s p q :
  rtc duplex_step p q -> carries c p.1 /\ carries s p.2 -> carries c q.1 /\ carries s q.2.
Proof.
  induction 1 as [|p q r Hs _ IH]; [done|]. intros [Hc Hd]. apply IH.
  destruct Hs; simpl in *; split; eauto using channel_step_carries.
Qed.

Lemma carries_prefix data c : carries data c -> delivered c `prefix_of` data.
Proof. intros <-. by apply prefix_app_r. Qed.

(** ** Many connections *)

(** A channel pair per connection, each opened fresh and then moving on its
    own. *)
Inductive pipes_step : gmap nat (channel * channel) -> gmap nat (channel * channel) -> Prop :=
| pipes_open m id a b : m !! id = None -> pipes_step m (<[id := (fresh_channel a, fresh_channel b)]> m)
| pipes_move m id p q : m !! id = Some p -> duplex_step p q -> pipes_step m (<[id := q]> m).

Lemma pipes_moves m id p q : m !! id = Some p -> rtc duplex_step p q -> rtc pipes_step m (<[id := q]> m).
Proof.
  intros Hm Hpq. revert m Hm. induction Hpq as [p|p q r Hs _ IH]; intros m Hm.
  - by rewrite insert_id.
  - apply rtc_l with (<[id := q]> m); [by eapply pipes_move|].
    specialize (IH (<[id := q]> m) ltac:(apply lookup_insert_eq)). by rewrite insert_insert_eq in IH.
Qed.

(** How the channels of one connection may change in a run of the abstract
    system: not at all, opened, or moved. *)
Inductive evolves : option (channel * channel) -> option (channel * channel) -> Prop :=
| evolves_not a : evolves a a
| evolves_open a b q : rtc duplex_step (fresh_channel a, fresh_channel b) q -> evolves None (Some q)
| evolves_move p q : rtc duplex_step p q -> evolves (Some p) (Some q).

Lemma evolves_pipes m id b : evolves (m !! id) b -> rtc pipes_step m (partial_alter (fun _ => b) id m).
Proof.
  intros He. inversion He as [a Ha Hb|x y q Hq Ha Hb|p q Hq Ha Hb]; subst.
  - by rewrite partial_alter_self.
  - eapply rtc_l; [by apply (pipes_open m id x y)|].
    pose proof (pipes_moves (<[id := (fresh_channel x, fresh_channel y)]> m) id _ _ (lookup_insert_eq _ _ _) Hq) as Hm.
    by rewrite insert_insert_eq in Hm.
  - by apply (pipes_moves m id p q).
Qed.

(** Both channels of a connection close. *)
Lemma duplex_close o1 t1 d1 o2 t2 d2 :
  rtc duplex_step (mkChannel o1 t1 d1 false, mkChannel o2 t2 d2 false) (mkChannel o1 t1 d1 true, mkChannel o2 t2 d2 true).
Proof. eapply rtc_l; [apply duplex_left, channel_close|]. apply rtc_once, duplex_right, channel_close. Qed.

Lemma duplex_both a a' b b' :
  rtc channel_step a a' -> rtc channel_step b b' -> rtc duplex_step (a, b) (a', b').
Proof.
  intros Ha Hb. transitivity (a', b).
  - induction Ha as [|x y z H _ IH]; [done|]. eapply rtc_l; [by apply duplex_left|done].
  - induction Hb as [|x y z H _ IH]; [done|]. eapply rtc_l; [by apply duplex_right|done].
Qed.

(** The channels of one component, among those of all. *)
Lemma omap_insert_alter {A B} (f : A -> option B) (m : gmap nat A) id x :
  omap f (<[id := x]> m) = partial_alter (fun _ => f x) id (omap f m).
Proof.
  apply map_eq. intros i. rewrite lookup_omap. destruct (decide (i = id)) as [->|Hne].
  - by rewrite lookup_insert_eq, lookup_partial_alter_eq.
  - by rewrite lookup_insert_ne, lookup_partial_alter_ne, lookup_omap by done.
Qed.
