(* ===== verification/Config.v ===== *)
(** * Config: the configuration file (src/src/config/loader.rs)

    The configuration file's sections with their address accessors, the
    validation pass that normalises a configuration and reports every problem
    it finds, and the loader around it.  TOML parsing is the [toml] crate's
    and is a parameter of the loader. *)

From Stdlib Require Import Ascii String ZArith Lia SpecFloat.
From stdpp Require Import base gmap strings list.
From S2P Require Import Prelude Text NetAddr Errors.

(** ** Sections of the file *)

Record ServerSection := mkServerSection {
  ss_bind_ip : option string;
  ss_debug : option bool }.

Record ProxySection := mkProxySection {
  ps_local : string;
  ps_remote : string;
  ps_source_ip : option string;
  ps_allow_ips : option (list string);
  ps_max_conns_per_ip : option Z;
  ps_cps_limit : option spec_float }.

Record ReverseProxySection := mkReverseProxySection {
  rs_server : string;
  rs_local : string;
  rs_source_ip : option string }.

Record ReverseProxyServerSection := mkReverseProxyServerSection {
  rps_port : Z;
  rps_allowed_tokens : list string;
  rps_totp_secret : option string }.

Record ReverseProxyClientSection := mkReverseProxyClientSection {
  rpc_server : string;
  rpc_token : option string;
  rpc_totp_secret : option string }.

Record ConfigFile := mkConfigFile {
  cf_server : option ServerSection;
  cf_proxies : list ProxySection;
  cf_token : option string;
  cf_totp_secret : option string;
  cf_reverse_proxies : list ReverseProxySection;
  cf_reverse_proxy_server : option ReverseProxyServerSection;
  cf_reverse_proxy_client : option ReverseProxyClientSection }.

Definition default_server_section : ServerSection :=
  mkServerSection (Some "127.0.0.1") (Some false).
Definition default_reverse_proxy_server_section : ReverseProxyServerSection :=
  mkReverseProxyServerSection 9001 [] None.

(** ** Address accessors *)

Definition q (s : string) : string := "'" +:+ s +:+ "'".

Definition invalid_value {A} (path reason : string) : Result A :=
  Err (Config (InvalidConfigValue path reason)).

(** [s.parse().map_err(...)] into a [u16]. *)
Definition parse_port (path reason : string) (s : string) : Result Z :=
  match parse_u16 s with Some p => Ok p | None => invalid_value path reason end.

(** [parts[0..parts.len() - 1].join(":")] *)
Definition join_init (parts : list string) : string := join ":" (take (length parts - 1) parts).

Module ProxySection.
Definition get_local_port (p : ProxySection) : Result Z :=
  let s := ps_local p in
  if has_char ":" s then
    let parts := split_char ":" s in
    if negb (length parts =? 2)%nat
    then invalid_value "local" ("Invalid local format " +:+ q s +:+ ", expected 'IP:PORT' or 'PORT'")
    else parse_port "local" ("Invalid port number in " +:+ q s) (nth 1 parts "")
  else parse_port "local" ("Invalid port number " +:+ q s) s.

Definition get_local_ip (p : ProxySection) : option string :=
  let s := ps_local p in
  if has_char ":" s then
    let parts := split_char ":" s in
    if (length parts =? 2)%nat then Some (nth 0 parts "") else None
  else None.

Definition get_remote_host (p : ProxySection) : Result string :=
  let s := ps_remote p in
  if has_char ":" s then
    let parts := split_char ":" s in
    if (length parts <? 2)%nat
    then invalid_value "remote" ("Invalid remote format " +:+ q s +:+ ", expected 'HOST:PORT' or 'PORT'")
    else Ok (join_init parts)
  else Ok "localhost".

Definition get_remote_port (p : ProxySection) : Result Z :=
  let s := ps_remote p in
  if has_char ":" s then
    let parts := rsplit_char ":" s in
    if (length parts <? 2)%nat
    then invalid_value "remote" ("Invalid remote format " +:+ q s)
    else parse_port "remote" ("Invalid port number in " +:+ q s) (nth 0 parts "")
  else parse_port "remote" ("Invalid port number " +:+ q s) s.
End ProxySection.

Module ReverseProxySection.
(** [get_server_port] and [get_local_port] have the same body. *)
Definition last_port (path s : string) : Result Z :=
  if has_char ":" s then
    let parts := rsplit_char ":" s in
    if (length parts <? 2)%nat
    then invalid_value path ("Invalid " +:+ path +:+ " format " +:+ q s)
    else parse_port path ("Invalid port number in " +:+ q s) (nth 0 parts "")
  else parse_port path ("Invalid port number " +:+ q s) s.

Definition get_server_port (r : ReverseProxySection) : Result Z := last_port "server" (rs_server r).
Definition get_local_port (r : ReverseProxySection) : Result Z := last_port "local" (rs_local r).

Definition get_server_ip (r : ReverseProxySection) : option string :=
  let s := rs_server r in
  if has_char ":" s then
    let parts := split_char ":" s in
    if (2 <=? length parts)%nat then Some (join_init parts) else None
  else None.

Definition get_local_host (r : ReverseProxySection) : option string :=
  let s := rs_local r in
  if has_char ":" s then
    let parts := split_char ":" s in
    if (2 <=? length parts)%nat then Some (join_init parts) else Some "localhost"
  else Some "localhost".
End ReverseProxySection.

(** [ConfigFile::get_runtime_mode] *)
Definition get_runtime_mode (c : ConfigFile) : string :=
  if bool_decide (is_Some (cf_reverse_proxy_client c)) then "reverse_client"
  else if bool_decide (is_Some (cf_reverse_proxy_server c)) then "reverse_server"
  else if negb (length (cf_proxies c) =? 0)%nat then "forward"
  else "unknown".

(** ** Validation

    Each step returns what it pushes on [warnings] and on [errors], in order. *)

Definition check_reverse_sections (c : ConfigFile) : list string :=
  if negb (length (cf_reverse_proxies c) =? 0)%nat
     && negb (bool_decide (is_Some (cf_reverse_proxy_server c)))
     && negb (bool_decide (is_Some (cf_reverse_proxy_client c)))
  then ["Reverse proxies configured but neither reverse_proxy_server nor reverse_proxy_client specified"]
  else [].

Definition validate_server (s : ServerSection) : ServerSection * list string * list string :=
  match ss_bind_ip s with
  | None => (s, [], [])
  | Some current =>
      let trimmed := trim current in
      if String.eqb trimmed "" then
        (mkServerSection (Some "127.0.0.1") (ss_debug s),
         ["server.bind_ip is empty, falling back to default 127.0.0.1"], [])
      else match parse_ip trimmed with
      | None => (s, [], ["server.bind_ip " +:+ q trimmed +:+ " is not a valid IP address"])
      | Some _ =>
          if negb (String.eqb trimmed current)
          then (mkServerSection (Some trimmed) (ss_debug s), [], [])
          else (s, [], [])
      end
  end.

(** The [source_ip] check, with the value a forward proxy keeps. *)
Definition check_source_ip (prefix : string) (src : option string)
  : option string * list string * list string :=
  match src with
  | None => (None, [], [])
  | Some source_ip =>
      let trimmed := trim source_ip in
      if String.eqb trimmed "" then
        (None, [prefix +:+ ".source_ip is empty and will be ignored"], [])
      else if eq_ignore_ascii_case trimmed "null" then
        (None, [prefix +:+ ".source_ip contains 'null' value; will be ignored"], [])
      else match parse_ip trimmed with
      | None => (src, [], [prefix +:+ ".source_ip " +:+ q trimmed +:+ " is not a valid IP address"])
      | Some _ => (src, [], [])
      end
  end.

Definition zero_port (prefix field : string) (port : Z) : list string :=
  if port =? 0 then [prefix +:+ field +:+ " port must be between 1 and 65535"] else [].

Definition duplicate_port (kind prefix : string) (port : Z) (seen : gset Z) : list string :=
  if bool_decide (port ∈ seen)
  then ["Duplicate " +:+ kind +:+ " port " +:+ show_dec port +:+ " detected in " +:+ prefix] else [].

Definition with_source_ip (p : ProxySection) (src : option string) : ProxySection :=
  mkProxySection (ps_local p) (ps_remote p) src (ps_allow_ips p) (ps_max_conns_per_ip p) (ps_cps_limit p).

(** One iteration of the loop over [self.proxies]. *)
Definition validate_proxy (index : nat) (seen : gset Z) (p : ProxySection)
  : ProxySection * gset Z * list string * list string :=
  let prefix := "proxies[" +:+ show_dec (Z.of_nat index) +:+ "]" in
  match ProxySection.get_local_port p with
  | Err e => (p, seen, [], [prefix +:+ ".local: " +:+ show_AppError e])
  | Ok local_port =>
      let e1 := zero_port prefix ".local" local_port in
      match ProxySection.get_remote_host p with
      | Err e => (p, seen, [], e1 ++ [prefix +:+ ".remote: " +:+ show_AppError e])
      | Ok _ =>
          match ProxySection.get_remote_port p with
          | Err e => (p, seen, [], e1 ++ [prefix +:+ ".remote: " +:+ show_AppError e])
          | Ok remote_port =>
              let e2 := zero_port prefix ".remote" remote_port in
              let e3 := duplicate_port "local" prefix local_port seen in
              let '(src, ws, e4) := check_source_ip prefix (ps_source_ip p) in
              (with_source_ip p src, {[local_port]} ∪ seen, ws, e1 ++ e2 ++ e3 ++ e4)
          end
      end
  end.

Fixpoint validate_proxies (index : nat) (seen : gset Z) (ps : list ProxySection)
  : list ProxySection * list string * list string :=
  match ps with
  | [] => ([], [], [])
  | p :: ps =>
      let '(p, seen, ws, es) := validate_proxy index seen p in
      let '(ps, ws', es') := validate_proxies (S index) seen ps in
      (p :: ps, ws ++ ws', es ++ es')
  end.

(** One iteration of the loop over [self.reverse_proxies]; nothing is changed. *)
Definition validate_rproxy (index : nat) (seen : gset Z) (r : ReverseProxySection)
  : gset Z * list string * list string :=
  let prefix := "reverse_proxies[" +:+ show_dec (Z.of_nat index) +:+ "]" in
  match ReverseProxySection.get_server_port r with
  | Err e => (seen, [], [prefix +:+ ".server: " +:+ show_AppError e])
  | Ok server_port =>
      let e1 := zero_port prefix ".server" server_port in
      let e2 := duplicate_port "server" prefix server_port seen in
      let seen := {[server_port]} ∪ seen in
      match ReverseProxySection.get_local_port r with
      | Err e => (seen, [], e1 ++ e2 ++ [prefix +:+ ".local: " +:+ show_AppError e])
      | Ok local_port =>
          let e3 := zero_port prefix ".local" local_port in
          let '(_, ws, e4) := check_source_ip prefix (rs_source_ip r) in
          (seen, ws, e1 ++ e2 ++ e3 ++ e4)
      end
  end.

Fixpoint validate_rproxies (index : nat) (seen : gset Z) (rs : list ReverseProxySection)
  : list string * list string :=
  match rs with
  | [] => ([], [])
  | r :: rs =>
      let '(seen, ws, es) := validate_rproxy index seen r in
      let '(ws', es') := validate_rproxies (S index) seen rs in
      (ws ++ ws', es ++ es')
  end.

(** [ConfigFile::validate(&mut self)]: the verdict and the configuration left. *)
Definition validate (c : ConfigFile) : result (list string) ConfigError * ConfigFile :=
  let e0 := check_reverse_sections c in
  let '(server, ws1, e1) :=
    match cf_server c with
    | Some s => let '(s, ws, es) := validate_server s in (Some s, ws, es)
    | None => (None, [], [])
    end in
  let '(proxies, ws2, e2) := validate_proxies 0 ∅ (cf_proxies c) in
  let '(ws3, e3) := validate_rproxies 0 ∅ (cf_reverse_proxies c) in
  let errors := e0 ++ e1 ++ e2 ++ e3 in
  let c' := mkConfigFile server proxies (cf_token c) (cf_totp_secret c) (cf_reverse_proxies c)
              (cf_reverse_proxy_server c) (cf_reverse_proxy_client c) in
  (if negb (length errors =? 0)%nat
   then Err (InvalidConfigValue "config" (join "; " errors))
   else Ok (ws1 ++ ws2 ++ ws3), c').

(** ** Loading *)

Definition newline : ascii := "010".
Definition quote : string := String "034" "".
Definition nl : string := String newline "".

(** [content.split_inclusive('\n')] *)
Fixpoint split_inclusive (s : string) : list string :=
  match s with
  | "" => []
  | String a r =>
      if Ascii.eqb a newline then String a "" :: split_inclusive r
      else match split_inclusive r with
           | p :: ps => String a p :: ps
           | [] => [String a ""]
           end
  end.

Fixpoint ends_with_char (c : ascii) (s : string) : bool :=
  match s with
  | "" => false
  | String a "" => Ascii.eqb a c
  | String _ s => ends_with_char c s
  end.

Fixpoint drop_last (s : string) : string :=
  match s with
  | "" => ""
  | String a "" => ""
  | String a s => String a (drop_last s)
  end.

(** The text before and after the first [c]. *)
Fixpoint split_first (c : ascii) (s : string) : option (string * string) :=
  match s with
  | "" => None
  | String a r =>
      if Ascii.eqb a c then Some ("", r)
      else match split_first c r with Some (p, q) => Some (String a p, q) | None => None end
  end.

Fixpoint split_at (n : nat) (s : string) : string * string :=
  match n, s with
  | O, _ => ("", s)
  | S n, "" => ("", "")
  | S n, String a s => let '(p, r) := split_at n s in (String a p, r)
  end.

(** A byte position is a character boundary unless a UTF-8 continuation byte
    follows it; slicing anywhere else panics. *)
Definition is_char_boundary (rest : string) : bool :=
  match rest with
  | "" => true
  | String a _ => negb ((128 <=? char_z a) && (char_z a <=? 191))
  end.

(** What the loop of [sanitize_special_values] does to one line. *)
Definition sanitize_line (line_body : string) : outcome string :=
  match split_first "=" line_body with
  | None => Val line_body
  | Some (key_part, rest) =>
      if eq_ignore_ascii_case (trim key_part) "source_ip" then
        let trimmed_rest := trim_start rest in
        if (4 <=? String.length trimmed_rest)%nat then
          let '(head, remainder) := split_at 4 trimmed_rest in
          if negb (is_char_boundary remainder) then Panic
          else if eq_ignore_ascii_case head "null" then
            if String.eqb remainder "" || ws_start remainder || starts_with "#" remainder then
              let whitespace := (split_at (String.length rest - String.length trimmed_rest) rest).1 in
              Val (key_part +:+ "=" +:+ whitespace +:+ quote +:+ "null" +:+ quote +:+ remainder)
            else Val line_body
          else Val line_body
        else Val line_body
      else Val line_body
  end.

Fixpoint sanitize_lines (lines : list string) : outcome string :=
  match lines with
  | [] => Val ""
  | raw :: lines =>
      let '(body, nl) := if ends_with_char newline raw then (drop_last raw, nl) else (raw, "") in
      let! line := sanitize_line body in
      let! rest := sanitize_lines lines in
      Val (line +:+ nl +:+ rest)
  end.

(** [ConfigLoader::sanitize_special_values]; its warning list stays empty. *)
Definition sanitize_special_values (content : string) : outcome (string * list string) :=
  let! sanitized := sanitize_lines (split_inclusive content) in
  let sanitized :=
    if negb (ends_with_char newline content) && ends_with_char newline sanitized
    then drop_last sanitized else sanitized in
  Val (sanitized, []).

(** [ConfigLoader::offset_to_line_col] *)
Definition advance (pos : nat * nat) (b : ascii) : nat * nat :=
  let '(line, column) := pos in
  if Ascii.eqb b newline then (S line, 1%nat)
  else if Ascii.eqb b "013" then (line, 1%nat)
  else (line, S column).

Definition offset_to_line_col (content : string) (offset : nat) : nat * nat :=
  let upto := Nat.min offset (String.length content) in
  fold_left advance (String.list_ascii_of_string (split_at upto content).1) (1%nat, 1%nat).

(** The [toml] crate's error: its message and the start of its span. *)
Record TomlError := mkTomlError { te_message : string; te_span : option nat }.

Definition map_toml_error (content : string) (e : TomlError) : ConfigError :=
  let message := te_message e in
  let fallback :=
    let '(line, column) := match te_span e with
                           | Some start => offset_to_line_col content start
                           | None => (0%nat, 0%nat) end in
    InvalidTomlFormat ("TOML parse error at line " +:+ show_dec (Z.of_nat line) +:+ ", column "
      +:+ show_dec (Z.of_nat column) +:+ ": " +:+ message +:+ nl
      +:+ "Tip: Check for syntax errors like 'null' values (should be omitted), missing quotes, or invalid data types") in
  match strip_prefix "missing field `" message with
  | Some field => match split_first "`" field with
                  | Some (field_name, _) => MissingRequiredField field_name
                  | None => fallback end
  | None => fallback
  end.

(** [ConfigLoader::parse_ip_address] and [create_socket_addr] *)
Definition parse_ip_address (ip_str : string) : Result IpAddr :=
  let trimmed := trim ip_str in
  match parse_ip trimmed with
  | Some ip => Ok ip
  | None => Err (Config (InvalidIpAddress trimmed))
  end.

Definition create_socket_addr (host : string) (port : Z) : Result SocketAddr :=
  match parse_ip host with
  | Some ip => Ok (mkSocketAddr ip port)
  | None => Err (Config (InvalidIpAddress
      ("Invalid IP address " +:+ q host +:+ ". Tunnel proxy requires IP addresses, not hostnames. Use nslookup or dig to resolve hostnames manually.")))
  end.

Section Loader.
(** The [toml] crate and the environment: the file system, the command line
    and the [Debug] rendering of paths. *)
Context (toml_from_str : string -> result ConfigFile TomlError).
Context (fs_read : string -> result string IoError) (fs_exists : string -> bool).
Context (args : list string) (debug_path : string -> string) (debug_paths : list string -> string).

Definition load_from_str_with_warnings (content : string)
  : outcome (result (ConfigFile * list string) ConfigError) :=
  let! san := sanitize_special_values content in
  let '(sanitized, warnings) := san in
  Val (let? config := map_err (map_toml_error sanitized) (toml_from_str sanitized) in
       match validate config with
       | (Ok validation_warnings, config) => Ok (config, warnings ++ validation_warnings)
       | (Err e, _) => Err e
       end).

Definition load_from_str (content : string) : outcome (Result ConfigFile) :=
  let! r := load_from_str_with_warnings content in
  Val (map_ok fst (map_err Config r)).

Definition load_from_file (path : string) : outcome (Result ConfigFile) :=
  match fs_read path with
  | Err e =>
      Val (Err (Config (if bool_decide (io_kind e = NotFound) then ConfigFileNotFound path
                        else ReadFailed ("Failed to read config file " +:+ q path +:+ ": " +:+ io_text e))))
  | Ok content =>
      let! r := load_from_str_with_warnings content in
      Val (map_ok fst (map_err Config r))
  end.

(** [get_cli_config_path]: the argument after the first [-c] or [--config]
    that has one. *)
Fixpoint config_flag (args : list string) : option string :=
  match args with
  | [] => None
  | a :: rest =>
      match rest with
      | b :: _ => if String.eqb a "-c" || String.eqb a "--config" then Some b else config_flag rest
      | [] => None
      end
  end.

Definition get_cli_config_path : option string := config_flag (tail args).

Definition get_config_search_paths : list string := ["default.toml"; "config.toml"; "gsc-fq.toml"].

Fixpoint search_paths (paths : list string) : outcome (option (ConfigFile * string)) :=
  match paths with
  | [] => Val None
  | path :: paths =>
      if fs_exists path then
        let! r := load_from_file path in
        match r with
        | Ok config => Val (Some (config, path))
        | Err _ => search_paths paths
        end
      else search_paths paths
  end.

Definition load_with_search : outcome (Result (ConfigFile * string)) :=
  match get_cli_config_path with
  | Some path =>
      if fs_exists path then
        let! r := load_from_file path in
        Val (map_ok (fun config => (config, path)) r)
      else Val (Err (Config (ConfigFileNotFound
             ("CLI specified config file not found: " +:+ debug_path path))))
  | None =>
      let! found := search_paths get_config_search_paths in
      Val (match found with
           | Some r => Ok r
           | None => Err (Config (ConfigFileNotFound
               ("No configuration file found. Searched: " +:+ debug_paths get_config_search_paths)))
           end)
  end.
End Loader.

Example sanitize_null : sanitize_special_values ("source_ip = null # x" +:+ nl +:+ "local = null")
  = Val ("source_ip = " +:+ quote +:+ "null" +:+ quote +:+ " # x" +:+ nl +:+ "local = null", []).
Proof. vm_compute. reflexivity. Qed.
