(* ===== verification/ConfigSpec.v ===== *)
(** * ConfigSpec: what validation promises

    A declarative description of the configurations the program accepts, the
    proof that [validate] decides it, and the properties of the accessors and
    of the loader. *)

From Stdlib Require Import Ascii String ZArith Lia SpecFloat.
From stdpp Require Import base gmap strings list.
From S2P Require Import Prelude Text NetAddr Errors Config.

(** ** Accepted configurations *)

Definition valid_port (p : Z) : Prop := 1 <= p <= 65535.

Definition source_ok (src : option string) : Prop :=
  match src with
  | None => True
  | Some s => trim s = "" \/ eq_ignore_ascii_case (trim s) "null" = true \/ is_Some (parse_ip (trim s))
  end.

Definition proxy_ok (p : ProxySection) (local_port : Z) : Prop :=
  ProxySection.get_local_port p = Ok local_port /\ valid_port local_port /\
  (exists rp, ProxySection.get_remote_port p = Ok rp /\ valid_port rp) /\
  source_ok (ps_source_ip p).

Definition rproxy_ok (r : ReverseProxySection) (server_port : Z) : Prop :=
  ReverseProxySection.get_server_port r = Ok server_port /\ valid_port server_port /\
  (exists lp, ReverseProxySection.get_local_port r = Ok lp /\ valid_port lp) /\
  source_ok (rs_source_ip r).

Definition bind_ok (s : ServerSection) : Prop :=
  match ss_bind_ip s with
  | None => True
  | Some b => trim b = "" \/ is_Some (parse_ip (trim b))
  end.

Record acceptable (c : ConfigFile) : Prop := {
  acc_sections : cf_reverse_proxies c <> [] ->
    is_Some (cf_reverse_proxy_server c) \/ is_Some (cf_reverse_proxy_client c);
  acc_bind : forall s, cf_server c = Some s -> bind_ok s;
  acc_proxies : exists lps, Forall2 proxy_ok (cf_proxies c) lps /\ NoDup lps;
  acc_rproxies : exists sps, Forall2 rproxy_ok (cf_reverse_proxies c) sps /\ NoDup sps }.

(** What a validated configuration looks like. *)
Definition source_normal (src : option string) : Prop :=
  match src with None => True | Some s => is_Some (parse_ip (trim s)) /\ eq_ignore_ascii_case (trim s) "null" = false end.

Definition bind_normal (s : ServerSection) : Prop :=
  match ss_bind_ip s with None => True | Some b => b = trim b /\ b <> "" /\ is_Some (parse_ip b) end.

Definition normalised (c : ConfigFile) : Prop :=
  (forall s, cf_server c = Some s -> bind_normal s) /\
  Forall (fun p => source_normal (ps_source_ip p)) (cf_proxies c).

(** ** Accessors *)

Lemma parse_port_Ok path reason s p :
  parse_port path reason s = Ok p -> parse_u16 s = Some p /\ in_u 16 p.
Proof.
  unfold parse_port, invalid_value. intros H. destruct (parse_u16 s) eqn:Hs; simplify_eq.
  split; [done|]. by eapply parse_u16_range.
Qed.

Lemma get_remote_host_Ok p : exists h, ProxySection.get_remote_host p = Ok h.
Proof.
  unfold ProxySection.get_remote_host. destruct (has_char ":" (ps_remote p)) eqn:H; [|by eauto].
  apply split_char_length in H. destruct (Nat.ltb_spec (length (split_char ":" (ps_remote p))) 2); [lia|].
  by eauto.
Qed.

Lemma get_local_port_range p lp : ProxySection.get_local_port p = Ok lp -> in_u 16 lp.
Proof.
  unfold ProxySection.get_local_port, invalid_value. intros H. repeat case_if; try done;
  by apply parse_port_Ok in H as [_ ?].
Qed.

Lemma get_remote_port_range p lp : ProxySection.get_remote_port p = Ok lp -> in_u 16 lp.
Proof.
  unfold ProxySection.get_remote_port, invalid_value. intros H. repeat case_if; try done;
  by apply parse_port_Ok in H as [_ ?].
Qed.

Lemma last_port_range path s lp : ReverseProxySection.last_port path s = Ok lp -> in_u 16 lp.
Proof.
  unfold ReverseProxySection.last_port, invalid_value. intros H. repeat case_if; try done;
  by apply parse_port_Ok in H as [_ ?].
Qed.

(** ** Steps of the validation *)

Lemma zero_port_nil prefix field p : in_u 16 p -> zero_port prefix field p = [] <-> valid_port p.
Proof.
  unfold zero_port, valid_port, in_u. intros Hp. case_if; boolp; split; try done; lia.
Qed.

Lemma duplicate_port_nil kind prefix p seen : duplicate_port kind prefix p seen = [] <-> p ∉ seen.
Proof. unfold duplicate_port. case_if; boolp; split; done. Qed.

Lemma check_source_ip_errors prefix src :
  (check_source_ip prefix src).2 = [] <-> source_ok src.
Proof.
  unfold check_source_ip, source_ok. destruct src as [s|]; [|done].
  destruct (String.eqb_spec (trim s) "") as [|Hne]; [simpl; tauto|].
  destruct (eq_ignore_ascii_case (trim s) "null"); [simpl; tauto|].
  destruct (parse_ip (trim s)) eqn:Hp; simpl; split; try done; [by right; right; eexists|].
  by intros [?|[?|[? ?]]].
Qed.

Lemma check_source_ip_normal prefix src src' ws :
  check_source_ip prefix src = (src', ws, []) -> source_normal src'.
Proof.
  unfold check_source_ip, source_normal. destruct src as [s|]; [|by intros [= <- <-]].
  repeat (case_if || case_match); intros; simplify_eq; done.
Qed.

Lemma check_source_ip_stable prefix src :
  source_normal src -> check_source_ip prefix src = (src, [], []).
Proof.
  unfold check_source_ip, source_normal. destruct src as [s|]; [|done]. intros [[ip Hip] Hn].
  destruct (String.eqb_spec (trim s) "") as [Ht|]; [rewrite Ht in Hip; by vm_compute in Hip|].
  by rewrite Hn, Hip.
Qed.

Lemma app3_nil {A} (a b c d : list A) :
  a ++ b ++ c ++ d = [] <-> a = [] /\ b = [] /\ c = [] /\ d = [].
Proof. destruct a, b, c, d; simpl; naive_solver. Qed.

Lemma validate_proxy_ok i seen p :
  let '(_, seen', _, es) := validate_proxy i seen p in
  (es = [] <-> exists lp, proxy_ok p lp /\ lp ∉ seen) /\
  (forall lp, es = [] -> proxy_ok p lp -> seen' = {[lp]} ∪ seen).
Proof.
  unfold validate_proxy, proxy_ok.
  destruct (ProxySection.get_local_port p) as [lp|e] eqn:Hlp.
  2: { split; [split; [done|]; intros (lp & (H & _) & _); congruence | done]. }
  destruct (get_remote_host_Ok p) as (h & ->).
  destruct (ProxySection.get_remote_port p) as [rp|e] eqn:Hrp.
  2: { split; [|intros ? H; len_absurd H]. split.
       - intros H. len_absurd H.
       - intros (? & (_ & _ & (? & ? & _) & _) & _). congruence. }
  match goal with |- context [check_source_ip ?pre ?src] =>
    pose proof (check_source_ip_errors pre src) as Hsrc;
    destruct (check_source_ip pre src) as [[src' ws] es] eqn:Hs
  end. simpl in Hsrc.
  rewrite app3_nil, duplicate_port_nil, Hsrc.
  rewrite zero_port_nil by (by eapply get_local_port_range).
  rewrite zero_port_nil by (by eapply get_remote_port_range).
  split.
  - split.
    + intros (? & ? & ? & ?). exists lp. split_and!; try done. by exists rp.
    + by intros (lp' & ([= ->] & ? & (rp' & [= ->] & ?) & ?) & ?).
  - by intros lp' _ ([= ->] & _).
Qed.

Lemma Forall2_NoDup_cons {A} (R : A -> Z -> Prop) p ps seen :
  (forall lp lp', R p lp -> R p lp' -> lp = lp') ->
  (exists lps, Forall2 R (p :: ps) lps /\ NoDup lps /\ Forall (fun x => x ∉ (seen : gset Z)) lps) <->
  (exists lp, (R p lp /\ lp ∉ seen) /\
   exists lps, Forall2 R ps lps /\ NoDup lps /\ Forall (fun x => x ∉ ({[lp]} ∪ seen)) lps).
Proof.
  intros Hfun. split.
  - intros (lps & H & Hnd & Hs). inversion H as [|? lp ? lps' Hp Hps]; subst.
    apply NoDup_cons in Hnd as [Hn Hnd]. apply Forall_cons in Hs as [Hlp Hs].
    exists lp. split; [done|]. exists lps'. do 2 (split; [done|]).
    rewrite Forall_forall in *. intros x Hx. specialize (Hs x Hx).
    assert (x <> lp) by (intros ->; done). set_solver.
  - intros (lp & (Hp & Hn) & lps & Hps & Hnd & Hs). exists (lp :: lps). split; [by constructor|].
    rewrite Forall_forall in Hs. split.
    + apply NoDup_cons. split; [|done]. intros Hx. specialize (Hs _ Hx). set_solver.
    + apply Forall_cons. split; [done|]. apply Forall_forall. intros x Hx. specialize (Hs _ Hx). set_solver.
Qed.

Lemma proxy_ok_fun p a b : proxy_ok p a -> proxy_ok p b -> a = b.
Proof. intros (Ha & _) (Hb & _). congruence. Qed.

Lemma rproxy_ok_fun p a b : rproxy_ok p a -> rproxy_ok p b -> a = b.
Proof. intros (Ha & _) (Hb & _). congruence. Qed.

Lemma validate_proxies_ok ps i seen :
  (validate_proxies i seen ps).2 = [] <->
  exists lps, Forall2 proxy_ok ps lps /\ NoDup lps /\ Forall (fun x => x ∉ seen) lps.
Proof.
  revert i seen. induction ps as [|p ps IH]; intros i seen; simpl.
  - split; [|done]. intros _. exists []. by repeat constructor.
  - rewrite Forall2_NoDup_cons by (apply proxy_ok_fun).
    pose proof (validate_proxy_ok i seen p) as H.
    destruct (validate_proxy i seen p) as [[[p' seen'] ws] es]. destruct H as [He Hseen].
    pose proof (fun lp => IH (S i) ({[lp]} ∪ seen)) as IHs.
    destruct (validate_proxies (S i) seen' ps) as [[ps' ws'] es'] eqn:Hv. simpl.
    split.
    + intros [-> ->]%app_eq_nil. destruct He as [He _]. destruct (He eq_refl) as (lp & Hp & Hn).
      exists lp. split; [done|]. apply IHs. rewrite <- (Hseen lp) by done. by rewrite Hv.
    + intros (lp & Hlp & Hrest). assert (es = []) as -> by (apply He; by exists lp).
      apply IHs in Hrest. rewrite <- (Hseen lp), Hv in Hrest by (done || apply Hlp).
      simpl in Hrest. by rewrite Hrest.
Qed.

Lemma validate_rproxy_ok i seen r :
  let '(seen', _, es) := validate_rproxy i seen r in
  (es = [] <-> exists sp, rproxy_ok r sp /\ sp ∉ seen) /\
  (forall sp, es = [] -> rproxy_ok r sp -> seen' = {[sp]} ∪ seen).
Proof.
  unfold validate_rproxy, rproxy_ok.
  destruct (ReverseProxySection.get_server_port r) as [sp|e] eqn:Hsp.
  2: { split; [split; [done|]; intros (? & (H & _) & _); congruence | done]. }
  destruct (ReverseProxySection.get_local_port r) as [lp|e] eqn:Hlp.
  2: { split; [|intros ? H; len_absurd H]. split.
       - intros H. len_absurd H.
       - intros (? & (_ & _ & (? & ? & _) & _) & _). congruence. }
  match goal with |- context [check_source_ip ?pre ?src] =>
    pose proof (check_source_ip_errors pre src) as Hsrc;
    destruct (check_source_ip pre src) as [[src' ws] es] eqn:Hs
  end. simpl in Hsrc.
  rewrite app3_nil, duplicate_port_nil, Hsrc.
  rewrite zero_port_nil by (by eapply last_port_range).
  rewrite zero_port_nil by (by eapply last_port_range).
  split.
  - split.
    + intros (? & ? & ? & ?). exists sp. split_and!; try done. by exists lp.
    + by intros (sp' & ([= ->] & ? & (lp' & [= ->] & ?) & ?) & ?).
  - by intros sp' _ ([= ->] & _).
Qed.

Lemma validate_rproxies_ok rs i seen :
  (validate_rproxies i seen rs).2 = [] <->
  exists sps, Forall2 rproxy_ok rs sps /\ NoDup sps /\ Forall (fun x => x ∉ seen) sps.
Proof.
  revert i seen. induction rs as [|r rs IH]; intros i seen; simpl.
  - split; [|done]. intros _. exists []. by repeat constructor.
  - rewrite Forall2_NoDup_cons by (apply rproxy_ok_fun).
    pose proof (validate_rproxy_ok i seen r) as H.
    destruct (validate_rproxy i seen r) as [[seen' ws] es]. destruct H as [He Hseen].
    pose proof (fun sp => IH (S i) ({[sp]} ∪ seen)) as IHs.
    destruct (validate_rproxies (S i) seen' rs) as [ws' es'] eqn:Hv. simpl.
    split.
    + intros [-> ->]%app_eq_nil. destruct He as [He _]. destruct (He eq_refl) as (sp & Hp & Hn).
      exists sp. split; [done|]. apply IHs. rewrite <- (Hseen sp) by done. by rewrite Hv.
    + intros (sp & Hsp & Hrest). assert (es = []) as -> by (apply He; by exists sp).
      apply IHs in Hrest. rewrite <- (Hseen sp), Hv in Hrest by (done || apply Hsp).
      simpl in Hrest. by rewrite Hrest.
Qed.

Lemma check_reverse_sections_ok c :
  check_reverse_sections c = [] <->
  (cf_reverse_proxies c <> [] ->
   is_Some (cf_reverse_proxy_server c) \/ is_Some (cf_reverse_proxy_client c)).
Proof.
  unfold check_reverse_sections.
  destruct (cf_reverse_proxies c), (cf_reverse_proxy_server c), (cf_reverse_proxy_client c); simpl;
    split; try done; try (by intros _ _; left; eexists); try (by intros _ _; right; eexists).
  intros H. destruct H as [[? ?]|[? ?]]; done.
Qed.

Lemma validate_server_ok s : (validate_server s).2 = [] <-> bind_ok s.
Proof.
  unfold validate_server, bind_ok. destruct (ss_bind_ip s) as [b|]; [|done].
  destruct (String.eqb_spec (trim b) "") as [|Hne]; [simpl; tauto|].
  destruct (parse_ip (trim b)) as [ip|] eqn:Hp.
  - destruct (negb _); simpl; split; try done; intros _; right; by eexists.
  - simpl. split; [done|]. by intros [?|[? ?]].
Qed.

(** The loops together. *)
Lemma validate_acceptable c :
  is_ok (validate c).1 = true <-> acceptable c.
Proof.
  assert (is_ok (validate c).1 = true <->
    check_reverse_sections c = [] /\
    (forall s, cf_server c = Some s -> (validate_server s).2 = []) /\
    (validate_proxies 0 ∅ (cf_proxies c)).2 = [] /\
    (validate_rproxies 0 ∅ (cf_reverse_proxies c)).2 = []) as ->.
  { unfold validate.
    destruct (validate_proxies 0 ∅ (cf_proxies c)) as [[ps ws2] e2].
    destruct (validate_rproxies 0 ∅ (cf_reverse_proxies c)) as [ws3 e3].
    destruct (cf_server c) as [s|].
    - destruct (validate_server s) as [[s' ws1] e1] eqn:Hs. simpl.
      transitivity (check_reverse_sections c ++ e1 ++ e2 ++ e3 = []).
      { destruct (check_reverse_sections c ++ e1 ++ e2 ++ e3); simpl; split; done. }
      rewrite app3_nil. split; intros (? & H & ? & ?); split_and!; try done.
      + intros ? [= <-]. by rewrite Hs.
      + specialize (H s eq_refl). by rewrite Hs in H.
    - simpl. transitivity (check_reverse_sections c ++ [] ++ e2 ++ e3 = []).
      { destruct (check_reverse_sections c ++ [] ++ e2 ++ e3) eqn:He; simpl in *;
        rewrite He; simpl; split; done. }
      rewrite app3_nil. naive_solver. }
  rewrite check_reverse_sections_ok, validate_proxies_ok, validate_rproxies_ok.
  split.
  - intros (? & Hb & (lps & ? & ? & _) & (sps & ? & ? & _)). constructor; eauto.
    intros s Hs. by apply validate_server_ok, Hb.
  - intros [? Hb (lps & ? & ?) (sps & ? & ?)]. split_and!; [done| | |].
    + intros s Hs. by apply validate_server_ok, Hb.
    + exists lps. split_and!; [done..|]. apply Forall_forall. set_solver.
    + exists sps. split_and!; [done..|]. apply Forall_forall. set_solver.
Qed.

(** C10. Validation accepts a configuration exactly when it meets its
    declarative description: every rule's ports are between 1 and 65535, no two
    forward rules share a local port and no two reverse rules a server port,
    every source and bind address that is kept is an IP address, and reverse
    rules come with a reverse server or client section. *)
Theorem validate_accepts_iff c :
  is_ok (validate c).1 = true <-> acceptable c.
Proof. apply validate_acceptable. Qed.

Definition sample_proxy (local remote : string) : ProxySection :=
  mkProxySection local remote (Some " NULL ") None None None.

Definition sample_config : ConfigFile :=
  mkConfigFile (Some (mkServerSection (Some " 10.0.0.1 ") None))
    [sample_proxy "8080" "10.0.0.2:80"; sample_proxy "127.0.0.1:8081" "[::1]:443"] None None [] None None.

(** ** Validation normalises *)

Lemma validate_proxy_again i seen p p' seen' ws :
  validate_proxy i seen p = (p', seen', ws, []) ->
  validate_proxy i seen p' = (p', seen', [], []) /\ source_normal (ps_source_ip p').
Proof.
  unfold validate_proxy. intros H.
  destruct (ProxySection.get_local_port p) as [lp|e] eqn:Hlp; [|done].
  destruct (ProxySection.get_remote_host p) as [h|e] eqn:Hh; [|injection H as _ _ _ H; len_absurd H].
  destruct (ProxySection.get_remote_port p) as [rp|e] eqn:Hrp; [|injection H as _ _ _ H; len_absurd H].
  match goal with H : context [check_source_ip ?pre ?src] |- _ =>
    destruct (check_source_ip pre src) as [[src' ws'] es] eqn:Hs end.
  injection H as <- <- <- H. rewrite app3_nil in H. destruct H as (H1 & H2 & H3 & ->).
  apply check_source_ip_normal in Hs as Hn. split; [|done].
  change (ProxySection.get_local_port (with_source_ip p src')) with (ProxySection.get_local_port p).
  change (ProxySection.get_remote_host (with_source_ip p src')) with (ProxySection.get_remote_host p).
  change (ProxySection.get_remote_port (with_source_ip p src')) with (ProxySection.get_remote_port p).
  rewrite Hlp, Hh, Hrp, H1, H2, H3. simpl ps_source_ip.
  by rewrite check_source_ip_stable.
Qed.

Lemma validate_proxies_again ps i seen ps' ws :
  validate_proxies i seen ps = (ps', ws, []) ->
  validate_proxies i seen ps' = (ps', [], []) /\ Forall (fun p => source_normal (ps_source_ip p)) ps'.
Proof.
  revert i seen ps' ws. induction ps as [|p ps IH]; intros i seen ps' ws; simpl.
  - by intros [= <- <-].
  - destruct (validate_proxy i seen p) as [[[p1 seen1] ws1] es1] eqn:Hp.
    destruct (validate_proxies (S i) seen1 ps) as [[ps2 ws2] es2] eqn:Hps.
    intros [= <- <- [-> ->]%app_eq_nil].
    apply validate_proxy_again in Hp as [Hp Hn]. apply IH in Hps as [Hps Hns].
    simpl. rewrite Hp, Hps. split; [done|]. by constructor.
Qed.

Lemma validate_server_again s s' ws :
  validate_server s = (s', ws, []) -> validate_server s' = (s', [], []) /\ bind_normal s'.
Proof.
  unfold validate_server, bind_normal. intros H.
  destruct (ss_bind_ip s) as [b|] eqn:Hb; [|by injection H as <- <-; rewrite Hb].
  destruct (String.eqb_spec (trim b) "") as [|Hne].
  { injection H as <- <-. split; [by vm_compute|]. simpl. by split_and!. }
  destruct (parse_ip (trim b)) as [ip|] eqn:Hip; [|done].
  destruct (String.eqb_spec (trim b) b) as [Ht|Ht]; simpl in H; injection H as <- <-.
  - rewrite Hb, Ht. destruct (String.eqb_spec b "") as [|]; [congruence|].
    rewrite Ht in Hip. rewrite Hip. simpl. rewrite String.eqb_refl. by eauto 6.
  - simpl. rewrite trim_idem. destruct (String.eqb_spec (trim b) "") as [|_]; [done|].
    rewrite Hip, String.eqb_refl. by eauto 6.
Qed.

Lemma validate_normal c ws c' :
  validate c = (Ok ws, c') ->
  normalised c' /\ (validate c').2 = c' /\ is_ok (validate c').1 = true /\
  cf_reverse_proxies c' = cf_reverse_proxies c /\
  map ps_local (cf_proxies c') = map ps_local (cf_proxies c) /\
  map ps_remote (cf_proxies c') = map ps_remote (cf_proxies c).
Proof.
  unfold validate. intros H.
  destruct (validate_proxies 0 ∅ (cf_proxies c)) as [[ps ws2] e2] eqn:Hps.
  destruct (validate_rproxies 0 ∅ (cf_reverse_proxies c)) as [ws3 e3] eqn:Hrs.
  destruct (match cf_server c with Some s => _ | None => _ end) as [[srv ws1] e1] eqn:Hsrv.
  assert (map ps_local ps = map ps_local (cf_proxies c) /\ map ps_remote ps = map ps_remote (cf_proxies c)) as [].
  { clear - Hps. revert Hps. generalize (∅ : gset Z), 0%nat.
    revert ps ws2 e2. induction (cf_proxies c) as [|p l IH]; intros ps ws2 e2 seen i; simpl; [by intros [= <-]|].
    destruct (validate_proxy i seen p) as [[[p' seen'] ws'] es'] eqn:Hp.
    destruct (validate_proxies (S i) seen' l) as [[l' ws''] es''] eqn:Hl.
    intros [= <- _ _]. simpl. apply IH in Hl as [-> ->].
    assert (ps_local p' = ps_local p /\ ps_remote p' = ps_remote p) as [-> ->]; [|done].
    unfold validate_proxy in Hp. repeat case_match; by simplify_eq. }
  destruct (check_reverse_sections c ++ e1 ++ e2 ++ e3) eqn:He; simpl in H; [|done].
  injection H as <- <-. rewrite app3_nil in He. destruct He as (Hsec & -> & -> & ->).
  apply validate_proxies_again in Hps as [Hps Hn].
  assert (match srv with Some s => let '(s, ws, es) := validate_server s in (Some s, ws, es)
          | None => (None, [], []) end = (srv, [], []) /\
          forall s, srv = Some s -> bind_normal s) as [Hsrv' Hbind].
  { destruct (cf_server c) as [s|]; [|by injection Hsrv as <- <-].
    destruct (validate_server s) as [[s' ws'] es'] eqn:Hs. injection Hsrv as <- <- ->.
    apply validate_server_again in Hs as [-> ?]. by split; [|intros ? [= <-]]. }
  split; [by split|]. simpl. rewrite Hps, Hrs, Hsrv'.
  assert (check_reverse_sections (mkConfigFile srv ps (cf_token c) (cf_totp_secret c) (cf_reverse_proxies c)
              (cf_reverse_proxy_server c) (cf_reverse_proxy_client c)) = []) as -> by exact Hsec.
  by simpl.
Qed.

(** C36. A configuration that passes validation comes out normalised: a bind
    address that is kept is a trimmed IP address, every forward rule's
    [source_ip] is absent or, apart from blanks around it, an IP address, never
    empty or [null]; only those
    two fields change, and validating the result again succeeds and changes
    nothing. *)
Theorem validate_normalises c ws c' :
  validate c = (Ok ws, c') ->
  normalised c' /\ (validate c').2 = c' /\ is_ok (validate c').1 = true /\
  cf_reverse_proxies c' = cf_reverse_proxies c /\
  map ps_local (cf_proxies c') = map ps_local (cf_proxies c) /\
  map ps_remote (cf_proxies c') = map ps_remote (cf_proxies c).
Proof. apply validate_normal. Qed.

Theorem validate_normalises_witness :
  exists ws c', validate sample_config = (Ok ws, c') /\ normalised c' /\
    map ps_source_ip (cf_proxies c') = [None; None].
Proof.
  eexists _, _. split; [vm_compute; reflexivity|]. split; [|reflexivity].
  eapply (validate_normalises sample_config). vm_compute. reflexivity.
Defined.

(** ** Addresses *)

Lemma show_dec_no_colon p : 0 <= p -> has_char ":" (show_dec p) = false.
Proof. intros Hp. apply show_dec_no_char; [done|]. vm_compute. intros [? H]. by apply H. Qed.

Lemma split_host_port h p :
  0 <= p -> split_char ":" (h +:+ ":" +:+ show_dec p) = split_char ":" h ++ [show_dec p].
Proof. intros Hp. apply split_char_app. by apply show_dec_no_colon. Qed.

Lemma has_colon_host_port h p : has_char ":" (h +:+ ":" +:+ p) = true.
Proof. rewrite !has_char_app. simpl. by rewrite orb_true_r. Qed.

Lemma split_char_length_pos c s : (1 <= length (split_char c s))%nat.
Proof. destruct (split_char_cons c s) as (p & ps & ->). simpl. lia. Qed.

Lemma parse_port_show path reason p : in_u 16 p -> parse_port path reason (show_dec p) = Ok p.
Proof. intros Hp. unfold parse_port, parse_u16. rewrite parse_uint_show; [done|]. unfold in_u in Hp. lia. Qed.

Lemma host_port_split h p :
  in_u 16 p ->
  let s := h +:+ ":" +:+ show_dec p in
  has_char ":" s = true /\
  (2 <= length (split_char ":" s))%nat /\
  join_init (split_char ":" s) = h /\
  nth 0 (rsplit_char ":" s) "" = show_dec p.
Proof.
  intros Hp. simpl. assert (0 <= p) by (unfold in_u in Hp; lia).
  unfold rsplit_char, join_init. rewrite split_host_port by done.
  pose proof (split_char_length_pos ":" h). rewrite length_app, rev_app_distr. simpl.
  split; [apply has_colon_host_port|]. split; [lia|]. split; [|done].
  replace (length (split_char ":" h) + 1 - 1)%nat with (length (split_char ":" h)) by lia.
  rewrite take_app_length. apply join_split.
Qed.

(** Writing [host:port] and reading it back: for every host, IPv6 text
    included, and every 16-bit port, the remote side of a forward rule and both
    sides of a reverse rule give back exactly that host and port. *)
Theorem host_port_roundtrip h p :
  in_u 16 p ->
  let s := h +:+ ":" +:+ show_dec p in
  (forall pr, ps_remote pr = s ->
     ProxySection.get_remote_host pr = Ok h /\ ProxySection.get_remote_port pr = Ok p) /\
  (forall r, rs_server r = s ->
     ReverseProxySection.get_server_ip r = Some h /\ ReverseProxySection.get_server_port r = Ok p) /\
  (forall r, rs_local r = s ->
     ReverseProxySection.get_local_host r = Some h /\ ReverseProxySection.get_local_port r = Ok p).
Proof.
  intros Hp s. destruct (host_port_split h p Hp) as (Hc & Hl & Hj & Hn). fold s in Hc, Hl, Hj, Hn.
  assert ((length (split_char ":" s) <? 2)%nat = false) as Hlt by (apply Nat.ltb_ge; lia).
  assert ((2 <=? length (split_char ":" s))%nat = true) as Hle by (apply Nat.leb_le; lia).
  assert (length (rsplit_char ":" s) = length (split_char ":" s)) as Hr by apply length_rev.
  split_and!.
  - intros pr Hpr. unfold ProxySection.get_remote_host, ProxySection.get_remote_port.
    rewrite Hpr, Hc, Hlt, Hr, Hlt, Hn, Hj, parse_port_show; done.
  - intros r Hs. unfold ReverseProxySection.get_server_ip, ReverseProxySection.get_server_port, ReverseProxySection.last_port.
    rewrite Hs, Hc, Hle, Hr, Hlt, Hn, Hj, parse_port_show; done.
  - intros r Hs. unfold ReverseProxySection.get_local_host, ReverseProxySection.get_local_port, ReverseProxySection.last_port.
    rewrite Hs, Hc, Hle, Hr, Hlt, Hn, Hj, parse_port_show; done.
Qed.

Theorem host_port_roundtrip_witness :
  ProxySection.get_remote_host (sample_proxy "8081" "[::1]:443") = Ok "[::1]" /\
  ProxySection.get_remote_port (sample_proxy "8081" "[::1]:443") = Ok 443.
Proof.
  apply (host_port_roundtrip "[::1]" 443); [unfold in_u; lia | reflexivity].
Defined.

(** The local side of a forward rule is stricter than the remote side: an
    [ip:port] text is read back when the address has no colon, and every text
    with two or more colons, an IPv6 bind address for instance, is rejected
    with a configuration error and without a bind address. *)
Theorem forward_local_address pr h p :
  in_u 16 p -> ps_local pr = h +:+ ":" +:+ show_dec p ->
  if has_char ":" h
  then ProxySection.get_local_ip pr = None /\
       exists reason, ProxySection.get_local_port pr = Err (Config (InvalidConfigValue "local" reason))
  else ProxySection.get_local_ip pr = Some h /\ ProxySection.get_local_port pr = Ok p.
Proof.
  intros Hp Hs. assert (0 <= p) by (unfold in_u in Hp; lia).
  unfold ProxySection.get_local_ip, ProxySection.get_local_port.
  rewrite Hs, has_colon_host_port, split_host_port, length_app by done.
  destruct (has_char ":" h) eqn:Hh.
  - apply split_char_length in Hh. destruct (Nat.eqb_spec (length (split_char ":" h) + length [show_dec p]) 2) as [He|He].
    { simpl in He. lia. }
    split; [done|]. simpl. by eexists.
  - rewrite (split_char_none _ _ Hh). simpl. by rewrite parse_port_show.
Qed.

Theorem forward_local_address_witness :
  exists reason, ProxySection.get_local_port (sample_proxy "::1:8080" "80") =
    Err (Config (InvalidConfigValue "local" reason)).
Proof.
  apply (forward_local_address (sample_proxy "::1:8080" "80") "::1" 8080);
    [unfold in_u; lia | reflexivity].
Defined.

(** ** The sanitizer *)

Fixpoint all_chars (P : ascii -> bool) (s : string) : bool :=
  match s with "" => true | String a s => P a && all_chars P s end.

Definition is_ascii_char (c : ascii) : bool := char_z c <? 128.
Abbreviation is_ascii := (all_chars is_ascii_char).

Lemma all_chars_app P s t : all_chars P (s +:+ t) = all_chars P s && all_chars P t.
Proof. induction s as [|a s IH]; [done|]. rewrite str_app_cons. simpl. by rewrite IH, andb_assoc. Qed.

Lemma split_first_app c s p r : split_first c s = Some (p, r) -> s = p +:+ String c r.
Proof.
  revert p. induction s as [|a s IH]; intros p; simpl; [done|].
  destruct (Ascii.eqb_spec a c) as [->|]; [by intros [= <- <-]|].
  destruct (split_first c s) as [[p' r']|]; [|done]. intros [= <- <-].
  rewrite str_app_cons. f_equal. by apply IH.
Qed.

Lemma split_at_app n s : s = (split_at n s).1 +:+ (split_at n s).2.
Proof.
  revert s. induction n as [|n IH]; intros s; [by destruct s|].
  destruct s as [|a s]; [done|]. simpl. specialize (IH s).
  destruct (split_at n s) as [p r]. simpl in *. rewrite str_app_cons. by f_equal.
Qed.

Lemma trim_start_suffix s : exists p, s = p +:+ trim_start s.
Proof. apply strip_many_suffix. Qed.

Lemma drop_last_prefix s : exists t, s = drop_last s +:+ t.
Proof.
  induction s as [|a s [t IH]]; [by exists ""|]. destruct s as [|b s].
  - by exists (String a "").
  - exists t. change (drop_last (String a (String b s))) with (String a (drop_last (String b s))).
    rewrite str_app_cons. by f_equal.
Qed.

Lemma split_inclusive_ascii s : is_ascii s = true -> Forall (fun l => is_ascii l = true) (split_inclusive s).
Proof.
  induction s as [|a s IH]; simpl; [done|]. intros [Ha Hs]%andb_prop. specialize (IH Hs).
  destruct (Ascii.eqb a newline); [constructor; [simpl; by rewrite Ha|done]|].
  destruct IH as [|p ps Hp Hps]; constructor; try done; simpl; by rewrite Ha, ?Hp.
Qed.

Lemma sanitize_line_ascii body : is_ascii body = true -> sanitize_line body <> Panic.
Proof.
  intros Hb. unfold sanitize_line.
  destruct (split_first "=" body) as [[key rest]|] eqn:Hsp; [|done].
  apply split_first_app in Hsp as ->. rewrite all_chars_app in Hb. simpl in Hb.
  apply andb_prop in Hb as [_ Hrest]. destruct (trim_start_suffix rest) as (ws & Hws).
  rewrite Hws, all_chars_app in Hrest. apply andb_prop in Hrest as [_ Htr].
  pose proof (split_at_app 4 (trim_start rest)) as Hsa.
  destruct (split_at 4 (trim_start rest)) as [hd rem]. simpl in Hsa.
  rewrite Hsa, all_chars_app in Htr. apply andb_prop in Htr as [_ Hrem].
  assert (is_char_boundary rem = true) as ->.
  { destruct rem as [|a rem]; [done|]. simpl in Hrem. apply andb_prop in Hrem as [Ha _].
    unfold is_char_boundary, is_ascii_char in *. boolp.
    destruct (Z.leb_spec 128 (char_z a)); [lia|done]. }
  simpl. by repeat case_if.
Qed.

Lemma sanitize_lines_ascii lines :
  Forall (fun l => is_ascii l = true) lines -> exists s, sanitize_lines lines = Val s.
Proof.
  induction 1 as [|raw lines Hraw _ [s IH]]; simpl; [by eauto|]. rewrite IH.
  assert (forall body, is_ascii body = true -> exists l, sanitize_line body = Val l) as H.
  { intros body Hb. pose proof (sanitize_line_ascii body Hb). destruct (sanitize_line body); [by eauto|done]. }
  destruct (ends_with_char newline raw).
  - destruct (drop_last_prefix raw) as (t & Ht). rewrite Ht, all_chars_app in Hraw.
    apply andb_prop in Hraw as [Hb _]. destruct (H _ Hb) as (l & ->). by eauto.
  - destruct (H _ Hraw) as (l & ->). by eauto.
Qed.

Lemma sanitize_ascii content : is_ascii content = true -> exists s, sanitize_special_values content = Val (s, []).
Proof.
  intros H. unfold sanitize_special_values.
  destruct (sanitize_lines_ascii _ (split_inclusive_ascii _ H)) as (s & ->). by eauto.
Qed.

(** Loading never panics on a pure-ASCII configuration text, whatever the
    TOML parser answers.  It does panic on a text whose [source_ip] value has a
    multi-byte character straddling its fourth byte: the sanitizer slices the
    value at byte 4 without checking that this is a character boundary. *)
Theorem load_panics_only_off_boundary toml :
  (forall content, is_ascii content = true -> load_from_str_with_warnings toml content <> Panic) /\
  (forall key value,
     has_char "=" key = false -> has_char newline (key +:+ "=" +:+ value) = false ->
     eq_ignore_ascii_case (trim key) "source_ip" = true ->
     (4 <= String.length (trim_start value))%nat ->
     is_char_boundary (split_at 4 (trim_start value)).2 = false ->
     load_from_str_with_warnings toml (key +:+ "=" +:+ value) = Panic).
Proof.
  split.
  - intros content H. unfold load_from_str_with_warnings. by destruct (sanitize_ascii content H) as (s & ->).
  - intros key value Hk Hnl Hsrc Hlen Hb. unfold load_from_str_with_warnings, sanitize_special_values.
    assert (forall s, has_char newline s = false -> s <> "" -> split_inclusive s = [s]) as Hone.
    { clear. induction s as [|a s IH]; [done|]. simpl. intros [Ha Hs]%orb_false_elim _. rewrite Ha.
      destruct s as [|b s]; [done|]. rewrite IH; done. }
    assert (key +:+ "=" +:+ value <> "") as Hne by (by destruct key).
    rewrite Hone by done. simpl.
    assert (forall s, has_char newline s = false -> ends_with_char newline s = false) as Hend.
    { clear. induction s as [|a s IH]; [done|]. simpl. intros [Ha Hs]%orb_false_elim.
      destruct s; [done|]. by apply IH. }
    rewrite Hend by done. unfold sanitize_line.
    assert (split_first "=" (key +:+ "=" +:+ value) = Some (key, value)) as ->.
    { clear - Hk. induction key as [|a key IH]; [done|]. simpl in *.
      apply orb_false_elim in Hk as [Ha Hk]. rewrite Ha. fold (key +:+ "=" +:+ value). by rewrite IH. }
    rewrite Hsrc. apply Nat.leb_le in Hlen. rewrite Hlen.
    destruct (split_at 4 (trim_start value)) as [hd rem]. simpl in Hb. by rewrite Hb.
Qed.

Theorem load_panics_only_off_boundary_witness :
  load_from_str_with_warnings (fun _ => Err (mkTomlError "" None)) ("source_ip=" +:+ "日本") = Panic.
Proof.
  apply (proj2 (load_panics_only_off_boundary (fun _ => Err (mkTomlError "" None))) "source_ip" "日本");
    vm_compute; try reflexivity. lia.
Defined.

(** ** Positions *)

Fixpoint count_char (c : ascii) (l : list ascii) : nat :=
  match l with [] => 0%nat | a :: l => ((if Ascii.eqb a c then 1 else 0) + count_char c l)%nat end.

(** The bytes since the last line feed or carriage return. *)
Definition since_break (l : list ascii) : nat :=
  fold_left (fun n a => if Ascii.eqb a newline || Ascii.eqb a "013" then 0%nat else S n) l 0%nat.

(** The reported position of a TOML error: the line is one more than the line
    feeds before it, the column one more than the bytes since the last break. *)
Lemma offset_to_line_col_spec content offset :
  let before := String.list_ascii_of_string (split_at (Nat.min offset (String.length content)) content).1 in
  offset_to_line_col content offset = (S (count_char newline before), S (since_break before)).
Proof.
  simpl. unfold offset_to_line_col, since_break.
  generalize (String.list_ascii_of_string (split_at (Nat.min offset (String.length content)) content).1).
  intros l. cut (forall n m, fold_left advance l (S n, S m) =
    (S (count_char newline l + n), S (fold_left (fun n a => if Ascii.eqb a newline || Ascii.eqb a "013" then 0%nat else S n) l m))).
  { intros H. specialize (H 0%nat 0%nat). by rewrite Nat.add_0_r in H. }
  induction l as [|a l IH]; intros n m; [done|].
  simpl. destruct (Ascii.eqb a newline); simpl; [rewrite IH; do 3 f_equal; lia|].
  destruct (Ascii.eqb a "013"); by rewrite IH.
Qed.

(** ** Search order *)

Section Search.
Context (toml_from_str : string -> result ConfigFile TomlError).
Context (fs_read : string -> result string IoError) (fs_exists : string -> bool).
Context (debug_path : string -> string) (debug_paths : list string -> string).

Let load := load_from_file toml_from_str fs_read.
Let search args := load_with_search toml_from_str fs_read fs_exists args debug_path debug_paths.

Lemma search_paths_first paths c path :
  search_paths toml_from_str fs_read fs_exists paths = Val (Some (c, path)) <->
  exists before after, paths = before ++ path :: after /\ fs_exists path = true /\ load path = Val (Ok c) /\
    Forall (fun p => fs_exists p = true -> exists e, load p = Val (Err e)) before.
Proof.
  unfold load. induction paths as [|p paths IH]; simpl.
  - split; [done|]. by intros ([] & ? & ? & _).
  - assert (forall before after, p :: paths = before ++ path :: after <->
      (before = [] /\ p = path /\ paths = after) \/
      (exists before', before = p :: before' /\ paths = before' ++ path :: after)) as Hcase.
    { intros [|b before] after; simpl; split; [intros [= -> ->]; by left | | |].
      - intros [(_ & -> & ->)|(? & ? & _)]; done.
      - intros [= -> ->]. right. by eexists.
      - intros [(? & _)|(? & [= -> ->] & ->)]; done. }
    destruct (fs_exists p) eqn:Hex.
    + destruct (load_from_file toml_from_str fs_read p) as [[c'|e]|] eqn:Hl.
      * split.
        -- intros [= <- <-]. exists [], paths. by repeat split.
        -- intros (before & after & [(-> & -> & _)|(b & -> & _)]%Hcase & ? & ? & HF); [congruence|].
           apply Forall_cons in HF as [HF _]. destruct (HF Hex) as (? & ?). congruence.
      * rewrite IH. split.
        -- intros (before & after & -> & ? & ? & ?). exists (p :: before), after.
           repeat split; try done. constructor; [by eauto|done].
        -- intros (before & after & [(-> & -> & _)|(b & -> & ->)]%Hcase & ? & ? & HF); [congruence|].
           apply Forall_cons in HF as [_ HF]. by eauto 6.
      * split; [done|].
        intros (before & after & [(-> & -> & _)|(b & -> & _)]%Hcase & ? & ? & HF); [congruence|].
        apply Forall_cons in HF as [HF _]. destruct (HF Hex) as (? & ?). congruence.
    + rewrite IH. split.
      * intros (before & after & -> & ? & ? & ?). exists (p :: before), after.
        repeat split; try done. constructor; [congruence|done].
      * intros (before & after & [(-> & -> & _)|(b & -> & ->)]%Hcase & ? & ? & HF); [congruence|].
        apply Forall_cons in HF as [_ HF]. by eauto 6.
Qed.

End Search.
