(* ===== verification/Totp.v ===== *)
(** * Totp: time-based one-time passwords (src/src/utils/totp.rs)

    [HMAC_SHA1] of the [ring] crate and [BASE32] of [data_encoding] are
    parameters.  A [u32] or [u64] is a [Z]; indexing out of range and a
    division by zero are [Panic]. *)

From Stdlib Require Import Ascii String ZArith Lia.
From stdpp Require Import base gmap strings list.
From S2P Require Import Prelude Text.

Record Totp := mkTotp { secret : list byte; digits : Z; step_secs : Z }.

(** [Totp::new], [Totp::with_digits] *)
Definition new (s : list byte) : Totp := mkTotp s 6 30.
Definition with_digits (s : list byte) (d : Z) : Totp := mkTotp s d 30.

(** [hmac_result\[i\]] *)
Definition index (bs : list byte) (i : nat) : outcome Z :=
  match bs !! i with Some b => Val (byte_z b) | None => Panic end.

(** [a / b] and [a % b] on unsigned integers *)
Definition u_div (a b : Z) : outcome Z := if b =? 0 then Panic else Val (a / b).
Definition u_rem (a b : Z) : outcome Z := if b =? 0 then Panic else Val (a mod b).

(** The bit manipulation of [generate] on the HMAC tag; [10u32.pow(digits)]
    wraps in the release build. *)
Definition truncate (tag : list byte) (d : Z) : outcome Z :=
  let! last := index tag (length tag - 1) in
  let offset := Z.to_nat (Z.land last 15) in
  let! h0 := index tag offset in
  let! h1 := index tag (offset + 1) in
  let! h2 := index tag (offset + 2) in
  let! h3 := index tag (offset + 3) in
  let b1 := Z.shiftl (Z.land h0 127) 24 in
  let b2 := Z.shiftl (Z.land h1 255) 16 in
  let b3 := Z.shiftl (Z.land h2 255) 8 in
  let b4 := Z.land h3 255 in
  let code := Z.lor (Z.lor (Z.lor b1 b2) b3) b4 in
  u_rem code (wrap 32 (10 ^ d)).

Section Generate.
(** [hmac::sign] with [HMAC_SHA1_FOR_LEGACY_USE_ONLY]: key, message, tag. *)
Variable hmac_sha1 : list byte -> list byte -> list byte.

Definition generate (t : Totp) (timestamp : Z) : outcome Z :=
  let! counter := u_div timestamp (step_secs t) in
  truncate (hmac_sha1 (secret t) (be_bytes 8 counter)) (digits t).

(** [None]: the clock is before 1970, where the [unwrap] panics. *)
Definition generate_current (t : Totp) (clock : option Z) : outcome Z :=
  match clock with
  | Some now => generate t now
  | None => Panic
  end.

(** The time step the loop of [verify] looks at for [i]. *)
Definition drifted (t : Totp) (now i : Z) : Z :=
  if i <? 0 then sat_sub now (step_secs t)
  else if 0 <? i then sat_add 64 now (step_secs t)
  else now.

Fixpoint verify_loop (t : Totp) (now code : Z) (steps : list Z) : outcome bool :=
  match steps with
  | [] => Val false
  | i :: steps =>
      let! g := generate t (drifted t now i) in
      if g =? code then Val true else verify_loop t now code steps
  end.

Definition verify (t : Totp) (now code : Z) : outcome bool :=
  verify_loop t now code [-1; 0; 1].
End Generate.

Section Base32.
Variable to_uppercase : string -> string.
Variable b32_encode : list byte -> string.
Variable b32_decode : string -> result (list byte) string.

(** [s.replace(" ", "")] *)
Fixpoint drop_spaces (s : string) : string :=
  match s with
  | "" => ""
  | String a s => if Ascii.eqb a " " then drop_spaces s else String a (drop_spaces s)
  end.

(** [while s.len() % 8 != 0 { s.push('=') }] *)
Fixpoint pad8 (fuel : nat) (s : string) : string :=
  match fuel with
  | O => s
  | S fuel =>
      if (String.length s mod 8 =? 0)%nat then s else pad8 fuel (s +:+ "=")
  end.

Definition from_base32 (secret_b32 : string) : result Totp string :=
  let clean_secret := pad8 8 (to_uppercase (drop_spaces secret_b32)) in
  let? bytes := map_err (fun e => "Invalid Base32 secret: " +:+ e) (b32_decode clean_secret) in
  Ok (new bytes).

Definition generate_otpauth_uri (t : Totp) (label issuer : string) : string :=
  "otpauth://totp/" +:+ label +:+ "?secret=" +:+ b32_encode (secret t) +:+
  "&issuer=" +:+ issuer +:+ "&digits=" +:+ show_dec (digits t) +:+
  "&period=" +:+ show_dec (step_secs t).

(** [generate_random], from the ten random bytes drawn. *)
Definition generate_random (rnd : list byte) : Totp * string := (new rnd, b32_encode rnd).
End Base32.

(** ** Specification: RFC 4226 truncation, RFC 6238 time steps *)

(** The 31-bit big-endian integer at the offset the last nibble names. *)
Definition dynamic_truncation (tag : list byte) : Z :=
  let offset := Z.to_nat (be_value (drop 19 tag) mod 16) in
  be_value (take 4 (drop offset tag)) mod 2 ^ 31.

Definition hotp (tag : list byte) (d : Z) : Z := dynamic_truncation tag mod 10 ^ d.

(** The fields [new] and the tests use. *)
Definition wf_totp (t : Totp) : Prop := 0 <= digits t <= 9 /\ 0 < step_secs t < 2 ^ 63.

(** ** Lemmas *)

Lemma index_lookup bs i b : bs !! i = Some b -> index bs i = Val (byte_z b).
Proof. unfold index. by intros ->. Qed.

Lemma pow10_u32 d : 0 <= d <= 9 -> 0 < 10 ^ d /\ wrap 32 (10 ^ d) = 10 ^ d.
Proof.
  intros H. assert (0 < 10 ^ d <= 10 ^ 9) by (split; [lia | apply Z.pow_le_mono_r; lia]).
  split; [lia|]. apply wrap_small. unfold in_u. lia.
Qed.

(** Disjoint fields: [lor] is addition. *)
Lemma lor_shift_add a b n : 0 <= n -> 0 <= a < 2 ^ n -> Z.lor (Z.shiftl b n) a = b * 2 ^ n + a.
Proof.
  intros Hn Ha. rewrite Z.shiftl_mul_pow2 by done. rewrite <- Z.add_lor_land.
  assert (Z.land (b * 2 ^ n) a = 0) as ->; [|lia].
  rewrite <- Z.shiftl_mul_pow2 by done. apply Z.bits_inj'. intros i Hi.
  rewrite Z.land_spec, Z.bits_0, Z.shiftl_spec by done.
  destruct (Z.lt_ge_cases i n) as [Hin|Hin].
  - by rewrite (Z.testbit_neg_r b) by lia.
  - rewrite <- (Z.mod_small a (2 ^ n)), Z.mod_pow2_bits_high by lia.
    by rewrite andb_false_r.
Qed.

Lemma be_value_cons b bs :
  be_value (b :: bs) = byte_z b * 2 ^ (8 * Z.of_nat (length bs)) + be_value bs.
Proof.
  pose proof (be_value_bound bs) as Hb. unfold be_value, in_u in *. simpl rev.
  rewrite LittleEndianList.le_combine_app, length_rev, (Z.mul_comm _ 8), Z.lor_comm.
  rewrite lor_shift_add by lia. change (LittleEndianList.le_combine [b]) with (Z.lor (byte_z b) 0).
  by rewrite Z.lor_0_r.
Qed.

(** ** [generate] *)

Lemma land_255 b : Z.land (byte_z b) 255 = byte_z b.
Proof.
  change 255 with (Z.ones 8). rewrite Z.land_ones by lia.
  apply Z.mod_small, byte_z_range.
Qed.

(** Four consecutive bytes below the end of the list. *)
Lemma take4_drop (tag : list byte) n :
  (n + 3 < length tag)%nat ->
  exists b0 b1 b2 b3,
    tag !! n = Some b0 /\ tag !! (n + 1)%nat = Some b1 /\
    tag !! (n + 2)%nat = Some b2 /\ tag !! (n + 3)%nat = Some b3 /\
    take 4 (drop n tag) = [b0; b1; b2; b3].
Proof.
  intros H.
  destruct (lookup_lt_is_Some_2 tag n) as [b0 H0]; [lia|].
  destruct (lookup_lt_is_Some_2 tag (n + 1)) as [b1 H1]; [lia|].
  destruct (lookup_lt_is_Some_2 tag (n + 2)) as [b2 H2]; [lia|].
  destruct (lookup_lt_is_Some_2 tag (n + 3)) as [b3 H3]; [lia|].
  exists b0, b1, b2, b3. repeat (split; [done|]).
  rewrite (drop_S _ _ _ H0). replace (S n) with (n + 1)%nat by lia.
  rewrite (drop_S _ _ _ H1). replace (S (n + 1)) with (n + 2)%nat by lia.
  rewrite (drop_S _ _ _ H2). replace (S (n + 2)) with (n + 3)%nat by lia.
  by rewrite (drop_S _ _ _ H3).
Qed.

(** The masks and shifts compute the 31-bit value of the four bytes. *)
Lemma truncate_bits b0 b1 b2 b3 :
  Z.lor (Z.lor (Z.lor (Z.shiftl (Z.land (byte_z b0) 127) 24)
                      (Z.shiftl (Z.land (byte_z b1) 255) 16))
               (Z.shiftl (Z.land (byte_z b2) 255) 8))
        (Z.land (byte_z b3) 255)
  = be_value [b0; b1; b2; b3] mod 2 ^ 31.
Proof.
  rewrite !land_255. change 127 with (Z.ones 7). rewrite Z.land_ones by lia.
  pose proof (byte_z_range b0). pose proof (byte_z_range b1).
  pose proof (byte_z_range b2). pose proof (byte_z_range b3).
  pose proof (Z.mod_pos_bound (byte_z b0) (2 ^ 7) ltac:(lia)).
  rewrite <- !Z.lor_assoc.
  rewrite (lor_shift_add (byte_z b3) (byte_z b2) 8) by lia.
  rewrite (lor_shift_add _ (byte_z b1) 16) by lia.
  rewrite (lor_shift_add _ _ 24) by lia.
  rewrite !be_value_cons. simpl length. change (be_value []) with 0.
  apply Z.mod_unique with (byte_z b0 / 2 ^ 7); [left; lia|].
  pose proof (Z.div_mod (byte_z b0) (2 ^ 7) ltac:(lia)). lia.
Qed.

Lemma truncate_spec tag d :
  length tag = 20%nat -> 0 <= d <= 9 -> truncate tag d = Val (hotp tag d).
Proof.
  intros Ht Hd. unfold truncate, hotp, dynamic_truncation.
  destruct (lookup_lt_is_Some_2 tag 19) as [l Hl]; [lia|].
  rewrite (index_lookup _ _ l) by (rewrite Ht; done).
  assert (drop 19 tag = [l]) as Hd19.
  { rewrite (drop_S _ _ _ Hl), drop_ge by lia. done. }
  rewrite Hd19. change (be_value [l]) with (be_value (l :: [])).
  rewrite be_value_cons. simpl length. change (be_value []) with 0.
  replace (byte_z l * 2 ^ (8 * Z.of_nat 0) + 0) with (byte_z l) by lia.
  change 15 with (Z.ones 4). rewrite Z.land_ones by lia. change (2 ^ 4) with 16.
  pose proof (Z.mod_pos_bound (byte_z l) 16 ltac:(lia)) as Hoff.
  destruct (take4_drop tag (Z.to_nat (byte_z l mod 16))) as (b0 & b1 & b2 & b3 & H0 & H1 & H2 & H3 & ->); [lia|].
  rewrite (index_lookup _ _ _ H0), (index_lookup _ _ _ H1), (index_lookup _ _ _ H2), (index_lookup _ _ _ H3).
  rewrite truncate_bits. destruct (pow10_u32 d Hd) as [Hp Hw].
  unfold u_rem. rewrite Hw. destruct (Z.eqb_spec (10 ^ d) 0); [lia|done].
Qed.

Lemma drifted_step t now i :
  wf_totp t -> in_u 64 now -> now + step_secs t < 2 ^ 64 -> i ∈ [-1; 0; 1] ->
  drifted t now i / step_secs t = Z.max 0 (now / step_secs t + i).
Proof.
  intros [_ Hs] [Hn _] Hm Hi. unfold drifted, sat_sub, sat_add.
  pose proof (Z.div_pos now (step_secs t) ltac:(lia) ltac:(lia)).
  assert (i = -1 \/ i = 0 \/ i = 1) as [-> | [-> | -> ]] by set_solver; simpl.
  - destruct (Z.le_gt_cases (step_secs t) now).
    + rewrite Z.max_r by lia. replace (now - step_secs t) with (now + -1 * step_secs t) by lia.
      rewrite Z.div_add by lia. pose proof (Z.div_le_mono (step_secs t) now (step_secs t)).
      rewrite Z.div_same in * by lia. lia.
    + rewrite Z.max_l by lia. rewrite Z.div_0_l by lia.
      rewrite (Z.div_small now) by lia. lia.
  - lia.
  - rewrite Z.min_l by lia. replace (now + step_secs t) with (now + 1 * step_secs t) by lia.
    rewrite Z.div_add by lia. lia.
Qed.

Section Spec.
Context (hmac_sha1 : list byte -> list byte -> list byte).
(** A SHA-1 tag has 20 bytes. *)
Context (hmac_length : forall k m, length (hmac_sha1 k m) = 20%nat).

(** The password of one time step. *)
Definition password (t : Totp) (step : Z) : Z :=
  hotp (hmac_sha1 (secret t) (be_bytes 8 step)) (digits t).

Lemma generate_password t ts :
  wf_totp t -> generate hmac_sha1 t ts = Val (password t (ts / step_secs t)).
Proof.
  intros [Hd Hs]. unfold generate, u_div.
  destruct (Z.eqb_spec (step_secs t) 0); [lia|]. by apply truncate_spec.
Qed.

Lemma verify_loop_spec t now code steps :
  wf_totp t ->
  verify_loop hmac_sha1 t now code steps =
  Val (existsb (fun i => password t (drifted t now i / step_secs t) =? code) steps).
Proof.
  intros Hwf. induction steps as [|i steps IH]; [done|]. simpl.
  rewrite generate_password by done. by destruct (_ =? code).
Qed.
End Spec.

(** ** [verify] *)

Lemma verify_true_iff hmac_sha1 t now code :
  (forall k m, length (hmac_sha1 k m) = 20%nat) ->
  wf_totp t -> in_u 64 now -> now + step_secs t < 2 ^ 64 ->
  exists b, verify hmac_sha1 t now code = Val b /\
    (b = true <-> exists i, i ∈ [-1; 0; 1] /\
       password hmac_sha1 t (Z.max 0 (now / step_secs t + i)) = code).
Proof.
  intros Hl Hwf Hn Hm. unfold verify. rewrite verify_loop_spec by done.
  eexists; split; [done|]. rewrite existsb_exists. split.
  - intros (i & Hi & He). apply Z.eqb_eq in He. exists i.
    assert (i ∈ [-1; 0; 1]) by (by apply list_elem_of_In).
    split; [done|]. by rewrite drifted_step in He.
  - intros (i & Hi & He). exists i. split; [by apply list_elem_of_In|].
    apply Z.eqb_eq. by rewrite drifted_step.
Qed.

(** Three candidate steps: the current one and its neighbours. *)
Lemma neighbour_steps c k :
  0 <= c -> 0 <= k -> Z.abs (c - k) <= 1 ->
  exists i, i ∈ [-1; 0; 1] /\ Z.max 0 (c + i) = k.
Proof.
  intros Hc Hk Ha. exists (k - c). split; [|lia].
  assert (k - c = -1 \/ k - c = 0 \/ k - c = 1) as [-> | [-> | -> ]] by lia; set_solver.
Qed.

(** Nearby clocks share a candidate step. *)
Lemma generated_code_verifies hmac_sha1 t client_now server_now :
  (forall k m, length (hmac_sha1 k m) = 20%nat) ->
  wf_totp t -> in_u 64 client_now -> in_u 64 server_now ->
  server_now + step_secs t < 2 ^ 64 ->
  Z.abs (client_now - server_now) <= step_secs t ->
  exists code, generate hmac_sha1 t client_now = Val code /\
    verify hmac_sha1 t server_now code = Val true.
Proof.
  intros Hl Hwf Hc Hs Hm Ha. pose proof Hwf as [_ Hstep].
  exists (password hmac_sha1 t (client_now / step_secs t)).
  split; [by apply generate_password|].
  destruct (verify_true_iff hmac_sha1 t server_now
    (password hmac_sha1 t (client_now / step_secs t)) Hl Hwf Hs Hm) as (b & -> & Hiff).
  f_equal. apply Hiff.
  destruct (neighbour_steps (server_now / step_secs t) (client_now / step_secs t))
    as (i & Hi & He).
  - apply Z.div_pos; [apply Hs|lia].
  - apply Z.div_pos; [apply Hc|lia].
  - pose proof (Z.div_mod client_now (step_secs t) ltac:(lia)).
    pose proof (Z.div_mod server_now (step_secs t) ltac:(lia)).
    pose proof (Z.mod_pos_bound client_now (step_secs t) ltac:(lia)).
    pose proof (Z.mod_pos_bound server_now (step_secs t) ltac:(lia)). nia.
  - exists i. by rewrite He.
Qed.

(** C24. [generate] computes the RFC 4226 / RFC 6238 password: for a 20-byte
    HMAC tag it never panics, the code is the dynamically truncated tag of the
    current time step, and it has at most [digits] decimal digits. *)
Theorem generate_rfc hmac_sha1 t ts :
  (forall k m, length (hmac_sha1 k m) = 20%nat) ->
  wf_totp t ->
  exists code,
    generate hmac_sha1 t ts = Val code /\
    code = hotp (hmac_sha1 (secret t) (be_bytes 8 (ts / step_secs t))) (digits t) /\
    0 <= code < 10 ^ digits t.
Proof.
  intros Hl Hwf. exists (password hmac_sha1 t (ts / step_secs t)).
  split; [by apply generate_password|]. split; [done|].
  apply Z.mod_pos_bound. by apply pow10_u32, Hwf.
Qed.

(** C23. [verify] accepts a code exactly when it is the password of the current
    time step, the one before or the one after (none before the epoch). *)
Theorem verify_iff hmac_sha1 t now code :
  (forall k m, length (hmac_sha1 k m) = 20%nat) ->
  wf_totp t -> in_u 64 now -> now + step_secs t < 2 ^ 64 ->
  exists b, verify hmac_sha1 t now code = Val b /\
    (b = true <->
     exists step, 0 <= step /\ Z.abs (now / step_secs t - step) <= 1 /\
       code = hotp (hmac_sha1 (secret t) (be_bytes 8 step)) (digits t)).
Proof.
  intros Hl Hwf Hn Hm.
  destruct (verify_true_iff hmac_sha1 t now code Hl Hwf Hn Hm) as (b & Hb & Hiff).
  exists b. split; [done|]. rewrite Hiff.
  pose proof (Z.div_pos now (step_secs t) ltac:(apply Hn) ltac:(apply Hwf)). split.
  - intros (i & Hi & <-). eexists. split; [|split; [|done]]; [lia|].
    assert (i = -1 \/ i = 0 \/ i = 1) as [-> | [-> | -> ]] by set_solver; lia.
  - intros (step & Hs & Ha & ->).
    destruct (neighbour_steps (now / step_secs t) step ltac:(done) Hs Ha) as (i & Hi & He).
    exists i. by rewrite He.
Qed.

(** Two peers that share a secret agree while their clocks differ by no
    more than one time step: the code the client generates passes the server's
    check. *)
Theorem clock_skew_tolerated hmac_sha1 t client_now server_now :
  (forall k m, length (hmac_sha1 k m) = 20%nat) ->
  wf_totp t -> in_u 64 client_now -> in_u 64 server_now ->
  server_now + step_secs t < 2 ^ 64 ->
  Z.abs (client_now - server_now) <= step_secs t ->
  exists code, generate hmac_sha1 t client_now = Val code /\
    verify hmac_sha1 t server_now code = Val true.
Proof. apply generated_code_verifies. Qed.

(** ** Base32 import *)

Lemma pad8_done fuel s :
  (String.length s mod 8 = 0)%nat -> pad8 fuel s = s.
Proof. intros H. destruct fuel; [done|]. cbn [pad8]. by rewrite H. Qed.

(** Seven rounds reach a multiple of eight: the loop terminates. *)
Lemma pad8_terminates fuel s :
  (8 - String.length s mod 8 <= fuel)%nat -> (String.length (pad8 fuel s) mod 8 = 0)%nat.
Proof.
  revert s. induction fuel as [|fuel IH]; intros s H; cbn [pad8].
  - pose proof (Nat.mod_upper_bound (String.length s) 8). lia.
  - case_if; boolp; [done|].
    pose proof (Nat.mod_upper_bound (String.length s) 8 ltac:(lia)).
    pose proof (Nat.div_mod_eq (String.length s) 8) as Hdm.
    set (q := (String.length s / 8)%nat) in *. set (r := (String.length s mod 8)%nat) in *.
    destruct (decide (r = 7)%nat) as [Hr|Hr].
    + assert ((String.length (s +:+ "=") mod 8)%nat = 0%nat) as H8.
      { rewrite str_length_app. symmetry. apply Nat.mod_unique with (S q); simpl; lia. }
      by rewrite pad8_done.
    + apply IH. rewrite str_length_app. change (String.length "=") with 1%nat.
      replace ((String.length s + 1) mod 8)%nat with (r + 1)%nat; [lia|].
      apply Nat.mod_unique with q; lia.
Qed.

Lemma drop_spaces_id s : has_char " " s = false -> drop_spaces s = s.
Proof.
  induction s as [|a s IH]; simpl; [done|].
  intros [Ha Hs]%orb_false_elim. by rewrite Ha, IH.
Qed.

Lemma drop_spaces_app s t : drop_spaces (s +:+ t) = drop_spaces s +:+ drop_spaces t.
Proof.
  induction s as [|a s IH]; [done|]. rewrite str_app_cons. simpl.
  destruct (Ascii.eqb a " "); [done|]. by rewrite str_app_cons, IH.
Qed.

(** A secret printed by [generate_random] imports back to the same
    generator, also when a user separates its characters with spaces. *)
Theorem base32_import to_uppercase b32_encode b32_decode rnd typed :
  (forall bs, b32_decode (b32_encode bs) = Ok bs) ->
  (forall bs, (String.length (b32_encode bs) mod 8 = 0)%nat) ->
  (forall bs, to_uppercase (b32_encode bs) = b32_encode bs) ->
  drop_spaces typed = snd (generate_random b32_encode rnd) ->
  from_base32 to_uppercase b32_decode typed = Ok (fst (generate_random b32_encode rnd)).
Proof.
  intros Hrt Hlen Hup Htyped. unfold from_base32. rewrite Htyped. unfold generate_random, snd, fst.
  by rewrite Hup, pad8_done, Hrt by done.
Qed.

(** ** Witnesses *)

(** A 20-byte tag for the examples: the message and padding. *)
Definition sample_hmac (k m : list byte) : list byte :=
  take 20 (m ++ k ++ replicate 20 (z_byte 90)).

Lemma sample_hmac_length k m : length (sample_hmac k m) = 20%nat.
Proof. unfold sample_hmac. rewrite length_take, !length_app, length_replicate. lia. Qed.

Definition sample_totp : Totp := new (replicate 20 (z_byte 7)).

Lemma sample_totp_wf : wf_totp sample_totp.
Proof. unfold wf_totp; simpl; lia. Qed.

Theorem generate_rfc_witness :
  exists code, generate sample_hmac sample_totp 1700000000 = Val code /\
    code = hotp (sample_hmac (secret sample_totp) (be_bytes 8 (1700000000 / 30))) 6 /\
    0 <= code < 10 ^ 6.
Proof. exact (generate_rfc sample_hmac sample_totp 1700000000 sample_hmac_length sample_totp_wf). Defined.

Theorem verify_iff_witness :
  exists b, verify sample_hmac sample_totp 1700000000 123456 = Val b /\
    (b = true <->
     exists step, 0 <= step /\ Z.abs (1700000000 / 30 - step) <= 1 /\
       123456 = hotp (sample_hmac (secret sample_totp) (be_bytes 8 step)) 6).
Proof.
  apply (verify_iff sample_hmac sample_totp 1700000000 123456 sample_hmac_length sample_totp_wf);
    unfold in_u; simpl; lia.
Defined.

Theorem clock_skew_tolerated_witness :
  exists code, generate sample_hmac sample_totp 1700000025 = Val code /\
    verify sample_hmac sample_totp 1700000000 code = Val true.
Proof.
  apply (clock_skew_tolerated sample_hmac sample_totp 1700000025 1700000000
           sample_hmac_length sample_totp_wf); unfold in_u; simpl; lia.
Defined.

(** An encoding with the laws of Base32 that matter here: eight letters for
    the eight bits of each byte. *)
Fixpoint bits_letters (n : nat) (z : Z) : string :=
  match n with
  | O => ""
  | S n => String (if Z.odd z then "B" else "A") (bits_letters n (z / 2))
  end.

Fixpoint sample_encode (bs : list byte) : string :=
  match bs with
  | [] => ""
  | b :: bs => bits_letters 8 (byte_z b) +:+ sample_encode bs
  end.

Fixpoint sample_decode (s : string) : result (list byte) string :=
  match s with
  | String a (String b (String c (String d (String e (String f (String g (String h s))))))) =>
      let bit (x : ascii) := if Ascii.eqb x "B" then 1 else 0 in
      let? bs := sample_decode s in
      Ok (z_byte (bit a + 2 * (bit b + 2 * (bit c + 2 * (bit d + 2 * (bit e +
          2 * (bit f + 2 * (bit g + 2 * bit h))))))) :: bs)
  | "" => Ok []
  | _ => Err "invalid length"
  end.

Lemma bits_letters_spec z :
  0 <= z < 256 -> forall s, sample_decode (bits_letters 8 z +:+ s) =
    (let? bs := sample_decode s in Ok (z_byte z :: bs)).
Proof.
  intros Hz s. unfold bits_letters. rewrite !str_app_cons, str_app_nil_l.
  set (bit := fun y => if Z.odd y then 1 else 0).
  assert (forall y, y = bit y + 2 * (y / 2)) as Hbit.
  { intros y. unfold bit. rewrite <- Zdiv2_div. rewrite (Zdiv2_odd_eqn y) at 1. case_if; lia. }
  assert (forall y, (if Ascii.eqb (if Z.odd y then "B" else "A")%char "B" then 1 else 0) = bit y)
    as Heq by (intros y; unfold bit; by destruct (Z.odd y)).
  cbn [sample_decode]. rewrite !Heq. destruct (sample_decode s) as [bs|e]; [|done].
  do 2 f_equal. f_equal.
  rewrite (Hbit z) at 9. rewrite (Hbit (z / 2)) at 8. rewrite (Hbit (z / 2 / 2)) at 7.
  rewrite (Hbit (z / 2 / 2 / 2)) at 6. rewrite (Hbit (z / 2 / 2 / 2 / 2)) at 5.
  rewrite (Hbit (z / 2 / 2 / 2 / 2 / 2)) at 4. rewrite (Hbit (z / 2 / 2 / 2 / 2 / 2 / 2)) at 3.
  rewrite (Hbit (z / 2 / 2 / 2 / 2 / 2 / 2 / 2)) at 2.
  assert (z / 2 / 2 / 2 / 2 / 2 / 2 / 2 / 2 = 0) as ->; [|lia].
  rewrite !Z.div_div by lia. apply Z.div_small. lia.
Qed.

Lemma sample_codec bs : sample_decode (sample_encode bs) = Ok bs.
Proof.
  induction bs as [|b bs IH]; [done|].
  change (sample_encode (b :: bs)) with (bits_letters 8 (byte_z b) +:+ sample_encode bs).
  by rewrite bits_letters_spec, IH, z_byte_of by apply byte_z_range.
Qed.

Lemma sample_encode_length bs : (String.length (sample_encode bs) mod 8 = 0)%nat.
Proof.
  assert (String.length (sample_encode bs) = 8 * length bs)%nat as ->.
  { induction bs as [|b bs IH]; [done|].
    change (sample_encode (b :: bs)) with (bits_letters 8 (byte_z b) +:+ sample_encode bs).
    rewrite str_length_app, IH. simpl. lia. }
  rewrite Nat.mul_comm. apply Nat.Div0.mod_mul.
Qed.

Lemma sample_encode_upper bs : ascii_upper (sample_encode bs) = sample_encode bs.
Proof.
  induction bs as [|b bs IH]; [done|].
  change (sample_encode (b :: bs)) with (bits_letters 8 (byte_z b) +:+ sample_encode bs).
  unfold bits_letters. rewrite !str_app_cons, str_app_nil_l.
  unfold ascii_upper in *. cbn [map_str]. rewrite IH.
  repeat match goal with |- context [if Z.odd ?z then _ else _] => destruct (Z.odd z) end; reflexivity.
Qed.

Theorem base32_import_witness :
  from_base32 ascii_upper sample_decode "BAAA AAAA ABAA AAAA"
  = Ok (fst (generate_random sample_encode [z_byte 1; z_byte 2])).
Proof.
  apply (base32_import ascii_upper sample_encode sample_decode [z_byte 1; z_byte 2]).
  - exact sample_codec.
  - exact sample_encode_length.
  - exact sample_encode_upper.
  - vm_compute. reflexivity.
Defined.
