(* ===== verification/Stream.v ===== *)
(** * Stream: byte streams as the program sees them

    A reader is the bytes that will still arrive and what follows them (end of
    stream or an error); a writer is the bytes sent so far, the room left before
    its peer fails, and the number of flushes.  [AsyncReadExt::read_exact],
    [read_u8], [read_u16] and [AsyncWriteExt::write_all], [flush] of tokio. *)

From Stdlib Require Import Ascii String ZArith Lia.
From stdpp Require Import base gmap strings list.
From S2P Require Import Prelude Text Errors.

Record Reader := mkReader { rd_data : list byte; rd_fail : option IoError }.
Record Writer := mkWriter { wr_out : list byte; wr_room : option nat; wr_err : IoError; wr_flushed : nat }.

Definition unexpected_eof : IoError := mkIoError UnexpectedEof "early eof".
Definition broken_pipe : IoError := mkIoError BrokenPipe "broken pipe".

(** A stream that delivers [data] and ends, and one that accepts everything. *)
Definition reader_of (data : list byte) : Reader := mkReader data None.
Definition open_writer : Writer := mkWriter [] None broken_pipe 0.

(** Fills the whole buffer or fails, having consumed what there was. *)
Definition read_exact (n : nat) (r : Reader) : result (list byte) IoError * Reader :=
  if (n <=? length (rd_data r))%nat
  then (Ok (take n (rd_data r)), mkReader (drop n (rd_data r)) (rd_fail r))
  else (Err (default unexpected_eof (rd_fail r)), mkReader [] (rd_fail r)).

Definition read_u8 (r : Reader) : result Z IoError * Reader :=
  let '(b, r) := read_exact 1 r in (map_ok be_value b, r).
Definition read_u16 (r : Reader) : result Z IoError * Reader :=
  let '(b, r) := read_exact 2 r in (map_ok be_value b, r).

(** Writes everything or fails, having sent a prefix. *)
Definition write_all (bs : list byte) (w : Writer) : result unit IoError * Writer :=
  match wr_room w with
  | None => (Ok tt, mkWriter (wr_out w ++ bs) None (wr_err w) (wr_flushed w))
  | Some room =>
      if (length bs <=? room)%nat
      then (Ok tt, mkWriter (wr_out w ++ bs) (Some (room - length bs)%nat) (wr_err w) (wr_flushed w))
      else (Err (wr_err w), mkWriter (wr_out w ++ take room bs) (Some 0%nat) (wr_err w) (wr_flushed w))
  end.

Definition flush (w : Writer) : result unit IoError * Writer :=
  (Ok tt, mkWriter (wr_out w) (wr_room w) (wr_err w) (S (wr_flushed w))).

Lemma read_exact_app bs tail f :
  read_exact (length bs) (mkReader (bs ++ tail) f) = (Ok bs, mkReader tail f).
Proof.
  unfold read_exact. simpl. rewrite length_app.
  replace (length bs <=? length bs + length tail)%nat with true by (symmetry; apply Nat.leb_le; lia).
  by rewrite take_app_length, drop_app_length.
Qed.

Lemma read_exact_short n r :
  (length (rd_data r) < n)%nat ->
  read_exact n r = (Err (default unexpected_eof (rd_fail r)), mkReader [] (rd_fail r)).
Proof. intros H. unfold read_exact. case_if; boolp; [lia|done]. Qed.

Lemma read_exact_ok n r bs r' :
  read_exact n r = (Ok bs, r') ->
  length bs = n /\ rd_data r = bs ++ rd_data r' /\ rd_fail r' = rd_fail r.
Proof.
  unfold read_exact. case_if; boolp; intros [= <- <-]; simpl.
  rewrite length_take, take_drop. split; [lia|done].
Qed.

(** What a writer has sent only grows. *)
Lemma write_all_prefix bs w : exists sent, wr_out (snd (write_all bs w)) = wr_out w ++ sent /\ sent `prefix_of` bs.
Proof.
  unfold write_all. destruct (wr_room w) as [room|]; [case_if|]; simpl; eexists; (split; [done|]).
  - done.
  - exists (drop room bs). by rewrite take_drop.
  - done.
Qed.
