(* ===== verification/Protocol.v ===== *)
(** * Protocol: the control channel messages (src/src/reverse_proxy/protocol.rs)

    [bincode::serialize] and [bincode::deserialize] are the class [Codec], with
    their round trip as its law and a concrete codec as an instance. *)

From Stdlib Require Import Ascii String ZArith Lia.
From stdpp Require Import base gmap strings list.
From S2P Require Import Prelude Text Errors Stream.

Definition PROTOCOL_VERSION : Z := 1.
Definition MAX_MESSAGE_SIZE : Z := 16 * 1024 * 1024.

Record ReverseProxyConfig := mkReverseProxyConfig {
  server_port : Z; server_host : option string; local_host : string; local_port : Z }.

Inductive HandshakeStatus : Type :=
| HsOk | VersionMismatch | HsConfigError | HsPortAllocationFailed
| InvalidToken | TokenExpired | AccessDenied | InvalidConfigHash.

Inductive ControlMessage : Type :=
| ClientHello (version : Z) (token : string) (totp_code : option Z)
    (proxies : list ReverseProxyConfig) (config_hash : string)
| ServerHello (version : Z) (status : HandshakeStatus) (message : string)
    (allowed_ports : list Z) (session_id : option string)
| Ping
| Pong.

#[export] Instance ReverseProxyConfig_eq_dec : EqDecision ReverseProxyConfig.
Proof. solve_decision. Defined.
#[export] Instance HandshakeStatus_eq_dec : EqDecision HandshakeStatus.
Proof. solve_decision. Defined.
#[export] Instance ControlMessage_eq_dec : EqDecision ControlMessage.
Proof. solve_decision. Defined.

(** The widths of the fields. *)
Definition wf_config (c : ReverseProxyConfig) : Prop := in_u 16 (server_port c) /\ in_u 16 (local_port c).

Definition wf_message (m : ControlMessage) : Prop :=
  match m with
  | ClientHello v _ code ps _ =>
      in_u 8 v /\ from_option (in_u 32) True code /\ Forall wf_config ps
  | ServerHello v _ _ ports _ => in_u 8 v /\ Forall (in_u 16) ports
  | Ping | Pong => True
  end.

(** The codec of messages, as the rest of the program uses it. *)
Class Codec := {
  serialize : ControlMessage -> result (list byte) string;
  deserialize : list byte -> result ControlMessage string }.

(** What bincode promises: what it serialises it reads back. *)
Class CodecLaws `{Codec} : Prop :=
  deserialize_serialize m bs : wf_message m -> serialize m = Ok bs -> deserialize bs = Ok m.

Section Framing.
Context `{Codec}.

Definition to_bytes (m : ControlMessage) : Result (list byte) :=
  map_err (fun e => ReverseProxy (SerializationFailed e)) (serialize m).

Definition from_bytes (bs : list byte) : Result ControlMessage :=
  map_err (fun e => ReverseProxy (DeserializationFailed e)) (deserialize bs).

Definition too_large (len : Z) : AppError :=
  ReverseProxy (InvalidMessage ("Message too large: " +:+ show_dec len +:+ " bytes")).

(** [write_to]; [data.len() as u32] keeps the low 32 bits. *)
Definition write_to (m : ControlMessage) (w : Writer) : Result unit * Writer :=
  match to_bytes m with
  | Err e => (Err e, w)
  | Ok data =>
      let len := wrap 32 (Z.of_nat (length data)) in
      if MAX_MESSAGE_SIZE <? len then (Err (too_large len), w)
      else match write_all (be_bytes 4 len) w with
           | (Err e, w) => (Err (Io e), w)
           | (Ok _, w) =>
               match write_all data w with
               | (Err e, w) => (Err (Io e), w)
               | (Ok _, w) => let '(f, w) := flush w in (map_err Io f, w)
               end
           end
  end.

Definition read_from (r : Reader) : Result ControlMessage * Reader :=
  match read_exact 4 r with
  | (Err e, r) => (Err (Io e), r)
  | (Ok len_bytes, r) =>
      let len := be_value len_bytes in
      if MAX_MESSAGE_SIZE <? len then (Err (too_large len), r)
      else match read_exact (Z.to_nat len) r with
           | (Err e, r) => (Err (Io e), r)
           | (Ok data, r) => (from_bytes data, r)
           end
  end.

(** A conversation: messages one after the other on one stream. *)
Fixpoint write_messages (ms : list ControlMessage) (w : Writer) : Result unit * Writer :=
  match ms with
  | [] => (Ok tt, w)
  | m :: ms =>
      match write_to m w with
      | (Err e, w) => (Err e, w)
      | (Ok _, w) => write_messages ms w
      end
  end.

Fixpoint read_messages (n : nat) (r : Reader) : Result (list ControlMessage) * Reader :=
  match n with
  | O => (Ok [], r)
  | S n =>
      match read_from r with
      | (Err e, r) => (Err e, r)
      | (Ok m, r) =>
          let '(ms, r) := read_messages n r in (map_ok (cons m) ms, r)
      end
  end.
End Framing.

(** ** The wire format *)

(** Length prefix, then the serialised message. *)
Definition frame (data : list byte) : list byte := be_bytes 4 (Z.of_nat (length data)) ++ data.

Definition fits (data : list byte) : Prop := Z.of_nat (length data) <= MAX_MESSAGE_SIZE.

Section Laws.
Context `{CodecLaws}.

Lemma fits_u32 data : fits data -> in_u 32 (Z.of_nat (length data)).
Proof. unfold fits, in_u, MAX_MESSAGE_SIZE. lia. Qed.

(** Sending a message of at most 16 MB puts its frame on the wire. *)
Lemma write_to_frame m data w :
  serialize m = Ok data -> fits data -> wr_room w = None ->
  write_to m w = (Ok tt, mkWriter (wr_out w ++ frame data) None (wr_err w) (S (wr_flushed w))).
Proof.
  intros Hs Hf Hw. unfold write_to, to_bytes. rewrite Hs. simpl.
  rewrite wrap_small by by apply fits_u32.
  destruct (Z.ltb_spec MAX_MESSAGE_SIZE (Z.of_nat (length data))) as [Hc|Hc]; [unfold fits in Hf; lia|].
  unfold write_all. rewrite Hw. simpl. unfold frame. by rewrite (assoc_L (++)).
Qed.

(** Receiving the frame of a message gives the message, and leaves the rest
    of the stream. *)
Lemma read_from_frame m data tail f :
  wf_message m -> serialize m = Ok data -> fits data ->
  read_from (mkReader (frame data ++ tail) f) = (Ok m, mkReader tail f).
Proof.
  intros Hwf Hs Hf. unfold read_from, frame. rewrite <- (assoc_L (++)).
  rewrite <- (length_be_bytes 4 (Z.of_nat (length data))) at 1.
  rewrite read_exact_app. rewrite be_value_bytes_small by by apply fits_u32.
  destruct (Z.ltb_spec MAX_MESSAGE_SIZE (Z.of_nat (length data))) as [Hc|Hc]; [unfold fits in Hf; lia|].
  rewrite Nat2Z.id, read_exact_app. unfold from_bytes.
  by rewrite (deserialize_serialize m data).
Qed.
End Laws.

(** ** A fixed-width codec

    An instance of the laws: little-endian integers, 64-bit lengths, a 32-bit
    variant tag and a byte for [Option], as bincode lays them out. *)
Module FixedWidth.
Definition decoder (A : Type) : Type := list byte -> option (A * list byte).

(** [dec] reads back what [enc] writes, for the values in [P]. *)
Definition codec_ok {A} (P : A -> Prop) (enc : A -> list byte) (dec : decoder A) : Prop :=
  forall x rest, P x -> dec (enc x ++ rest) = Some (x, rest).

Definition d_ret {A} (x : A) : decoder A := fun bs => Some (x, bs).
Definition d_bind {A B} (d : decoder A) (k : A -> decoder B) : decoder B := fun bs =>
  match d bs with Some (x, bs) => k x bs | None => None end.

Definition d_take (n : nat) : decoder (list byte) := fun bs =>
  if (n <=? length bs)%nat then Some (take n bs, drop n bs) else None.
Definition d_uint (n : nat) : decoder Z := d_bind (d_take n) (fun b => d_ret (le_value b)).

Definition e_str (s : string) : list byte := le_bytes 8 (Z.of_nat (String.length s)) ++ bytes_of s.
Definition d_str : decoder string :=
  d_bind (d_uint 8) (fun n => d_bind (d_take (Z.to_nat n)) (fun b => d_ret (of_bytes b))).

Definition e_option {A} (enc : A -> list byte) (o : option A) : list byte :=
  match o with None => le_bytes 1 0 | Some x => le_bytes 1 1 ++ enc x end.
Definition d_option {A} (dec : decoder A) : decoder (option A) :=
  d_bind (d_uint 1) (fun t => if t =? 0 then d_ret None else d_bind dec (fun x => d_ret (Some x))).

Definition e_list {A} (enc : A -> list byte) (l : list A) : list byte :=
  le_bytes 8 (Z.of_nat (length l)) ++ concat (map enc l).
Fixpoint d_many {A} (dec : decoder A) (n : nat) : decoder (list A) :=
  match n with
  | O => d_ret []
  | S n => d_bind dec (fun x => d_bind (d_many dec n) (fun l => d_ret (x :: l)))
  end.
Definition d_list {A} (dec : decoder A) : decoder (list A) :=
  d_bind (d_uint 8) (fun n => d_many dec (Z.to_nat n)).

Lemma d_take_ok (bs rest : list byte) n : length bs = n -> d_take n (bs ++ rest) = Some (bs, rest).
Proof.
  intros <-. unfold d_take. rewrite length_app.
  replace (length bs <=? length bs + length rest)%nat with true by (symmetry; apply Nat.leb_le; lia).
  by rewrite take_app_length, drop_app_length.
Qed.

Lemma uint_ok n : codec_ok (in_u (8 * Z.of_nat n)) (le_bytes n) (d_uint n).
Proof.
  intros z rest Hz. unfold d_uint, d_bind. rewrite d_take_ok by apply length_le_bytes.
  unfold d_ret. by rewrite le_value_bytes, wrap_small.
Qed.

Lemma str_ok : codec_ok (fun s => in_u 64 (Z.of_nat (String.length s))) e_str d_str.
Proof.
  intros s rest Hs. unfold d_str, e_str, d_bind at 1. rewrite <- (assoc_L (++)).
  rewrite (uint_ok 8) by done. unfold d_bind. rewrite Nat2Z.id.
  rewrite d_take_ok by apply length_bytes_of. unfold d_ret. by rewrite of_bytes_of.
Qed.

Lemma option_ok {A} (P : A -> Prop) enc dec :
  codec_ok P enc dec -> codec_ok (from_option P True) (e_option enc) (d_option dec).
Proof.
  intros H [x|] rest Hx; unfold d_option, e_option, d_bind at 1; rewrite <- ?(assoc_L (++));
    rewrite (uint_ok 1) by (unfold in_u; lia); simpl; [|done].
  unfold d_bind. by rewrite H.
Qed.

Lemma many_ok {A} (P : A -> Prop) enc dec l rest :
  codec_ok P enc dec -> Forall P l ->
  d_many dec (length l) (concat (map enc l) ++ rest) = Some (l, rest).
Proof.
  intros H Hl. induction Hl as [|x l Hx Hl IH]; [done|].
  simpl. unfold d_bind at 1. rewrite <- (assoc_L (++)), H by done.
  unfold d_bind. by rewrite IH.
Qed.

Lemma list_ok {A} (P : A -> Prop) enc dec :
  codec_ok P enc dec ->
  codec_ok (fun l => in_u 64 (Z.of_nat (length l)) /\ Forall P l) (e_list enc) (d_list dec).
Proof.
  intros H l rest [Hn Hl]. unfold d_list, e_list, d_bind at 1. rewrite <- (assoc_L (++)).
  rewrite (uint_ok 8) by done. rewrite Nat2Z.id. by apply (many_ok P).
Qed.

Definition e_config (c : ReverseProxyConfig) : list byte :=
  le_bytes 2 (server_port c) ++ e_option e_str (server_host c) ++
  e_str (local_host c) ++ le_bytes 2 (local_port c).
Definition d_config : decoder ReverseProxyConfig :=
  d_bind (d_uint 2) (fun sp => d_bind (d_option d_str) (fun sh => d_bind d_str (fun lh =>
  d_bind (d_uint 2) (fun lp => d_ret (mkReverseProxyConfig sp sh lh lp))))).

Definition str_fits (s : string) : Prop := in_u 64 (Z.of_nat (String.length s)).
Definition config_fits (c : ReverseProxyConfig) : Prop :=
  wf_config c /\ from_option str_fits True (server_host c) /\ str_fits (local_host c).

Lemma config_ok : codec_ok config_fits e_config d_config.
Proof.
  intros [sp sh lh lp] rest [[Hsp Hlp] [Hsh Hlh]].
  unfold e_config, d_config. cbn [server_port server_host local_host local_port] in *. rewrite <- !(assoc_L (++)).
  unfold d_bind at 1. rewrite (uint_ok 2) by done.
  unfold d_bind at 1. rewrite (option_ok _ _ _ str_ok) by done.
  unfold d_bind at 1. rewrite str_ok by done.
  unfold d_bind at 1. by rewrite (uint_ok 2).
Qed.

Definition statuses : list HandshakeStatus :=
  [HsOk; VersionMismatch; HsConfigError; HsPortAllocationFailed;
   InvalidToken; TokenExpired; AccessDenied; InvalidConfigHash].
Definition status_tag (s : HandshakeStatus) : Z :=
  match s with
  | HsOk => 0 | VersionMismatch => 1 | HsConfigError => 2 | HsPortAllocationFailed => 3
  | InvalidToken => 4 | TokenExpired => 5 | AccessDenied => 6 | InvalidConfigHash => 7
  end.
Definition d_status : decoder HandshakeStatus :=
  d_bind (d_uint 4) (fun t bs =>
    match statuses !! Z.to_nat t with Some s => Some (s, bs) | None => None end).

Lemma status_ok : codec_ok (fun _ => True) (fun s => le_bytes 4 (status_tag s)) d_status.
Proof.
  intros s rest _. unfold d_status, d_bind. rewrite (uint_ok 4) by (destruct s; unfold in_u; simpl; lia).
  by destruct s.
Qed.

Definition encode (m : ControlMessage) : list byte :=
  match m with
  | ClientHello v token code ps hash =>
      le_bytes 4 0 ++ le_bytes 1 v ++ e_str token ++ e_option (le_bytes 4) code ++
      e_list e_config ps ++ e_str hash
  | ServerHello v st msg ports sid =>
      le_bytes 4 1 ++ le_bytes 1 v ++ le_bytes 4 (status_tag st) ++ e_str msg ++
      e_list (le_bytes 2) ports ++ e_option e_str sid
  | Ping => le_bytes 4 2
  | Pong => le_bytes 4 3
  end.

Definition d_message : decoder ControlMessage :=
  d_bind (d_uint 4) (fun tag =>
    if tag =? 0 then
      d_bind (d_uint 1) (fun v => d_bind d_str (fun token =>
      d_bind (d_option (d_uint 4)) (fun code => d_bind (d_list d_config) (fun ps =>
      d_bind d_str (fun hash => d_ret (ClientHello v token code ps hash))))))
    else if tag =? 1 then
      d_bind (d_uint 1) (fun v => d_bind d_status (fun st => d_bind d_str (fun msg =>
      d_bind (d_list (d_uint 2)) (fun ports => d_bind (d_option d_str) (fun sid =>
      d_ret (ServerHello v st msg ports sid))))))
    else if tag =? 2 then d_ret Ping
    else if tag =? 3 then d_ret Pong
    else fun _ => None).

Definition message_fits (m : ControlMessage) : Prop :=
  match m with
  | ClientHello v token code ps hash =>
      in_u 8 v /\ str_fits token /\ from_option (in_u 32) True code /\
      (in_u 64 (Z.of_nat (length ps)) /\ Forall config_fits ps) /\ str_fits hash
  | ServerHello v st msg ports sid =>
      in_u 8 v /\ str_fits msg /\ (in_u 64 (Z.of_nat (length ports)) /\ Forall (in_u 16) ports) /\
      from_option str_fits True sid
  | Ping | Pong => True
  end.

Lemma message_ok : codec_ok message_fits encode d_message.
Proof.
  intros [v token code ps hash|v st msg ports sid| |] rest Hm;
    unfold encode, d_message, d_bind at 1; rewrite <- ?(assoc_L (++));
    rewrite (uint_ok 4) by (unfold in_u; lia); cbn [Z.eqb Pos.eqb]; [| |done|done].
  - destruct Hm as (Hv & Ht & Hc & Hp & Hh).
    unfold d_bind at 1. rewrite (uint_ok 1) by done.
    unfold d_bind at 1. rewrite str_ok by done.
    unfold d_bind at 1. rewrite (option_ok _ _ _ (uint_ok 4)) by done.
    unfold d_bind at 1. rewrite (list_ok _ _ _ config_ok) by done.
    unfold d_bind at 1. by rewrite str_ok by done.
  - destruct Hm as (Hv & Ht & Hp & Hs).
    unfold d_bind at 1. rewrite (uint_ok 1) by done.
    unfold d_bind at 1. rewrite status_ok by done.
    unfold d_bind at 1. rewrite str_ok by done.
    unfold d_bind at 1. rewrite (list_ok _ _ _ (uint_ok 2)) by done.
    unfold d_bind at 1. by rewrite (option_ok _ _ _ str_ok) by done.
Qed.

#[export] Instance in_u_dec w z : Decision (in_u w z).
Proof. unfold in_u. solve_decision. Defined.
#[export] Instance str_fits_dec s : Decision (str_fits s).
Proof. unfold str_fits. apply _. Defined.
#[export] Instance from_option_dec {A} (P : A -> Prop) `{!forall x, Decision (P x)} o :
  Decision (from_option P True o).
Proof. destruct o; simpl; apply _. Defined.
#[export] Instance config_fits_dec c : Decision (config_fits c).
Proof. unfold config_fits, wf_config. apply _. Defined.
#[export] Instance message_fits_dec m : Decision (message_fits m).
Proof. destruct m; simpl; apply _. Defined.

#[export] Instance codec : Codec := {|
  serialize m := if decide (message_fits m) then Ok (encode m) else Err "value out of range";
  deserialize bs := match d_message bs with Some (m, _) => Ok m | None => Err "invalid message" end |}.

#[export] Instance laws : CodecLaws.
Proof.
  intros m bs _. unfold serialize, deserialize; simpl.
  destruct (decide (message_fits m)) as [Hm|]; [|done]. intros [= <-].
  rewrite <- (app_nil_r (encode m)). by rewrite message_ok.
Qed.
End FixedWidth.

(** ** Properties *)

(** A message that can be sent: its fields have their widths and its
    serialisation is at most 16 MB. *)
Definition sendable `{Codec} (m : ControlMessage) : Prop :=
  wf_message m /\ exists data, serialize m = Ok data /\ fits data.

Lemma write_messages_open `{CodecLaws} ms w :
  Forall sendable ms -> wr_room w = None ->
  exists out w', write_messages ms w = (Ok tt, w') /\ wr_out w' = wr_out w ++ out /\
    forall tail f, read_messages (length ms) (mkReader (out ++ tail) f) = (Ok ms, mkReader tail f).
Proof.
  intros Hms. revert w. induction Hms as [|m ms (Hwf & data & Hs & Hf) Hms IH]; intros w Hw.
  - exists [], w. split; [done|]. split; [by rewrite app_nil_r|]. done.
  - cbn [write_messages read_messages length]. rewrite (write_to_frame m data w) by done.
    edestruct IH as (out & w' & -> & Hout & Hread); [done|].
    exists (frame data ++ out), w'. split; [done|]. split.
    + rewrite Hout. cbn [wr_out]. by rewrite (assoc_L (++)).
    + intros tail f. rewrite <- (assoc_L (++)), (read_from_frame m data) by done.
      by rewrite Hread.
Qed.

(** C14. A conversation survives the wire: messages written one after the other
    to a stream are read back as the same messages in the same order, and the
    reader stops exactly where the writer did. *)
Theorem conversation_roundtrip `{CodecLaws} ms tail :
  Forall sendable ms ->
  exists w, write_messages ms open_writer = (Ok tt, w) /\
    read_messages (length ms) (reader_of (wr_out w ++ tail)) = (Ok ms, reader_of tail).
Proof.
  intros Hms. destruct (write_messages_open ms open_writer Hms) as (out & w & Hw & Ho & Hr); [done|].
  exists w. split; [done|]. rewrite Ho. apply Hr.
Qed.

(** Every byte stream has a defined outcome: fewer than four bytes or a
    body cut short are I/O errors, a length over 16 MB is refused before any of
    the body is read, and otherwise exactly the announced bytes are decoded. *)
Theorem read_from_outcomes `{Codec} data :
  let len := be_value (take 4 data) in
  read_from (reader_of data) =
    if decide (length data < 4)%nat then (Err (Io unexpected_eof), reader_of [])
    else if decide (MAX_MESSAGE_SIZE < len) then (Err (too_large len), reader_of (drop 4 data))
    else if decide (Z.of_nat (length (drop 4 data)) < len) then (Err (Io unexpected_eof), reader_of [])
    else (from_bytes (take (Z.to_nat len) (drop 4 data)), reader_of (drop (Z.to_nat len) (drop 4 data))).
Proof.
  intros len. unfold read_from. destruct (decide (length data < 4)%nat) as [Hl|Hl].
  { by rewrite read_exact_short. }
  unfold read_exact at 1. simpl rd_data. simpl rd_fail. case_if; boolp; [|lia]. fold len.
  assert (0 <= len) as Hpos by apply be_value_bound.
  destruct (decide (MAX_MESSAGE_SIZE < len)) as [Hm|Hm].
  { by rewrite (proj2 (Z.ltb_lt _ _) Hm). }
  rewrite (proj2 (Z.ltb_ge _ _)) by lia.
  destruct (decide (Z.of_nat (length (drop 4 data)) < len)) as [Hs|Hs].
  - by rewrite read_exact_short by (simpl rd_data; lia).
  - unfold read_exact. simpl rd_data. case_if; boolp; [done|lia].
Qed.

(** A message between 16 MB and 4 GB is refused by the sender before any
    byte is sent, with an error that carries its size; a message the codec
    cannot serialise is refused too. *)
Theorem write_to_refuses `{Codec} m w e w' :
  write_to m w = (Err e, w') ->
  (forall data, serialize m = Ok data -> in_u 32 (Z.of_nat (length data))) ->
  wr_room w = None ->
  w' = w /\
  ((exists s, serialize m = Err s /\ e = ReverseProxy (SerializationFailed s)) \/
   (exists data, serialize m = Ok data /\ ~ fits data /\ e = too_large (Z.of_nat (length data)))).
Proof.
  intros Hw Hu Hr. unfold write_to, to_bytes in Hw.
  destruct (serialize m) as [data|s] eqn:Hs; simpl in Hw; [|simplify_eq; eauto].
  rewrite wrap_small in Hw by (by apply Hu).
  destruct (Z.ltb_spec MAX_MESSAGE_SIZE (Z.of_nat (length data))) as [Hc|Hc].
  - simplify_eq. split; [done|]. right. exists data. unfold fits. split; [done|]. split; [lia|done].
  - unfold write_all in Hw. rewrite Hr in Hw. simpl in Hw. discriminate.
Qed.

(** *** Witnesses *)

#[local] Existing Instances FixedWidth.codec FixedWidth.laws.

Definition sample_hello : ControlMessage :=
  ClientHello 1 "test-token" (Some 123456)
    [mkReverseProxyConfig 8080 None "localhost" 80] "abc123".

Lemma sample_sendable m bs :
  wf_message m -> serialize m = Ok bs -> (length bs <= 1000)%nat -> sendable m.
Proof.
  intros Hwf Hs Hl. split; [done|]. exists bs. split; [done|]. unfold fits, MAX_MESSAGE_SIZE. lia.
Qed.

Theorem conversation_roundtrip_witness :
  exists w, write_messages [sample_hello; Ping] open_writer = (Ok tt, w) /\
    read_messages 2 (reader_of (wr_out w ++ [])) = (Ok [sample_hello; Ping], reader_of []).
Proof.
  apply (conversation_roundtrip [sample_hello; Ping] []).
  apply Forall_cons. split; [|apply Forall_cons; split; [|apply Forall_nil; exact I]].
  - eapply sample_sendable; [|vm_compute; reflexivity|simpl; lia].
    unfold sample_hello, wf_message, wf_config, in_u; simpl. repeat (split || constructor); simpl; lia.
  - eapply sample_sendable; [exact I|vm_compute; reflexivity|simpl; lia].
Defined.

Definition refusing_codec : Codec := {|
  serialize _ := Err "unsupported";
  deserialize _ := Err "unsupported" |}.

Theorem write_to_refuses_witness :
  @write_to refusing_codec Ping open_writer =
    (Err (ReverseProxy (SerializationFailed "unsupported")), open_writer) /\
  open_writer = open_writer.
Proof.
  split; [reflexivity|].
  destruct (@write_to_refuses refusing_codec Ping open_writer
    (ReverseProxy (SerializationFailed "unsupported")) open_writer)
    as [H _]; [reflexivity| |reflexivity|exact H].
  intros data H. discriminate H.
Defined.
