(* ===== verification/ReverseServer.v ===== *)
(** * ReverseServer: the reverse proxy server (src/src/reverse_proxy/server.rs)

    A client connects, its [ClientHello] passes the guards of [handle_client]
    in the order of the code, the requested ports are bound, and the session is
    kept in a table until the tunnel ends or the cleanup task evicts it.  The
    operating system's ports are part of the state: a listener task holds its
    port until it is aborted.  [admit_client] is one connection alone; the step
    relation interleaves the connections' tasks and the cleanup task. *)

From Stdlib Require Import Ascii String ZArith Lia.
From stdpp Require Import base gmap strings list relations.
From S2P Require Import Prelude Text NetAddr Errors Totp Stream Protocol.

(** ** Third-party and environment functions *)
Class Env := {
  hmac_sha1 : list byte -> list byte -> list byte;
  to_uppercase : string -> string;
  b32_decode : string -> result (list byte) string;
  to_json : list ReverseProxyConfig -> result string string;
  sha256_hex : string -> string }.

(** The seconds a [Duration] has, in nanoseconds. *)
Definition from_secs (s : Z) : Z := s * 10 ^ 9.

(** [Totp::from_base32(secret).unwrap_or_else(|_| Totp::new(bytes))] *)
Definition totp_of_secret `{Env} (s : string) : Totp :=
  match from_base32 to_uppercase b32_decode s with
  | Ok t => t
  | Err _ => Totp.new (bytes_of s)
  end.

(** ** Data *)

Record ReverseProxyServer := mkReverseProxyServer {
  control_addr : SocketAddr;
  auth_token : option string;
  allowed_tokens : list string;
  totp_secret : option string }.

(** [new], with the value of [REVERSE_PROXY_TOKEN]. *)
Definition new (env_token : option string) (bind_ip : IpAddr) (control_port : Z) : ReverseProxyServer :=
  mkReverseProxyServer (mkSocketAddr bind_ip control_port) env_token [] None.

Definition new_with_auth (bind_ip : IpAddr) (control_port : Z) (token : option string)
    (allowed : list string) : ReverseProxyServer :=
  mkReverseProxyServer (mkSocketAddr bind_ip control_port) token allowed None.

Definition with_totp_secret (s : ReverseProxyServer) (secret : option string) : ReverseProxyServer :=
  mkReverseProxyServer (control_addr s) (auth_token s) (allowed_tokens s) secret.

Inductive Proto : Type := Tcp | Udp.
#[export] Instance Proto_eq_dec : EqDecision Proto.
Proof. solve_decision. Defined.
#[export] Instance Proto_countable : Countable Proto.
Proof.
  refine (inj_countable' (fun p => match p with Tcp => true | Udp => false end)
                         (fun b => if b then Tcp else Udp) _).
  by intros [].
Defined.

(** A listener task, by the port it holds on 0.0.0.0. *)
Abbreviation Listener := (Proto * Z)%type.

Record ClientSession := mkClientSession {
  cs_proxies : list ReverseProxyConfig;
  cs_listeners : list Listener;
  cs_last_activity : Z }.

(** The session table and the ports in use by the server's listeners. *)
Record State := mkState { clients : gmap string ClientSession; bound : gset Listener }.

Definition initial : State := mkState ∅ ∅.

(** ** The guards of [handle_client] *)

Inductive verdict : Type :=
| Accept (proxies : list ReverseProxyConfig)
| Reject (reply : option ControlMessage) (e : AppError).

(** A refusal that is announced to the client. *)
Definition refuse (status : HandshakeStatus) (message : string) (e : ReverseProxyError) : verdict :=
  Reject (Some (ServerHello PROTOCOL_VERSION status message [] None)) (ReverseProxy e).

Definition token_valid (srv : ReverseProxyServer) (token : string) : bool :=
  match auth_token srv with
  | Some server_token => String.eqb token server_token || existsb (String.eqb token) (allowed_tokens srv)
  | None => true
  end.

Section Handshake.
Context `{Env}.

Definition totp_valid (srv : ReverseProxyServer) (wall : Z) (totp_code : option Z) : outcome bool :=
  match totp_secret srv with
  | Some secret =>
      match totp_code with
      | Some code => Totp.verify hmac_sha1 (totp_of_secret secret) wall code
      | None => Val false
      end
  | None => Val true
  end.

Definition check_hello (srv : ReverseProxyServer) (wall : Z) (msg : ControlMessage) : outcome verdict :=
  match msg with
  | ClientHello version token totp_code proxy_configs config_hash =>
      if negb (version =? PROTOCOL_VERSION) then
        Val (refuse VersionMismatch ("Unsupported version: " +:+ show_dec version)
               (UnsupportedVersion version))
      else if negb (token_valid srv token) then
        Val (refuse InvalidToken "Invalid or missing authentication token"
               (HandshakeFailed "Authentication failed (Token)"))
      else
        let! totp_ok := totp_valid srv wall totp_code in
        if negb totp_ok then
          Val (refuse InvalidToken "Invalid or missing TOTP code"
                 (HandshakeFailed "Authentication failed (TOTP)"))
        else match to_json proxy_configs with
        | Err e => Val (Reject None (ReverseProxy (SerializationFailed e)))
        | Ok json =>
            if negb (String.eqb (sha256_hex json) config_hash) then
              Val (refuse InvalidConfigHash "Configuration hash mismatch"
                     (HandshakeFailed "Configuration integrity check failed"))
            else match proxy_configs with
            | [] => Val (refuse HsConfigError "No proxy configurations provided"
                           (HandshakeFailed "No proxies"))
            | _ => Val (Accept proxy_configs)
            end
        end
  | _ => Val (Reject None (ReverseProxy (ProtocolError "Expected ClientHello")))
  end.
End Handshake.

(** ** Listeners *)

Section Ports.
(** Whether the operating system lets the process have a free port. *)
Variable os_permits : Listener -> bool.

(** Port 0 asks for any free port. *)
Definition can_bind (bound : gset Listener) (l : Listener) : bool :=
  os_permits l && ((snd l =? 0) || negb (bool_decide (l ∈ bound))).

Definition hold (l : Listener) (bound : gset Listener) : gset Listener :=
  if snd l =? 0 then bound else {[l]} ∪ bound.

(** One iteration of the binding loop: the TCP port, then, if that worked,
    the UDP port, whose failure is not fatal. *)
Definition bind_config (c : ReverseProxyConfig) (bound : gset Listener) : list Listener * gset Listener :=
  let t := (Tcp, server_port c) in
  let u := (Udp, server_port c) in
  if can_bind bound t then
    let bound := hold t bound in
    if can_bind bound u then ([t; u], hold u bound) else ([t], bound)
  else ([], bound).

Fixpoint bind_all (cs : list ReverseProxyConfig) (bound : gset Listener) : list Listener * gset Listener :=
  match cs with
  | [] => ([], bound)
  | c :: cs =>
      let '(ls, bound) := bind_config c bound in
      let '(ls', bound) := bind_all cs bound in (ls ++ ls', bound)
  end.
End Ports.

(** Aborting a listener task frees its port.  A reply task that still has the UDP
    socket keeps the port a little longer; until then [os_permits] denies it. *)
Definition abort_all (ls : list Listener) (bound : gset Listener) : gset Listener :=
  bound ∖ list_to_set ls.

(** [clients.remove(&id)] with the abort of its listeners, as the end of
    [handle_client] and the cleanup task do it. *)
Definition remove_session (id : string) (st : State) : State :=
  match clients st !! id with
  | Some s => mkState (delete id (clients st)) (abort_all (cs_listeners s) (bound st))
  | None => st
  end.

(** ** [handle_client] up to the tunnel loop *)

Definition hello_ok (wall : Z) (addr : SocketAddr) (ps : list ReverseProxyConfig) : ControlMessage :=
  ServerHello PROTOCOL_VERSION HsOk
    ("Connected, " +:+ show_dec (Z.of_nat (length ps)) +:+ " ports allocated")
    (map server_port ps)
    (Some ("session_" +:+ show_dec wall +:+ "_" +:+ show_socket_addr addr)).

Definition client_id (addr : SocketAddr) : string := show_socket_addr addr.

Section HandleClient.
Context `{Env, Codec}.
Variable os_permits : Listener -> bool.

(** Binds the ports and stores the session. *)
Definition open_session (now : Z) (addr : SocketAddr) (ps : list ReverseProxyConfig) (st : State) : State :=
  let '(ls, bound) := bind_all os_permits ps (bound st) in
  mkState (<[client_id addr := mkClientSession ps ls now]> (clients st)) bound.

(** Up to the answer to the hello: the proxies of a client that is let in. *)
Definition greet (srv : ReverseProxyServer) (wall : Z) (addr : SocketAddr)
    (r : Reader) (w : Writer) : outcome (Result (list ReverseProxyConfig) * Reader * Writer) :=
  match read_from r with
  | (Err e, r) => Val (Err e, r, w)
  | (Ok msg, r) =>
      let! v := check_hello srv wall msg in
      match v with
      | Reject None e => Val (Err e, r, w)
      | Reject (Some reply) e =>
          let '(sent, w) := write_to reply w in
          Val (match sent with Ok _ => Err e | Err e' => Err e' end, r, w)
      | Accept ps =>
          match write_to (hello_ok wall addr ps) w with
          | (Err e, w) => Val (Err e, r, w)
          | (Ok _, w) => Val (Ok ps, r, w)
          end
      end
  end.

(** [handle_client] up to its tunnel loop, with [Ok tt]: the session is stored and
    the loop starts.  The whole function is in ReversePath. *)
Definition admit_client (srv : ReverseProxyServer) (wall now : Z) (addr : SocketAddr)
    (r : Reader) (w : Writer) (st : State) : outcome (Result unit * Reader * Writer * State) :=
  let! g := greet srv wall addr r w in
  match g with
  | (Err e, r, w) => Val (Err e, r, w, st)
  | (Ok ps, r, w) => Val (Ok tt, r, w, open_session now addr ps st)
  end.
End HandleClient.

(** ** The cleanup task *)

Definition expired (now : Z) (s : ClientSession) : bool :=
  from_secs 300 <? now - cs_last_activity s.

Definition to_remove (now : Z) (st : State) : list string :=
  (filter (fun x => expired now x.2 = true) (map_to_list (clients st))).*1.

(** One tick. *)
Definition cleanup_tick (now : Z) (st : State) : State :=
  foldr remove_session st (to_remove now st).

(** ** The server as a transition system *)

(** A connection that has been let in and binds its ports: the proxies still to
    bind and the listeners it has so far. *)
Record Opening := mkOpening {
  op_proxies : list ReverseProxyConfig;
  op_rest : list ReverseProxyConfig;
  op_listeners : list Listener }.

(** [w_live]: the connections whose [handle_client] is in its tunnel loop. *)
Record World := mkWorld { w_state : State; w_opening : gmap string Opening; w_live : gset string }.

Section System.
Context `{Env, Codec}.
Variable srv : ReverseProxyServer.

(** The tasks of the connections and the cleanup task interleave: a hello that
    is answered, one round of a connection's binding loop (what the system
    permits may be different each time), the session stored, a connection that
    ends, a tick.  TCP gives a new connection an address no open one has. *)
Inductive step : World -> World -> Prop :=
| step_refused wall addr r w e r' w' W :
    greet srv wall addr r w = Val (Err e, r', w') ->
    step W W
| step_hello wall addr r w ps r' w' st op live :
    client_id addr ∉ live -> op !! client_id addr = None ->
    greet srv wall addr r w = Val (Ok ps, r', w') ->
    step (mkWorld st op live) (mkWorld st (<[client_id addr := mkOpening ps ps []]> op) live)
| step_bind os_permits id ps c rest ls ls' b st op live :
    op !! id = Some (mkOpening ps (c :: rest) ls) ->
    bind_config os_permits c (bound st) = (ls', b) ->
    step (mkWorld st op live)
         (mkWorld (mkState (clients st) b) (<[id := mkOpening ps rest (ls ++ ls')]> op) live)
| step_store now id ps ls st op live :
    op !! id = Some (mkOpening ps [] ls) ->
    step (mkWorld st op live)
         (mkWorld (mkState (<[id := mkClientSession ps ls now]> (clients st)) (bound st)) (delete id op) ({[id]} ∪ live))
| step_disconnect id st op live :
    id ∈ live ->
    step (mkWorld st op live) (mkWorld (remove_session id st) op (live ∖ {[id]}))
| step_tick now st op live :
    step (mkWorld st op live) (mkWorld (cleanup_tick now st) op live).

Inductive reachable : World -> Prop :=
| reach_init : reachable (mkWorld initial ∅ ∅)
| reach_step W W' : reachable W -> step W W' -> reachable W'.
End System.

(** ** Invariant: who holds which port *)

(** [id]'s session holds [l]; port 0 stands for ports the system chose. *)
Definition holds (st : State) (id : string) (l : Listener) : Prop :=
  exists s, clients st !! id = Some s /\ l ∈ cs_listeners s /\ snd l <> 0.

(** A port is in use exactly when one session holds it. *)
Definition ports_ok (st : State) : Prop :=
  (forall l, l ∈ bound st <-> exists id, holds st id l) /\
  (forall id id' l, holds st id l -> holds st id' l -> id = id').

(** A connection in its binding loop holds ports as if its session were stored. *)
Definition opening_session (o : Opening) : ClientSession := mkClientSession (op_proxies o) (op_listeners o) 0.
Definition all_sessions (W : World) : State :=
  mkState (clients (w_state W) ∪ (opening_session <$> w_opening W)) (bound (w_state W)).

(** A connection owns a port: its session is stored and holds it, or it has
    bound it and is not stored yet. *)
Definition owns (W : World) (id : string) (l : Listener) : Prop :=
  holds (w_state W) id l \/ exists o, w_opening W !! id = Some o /\ l ∈ op_listeners o /\ snd l <> 0.

Record world_ok (W : World) : Prop := {
  wo_ports : ports_ok (all_sessions W);
  wo_live : dom (clients (w_state W)) ⊆ w_live W;
  wo_opening : forall id, is_Some (w_opening W !! id) -> clients (w_state W) !! id = None /\ id ∉ w_live W }.

Lemma hold_spec l bound x : x ∈ hold l bound <-> x ∈ bound \/ (x = l /\ snd x <> 0).
Proof.
  unfold hold. destruct (Z.eqb_spec (snd l) 0) as [H0|H0].
  - split; [auto|]. intros [?|[-> ?]]; done.
  - rewrite elem_of_union, elem_of_singleton. split; [|intuition]. intros [->|]; auto.
Qed.

Lemma can_bind_free os bound l : can_bind os bound l = true -> snd l <> 0 -> l ∉ bound.
Proof.
  unfold can_bind. intros [_ H]%andb_prop H0.
  apply orb_true_iff in H as [H|H]; boolp; done.
Qed.

(** What one iteration, and then the loop, adds to the ports in use. *)
Definition adds (bound : gset Listener) (ls : list Listener) (bound' : gset Listener) : Prop :=
  (forall x, x ∈ bound' <-> x ∈ bound \/ (x ∈ ls /\ snd x <> 0)) /\
  (forall x, x ∈ ls -> snd x <> 0 -> x ∉ bound).

Lemma adds_nil bound : adds bound [] bound.
Proof. split; [|by intros x ?%elem_of_nil]. intros x. rewrite elem_of_nil. intuition. Qed.

Lemma adds_app b b' b'' ls ls' : adds b ls b' -> adds b' ls' b'' -> adds b (ls ++ ls') b''.
Proof.
  intros [H1 F1] [H2 F2]. split.
  - intros x. rewrite H2, H1, elem_of_app. intuition.
  - intros x Hx H0 Hb. apply elem_of_app in Hx as [Hx|Hx]; [by eapply F1|].
    eapply F2; [done..|]. apply H1. by left.
Qed.

Lemma adds_one os b l : can_bind os b l = true -> adds b [l] (hold l b).
Proof.
  intros Hc. split.
  - intros x. rewrite hold_spec, list_elem_of_singleton. done.
  - intros x ->%list_elem_of_singleton H0. by eapply can_bind_free.
Qed.

Lemma bind_config_adds os c b ls b' : bind_config os c b = (ls, b') -> adds b ls b'.
Proof.
  unfold bind_config. case_if; [|intros [= <- <-]; apply adds_nil].
  case_if; intros [= <- <-].
  - change [(Tcp, server_port c); (Udp, server_port c)]
      with ([(Tcp, server_port c)] ++ [(Udp, server_port c)]).
    eapply adds_app; by eapply adds_one.
  - by eapply adds_one.
Qed.

Lemma bind_all_adds os cs b ls b' : bind_all os cs b = (ls, b') -> adds b ls b'.
Proof.
  revert b ls b'. induction cs as [|c cs IH]; intros b ls b'; simpl.
  - intros [= <- <-]. apply adds_nil.
  - destruct (bind_config os c b) as [l1 b1] eqn:H1.
    destruct (bind_all os cs b1) as [l2 b2] eqn:H2. intros [= <- <-].
    eapply adds_app; [by eapply bind_config_adds|by apply IH].
Qed.

Lemma bind_config_permitted os c b ls b' l :
  bind_config os c b = (ls, b') -> l ∈ ls -> snd l = server_port c /\ os l = true.
Proof.
  unfold bind_config, can_bind.
  destruct (os (Tcp, server_port c)) eqn:Ht; simpl; [|by intros [= <- <-] ?%elem_of_nil].
  destruct (_ || _); [|by intros [= <- <-] ?%elem_of_nil].
  destruct (os (Udp, server_port c)) eqn:Hu; simpl; [destruct (_ || _)|]; intros [= <- <-];
    rewrite ?elem_of_cons, elem_of_nil; intros Hl; repeat destruct Hl as [->|Hl]; done.
Qed.

(** Every listener serves a requested port the system permitted. *)
Lemma bind_all_permitted os cs b ls b' l :
  bind_all os cs b = (ls, b') -> l ∈ ls -> exists c, c ∈ cs /\ snd l = server_port c /\ os l = true.
Proof.
  revert b ls b'. induction cs as [|c cs IH]; intros b ls b'; simpl; [by intros [= <- <-] ?%elem_of_nil|].
  destruct (bind_config os c b) as [l1 b1] eqn:H1. destruct (bind_all os cs b1) as [l2 b2] eqn:H2.
  intros [= <- <-] [Hl|Hl]%elem_of_app.
  - exists c. split; [by left|]. by eapply bind_config_permitted.
  - destruct (IH _ _ _ H2 Hl) as (c' & ? & ?). exists c'. split; [by right|done].
Qed.

Lemma holds_insert st id s b id' l :
  holds (mkState (<[id := s]> (clients st)) b) id' l <->
  (id' = id /\ l ∈ cs_listeners s /\ snd l <> 0) \/ (id' <> id /\ holds st id' l).
Proof.
  unfold holds; simpl. destruct (decide (id' = id)) as [->|Hne].
  - rewrite lookup_insert_eq. split.
    + intros (s' & [= <-] & ?). by left.
    + intros [(_ & ?)|[? _]]; [|done]. by exists s.
  - rewrite lookup_insert_ne by done. split; [by right|]. by intros [[? _]|[_ ?]].
Qed.

(** A session without listeners is entered; a session gets more of them. *)
Lemma fresh_session_ok st id s :
  ports_ok st -> clients st !! id = None -> cs_listeners s = [] -> ports_ok (mkState (<[id := s]> (clients st)) (bound st)).
Proof.
  intros [Hb Hu] Hn Hs. assert (forall id' l, holds (mkState (<[id := s]> (clients st)) (bound st)) id' l <-> holds st id' l) as He.
  { intros id' l. rewrite holds_insert, Hs, elem_of_nil. split; [by intros [(_ & [] & _)|[_ ?]]|].
    intros Hl. right. split; [|done]. intros ->. destruct Hl as (s' & ? & _). congruence. }
  split; intros; rewrite ?He in *; [|by eapply Hu]. simpl. rewrite Hb. by setoid_rewrite He.
Qed.

Lemma more_listeners_ok st id s s' ls b :
  ports_ok st -> clients st !! id = Some s -> adds (bound st) ls b -> cs_listeners s' = cs_listeners s ++ ls ->
  ports_ok (mkState (<[id := s']> (clients st)) b).
Proof.
  intros [Hb Hu] Hs [Ha Hfree] Hl.
  assert (forall id' l, holds (mkState (<[id := s']> (clients st)) b) id' l <->
    holds st id' l \/ (id' = id /\ l ∈ ls /\ snd l <> 0)) as He.
  { intros id' l. rewrite holds_insert, Hl, elem_of_app. destruct (decide (id' = id)) as [->|]; [|tauto].
    assert (holds st id l <-> l ∈ cs_listeners s /\ snd l <> 0) as ->; [|tauto].
    split; [intros (s0 & Hs0 & ?); congruence|intros ?; by exists s]. }
  split.
  - intros l. setoid_rewrite He. simpl. rewrite Ha, Hb. split.
    + intros [[id' ?]|?]; [exists id'; by left|exists id; by right].
    + intros (id' & [?|(_ & ?)]); [left; by exists id'|by right].
  - intros id1 id2 l. rewrite !He. intros [H1|(-> & H1 & N1)] [H2|(-> & H2 & N2)]; [by eapply Hu| | |done].
    + destruct (Hfree l H2 N2). apply Hb. eauto.
    + destruct (Hfree l H1 N1). apply Hb. eauto.
Qed.

Lemma remove_session_lookup id st id' :
  clients (remove_session id st) !! id' = if decide (id' = id) then None else clients st !! id'.
Proof.
  unfold remove_session. destruct (clients st !! id) as [s|] eqn:Hid; simpl.
  - destruct (decide (id' = id)) as [->|]; [apply lookup_delete_eq|by apply lookup_delete_ne].
  - destruct (decide (id' = id)) as [->|]; done.
Qed.

Lemma holds_remove id st id' l : holds (remove_session id st) id' l <-> id' <> id /\ holds st id' l.
Proof.
  unfold holds. rewrite remove_session_lookup. destruct (decide (id' = id)) as [->|].
  - split; [by intros (? & ? & _)|by intros []].
  - intuition.
Qed.

Lemma remove_session_ok id st : ports_ok st -> ports_ok (remove_session id st).
Proof.
  intros [Hb Hu]. split.
  - intros l. setoid_rewrite holds_remove. unfold remove_session.
    destruct (clients st !! id) as [s|] eqn:Hid; simpl.
    + unfold abort_all. rewrite elem_of_difference, elem_of_list_to_set, Hb. split.
      * intros [[id' Hid'] Hl]. exists id'. split; [|done]. intros ->.
        destruct Hid' as (s' & Hs' & Hl' & _). congruence.
      * intros (id' & Hne & Hid'). split; [eauto|]. intros Hl. apply Hne.
        eapply Hu; [done|]. exists s. destruct Hid' as (_ & _ & _ & ?). done.
    + rewrite Hb. split; [intros [id' Hid']|intros (id' & _ & ?); eauto].
      exists id'. split; [|done]. intros ->. destruct Hid' as (? & ? & _). congruence.
  - intros id1 id2 l. rewrite !holds_remove. intros [_ ?] [_ ?]. by eapply Hu.
Qed.

Lemma foldr_remove_ok ids st : ports_ok st -> ports_ok (foldr remove_session st ids).
Proof. intros H. induction ids; [done|]. by apply remove_session_ok. Qed.

Lemma foldr_remove_lookup ids st id :
  clients (foldr remove_session st ids) !! id = if decide (id ∈ ids) then None else clients st !! id.
Proof.
  induction ids as [|i ids IH]; simpl.
  - destruct (decide (id ∈ [])) as [Hc|]; [by apply elem_of_nil in Hc|done].
  - rewrite remove_session_lookup, IH.
    destruct (decide (id = i)), (decide (id ∈ ids)), (decide (id ∈ i :: ids)); set_solver.
Qed.

Lemma to_remove_spec now st id :
  id ∈ to_remove now st <-> exists s, clients st !! id = Some s /\ expired now s = true.
Proof.
  unfold to_remove. rewrite list_elem_of_fmap. split.
  - intros ([id' s] & -> & [He Hm]%list_elem_of_filter). exists s.
    split; [by apply elem_of_map_to_list|done].
  - intros (s & Hs & He). exists (id, s). split; [done|].
    apply list_elem_of_filter. split; [done|by apply elem_of_map_to_list].
Qed.

(** A tick removes exactly the expired sessions. *)
Lemma cleanup_lookup now st id :
  clients (cleanup_tick now st) !! id =
  match clients st !! id with
  | Some s => if expired now s then None else Some s
  | None => None
  end.
Proof.
  unfold cleanup_tick. rewrite foldr_remove_lookup.
  destruct (decide (id ∈ to_remove now st)) as [Hin|Hin].
  - apply to_remove_spec in Hin as (s & -> & ->). done.
  - destruct (clients st !! id) as [s|] eqn:Hs; [|done].
    destruct (expired now s) eqn:He; [|done]. destruct Hin. apply to_remove_spec. eauto.
Qed.

(** ** Lemmas on [admit_client] *)

Section Steps.
Context `{Env, Codec}.
Variable os_permits : Listener -> bool.
Variable srv : ReverseProxyServer.

Lemma greet_cases wall addr r w res r' w' :
  greet srv wall addr r w = Val (res, r', w') ->
  forall ps, res = Ok ps -> exists msg, read_from r = (Ok msg, r') /\ check_hello srv wall msg = Val (Accept ps) /\
    write_to (hello_ok wall addr ps) w = (Ok tt, w').
Proof.
  unfold greet. destruct (read_from r) as [[msg|e] r1]; [|by intros [= <- <- <-]].
  destruct (check_hello srv wall msg) as [[ps|[reply|] e]|] eqn:Hc; [| | |done].
  - destruct (write_to (hello_ok wall addr ps) w) as [[[]|e] w1] eqn:Hw; intros [= <- <- <-]; [|done].
    intros ? [= <-]. by exists msg.
  - destruct (write_to reply w) as [[[]|e'] w1]; by intros [= <- <- <-].
  - by intros [= <- <- <-].
Qed.

(** A failed handshake leaves the table and the ports alone; a successful
    one opens the session of an accepted hello. *)
Lemma admit_client_cases wall now addr r w st res r' w' st' :
  admit_client os_permits srv wall now addr r w st = Val (res, r', w', st') ->
  match res with
  | Err _ => st' = st
  | Ok _ => exists msg ps, read_from r = (Ok msg, r') /\
      check_hello srv wall msg = Val (Accept ps) /\
      write_to (hello_ok wall addr ps) w = (Ok tt, w') /\
      st' = open_session os_permits now addr ps st
  end.
Proof.
  unfold admit_client. destruct (greet srv wall addr r w) as [[[[ps|e] r1] w1]|] eqn:Hg; simpl; [| |done].
  - intros [= <- <- <- <-]. destruct (greet_cases _ _ _ _ _ _ _ Hg ps eq_refl) as (msg & ? & ? & ?). by exists msg, ps.
  - by intros [= <- <- <- <-].
Qed.

Lemma open_session_lookup now addr ps st id :
  id <> client_id addr -> clients (open_session os_permits now addr ps st) !! id = clients st !! id.
Proof.
  intros Hne. unfold open_session. destruct (bind_all _ _ _). simpl. by apply lookup_insert_ne.
Qed.

End Steps.

(** ** Lemmas on the system *)

Section System.
Context `{Env, Codec}.
Variable srv : ReverseProxyServer.

(** Removing stored sessions leaves the others as they are. *)
Lemma all_sessions_remove id W :
  w_opening W !! id = None ->
  all_sessions (mkWorld (remove_session id (w_state W)) (w_opening W) (w_live W)) = remove_session id (all_sessions W).
Proof.
  intros Hn. assert ((opening_session <$> w_opening W) !! id = None) as Hm by by rewrite lookup_fmap, Hn.
  unfold all_sessions, remove_session. simpl. rewrite lookup_union, Hm, (right_id_L None union).
  destruct (clients (w_state W) !! id) as [s|]; [|done]. simpl.
  by rewrite delete_union, (delete_id _ id Hm).
Qed.

Lemma all_sessions_foldr ids W :
  (forall id, id ∈ ids -> w_opening W !! id = None) ->
  all_sessions (mkWorld (foldr remove_session (w_state W) ids) (w_opening W) (w_live W)) =
    foldr remove_session (all_sessions W) ids.
Proof.
  induction ids as [|id ids IH]; intros Hn; [done|]. simpl. rewrite <- IH by set_solver.
  apply (all_sessions_remove id (mkWorld (foldr remove_session (w_state W) ids) (w_opening W) (w_live W))).
  simpl. apply Hn. set_solver.
Qed.

Lemma opening_lookup W id o : w_opening W !! id = Some o -> world_ok W -> clients (all_sessions W) !! id = Some (opening_session o).
Proof.
  intros Ho Hok. destruct (wo_opening _ Hok id (ex_intro _ o Ho)) as [Hc _].
  unfold all_sessions. simpl. by rewrite lookup_union, Hc, lookup_fmap, Ho.
Qed.

Lemma owns_holds W : world_ok W -> forall id l, holds (all_sessions W) id l <-> owns W id l.
Proof.
  intros Hok id l. unfold owns, holds, all_sessions. simpl. rewrite lookup_union, lookup_fmap.
  destruct (w_opening W !! id) as [o|] eqn:Ho.
  - destruct (wo_opening _ Hok id (ex_intro _ o Ho)) as [-> _]. simpl. split.
    + intros (s & [= <-] & ?). right. by exists o.
    + intros [(s & ? & _)|(o' & [= <-] & ?)]; [done|]. by exists (opening_session o).
  - simpl. rewrite (right_id_L None union). split; [by left|]. by intros [?|(o & ? & _)].
Qed.

Lemma step_hello_ok ps id st op live :
  id ∉ live -> op !! id = None -> world_ok (mkWorld st op live) ->
  world_ok (mkWorld st (<[id := mkOpening ps ps []]> op) live).
Proof.
  intros Hl Hn [Hp Hd Ho]. simpl in *.
  assert (clients st !! id = None) as Hc by (apply not_elem_of_dom; set_solver). split; simpl; [|done|].
  - unfold all_sessions in *. simpl in *. rewrite fmap_insert, <- insert_union_r by done.
    refine (fresh_session_ok (mkState (clients st ∪ (opening_session <$> op)) (bound st)) id
      (opening_session (mkOpening ps ps [])) Hp _ eq_refl).
    simpl. by rewrite lookup_union, Hc, lookup_fmap, Hn.
  - intros id'. destruct (decide (id' = id)) as [->|Hne]; [done|]. rewrite lookup_insert_ne by done. apply Ho.
Qed.

Lemma step_bind_ok os id ps c rest ls ls' b st op live :
  op !! id = Some (mkOpening ps (c :: rest) ls) -> bind_config os c (bound st) = (ls', b) ->
  world_ok (mkWorld st op live) ->
  world_ok (mkWorld (mkState (clients st) b) (<[id := mkOpening ps rest (ls ++ ls')]> op) live).
Proof.
  intros Hop Hb Hok. pose proof (opening_lookup (mkWorld st op live) _ _ Hop Hok) as Hlook. destruct Hok as [Hp Hd Ho]. simpl in *.
  destruct (Ho id (ex_intro _ _ Hop)) as [Hc Hl]. split; simpl; [|done|].
  - unfold all_sessions in *. simpl in *. rewrite fmap_insert, <- insert_union_r by done.
    exact (more_listeners_ok (mkState (clients st ∪ (opening_session <$> op)) (bound st)) id _
      (opening_session (mkOpening ps rest (ls ++ ls'))) ls' b Hp Hlook (bind_config_adds _ _ _ _ _ Hb) eq_refl).
  - intros id'. destruct (decide (id' = id)) as [->|Hne]; [done|]. rewrite lookup_insert_ne by done. apply Ho.
Qed.

Lemma step_store_ok now id ps ls st op live :
  op !! id = Some (mkOpening ps [] ls) -> world_ok (mkWorld st op live) ->
  world_ok (mkWorld (mkState (<[id := mkClientSession ps ls now]> (clients st)) (bound st)) (delete id op) ({[id]} ∪ live)).
Proof.
  intros Hop Hok. pose proof (opening_lookup (mkWorld st op live) _ _ Hop Hok) as Hlook. destruct Hok as [Hp Hd Ho]. simpl in *.
  split; simpl; [| |].
  - assert (all_sessions (mkWorld (mkState (<[id := mkClientSession ps ls now]> (clients st)) (bound st)) (delete id op)
        ({[id]} ∪ live)) = mkState (<[id := mkClientSession ps ls now]> (clients (all_sessions (mkWorld st op live)))) (bound st)) as ->.
    { unfold all_sessions. simpl. f_equal. rewrite fmap_delete, <- insert_union_l. apply map_eq. intros i.
      destruct (decide (i = id)) as [->|Hne]; [by rewrite !lookup_insert_eq|].
      by rewrite !lookup_insert_ne, !lookup_union, lookup_delete_ne by done. }
    apply (more_listeners_ok (all_sessions (mkWorld st op live)) id _ _ [] _ Hp Hlook (adds_nil _)).
    simpl. by rewrite app_nil_r.
  - rewrite dom_insert. set_solver.
  - intros id'. destruct (decide (id' = id)) as [->|Hne]; [rewrite lookup_delete_eq; by intros []|].
    rewrite lookup_delete_ne, lookup_insert_ne by done. intros Hi. destruct (Ho id' Hi). set_solver.
Qed.

Lemma removed_ok ids st op live live' :
  (forall id, id ∈ ids -> op !! id = None) -> live' ⊆ live ->
  (forall id, id ∈ live -> id ∉ live' -> id ∈ ids) ->
  world_ok (mkWorld st op live) -> world_ok (mkWorld (foldr remove_session st ids) op live').
Proof.
  intros Hn Hsub Hgone [Hp Hd Ho]. simpl in *. split; simpl.
  - assert (all_sessions (mkWorld (foldr remove_session st ids) op live') =
      foldr remove_session (all_sessions (mkWorld st op live)) ids) as ->
      by exact (all_sessions_foldr ids (mkWorld st op live) Hn).
    by apply foldr_remove_ok.
  - intros id Hid. apply elem_of_dom in Hid as [s Hs]. rewrite foldr_remove_lookup in Hs.
    destruct (decide (id ∈ ids)) as [|Hni]; [done|]. destruct (decide (id ∈ live')); [done|].
    destruct Hni. apply Hgone; [|done]. apply Hd, elem_of_dom. eauto.
  - intros id Hi. destruct (Ho id Hi) as [Hc Hl]. rewrite foldr_remove_lookup, Hc. split; [by case_decide|set_solver].
Qed.

Lemma expired_not_opening now W : world_ok W -> forall id, id ∈ to_remove now (w_state W) -> w_opening W !! id = None.
Proof.
  intros Hok id (s & Hs & _)%to_remove_spec. destruct (w_opening W !! id) as [o|] eqn:Ho; [|done].
  destruct (wo_opening _ Hok id (ex_intro _ o Ho)). congruence.
Qed.

Lemma step_ok W W' : step srv W W' -> world_ok W -> world_ok W'.
Proof.
  intros Hs Hok. destruct Hs; [done|by apply step_hello_ok|by eapply step_bind_ok|by apply step_store_ok| |].
  - apply (removed_ok [id] st op live); [| | |done].
    + intros id' ->%list_elem_of_singleton. destruct (op !! id) as [o|] eqn:Ho; [|done].
      by destruct (wo_opening _ Hok id (ex_intro _ o Ho)).
    + intros x [? _]%elem_of_difference. done.
    + intros x Hx Hn. apply list_elem_of_singleton. destruct (decide (x = id)); [done|].
      destruct Hn. apply elem_of_difference. by rewrite elem_of_singleton.
  - apply (removed_ok (to_remove now st) st op live); try done. apply (expired_not_opening now _ Hok).
Qed.

(** [admit_client] is a run of these steps: one connection alone does what
    the function does. *)
Lemma binding_steps os id ps rest ls st op live ls' b :
  op !! id = Some (mkOpening ps rest ls) -> bind_all os rest (bound st) = (ls', b) ->
  rtc (step srv) (mkWorld st op live) (mkWorld (mkState (clients st) b) (<[id := mkOpening ps [] (ls ++ ls')]> op) live).
Proof.
  revert ls st op ls' b. induction rest as [|c rest IH]; intros ls [cl bd] op ls' b Hop; cbn [bind_all bound clients].
  - intros [= <- <-]. by rewrite app_nil_r, insert_id.
  - destruct (bind_config os c bd) as [l1 b1] eqn:H1. destruct (bind_all os rest b1) as [l2 b2] eqn:H2. intros [= <- <-].
    eapply rtc_l; [by eapply (step_bind srv os)|]. rewrite (assoc_L (++)).
    specialize (IH (ls ++ l1) (mkState cl b1) (<[id := mkOpening ps rest (ls ++ l1)]> op) l2 b2 ltac:(apply lookup_insert_eq) H2).
    by rewrite insert_insert_eq in IH.
Qed.

Lemma admit_client_steps os wall now addr r w st op live r' w' st' :
  client_id addr ∉ live -> op !! client_id addr = None ->
  admit_client os srv wall now addr r w st = Val (Ok tt, r', w', st') ->
  rtc (step srv) (mkWorld st op live) (mkWorld st' op ({[client_id addr]} ∪ live)).
Proof.
  intros Hl Hn. unfold admit_client. destruct (greet srv wall addr r w) as [[[[ps|e] r1] w1]|] eqn:Hg; [|done..].
  intros [= <- <- <-]. unfold open_session. destruct (bind_all os ps (bound st)) as [ls b] eqn:Hb.
  eapply rtc_l; [by eapply step_hello|]. etransitivity.
  { eapply binding_steps; [apply lookup_insert_eq|exact Hb]. }
  rewrite insert_insert_eq. eapply rtc_l; [apply (step_store _ now), lookup_insert_eq|].
  by rewrite delete_insert_eq, (delete_id _ _ Hn).
Qed.

Lemma reachable_rtc W W' : reachable srv W -> rtc (step srv) W W' -> reachable srv W'.
Proof. intros Hr Hs. induction Hs as [|W W1 W2 H1 _ IH]; [done|]. apply IH. by eapply reach_step. Qed.

Lemma reachable_ok W : reachable srv W -> world_ok W.
Proof.
  induction 1 as [|W W' _ IH Hs]; [|by eapply step_ok].
  split; simpl; [|set_solver|by intros id [o Ho]]. split.
  - intros l. unfold all_sessions. simpl. rewrite fmap_empty. split; [set_solver|]. intros (id & s & Hs & _).
    simpl in Hs. by rewrite lookup_union, lookup_empty in Hs.
  - intros id id' l (s & Hs & _). unfold all_sessions in Hs. simpl in Hs. by rewrite fmap_empty in Hs.
Qed.
End System.

(** ** Properties *)

(** C8. Who gets in: a message is accepted exactly when it is a hello of this
    protocol version whose token is valid, whose TOTP code is valid when a
    secret is configured, whose hash is that of its own proxy list, and which
    asks for at least one proxy. *)
Theorem hello_accepted_iff `{Env} srv wall msg ps :
  check_hello srv wall msg = Val (Accept ps) <->
  exists token code json,
    msg = ClientHello PROTOCOL_VERSION token code ps (sha256_hex json) /\
    (forall server_token, auth_token srv = Some server_token ->
       token = server_token \/ token ∈ allowed_tokens srv) /\
    (forall secret, totp_secret srv = Some secret ->
       exists c, code = Some c /\ Totp.verify hmac_sha1 (totp_of_secret secret) wall c = Val true) /\
    to_json ps = Ok json /\ ps <> [].
Proof.
  assert (forall token, token_valid srv token = true <->
    (forall server_token, auth_token srv = Some server_token ->
       token = server_token \/ token ∈ allowed_tokens srv)) as Htok.
  { intros token. unfold token_valid. destruct (auth_token srv) as [t|]; [|by split; [intros _ ? [=]|]].
    rewrite orb_true_iff, String.eqb_eq, existsb_exists. split.
    - intros [->|(x & Hx & He)] ? [= <-]; [by left|right].
      apply String.eqb_eq in He as ->. by apply list_elem_of_In.
    - intros Ha. destruct (Ha t eq_refl) as [->|Hx]; [by left|right].
      exists token. split; [by apply list_elem_of_In|apply String.eqb_refl]. }
  assert (forall code, totp_valid srv wall code = Val true <->
    (forall secret, totp_secret srv = Some secret ->
       exists c, code = Some c /\ Totp.verify hmac_sha1 (totp_of_secret secret) wall c = Val true)) as Htotp.
  { intros code. unfold totp_valid. destruct (totp_secret srv) as [s|]; [|by split; [intros _ ? [=]|]].
    destruct code as [c|]; split.
    - intros Hv ? [= <-]. eauto.
    - intros Ha. by destruct (Ha s eq_refl) as (? & [= <-] & ?).
    - done.
    - intros Ha. by destruct (Ha s eq_refl) as (? & [=] & _). }
  setoid_rewrite <- Htok. setoid_rewrite <- Htotp. split.
  - unfold check_hello. destruct msg as [v token code ps' h| | |]; [|done..].
    case_if; boolp; [done|]. case_if; boolp; [done|].
    destruct (totp_valid srv wall code) as [[]|] eqn:Hv; simpl; [|done..].
    destruct (to_json ps') as [json|] eqn:Hj; [|done]. case_if; boolp; [done|].
    destruct ps' as [|p ps']; [done|]. intros [= <-]. subst.
    exists token, code, json. done.
  - intros (token & code & json & -> & Ht & Hv & Hj & Hne). unfold check_hello.
    rewrite Ht, Hv, Hj. simpl. rewrite String.eqb_refl. simpl. by destruct ps.
Qed.

(** C9. However the connections' tasks interleave while they are answered,
    bind their ports one after the other, are stored, end and are cleaned up, no
    port belongs to two connections, a port is in use exactly while a stored
    session or a connection in its binding loop owns it, and once every connection
    has ended the table is empty and every port is free. *)
Theorem ports_have_one_owner `{Env, Codec} srv W :
  reachable srv W ->
  (forall id id' l, owns W id l -> owns W id' l -> id = id') /\
  (forall l, l ∈ bound (w_state W) <-> exists id, owns W id l) /\
  (w_live W = ∅ -> w_opening W = ∅ -> clients (w_state W) = ∅ /\ bound (w_state W) = ∅).
Proof.
  intros Hok%reachable_ok. pose proof Hok as [[Hb Hu] Hd _]. setoid_rewrite <- (owns_holds W Hok).
  split; [done|]. split; [done|]. intros Hl Ho.
  assert (clients (w_state W) = ∅) as Hc by (apply dom_empty_iff_L; set_solver).
  split; [done|]. apply elem_of_equiv_empty_L. intros l [id (s & Hs & _)]%Hb.
  unfold all_sessions in Hs. by rewrite Hc, Ho, fmap_empty in Hs.
Qed.

(** C30. Activity is never recorded: a session keeps the timestamp of its
    opening for as long as its connection lives, so the first cleanup tick more
    than 300 seconds after the opening evicts it and frees its ports, however
    busy the tunnel is. *)
Theorem busy_sessions_are_evicted `{Env, Codec} srv W id s :
  reachable srv W ->
  clients (w_state W) !! id = Some s ->
  (forall W' s', step srv W W' -> id ∈ w_live W' -> clients (w_state W') !! id = Some s' ->
     s' = s) /\
  (forall now, from_secs 300 < now - cs_last_activity s ->
     clients (cleanup_tick now (w_state W)) !! id = None /\
     forall l, l ∈ cs_listeners s -> snd l <> 0 -> l ∉ bound (cleanup_tick now (w_state W))).
Proof.
  intros Hr Hs. pose proof (reachable_ok _ _ Hr) as Hok. split.
  - intros W' s' Hstep Hlive Hs'. destruct Hstep; simpl in *; try congruence.
    + destruct (decide (id0 = id)) as [->|Hne]; [|rewrite lookup_insert_ne in Hs' by done; congruence].
      destruct (wo_opening _ Hok id) as [Hc _]; [by eexists|]. simpl in Hc. congruence.
    + rewrite remove_session_lookup in Hs'. destruct (decide _); congruence.
    + rewrite cleanup_lookup, Hs in Hs'. destruct (expired now s); congruence.
  - intros now Hnow.
    assert (clients (cleanup_tick now (w_state W)) !! id = None) as Hgone.
    { rewrite cleanup_lookup, Hs. unfold expired. by rewrite (proj2 (Z.ltb_lt _ _)). }
    split; [done|]. intros l Hl Hz Hb. destruct (wo_ports _ Hok) as [_ Hu].
    pose proof (expired_not_opening now W Hok) as Hno.
    assert (ports_ok (foldr remove_session (all_sessions W) (to_remove now (w_state W)))) as [Hb' _]
      by (apply foldr_remove_ok, Hok).
    rewrite <- (all_sessions_foldr _ W Hno) in Hb'. apply Hb' in Hb as (id' & Hown).
    assert (holds (all_sessions W) id' l /\ id' ∉ to_remove now (w_state W)) as [Hown' Hnot].
    { rewrite (all_sessions_foldr _ W Hno) in Hown. destruct Hown as (s' & Hs' & Hl').
      rewrite foldr_remove_lookup in Hs'. destruct (decide (id' ∈ _)); [done|]. split; [by exists s'|done]. }
    assert (id' = id) as ->.
    { eapply Hu; [exact Hown'|]. apply owns_holds; [done|]. left. by exists s. }
    apply Hnot, to_remove_spec. exists s. split; [done|]. unfold expired. by apply Z.ltb_lt.
Qed.

(** ** Witnesses *)

#[local] Existing Instances FixedWidth.codec FixedWidth.laws.

#[export] Instance sample_env : Env := {|
  hmac_sha1 := sample_hmac;
  to_uppercase := ascii_upper;
  b32_decode := sample_decode;
  to_json ps := Ok (of_bytes (concat (map FixedWidth.e_config ps)));
  sha256_hex s := s |}.

Definition sample_server : ReverseProxyServer :=
  new_with_auth UNSPECIFIED 7000 (Some "secret") ["guest"].

Definition sample_proxies : list ReverseProxyConfig := [mkReverseProxyConfig 8080 None "localhost" 80].

Definition sample_client_hello (token : string) : ControlMessage :=
  ClientHello 1 token None sample_proxies
    (match to_json sample_proxies with Ok j => sha256_hex j | Err _ => "" end).

Definition sample_peer : SocketAddr := mkSocketAddr (V4 10 0 0 2) 40000.

Definition sample_input (token : string) : Reader :=
  reader_of (match serialize (sample_client_hello token) with Ok d => frame d | Err _ => [] end).

Definition sample_result : outcome (Result unit * Reader * Writer * State) :=
  admit_client (fun _ => true) sample_server 1700000000 0 sample_peer (sample_input "guest") open_writer initial.

Definition sample_state : State :=
  match sample_result with Val (_, _, _, st) => st | Panic => initial end.

Definition sample_world : World := mkWorld sample_state ∅ {[client_id sample_peer]}.

Lemma sample_reachable : reachable sample_server sample_world.
Proof.
  assert (sample_world = mkWorld sample_state ∅ ({[client_id sample_peer]} ∪ ∅)) as -> by (unfold sample_world; f_equal; set_solver).
  eapply reachable_rtc; [apply reach_init|].
  eapply (admit_client_steps _ (fun _ => true) 1700000000 0 sample_peer (sample_input "guest") open_writer);
    [set_solver|done|vm_compute; reflexivity].
Qed.

Theorem ports_have_one_owner_witness :
  (exists id, owns sample_world id (Tcp, 8080)) /\
  (forall id id' l, owns sample_world id l -> owns sample_world id' l -> id = id').
Proof.
  destruct (ports_have_one_owner _ _ sample_reachable) as (H1 & H2 & _).
  split; [|exact H1]. apply H2. apply (bool_decide_unpack _). vm_compute. exact I.
Defined.

Theorem busy_sessions_are_evicted_witness :
  exists s, clients sample_state !! client_id sample_peer = Some s /\
    clients (cleanup_tick (from_secs 301) sample_state) !! client_id sample_peer = None.
Proof.
  eexists. split; [vm_compute; reflexivity|].
  eapply (busy_sessions_are_evicted _ _ (client_id sample_peer) _ sample_reachable);
    [vm_compute; reflexivity|vm_compute; reflexivity].
Defined.
