(* ===== verification/Tunnel.v ===== *)
(** * Tunnel: both ends of one tunnel stream

    The server's task for a [TunnelRequest] (src/src/reverse_proxy/server.rs,
    the tunnel loop of [handle_client]) and the client's [handle_tunnel_stream]
    (src/src/reverse_proxy/client.rs): a four-byte header, then either the raw
    bytes of a TCP connection or one length-prefixed datagram. *)

From Stdlib Require Import Ascii String ZArith Lia.
From stdpp Require Import base gmap strings list.
From S2P Require Import Prelude Text NetAddr Errors Stream Protocol.

(** ** Server end *)

(** Streams and sockets are named by numbers. *)
Record TunnelRequest := mkTunnelRequest {
  tr_tcp_stream : option nat;
  tr_udp_socket : option nat;
  tr_target_port : Z;
  tr_udp_data : option (list byte);
  tr_udp_peer : option SocketAddr }.

(** The requests the listener tasks send. *)
Definition tcp_request (stream : nat) (port : Z) : TunnelRequest :=
  mkTunnelRequest (Some stream) None port None None.
Definition udp_request (socket : nat) (port : Z) (data : list byte) (peer : SocketAddr) : TunnelRequest :=
  mkTunnelRequest None (Some socket) port (Some data) (Some peer).

(** [\[ty, 0x00, (port >> 8) as u8, port as u8\]] *)
Definition header (ty port : Z) : list byte :=
  [z_byte ty; z_byte 0; z_byte (Z.shiftr port 8); z_byte port].

(** What the task ends with: a TCP stream joined to the tunnel by
    [copy_bidirectional], the datagrams sent back to the peer, a write that
    failed, or nothing at all. *)
Inductive served : Type :=
| CopyBidirectional (stream : nat)
| UdpReplies (sent : list (nat * SocketAddr * list byte))
| WriteFailed (e : IoError)
| NotServed.

(** The loop that reads framed responses until the stream ends; a round uses
    at least two bytes. *)
Fixpoint response_loop (fuel : nat) (r : Reader) : list (list byte) :=
  match fuel with
  | O => []
  | S fuel =>
      match read_u16 r with
      | (Err _, _) => []
      | (Ok len, r) =>
          match read_exact (Z.to_nat len) r with
          | (Err _, _) => []
          | (Ok buf, r) => buf :: response_loop fuel r
          end
      end
  end.

Definition responses (r : Reader) : list (list byte) := response_loop (length (rd_data r)) r.

(** [write_all] calls in order, stopping at the first failure. *)
Fixpoint write_parts (parts : list (list byte)) (w : Writer) : result unit IoError * Writer :=
  match parts with
  | [] => (Ok tt, w)
  | p :: parts =>
      match write_all p w with
      | (Ok _, w) => write_parts parts w
      | (Err e, w) => (Err e, w)
      end
  end.

Definition serve_request (req : TunnelRequest) (r : Reader) (w : Writer) : served * Writer :=
  match tr_tcp_stream req with
  | Some stream =>
      match write_parts [header 1 (tr_target_port req)] w with
      | (Ok _, w) => (CopyBidirectional stream, w)
      | (Err e, w) => (WriteFailed e, w)
      end
  | None =>
      match tr_udp_data req, tr_udp_peer req with
      | Some udp_data, Some peer =>
          let len := wrap 16 (Z.of_nat (length udp_data)) in
          match write_parts [header 2 (tr_target_port req); be_bytes 2 len; udp_data] w with
          | (Err e, w) => (WriteFailed e, w)
          | (Ok _, w) =>
              let '(_, w) := flush w in
              (UdpReplies match tr_udp_socket req with
                          | Some socket => map (fun buf => (socket, peer, buf)) (responses r)
                          | None => []
                          end, w)
          end
      | _, _ => (NotServed, w)
      end
  end.

(** ** Client end *)

(** The local services: connecting, binding and sending may fail, and a
    service may answer a datagram, fail, or stay silent for two seconds. *)
Inductive UdpAnswer : Type := Answer (data : list byte) | RecvFailed (e : IoError) | Silence.

Class LocalNet := {
  tcp_connect : string -> result unit IoError;
  udp_bind : result unit IoError;
  udp_send : string -> list byte -> result unit IoError;
  udp_answer : string -> list byte -> UdpAnswer }.

(** What the client does with a stream. *)
Inductive forwarded : Type :=
| ForwardTcp (local_addr : string)
| SentUdp (local_addr : string) (payload : list byte).

Definition conn_failed {A} (s : string) : Result A := Err (ReverseProxy (RpConnectionFailed s)).

(** [.find(|c| c.server_port == target_port).ok_or_else(..)] *)
Definition find_target (cs : list ReverseProxyConfig) (port : Z) : Result ReverseProxyConfig :=
  match find (fun c => server_port c =? port) cs with
  | Some c => Ok c
  | None => conn_failed ("No local target for port " +:+ show_dec port)
  end.

Definition local_addr_of (c : ReverseProxyConfig) : string :=
  local_host c +:+ ":" +:+ show_dec (local_port c).

(** [{:02x}] of a byte *)
Definition hex2 (z : Z) : string :=
  String (show_hex_digit (z / 16)) (String (show_hex_digit (z mod 16)) "").

(** An I/O error with a description. *)
Definition described (what : string) (e : IoError) : AppError :=
  ReverseProxy (RpConnectionFailed (what +:+ io_text e)).

Section Client.
Context `{LocalNet}.

(** The UDP branch, after the header.  Both give back what is left in the stream. *)
Definition forward_udp (cs : list ReverseProxyConfig) (target_port : Z) (r : Reader) (w : Writer)
  : Result forwarded * Reader * Writer :=
  match find_target cs target_port with
  | Err e => (Err e, r, w)
  | Ok target =>
      match read_u16 r with
      | (Err e, r) => (Err (described "Failed to read UDP payload length: " e), r, w)
      | (Ok len, r) =>
          match read_exact (Z.to_nat len) r with
          | (Err e, r) => (Err (described "Failed to read UDP payload: " e), r, w)
          | (Ok payload, r) =>
              let local_addr := local_addr_of target in
              match udp_bind with
              | Err e => (Err (described "Failed to bind UDP socket: " e), r, w)
              | Ok _ =>
                  match udp_send local_addr payload with
                  | Err e => (Err (described "Failed to send UDP data: " e), r, w)
                  | Ok _ =>
                      (Ok (SentUdp local_addr payload), r,
                       match udp_answer local_addr payload with
                       | Answer data => snd (write_all (take (Z.to_nat 65535) data) w)
                       | RecvFailed _ | Silence => w
                       end)
                  end
              end
          end
      end
  end.

Definition forward_tcp (cs : list ReverseProxyConfig) (target_port : Z) : Result forwarded :=
  let? target := find_target cs target_port in
  let local_addr := local_addr_of target in
  match tcp_connect local_addr with
  | Err e => Err (described ("Failed to connect to local service " +:+ local_addr +:+ ": ") e)
  | Ok _ => Ok (ForwardTcp local_addr)
  end.

Definition handle_tunnel_stream (cs : list ReverseProxyConfig) (r : Reader) (w : Writer)
  : Result forwarded * Reader * Writer :=
  match read_exact 4 r with
  | (Err e, r) => (Err (described "Failed to read header: " e), r, w)
  | (Ok hdr, r) =>
      let msg_type := be_value (take 1 hdr) in
      let target_port := be_value (drop 2 hdr) in
      if msg_type =? 1 then (forward_tcp cs target_port, r, w)
      else if msg_type =? 2 then forward_udp cs target_port r w
      else if msg_type =? 3 then (conn_failed "PROXY protocol not implemented", r, w)
      else (conn_failed ("Unknown protocol type 0x" +:+ hex2 msg_type), r, w)
  end.
End Client.

(** ** Lemmas *)

Lemma header_length ty port : length (header ty port) = 4%nat.
Proof. reflexivity. Qed.

Lemma be_value_single z : in_u 8 z -> be_value [z_byte z] = z.
Proof.
  intros Hz. unfold be_value. cbn [rev app].
  change (LittleEndianList.le_combine [z_byte z]) with (Z.lor (byte_z (z_byte z)) 0).
  rewrite Z.lor_0_r, byte_z_of. by apply Z.mod_small.
Qed.

Lemma header_type ty port : in_u 8 ty -> be_value (take 1 (header ty port)) = ty.
Proof. apply be_value_single. Qed.

Lemma header_port ty port : in_u 16 port -> be_value (drop 2 (header ty port)) = port.
Proof.
  intros Hp. change (drop 2 (header ty port)) with (be_bytes 2 port).
  by apply be_value_bytes_small.
Qed.

Lemma write_parts_open parts w :
  wr_room w = None ->
  write_parts parts w = (Ok tt, mkWriter (wr_out w ++ concat parts) None (wr_err w) (wr_flushed w)).
Proof.
  revert w. induction parts as [|p parts IH]; intros [out room err fl]; simpl; intros ->.
  - by rewrite app_nil_r.
  - unfold write_all. simpl. rewrite IH by done. simpl. by rewrite (assoc_L (++)).
Qed.

Lemma read_header ty port tail f :
  read_exact 4 (mkReader (header ty port ++ tail) f) = (Ok (header ty port), mkReader tail f).
Proof. exact (read_exact_app (header ty port) tail f). Qed.

Lemma read_u16_app z tail f :
  in_u 16 z -> read_u16 (mkReader (be_bytes 2 z ++ tail) f) = (Ok z, mkReader tail f).
Proof.
  intros Hz. unfold read_u16. rewrite <- (length_be_bytes 2 z) at 1.
  rewrite read_exact_app. cbn [map_ok]. by rewrite be_value_bytes_small.
Qed.

Lemma read_u16_ok r z r' :
  read_u16 r = (Ok z, r') ->
  in_u 16 z /\ rd_data r = take 2 (rd_data r) ++ rd_data r' /\
  z = be_value (take 2 (rd_data r)) /\ length (rd_data r) = (2 + length (rd_data r'))%nat.
Proof.
  unfold read_u16. destruct (read_exact 2 r) as [[b|e] r1] eqn:Hr; simpl; intros [= <- <-].
  apply read_exact_ok in Hr as (Hl & Hd & _). rewrite Hd, <- Hl, take_app_length.
  split; [|split; [done|split; [done|]]].
  - pose proof (be_value_bound b) as Hb. by rewrite Hl in Hb.
  - rewrite length_app. lia.
Qed.

(** The framed responses are read back one by one. *)
Definition framed (ps : list (list byte)) : list byte :=
  concat (map (fun p => be_bytes 2 (Z.of_nat (length p)) ++ p) ps).

Lemma response_loop_framed fuel ps :
  Forall (fun p => in_u 16 (Z.of_nat (length p))) ps -> (length ps < fuel)%nat ->
  response_loop fuel (reader_of (framed ps)) = ps.
Proof.
  intros Hps. revert fuel. induction Hps as [|p ps Hp Hps IH]; intros [|fuel] Hf; simpl in Hf; try lia.
  - reflexivity.
  - unfold reader_of, framed. cbn [map concat response_loop].
    rewrite <- !(assoc_L (++)), read_u16_app, Nat2Z.id, read_exact_app by done.
    f_equal. apply IH. lia.
Qed.

Lemma response_loop_shorter fuel r buf :
  buf ∈ response_loop fuel r -> (length buf + 2 <= length (rd_data r))%nat.
Proof.
  revert r. induction fuel as [|fuel IH]; intros r; simpl; [by intros ?%elem_of_nil|].
  destruct (read_u16 r) as [[len|e] r1] eqn:H1; [|by intros ?%elem_of_nil].
  destruct (read_exact (Z.to_nat len) r1) as [[b|e] r2] eqn:H2; [|by intros ?%elem_of_nil].
  apply read_u16_ok in H1 as (_ & _ & _ & Hl1). apply read_exact_ok in H2 as (Hb & Hd & _).
  apply (f_equal length) in Hd. rewrite length_app in Hd.
  intros [->|Hin]%elem_of_cons; [lia|]. apply IH in Hin. lia.
Qed.

Lemma find_target_spec cs port c :
  find_target cs port = Ok c ->
  exists before after, cs = before ++ c :: after /\ server_port c = port /\
    Forall (fun c' => server_port c' <> port) before.
Proof.
  unfold find_target. induction cs as [|x cs IH]; simpl; [done|].
  destruct (Z.eqb_spec (server_port x) port) as [Hx|Hx].
  - intros [= <-]. exists [], cs. split; [done|]. by split.
  - intros (b & a & -> & Hc & Hb)%IH. exists (x :: b), a. split; [done|]. split; [done|].
    by constructor.
Qed.

(** A datagram over a fresh stream. *)
Lemma datagram_sent `{LocalNet} cs c socket port data peer r :
  in_u 16 port -> in_u 16 (Z.of_nat (length data)) ->
  find_target cs port = Ok c ->
  udp_bind = Ok tt -> udp_send (local_addr_of c) data = Ok tt ->
  exists replies w,
    serve_request (udp_request socket port data peer) r open_writer = (UdpReplies replies, w) /\
    fst (fst (handle_tunnel_stream cs (reader_of (wr_out w)) open_writer)) =
      Ok (SentUdp (local_addr_of c) data).
Proof.
  intros Hp Hd Hc Hb Hs. eexists _, _. split.
  { unfold serve_request, udp_request. cbn [tr_tcp_stream tr_udp_data tr_udp_peer tr_target_port].
    rewrite write_parts_open by done. reflexivity. }
  cbn [wr_out open_writer concat app]. rewrite wrap_small by done.
  unfold handle_tunnel_stream, reader_of. rewrite read_header.
  rewrite header_type, header_port by (done || unfold in_u; lia).
  cbn [Z.eqb Pos.eqb]. unfold forward_udp. rewrite Hc, read_u16_app by done.
  rewrite Nat2Z.id, read_exact_app, Hb, Hs. reflexivity.
Qed.

(** Replies go back through the socket of the datagram, to its peer. *)
Lemma replies_to_peer socket port data peer r w sent w' s p buf :
  serve_request (udp_request socket port data peer) r w = (UdpReplies sent, w') -> (s, p, buf) ∈ sent -> s = socket /\ p = peer.
Proof.
  unfold serve_request, udp_request. cbn [tr_tcp_stream tr_udp_data tr_udp_peer tr_udp_socket].
  destruct (write_parts (header 2 _ :: _) w) as [[|] w1]; [|done].
  destruct (flush w1) as [? w2]. intros [= <- <-] (b & [= -> -> ->] & _)%list_elem_of_fmap. done.
Qed.

(** ** Properties *)

(** A datagram of at most 65535 bytes that the server tunnels reaches the
    local service of the first proxy with its port, byte for byte. *)
Theorem udp_datagram_reaches_service `{LocalNet} cs c socket port data peer r :
  in_u 16 port -> in_u 16 (Z.of_nat (length data)) ->
  find_target cs port = Ok c ->
  udp_bind = Ok tt -> udp_send (local_addr_of c) data = Ok tt ->
  exists replies w,
    serve_request (udp_request socket port data peer) r open_writer = (UdpReplies replies, w) /\
    fst (fst (handle_tunnel_stream cs (reader_of (wr_out w)) open_writer)) =
      Ok (SentUdp (local_addr_of c) data).
Proof. apply datagram_sent. Qed.

(** The tunnel opens nothing but the configured services: if a stream from
    the server leads to a connection or a datagram, its header names the port of
    a configured proxy, the target is that of the first such proxy, and a
    datagram's payload is the framed bytes after the header. *)
Theorem only_configured_targets `{LocalNet} cs data w f r' w' :
  handle_tunnel_stream cs (reader_of data) w = (Ok f, r', w') ->
  exists hdr rest before c after,
    data = hdr ++ rest /\ length hdr = 4%nat /\
    cs = before ++ c :: after /\ server_port c = be_value (drop 2 hdr) /\
    Forall (fun c' => server_port c' <> server_port c) before /\
    ((be_value (take 1 hdr) = 1 /\ f = ForwardTcp (local_addr_of c) /\ rd_data r' = rest /\ w' = w) \/
     (be_value (take 1 hdr) = 2 /\ exists payload tail,
        rest = be_bytes 2 (Z.of_nat (length payload)) ++ payload ++ tail /\
        f = SentUdp (local_addr_of c) payload)).
Proof.
  unfold handle_tunnel_stream.
  destruct (read_exact 4 (reader_of data)) as [[hdr|e] r1] eqn:H4; [|done].
  apply read_exact_ok in H4 as (Hl & Hd & _). simpl in Hd. intros Hf.
  exists hdr, (rd_data r1).
  destruct (Z.eqb_spec (be_value (take 1 hdr)) 1) as [H1|_].
  { unfold forward_tcp in Hf. destruct (find_target cs _) as [c|] eqn:Hc; [|done].
    apply find_target_spec in Hc as (b & a & -> & Hp & Hb). exists b, c, a.
    rewrite Hp. repeat (split; [done|]). left.
    by destruct (tcp_connect (local_addr_of c)); simplify_eq. }
  destruct (Z.eqb_spec (be_value (take 1 hdr)) 2) as [H2|_]; [|by case_if].
  unfold forward_udp in Hf. destruct (find_target cs _) as [c|] eqn:Hc; [|done].
  apply find_target_spec in Hc as (b & a & -> & Hp & Hb). exists b, c, a.
  rewrite Hp. repeat (split; [done|]). right. split; [done|].
  destruct (read_u16 r1) as [[len|] r2] eqn:Hu; [|done].
  destruct (read_exact (Z.to_nat len) r2) as [[payload|] r3] eqn:Hx; [|done].
  destruct udp_bind; [|done]. destruct (udp_send _ payload); [|done].
  exists payload, (rd_data r3). split; [|by simplify_eq].
  apply read_u16_ok in Hu as (Hr & Hd1 & Hv & Hlen).
  apply read_exact_ok in Hx as (Hlp & Hd2 & _). rewrite Hlp, Z2Nat.id by apply Hr.
  rewrite <- Hd2, Hv, Hd1 at 1. f_equal.
  rewrite <- (be_bytes_value (take 2 (rd_data r1))) at 1. f_equal.
  rewrite length_take. lia.
Qed.

(** C35. No reply survives the way back: the client writes the answer of a local
    service to the stream as it is, while the server expects a two-byte length
    in front of it, so the answer is never among the datagrams the server sends
    to the peer.  Framed, it would be the one datagram sent. *)
Theorem udp_replies_are_lost `{LocalNet} cs data f request answer r' w' socket port peer :
  handle_tunnel_stream cs (reader_of data) open_writer = (Ok (SentUdp f request), r', w') ->
  udp_answer f request = Answer answer -> in_u 16 (Z.of_nat (length answer)) ->
  exists replies framed_replies,
    fst (serve_request (udp_request socket port request peer) (reader_of (wr_out w')) open_writer)
      = UdpReplies replies /\
    (forall s p, (s, p, answer) ∉ replies) /\
    fst (serve_request (udp_request socket port request peer) (reader_of (framed [answer])) open_writer)
      = UdpReplies framed_replies /\
    framed_replies = [(socket, peer, answer)].
Proof.
  intros Hh Ha Hl.
  assert (wr_out w' = answer) as Hw.
  { unfold handle_tunnel_stream in Hh.
    destruct (read_exact 4 (reader_of data)) as [[hdr|e] r1]; [|done].
    destruct (_ =? 1). { unfold forward_tcp in Hh. destruct (find_target _ _) as [c|]; [|done]. by destruct (tcp_connect (local_addr_of c)). }
    destruct (_ =? 2); [|by case_if]. unfold forward_udp in Hh.
    destruct (find_target _ _) as [c|]; [|done]. destruct (read_u16 r1) as [[len|] r2]; [|done].
    destruct (read_exact (Z.to_nat len) r2) as [[payload|] r3]; [|done].
    destruct udp_bind; [|done]. destruct (udp_send _ payload); [|done].
    injection Hh as <- <- <- <-. rewrite Ha. unfold write_all. simpl.
    apply take_ge. unfold in_u in Hl. lia. }
  assert (forall r, fst (serve_request (udp_request socket port request peer) r open_writer) =
            UdpReplies (map (fun buf => (socket, peer, buf)) (responses r))) as Hserve.
  { intros r. unfold serve_request, udp_request.
    cbn [tr_tcp_stream tr_udp_data tr_udp_peer tr_udp_socket tr_target_port].
    by rewrite write_parts_open. }
  eexists _, _. split; [apply Hserve|]. split; [|split; [apply Hserve|]].
  - intros s p (buf & He & Hin)%list_elem_of_fmap. injection He as -> -> <-.
    apply response_loop_shorter in Hin. rewrite Hw in Hin. simpl in Hin. lia.
  - unfold responses. rewrite response_loop_framed; [done|by constructor|].
    unfold framed. simpl. lia.
Qed.

(** ** Witnesses *)

Definition sample_net : LocalNet := {|
  tcp_connect _ := Ok tt;
  udp_bind := Ok tt;
  udp_send _ _ := Ok tt;
  udp_answer _ data := Answer (rev data) |}.

Definition sample_targets : list ReverseProxyConfig := [mkReverseProxyConfig 5353 None "127.0.0.1" 53].
Definition sample_peer : SocketAddr := mkSocketAddr (V4 192 0 2 1) 4242.
Definition sample_datagram : list byte := map z_byte [0; 1; 7].

Theorem udp_datagram_reaches_service_witness :
  exists replies w,
    serve_request (udp_request 3 5353 sample_datagram sample_peer) (reader_of []) open_writer = (UdpReplies replies, w) /\
    fst (fst (handle_tunnel_stream (H := sample_net) sample_targets (reader_of (wr_out w)) open_writer)) =
      Ok (SentUdp "127.0.0.1:53" sample_datagram).
Proof.
  apply (udp_datagram_reaches_service (H := sample_net) sample_targets
    (mkReverseProxyConfig 5353 None "127.0.0.1" 53) 3 5353 sample_datagram sample_peer (reader_of []));
    [unfold in_u; lia|unfold in_u; simpl; lia|reflexivity..].
Defined.

Theorem only_configured_targets_witness :
  exists hdr rest before c after,
    header 1 5353 = hdr ++ rest /\ length hdr = 4%nat /\
    sample_targets = before ++ c :: after /\ server_port c = be_value (drop 2 hdr).
Proof.
  destruct (only_configured_targets (H := sample_net) sample_targets (header 1 5353) open_writer
    (ForwardTcp "127.0.0.1:53") (reader_of []) open_writer) as (hdr & rest & b & c & a & H1 & H2 & H3 & H4 & _);
    [vm_compute; reflexivity|].
  exists hdr, rest, b, c, a. auto.
Defined.

Theorem udp_replies_are_lost_witness :
  exists replies,
    fst (serve_request (udp_request 3 5353 sample_datagram sample_peer)
           (reader_of (rev sample_datagram)) open_writer) = UdpReplies replies /\
    forall s p, (s, p, rev sample_datagram) ∉ replies.
Proof.
  destruct (udp_replies_are_lost (H := sample_net) sample_targets
    (header 2 5353 ++ be_bytes 2 3 ++ sample_datagram) "127.0.0.1:53" sample_datagram
    (rev sample_datagram) (reader_of []) (mkWriter (rev sample_datagram) None broken_pipe 0) 3 5353 sample_peer)
    as (replies & _ & H1 & H2 & _).
  - vm_compute. reflexivity.
  - reflexivity.
  - unfold in_u; simpl; lia.
  - exists replies. split; [exact H1|exact H2].
Defined.
