(* ===== verification/ReverseClient.v ===== *)
(** * ReverseClient: the reverse proxy client (src/src/reverse_proxy/client.rs)

    Credentials taken from the environment and the configuration, the proxy
    list sent to the server, the handshake, one connection and the loop that
    reconnects.  The end of the file joins the client to the server of
    ReverseServer over two byte streams. *)

From Stdlib Require Import Ascii String ZArith Lia.
From stdpp Require Import base gmap strings list.
From S2P Require Import Prelude Text NetAddr Errors Config ConfigSpec Totp Stream Protocol ReverseServer Tunnel.

Record ReverseProxyClient := mkReverseProxyClient {
  server_addr : SocketAddr;
  config : ConfigFile;
  auth_token : option string;
  totp_secret : option string }.

(** [new], with the value of [REVERSE_PROXY_TOKEN]. *)
Definition new (env_token : option string) (addr : SocketAddr) (c : ConfigFile) : ReverseProxyClient :=
  let token :=
    match env_token with
    | Some t => Some t
    | None =>
        match cf_reverse_proxy_server c with
        | Some s => match rps_allowed_tokens s with t :: _ => Some t | [] => None end
        | None => None
        end
    end in
  let secret :=
    match cf_reverse_proxy_client c with Some cl => rpc_totp_secret cl | None => None end in
  mkReverseProxyClient addr c token secret.

Definition new_with_token (addr : SocketAddr) (c : ConfigFile) (token : string) : ReverseProxyClient :=
  mkReverseProxyClient addr c (Some token) None.

(** ** The proxy list *)

Definition parse_proxy_config (r : ReverseProxySection) : Result ReverseProxyConfig :=
  let? server_port := map_err (fun e => ReverseProxy (HandshakeFailed ("Invalid server config: " +:+ show_AppError e)))
                        (ReverseProxySection.get_server_port r) in
  let server_host := ReverseProxySection.get_server_ip r in
  let? local_port := map_err (fun e => ReverseProxy (HandshakeFailed ("Invalid local config: " +:+ show_AppError e)))
                       (ReverseProxySection.get_local_port r) in
  let local_host := default "localhost" (ReverseProxySection.get_local_host r) in
  Ok (mkReverseProxyConfig server_port server_host local_host local_port).

Definition parse_proxy_configs (c : ReverseProxyClient) : Result (list ReverseProxyConfig) :=
  map_result parse_proxy_config (cf_reverse_proxies (config c)).

(** ** The handshake *)

Section Handshake.
Context `{Env, Codec}.

(** [totp_secret.as_ref().map(..generate_current())] at wall-clock [wall] *)
Definition totp_code (c : ReverseProxyClient) (wall : Z) : outcome (option Z) :=
  match totp_secret c with
  | Some secret => let! code := Totp.generate hmac_sha1 (totp_of_secret secret) wall in Val (Some code)
  | None => Val None
  end.

(** The [ClientHello] of [do_handshake]. *)
Definition client_hello (c : ReverseProxyClient) (wall : Z) (ps : list ReverseProxyConfig)
  : outcome (Result ControlMessage) :=
  match to_json ps with
  | Err e => Val (Err (ReverseProxy (SerializationFailed e)))
  | Ok json =>
      let! code := totp_code c wall in
      Val (Ok (ClientHello PROTOCOL_VERSION (default "" (auth_token c)) code ps (sha256_hex json)))
  end.

Definition check_server_hello (response : ControlMessage) : Result unit :=
  match response with
  | ServerHello _ HsOk _ _ _ => Ok tt
  | ServerHello _ _ message _ _ => Err (ReverseProxy (HandshakeFailed message))
  | _ => Err (ReverseProxy (HandshakeFailed "Invalid server response"))
  end.

Definition do_handshake (c : ReverseProxyClient) (wall : Z) (ps : list ReverseProxyConfig)
    (r : Reader) (w : Writer) : outcome (Result unit * Reader * Writer) :=
  let! hello := client_hello c wall ps in
  match hello with
  | Err e => Val (Err e, r, w)
  | Ok hello =>
      match write_to hello w with
      | (Err e, w) => Val (Err e, r, w)
      | (Ok _, w) =>
          match read_from r with
          | (Err e, r) => Val (Err e, r, w)
          | (Ok response, r) => Val (check_server_hello response, r, w)
          end
      end
  end.
End Handshake.

(** ** One connection *)

(** What the tunnel loop sees next. *)
Inductive yamux_event : Type :=
| Shutdown
| InboundStream (stream : Reader)
| YamuxError (e : string)
| YamuxClosed.

(** The loop over the events, with the streams handed to
    [handle_tunnel_stream]; [None] while nothing has ended it. *)
Fixpoint tunnel_loop (events : list yamux_event) : option (Result unit) * list Reader :=
  match events with
  | [] => (None, [])
  | Shutdown :: _ => (Some (Ok tt), [])
  | InboundStream s :: events => let '(res, streams) := tunnel_loop events in (res, s :: streams)
  | YamuxError e :: _ => (Some (Err (ReverseProxy (RpConnectionFailed e))), [])
  | YamuxClosed :: _ =>
      (Some (Err (ReverseProxy (RpConnectionFailed "Connection closed by server"))), [])
  end.

Section Connection.
Context `{Env, Codec}.

(** [run_connection_with_shutdown]: [tcp] is the result of
    [create_optimized_tcp], the two ends of the control stream. *)
Definition run_connection (c : ReverseProxyClient) (wall : Z) (tcp : Result (Reader * Writer))
    (events : list yamux_event) : outcome (option (Result unit) * list Reader) :=
  match parse_proxy_configs c with
  | Err e => Val (Some (Err e), [])
  | Ok [] => Val (Some (Err (ReverseProxy (HandshakeFailed "No valid reverse proxy configurations"))), [])
  | Ok ps =>
      match tcp with
      | Err e => Val (Some (Err e), [])
      | Ok (r, w) =>
          let! hs := do_handshake c wall ps r w in
          match fst (fst hs) with
          | Err e => Val (Some (Err e), [])
          | Ok _ => Val (tunnel_loop events)
          end
      end
  end.
End Connection.

(** ** The reconnection loop *)

Definition MAX_BACKOFF : Z := 60.
Definition MAX_RETRIES : Z := 10.

(** The [n]-th round: whether a shutdown is pending before it, how the
    connection ends, whether a shutdown arrives during the backoff. *)
Record Attempt := mkAttempt {
  at_shutdown : bool;
  at_result : Result unit;
  at_backoff_shutdown : bool }.

(** The result of [start], how many connections it ran and the seconds of its
    backoffs; [None] when the fuel is spent. *)
Section Start.
Variable attempt : Z -> Attempt.

Fixpoint start_loop (fuel : nat) (retry_count backoff_seconds : Z) : option (Result unit * Z * list Z) :=
  match fuel with
  | O => None
  | S fuel =>
      let a := attempt retry_count in
      if at_shutdown a then Some (Ok tt, retry_count, [])
      else if MAX_RETRIES <=? retry_count then
        Some (Err (ReverseProxy (RpConnectionFailed
                ("Failed after " +:+ show_dec MAX_RETRIES +:+ " retry attempts"))), retry_count, [])
      else match at_result a with
      | Ok _ => Some (Ok tt, retry_count + 1, [])
      | Err _ =>
          let retry_count := retry_count + 1 in
          if retry_count <? MAX_RETRIES then
            if at_backoff_shutdown a then Some (Ok tt, retry_count, [backoff_seconds])
            else
              match start_loop fuel retry_count (Z.min (backoff_seconds * 2) MAX_BACKOFF) with
              | Some (res, n, sleeps) => Some (res, n, backoff_seconds :: sleeps)
              | None => None
              end
          else start_loop fuel retry_count backoff_seconds
      end
  end.

Definition start : option (Result unit * Z * list Z) := start_loop 11 0 1.
End Start.

(** ** Lemmas *)

(** The result of a run from count [k]: how far it got and why it ended. *)
Definition run_ok (attempt : Z -> Attempt) (k : Z) (out : Result unit * Z * list Z) : Prop :=
  let '(res, n, sleeps) := out in
  k <= n <= MAX_RETRIES /\
  Forall (fun s => 1 <= s <= MAX_BACKOFF) sleeps /\
  match res with
  | Err e =>
      n = MAX_RETRIES /\ e = ReverseProxy (RpConnectionFailed "Failed after 10 retry attempts") /\
      forall j, k <= j < MAX_RETRIES -> is_ok (at_result (attempt j)) = false
  | Ok _ =>
      (exists j, k <= j /\ (at_shutdown (attempt j) = true \/ at_backoff_shutdown (attempt j) = true)) \/
      (k < n /\ at_result (attempt (n - 1)) = Ok tt)
  end.

Lemma run_ok_step attempt k res n sleeps ss e :
  at_result (attempt k) = Err e -> Forall (fun s => 1 <= s <= MAX_BACKOFF) ss ->
  run_ok attempt (k + 1) (res, n, sleeps) -> run_ok attempt k (res, n, ss ++ sleeps).
Proof.
  intros Ha Hss (Hn & Hsl & Hres). unfold run_ok.
  split; [lia|]. split; [by apply Forall_app|]. destruct res as [u|e'].
  - destruct Hres as [(j & Hj & Hs)|[Hlt Hok]]; [left; exists j; split; [lia|done]|right; split; [lia|done]].
  - destruct Hres as (Hn' & He & Hall). split; [done|]. split; [done|].
    intros j Hj. destruct (decide (j = k)) as [->|]; [by rewrite Ha|]. apply Hall. lia.
Qed.

Lemma start_loop_spec attempt fuel k b :
  0 <= k <= MAX_RETRIES -> (Z.to_nat (MAX_RETRIES - k) < fuel)%nat -> 1 <= b <= MAX_BACKOFF ->
  exists out, start_loop attempt fuel k b = Some out /\ run_ok attempt k out.
Proof.
  revert k b. induction fuel as [|fuel IH]; intros k b Hk Hf Hb; [lia|]. cbn [start_loop].
  destruct (at_shutdown (attempt k)) eqn:Hs.
  { eexists. split; [done|]. split; [lia|]. split; [constructor|]. left. exists k. split; [lia|by left]. }
  destruct (Z.leb_spec MAX_RETRIES k) as [Hm|Hm].
  { eexists. split; [done|]. split; [lia|]. split; [constructor|]. split; [lia|]. split; [done|lia]. }
  destruct (at_result (attempt k)) as [[]|e] eqn:Ha.
  { eexists. split; [done|]. split; [lia|]. split; [constructor|]. right. split; [lia|].
    by replace (k + 1 - 1) with k by lia. }
  destruct (Z.ltb_spec (k + 1) MAX_RETRIES) as [Hlt|Hge].
  - destruct (at_backoff_shutdown (attempt k)) eqn:Hbs.
    { eexists. split; [done|]. split; [lia|]. split; [by apply Forall_singleton|].
      left. exists k. split; [lia|by right]. }
    destruct (IH (k + 1) (Z.min (b * 2) MAX_BACKOFF)) as ([[res n] sl] & -> & Hok);
      [lia|lia|unfold MAX_BACKOFF in *; lia|].
    eexists. split; [done|]. apply (run_ok_step attempt k res n sl [b] e); [done|by apply Forall_singleton|done].
  - destruct (IH (k + 1) b) as ([[res n] sl] & -> & Hok); [lia..|].
    eexists. split; [done|]. by apply (run_ok_step attempt k res n sl [] e).
Qed.

Lemma start_loop_all_fail attempt fuel k b :
  (forall k, at_shutdown (attempt k) = false /\ at_backoff_shutdown (attempt k) = false /\
     is_ok (at_result (attempt k)) = false) ->
  start_loop attempt fuel k b =
  start_loop (fun _ => mkAttempt false (Err (Internal "")) false) fuel k b.
Proof.
  intros H. revert k b. induction fuel as [|fuel IH]; intros k b; [done|]. cbn [start_loop].
  destruct (H k) as (-> & -> & Hk). destruct (at_result (attempt k)); [done|]. by rewrite !IH.
Qed.

(** What the handshake checks on the server's answer. *)
Lemma check_hello_ok wall addr ps : check_server_hello (hello_ok wall addr ps) = Ok tt.
Proof. reflexivity. Qed.

Lemma parse_proxy_configs_Ok c ps :
  parse_proxy_configs c = Ok ps <->
  Forall2 (fun r p => parse_proxy_config r = Ok p) (cf_reverse_proxies (config c)) ps.
Proof. apply map_result_Ok_iff. Qed.

(** ** Properties *)

(** C27. Reconnecting always ends: within ten connections, pausing 1 to 60
    seconds between them, [start] either succeeds, because a shutdown came or a
    connection ended well, or gives up with the error for ten retries after ten
    connections that all failed.  When nothing ever succeeds the pauses double
    up to the cap. *)
Theorem reconnect_bounded attempt :
  (exists res n sleeps, start attempt = Some (res, n, sleeps) /\ run_ok attempt 0 (res, n, sleeps)) /\
  ((forall k, at_shutdown (attempt k) = false /\ at_backoff_shutdown (attempt k) = false /\
      is_ok (at_result (attempt k)) = false) ->
   start attempt =
     Some (Err (ReverseProxy (RpConnectionFailed "Failed after 10 retry attempts")), 10,
           [1; 2; 4; 8; 16; 32; 60; 60; 60])).
Proof.
  split.
  - destruct (start_loop_spec attempt 11 0 1) as ([[res n] sl] & Ho & Hok);
      unfold MAX_RETRIES, MAX_BACKOFF; [lia..|]. by exists res, n, sl.
  - intros H. unfold start. rewrite start_loop_all_fail by done. reflexivity.
Qed.

(** *** The two ends together *)

Lemma totp_of_secret_wf `{Env} s : wf_totp (totp_of_secret s).
Proof.
  unfold totp_of_secret, from_base32. destruct (map_err _ _); unfold wf_totp; simpl; lia.
Qed.

(** A client and a server with the same secret and nearby clocks. *)
Lemma shared_secret_totp `{Env} srv c wall_c wall_s :
  (forall k m, length (hmac_sha1 k m) = 20%nat) ->
  ReverseServer.totp_secret srv = totp_secret c ->
  in_u 64 wall_c -> in_u 64 wall_s -> wall_s + 30 < 2 ^ 64 -> Z.abs (wall_c - wall_s) <= 30 ->
  exists code, totp_code c wall_c = Val code /\ totp_valid srv wall_s code = Val true.
Proof.
  intros Hl Hs Hc Hw Hm Ha. unfold totp_code, totp_valid. rewrite Hs.
  destruct (totp_secret c) as [s|]; [|by eauto].
  assert (step_secs (totp_of_secret s) = 30) as Hstep
    by (unfold totp_of_secret; destruct (from_base32 _ _ s) as [t|] eqn:Ht; [|done];
        unfold from_base32 in Ht; destruct (map_err _ _); by simplify_eq).
  destruct (generated_code_verifies hmac_sha1 (totp_of_secret s) wall_c wall_s) as (code & -> & Hv);
    rewrite ?Hstep; try done; [apply totp_of_secret_wf|].
  exists (Some code). done.
Qed.

Lemma client_hello_spec `{Env} c wall ps json code :
  to_json ps = Ok json -> totp_code c wall = Val code ->
  client_hello c wall ps =
  Val (Ok (ClientHello PROTOCOL_VERSION (default "" (auth_token c)) code ps (sha256_hex json))).
Proof. intros Hj Hc. unfold client_hello. by rewrite Hj, Hc. Qed.

(** A message sent over a fresh stream arrives. *)
Lemma send_receive `{CodecLaws} m :
  sendable m -> exists w, write_to m open_writer = (Ok tt, w) /\ read_from (reader_of (wr_out w)) = (Ok m, reader_of []).
Proof.
  intros (Hwf & data & Hs & Hf). eexists. split; [by apply write_to_frame|].
  simpl. rewrite <- (app_nil_r (frame data)). by apply read_from_frame.
Qed.

Lemma do_handshake_spec `{Env, CodecLaws} c wall ps hello reply :
  client_hello c wall ps = Val (Ok hello) -> sendable hello -> sendable reply ->
  exists wc ws, write_to reply open_writer = (Ok tt, ws) /\
    do_handshake c wall ps (reader_of (wr_out ws)) open_writer =
      Val (check_server_hello reply, reader_of [], wc) /\
    read_from (reader_of (wr_out wc)) = (Ok hello, reader_of []).
Proof.
  intros Hh Hs Hr. destruct (send_receive hello Hs) as (wc & Hwc & Hrc).
  destruct (send_receive reply Hr) as (ws & Hws & Hrs).
  exists wc, ws. split; [done|]. split; [|done].
  unfold do_handshake. by rewrite Hh, Hwc, Hrs.
Qed.

(** The handshake over two byte streams when the server takes the token and the
    code. *)
Lemma agreed_handshake `{Env, CodecLaws} os c srv wall_c wall_s now addr ps json code st :
  to_json ps = Ok json -> ps <> [] -> token_valid srv (default "" (auth_token c)) = true ->
  totp_code c wall_c = Val code -> totp_valid srv wall_s code = Val true ->
  sendable (ClientHello PROTOCOL_VERSION (default "" (auth_token c)) code ps (sha256_hex json)) ->
  sendable (hello_ok wall_s addr ps) ->
  exists wc ws,
    do_handshake c wall_c ps (reader_of (wr_out ws)) open_writer = Val (Ok tt, reader_of [], wc) /\
    admit_client os srv wall_s now addr (reader_of (wr_out wc)) open_writer st =
      Val (Ok tt, reader_of [], ws, open_session os now addr ps st).
Proof.
  intros Hj Hne Ht Hcode Hv Hsend Hreply. pose proof (client_hello_spec c wall_c ps json code Hj Hcode) as Hh.
  destruct (do_handshake_spec c wall_c ps _ _ Hh Hsend Hreply) as (wc & ws & Hws & Hdo & Hrd).
  exists wc, ws. split; [done|]. unfold admit_client, greet. rewrite Hrd. unfold check_hello.
  rewrite Ht, Hv, Hj. simpl. rewrite String.eqb_refl. simpl. destruct ps; [done|]. by rewrite Hws.
Qed.

(** C2. Client and server agree: when the client's token is one the server
    takes, both have the same TOTP secret (or none) and their clocks differ by
    at most one step, the handshake over two byte streams ends well on both
    sides and the server has stored the session with the client's proxies. *)
Theorem handshake_completes `{Env, CodecLaws} os c srv wall_c wall_s now addr ps json st :
  (forall k m, length (hmac_sha1 k m) = 20%nat) ->
  to_json ps = Ok json -> ps <> [] ->
  token_valid srv (default "" (auth_token c)) = true ->
  ReverseServer.totp_secret srv = totp_secret c ->
  in_u 64 wall_c -> in_u 64 wall_s -> wall_s + 30 < 2 ^ 64 -> Z.abs (wall_c - wall_s) <= 30 ->
  (forall code, totp_code c wall_c = Val code ->
     sendable (ClientHello PROTOCOL_VERSION (default "" (auth_token c)) code ps (sha256_hex json))) ->
  sendable (hello_ok wall_s addr ps) ->
  exists wc ws,
    do_handshake c wall_c ps (reader_of (wr_out ws)) open_writer = Val (Ok tt, reader_of [], wc) /\
    admit_client os srv wall_s now addr (reader_of (wr_out wc)) open_writer st =
      Val (Ok tt, reader_of [], ws, open_session os now addr ps st).
Proof.
  intros Hl Hj Hne Ht Hs Hc Hw Hm Ha Hsend Hreply.
  destruct (shared_secret_totp srv c wall_c wall_s) as (code & Hcode & Hv); [done..|].
  by eapply agreed_handshake; [| | | | |apply Hsend|].
Qed.

(** What the server may answer to a hello of the program's own client, whose
    version and configuration hash are always right. *)
Definition refusals : list ControlMessage :=
  [ServerHello PROTOCOL_VERSION InvalidToken "Invalid or missing authentication token" [] None;
   ServerHello PROTOCOL_VERSION InvalidToken "Invalid or missing TOTP code" [] None;
   ServerHello PROTOCOL_VERSION HsConfigError "No proxy configurations provided" [] None].

(** C34. Client and server end every handshake alike: the session is opened and both
    go on, when the token and the code are valid and there is a proxy; otherwise
    the server returns an error with its sessions and ports untouched, and the
    client returns the server's message as its error, and what the message says
    is the case.  Version and hash never come between them. *)
Theorem handshake_agreement `{Env, CodecLaws} os c srv wall_c wall_s now addr ps json code totp_ok st :
  to_json ps = Ok json -> totp_code c wall_c = Val code -> totp_valid srv wall_s code = Val totp_ok ->
  sendable (ClientHello PROTOCOL_VERSION (default "" (auth_token c)) code ps (sha256_hex json)) ->
  sendable (hello_ok wall_s addr ps) -> Forall sendable refusals ->
  let token_ok := token_valid srv (default "" (auth_token c)) in
  exists wc ws client_res server_res st',
    do_handshake c wall_c ps (reader_of (wr_out ws)) open_writer = Val (client_res, reader_of [], wc) /\
    admit_client os srv wall_s now addr (reader_of (wr_out wc)) open_writer st =
      Val (server_res, reader_of [], ws, st') /\
    ((token_ok = true /\ totp_ok = true /\ ps <> [] /\
      client_res = Ok tt /\ server_res = Ok tt /\ st' = open_session os now addr ps st) \/
     (exists message why,
        client_res = Err (ReverseProxy (HandshakeFailed message)) /\
        server_res = Err (ReverseProxy (HandshakeFailed why)) /\ st' = st /\
        ((token_ok = false /\ message = "Invalid or missing authentication token") \/
         (totp_ok = false /\ message = "Invalid or missing TOTP code") \/
         (ps = [] /\ message = "No proxy configurations provided")))).
Proof.
  intros Hj Hcode Hv Hsend Hok Href token_ok. pose proof (client_hello_spec c wall_c ps json code Hj Hcode) as Hh.
  unfold refusals in Href. rewrite !Forall_cons in Href. destruct Href as (Htok & Htotp & Hnone & _).
  assert (forall reply e, sendable reply -> check_hello srv wall_s
      (ClientHello PROTOCOL_VERSION (default "" (auth_token c)) code ps (sha256_hex json)) = Val (Reject (Some reply) e) ->
    exists wc ws, do_handshake c wall_c ps (reader_of (wr_out ws)) open_writer = Val (check_server_hello reply, reader_of [], wc) /\
      admit_client os srv wall_s now addr (reader_of (wr_out wc)) open_writer st = Val (Err e, reader_of [], ws, st)) as Hrefused.
  { intros reply e Hr Hc. destruct (do_handshake_spec c wall_c ps _ reply Hh Hsend Hr) as (wc & ws & Hws & Hdo & Hrd).
    exists wc, ws. split; [done|]. unfold admit_client, greet. by rewrite Hrd, Hc, Hws. }
  unfold check_hello in Hrefused. fold token_ok in Hrefused. rewrite Hv, Hj in Hrefused. simpl in Hrefused.
  destruct token_ok eqn:Ht; simpl in Hrefused.
  2:{ destruct (Hrefused _ _ Htok eq_refl) as (wc & ws & Hdo & Had). exists wc, ws. do 3 eexists. do 2 (split; [done|]).
      right. do 2 eexists. do 3 (split; [done|]). auto. }
  destruct totp_ok; simpl in Hrefused.
  2:{ destruct (Hrefused _ _ Htotp eq_refl) as (wc & ws & Hdo & Had). exists wc, ws. do 3 eexists. do 2 (split; [done|]).
      right. do 2 eexists. do 3 (split; [done|]). auto. }
  rewrite String.eqb_refl in Hrefused. simpl in Hrefused. destruct (decide (ps = [])) as [->|Hne].
  - destruct (Hrefused _ _ Hnone eq_refl) as (wc & ws & Hdo & Had). exists wc, ws. do 3 eexists. do 2 (split; [done|]).
    right. do 2 eexists. do 3 (split; [done|]). auto.
  - destruct (agreed_handshake os c srv wall_c wall_s now addr ps json code st Hj Hne Ht Hcode Hv Hsend Hok)
      as (wc & ws & Hdo & Had). exists wc, ws. do 3 eexists. do 2 (split; [done|]). by left.
Qed.

(** ** Validated configurations *)

Lemma rproxy_ok_parses r sp :
  rproxy_ok r sp -> exists p, parse_proxy_config r = Ok p /\ server_port p = sp /\ valid_port (local_port p).
Proof.
  intros (Hsp & _ & (lp & Hlp & Hv) & _). unfold parse_proxy_config. rewrite Hsp, Hlp. simpl. eauto.
Qed.

Lemma rproxies_ok_parse rs sps :
  Forall2 rproxy_ok rs sps ->
  exists ps, Forall2 (fun r p => parse_proxy_config r = Ok p) rs ps /\
    map server_port ps = sps /\ Forall (fun p => valid_port (local_port p)) ps.
Proof.
  induction 1 as [|r sp rs sps Hr _ (ps & Hps & Hm & Hl)].
  - exists []. repeat constructor.
  - destruct (rproxy_ok_parses r sp Hr) as (p & Hp & <- & Hv).
    exists (p :: ps). split; [by constructor|]. simpl. rewrite Hm. split; [done|by constructor].
Qed.

Lemma validated_rules_parse_all c env addr :
  is_ok (validate c).1 = true ->
  exists ps, parse_proxy_configs (new env addr c) = Ok ps /\
    NoDup (map server_port ps) /\
    Forall (fun p => valid_port (server_port p) /\ valid_port (local_port p)) ps.
Proof.
  intros H%validate_acceptable. destruct (acc_rproxies c H) as (sps & Hsps & Hnd).
  destruct (rproxies_ok_parse _ _ Hsps) as (ps & Hps & Hm & Hl).
  exists ps. split; [by apply parse_proxy_configs_Ok|]. split; [by rewrite Hm|].
  apply Forall_and. split; [|done]. rewrite <- Forall_map, Hm.
  clear -Hsps. induction Hsps as [|r sp rs sps (_ & Hv & _) _ IH]; by constructor.
Qed.

(** Validation covers what the client needs: the reverse rules of a
    configuration that passes it all parse, one proxy per rule in order, to
    usable local ports and to server ports no two of which are equal. *)
Theorem validated_rules_parse c env addr :
  is_ok (validate c).1 = true ->
  exists ps, parse_proxy_configs (new env addr c) = Ok ps /\
    length ps = length (cf_reverse_proxies c) /\
    NoDup (map server_port ps) /\
    Forall (fun p => valid_port (server_port p) /\ valid_port (local_port p)) ps.
Proof.
  intros H. destruct (validated_rules_parse_all c env addr H) as (ps & Hps & Hrest).
  exists ps. split; [done|]. split; [|done]. symmetry. eapply Forall2_length.
  by apply parse_proxy_configs_Ok in Hps.
Qed.

(** ** Witnesses *)

#[local] Existing Instances FixedWidth.codec FixedWidth.laws ReverseServer.sample_env.

Definition failing_attempts (k : Z) : Attempt :=
  mkAttempt false (Err (Network ConnectionTimeout)) false.

Theorem reconnect_bounded_witness :
  start failing_attempts =
    Some (Err (ReverseProxy (RpConnectionFailed "Failed after 10 retry attempts")), 10,
          [1; 2; 4; 8; 16; 32; 60; 60; 60]).
Proof. apply (reconnect_bounded failing_attempts). intros k. auto. Defined.

Definition sample_config : ConfigFile :=
  mkConfigFile None [] None None
    [mkReverseProxySection "8080" "127.0.0.1:80" None]
    (Some (mkReverseProxyServerSection 9001 ["guest"] None))
    (Some (mkReverseProxyClientSection "10.0.0.1:9001" None (Some "SECRET"))).

Definition sample_client : ReverseProxyClient :=
  new None (mkSocketAddr (V4 10 0 0 1) 9001) sample_config.

Definition sample_totp_server : ReverseProxyServer :=
  with_totp_secret (new_with_auth UNSPECIFIED 9001 (Some "secret") ["guest"]) (Some "SECRET").

Definition sample_ps : list ReverseProxyConfig :=
  match parse_proxy_configs sample_client with Ok ps => ps | Err _ => [] end.

Lemma sendable_by_eval m :
  match serialize m with Ok bs => (Z.of_nat (length bs) <=? 1000) | Err _ => false end = true ->
  wf_message m -> sendable m.
Proof.
  intros H Hwf. split; [done|]. destruct (serialize m) as [bs|]; [|done].
  exists bs. split; [done|]. unfold fits, MAX_MESSAGE_SIZE. boolp. lia.
Qed.

Lemma sample_wf_proxies : Forall wf_config sample_ps.
Proof. repeat constructor; vm_compute; (done || intros ?; discriminate). Qed.

Theorem handshake_completes_witness :
  exists wc ws,
    do_handshake sample_client 1700000025 sample_ps (reader_of (wr_out ws)) open_writer =
      Val (Ok tt, reader_of [], wc) /\
    admit_client (fun _ => true) sample_totp_server 1700000000 0 ReverseServer.sample_peer
      (reader_of (wr_out wc)) open_writer initial =
      Val (Ok tt, reader_of [], ws, open_session (fun _ => true) 0 ReverseServer.sample_peer sample_ps initial).
Proof.
  eapply (handshake_completes (fun _ => true) sample_client sample_totp_server 1700000025 1700000000 0
           ReverseServer.sample_peer sample_ps);
    [exact sample_hmac_length|reflexivity|vm_compute; discriminate|reflexivity|reflexivity
    |unfold in_u; lia|unfold in_u; lia|lia|lia| |].
  - intros code Hc. vm_compute in Hc. injection Hc as <-.
    apply sendable_by_eval; [vm_compute; reflexivity|].
    split; [unfold in_u, PROTOCOL_VERSION; lia|]. split; [simpl; unfold in_u; lia|exact sample_wf_proxies].
  - apply sendable_by_eval; [vm_compute; reflexivity|].
    split; [unfold in_u, PROTOCOL_VERSION; lia|]. apply Forall_map. eapply Forall_impl; [exact sample_wf_proxies|].
    intros x Hx. exact (proj1 Hx).
Defined.

Lemma sample_refusals : Forall sendable refusals.
Proof.
  repeat (apply Forall_cons_2; [apply sendable_by_eval; [vm_compute; reflexivity|]; split; [unfold in_u, PROTOCOL_VERSION; lia|constructor]|]).
  constructor.
Qed.

Lemma sample_hello_sendable code json :
  totp_code sample_client 1700000025 = Val code -> to_json sample_ps = Ok json ->
  sendable (ClientHello PROTOCOL_VERSION (default "" (auth_token sample_client)) code sample_ps (sha256_hex json)).
Proof.
  intros Hc Hj. vm_compute in Hc, Hj. injection Hc as <-. injection Hj as <-.
  apply sendable_by_eval; [vm_compute; reflexivity|].
  split; [unfold in_u, PROTOCOL_VERSION; lia|]. split; [simpl; unfold in_u; lia|exact sample_wf_proxies].
Qed.

Theorem handshake_agreement_witness :
  exists wc ws client_res server_res st',
    do_handshake sample_client 1700000025 sample_ps (reader_of (wr_out ws)) open_writer = Val (client_res, reader_of [], wc) /\
    admit_client (fun _ => true) (new_with_auth UNSPECIFIED 9001 (Some "other") []) 1700000000 0
      ReverseServer.sample_peer (reader_of (wr_out wc)) open_writer initial = Val (server_res, reader_of [], ws, st') /\
    client_res = Err (ReverseProxy (HandshakeFailed "Invalid or missing authentication token")) /\ st' = initial.
Proof.
  destruct (totp_code sample_client 1700000025) as [code|] eqn:Hc; [|vm_compute in Hc; discriminate].
  destruct (to_json sample_ps) as [json|] eqn:Hj; [|vm_compute in Hj; discriminate].
  destruct (handshake_agreement (fun _ => true) sample_client (new_with_auth UNSPECIFIED 9001 (Some "other") [])
    1700000025 1700000000 0 ReverseServer.sample_peer sample_ps json code true initial Hj Hc eq_refl
    (sample_hello_sendable code json Hc Hj)) as (wc & ws & cr & sr & st' & H1 & H2 & H3).
  - apply sendable_by_eval; [vm_compute; reflexivity|].
    split; [unfold in_u, PROTOCOL_VERSION; lia|]. apply Forall_map. eapply Forall_impl; [exact sample_wf_proxies|].
    intros x Hx. exact (proj1 Hx).
  - exact sample_refusals.
  - exists wc, ws, cr, sr, st'. split; [exact H1|]. split; [exact H2|].
    destruct H3 as [[Ht _]|(m & w & -> & _ & -> & [[_ ->]|[[Ht _]|[Ht _]]])];
      [vm_compute in Ht; discriminate|split; reflexivity|discriminate|vm_compute in Ht; discriminate].
Defined.

Theorem validated_rules_parse_witness :
  exists ps, parse_proxy_configs (new None (mkSocketAddr (V4 10 0 0 1) 9001) sample_config) = Ok ps /\
    length ps = 1%nat.
Proof.
  destruct (validated_rules_parse sample_config None (mkSocketAddr (V4 10 0 0 1) 9001)) as (ps & H1 & H2 & _);
    [vm_compute; reflexivity|].
  exists ps. split; [exact H1|exact H2].
Defined.
