(* ===== verification/F64.v ===== *)
(** * F64: double-precision arithmetic

    An [f64] is a [spec_float] with 53 bits of precision and exponents up to
    1024.  Sums, products and quotients are the rounded operations of the
    Standard Library's specification of IEEE 754; comparison is on the
    represented values; conversion to an integer truncates and saturates. *)

From Stdlib Require Import ZArith Lia SpecFloat.
From stdpp Require Import base list.
From S2P Require Import Prelude.

Definition f64 : Type := spec_float.
Definition f_add (a b : f64) : f64 := SFadd 53 1024 a b.
Definition f_sub (a b : f64) : f64 := SFsub 53 1024 a b.
Definition f_mul (a b : f64) : f64 := SFmul 53 1024 a b.
Definition f_div (a b : f64) : f64 := SFdiv 53 1024 a b.

(** [z as f64] for an integer [z]. *)
Definition f_of_Z (z : Z) : f64 := binary_normalize 53 1024 z 0 false.

(** [Duration::as_secs_f64] of a number of nanoseconds: [secs + nanos / 1e9]. *)
Definition f_of_nanos (n : Z) : f64 :=
  f_add (f_of_Z (n / 10 ^ 9)) (f_div (f_of_Z (n mod 10 ^ 9)) (f_of_Z (10 ^ 9))).

(** The sign times the mantissa, over a common scale. *)
Definition signed (s : bool) (m : positive) : Z := if s then Zneg m else Zpos m.

(** Comparison of the represented values; [None] with a NaN. *)
Definition f_compare (a b : f64) : option comparison :=
  match a, b with
  | S754_nan, _ | _, S754_nan => None
  | S754_infinity sa, S754_infinity sb =>
      Some (match sa, sb with true, false => Lt | false, true => Gt | _, _ => Eq end)
  | S754_infinity s, _ => Some (if s then Lt else Gt)
  | _, S754_infinity s => Some (if s then Gt else Lt)
  | S754_zero _, S754_zero _ => Some Eq
  | S754_zero _, S754_finite s m e => Some (0 ?= signed s m)
  | S754_finite s m e, S754_zero _ => Some (signed s m ?= 0)
  | S754_finite sa ma ea, S754_finite sb mb eb =>
      let e := Z.min ea eb in
      Some (signed sa ma * 2 ^ (ea - e) ?= signed sb mb * 2 ^ (eb - e))
  end.

Definition f_lt (a b : f64) : bool := match f_compare a b with Some Lt => true | _ => false end.
Definition f_gt (a b : f64) : bool := f_lt b a.

(** [a.min(b)], [a.max(b)]: the other operand when one is a NaN. *)
Definition f_min (a b : f64) : f64 :=
  match a, b with
  | S754_nan, _ => b
  | _, S754_nan => a
  | _, _ => if f_lt b a then b else a
  end.
Definition f_max (a b : f64) : f64 :=
  match a, b with
  | S754_nan, _ => b
  | _, S754_nan => a
  | _, _ => if f_lt a b then b else a
  end.

(** The integer part, toward zero. *)
Definition trunc (s : bool) (m : positive) (e : Z) : Z :=
  let v := if 0 <=? e then Zpos m * 2 ^ e else Zpos m / 2 ^ (- e) in
  if s then - v else v.

(** [f as uW], saturating; a NaN gives 0. *)
Definition f_to_u (w : Z) (f : f64) : Z :=
  match f with
  | S754_nan | S754_zero _ => 0
  | S754_infinity s => if s then 0 else 2 ^ w - 1
  | S754_finite s m e => Z.max 0 (Z.min (2 ^ w - 1) (trunc s m e))
  end.

(** ** Lemmas *)

Lemma f_to_u_range w f : 0 <= w -> in_u w (f_to_u w f).
Proof.
  intros Hw. assert (0 < 2 ^ w) by (apply Z.pow_pos_nonneg; lia).
  unfold in_u, f_to_u. destruct f as [s|s| |s m e]; [lia|destruct s; lia|lia|lia].
Qed.

(** [c] is the double that represents the integer [n]. *)
Definition is_int (c : f64) (n : Z) : Prop :=
  match c with
  | S754_finite false m e => e <= 0 /\ Zpos m = n * 2 ^ (- e)
  | _ => False
  end.

Lemma scale_le x y k : 0 <= k -> x * 2 ^ k <= y * 2 ^ k <-> x <= y.
Proof. intros Hk. pose proof (Z.pow_pos_nonneg 2 k). nia. Qed.

(** A value not above an integer truncates to no more than it. *)
Lemma trunc_le s m e c n :
  0 <= n -> is_int c n -> f_lt c (S754_finite s m e) = false -> trunc s m e <= n.
Proof.
  intros Hn Hc Hlt. destruct c as [| | |[] mc ec]; try done. destruct Hc as [Hec Hmc].
  assert (signed s m * 2 ^ (e - Z.min e ec) <= Zpos mc * 2 ^ (ec - Z.min e ec)) as H.
  { unfold f_lt, f_compare in Hlt. rewrite (Z.min_comm ec e) in Hlt. cbn [signed] in Hlt.
    destruct (Z.compare_spec (Zpos mc * 2 ^ (ec - Z.min e ec)) (signed s m * 2 ^ (e - Z.min e ec)));
      [lia|done|lia]. }
  rewrite Hmc in H. clear Hlt.
  assert (signed s m * 2 ^ (e - Z.min e ec) <= n * 2 ^ (- Z.min e ec)) as H'.
  { rewrite <- Z.mul_assoc, <- Z.pow_add_r in H by lia.
    by replace (- ec + (ec - Z.min e ec)) with (- Z.min e ec) in H by lia. }
  clear H. unfold trunc. destruct s; cbn [signed] in H'.
  - destruct (Z.leb_spec 0 e).
    + pose proof (Z.pow_pos_nonneg 2 e). nia.
    + pose proof (Z.div_pos (Zpos m) (2 ^ - e)). pose proof (Z.pow_pos_nonneg 2 (- e)). lia.
  - destruct (Z.leb_spec 0 e).
    + replace (e - Z.min e ec) with (e + - Z.min e ec) in H' by lia.
      rewrite Z.pow_add_r, Z.mul_assoc in H' by lia. by apply scale_le in H'; [|lia].
    + apply Z.div_le_upper_bound; [apply Z.pow_pos_nonneg; lia|].
      rewrite Z.mul_comm. apply (scale_le _ _ (e - Z.min e ec)); [lia|].
      rewrite <- Z.mul_assoc, <- Z.pow_add_r by lia.
      by replace (- e + (e - Z.min e ec)) with (- Z.min e ec) by lia.
Qed.

Lemma f_to_u_int w c n : 0 <= n <= 2 ^ w - 1 -> is_int c n -> f_to_u w c = n.
Proof.
  intros Hn Hc. destruct c as [| | |[] m e]; try done. destruct Hc as [He Hm].
  unfold f_to_u, trunc. destruct (Z.leb_spec 0 e).
  - assert (e = 0) as -> by lia. simpl in *. lia.
  - rewrite Hm, Z.div_mul by (apply Z.pow_nonzero; lia). lia.
Qed.

(** Clamping to an integer before the conversion bounds the result. *)
Lemma f_to_u_min w f c n :
  0 <= n <= 2 ^ w - 1 -> is_int c n -> f_to_u w (f_min f c) <= n.
Proof.
  intros Hn Hi. pose proof (f_to_u_int w c n Hn Hi) as Hc.
  assert (c <> S754_nan) as Hnan by (by intros ->).
  unfold f_min. destruct f as [s|s| |s m e]; [| |lia|].
  - destruct c; try done; destruct (f_lt _ _); try lia; unfold f_to_u; lia.
  - destruct c as [| | |[] mc ec]; try done. destruct (f_lt _ _) eqn:Hlt; [lia|].
    destruct s; [unfold f_to_u; lia|discriminate Hlt].
  - destruct c as [| | |[] mc ec]; try done.
    destruct (f_lt (S754_finite false mc ec) (S754_finite s m e)) eqn:Hlt; [lia|].
    pose proof (trunc_le s m e _ n ltac:(lia) Hi Hlt). unfold f_to_u. lia.
Qed.

(** Clamping at zero afterwards keeps the bound. *)
Lemma f_to_u_max_zero w f n sz :
  0 <= n -> 0 <= w -> f_to_u w f <= n -> f_to_u w (f_max f (S754_zero sz)) <= n.
Proof.
  intros Hn Hw Hf. unfold f_max. destruct f as [s|s| |s m e]; [| |simpl; lia|].
  - destruct (f_lt _ _); simpl; lia.
  - destruct (f_lt _ _); [simpl; lia|exact Hf].
  - destruct (f_lt _ _); [simpl; lia|exact Hf].
Qed.
