(* ===== verification/Metrics.v ===== *)
(** * Metrics: the quality of one connection
    (src/src/proxy/connection_metrics.rs)

    Durations and instants are numbers of nanoseconds; counters are [u64]. *)

From Stdlib Require Import ZArith Lia SpecFloat.
From stdpp Require Import base list.
From S2P Require Import Prelude F64.

Record ConnectionMetrics := mkConnectionMetrics {
  rtt : option Z;
  rtt_samples : list Z;
  packet_loss_rate : f64;
  packets_sent : Z;
  packets_lost : Z;
  success_count : Z;
  failure_count : Z;
  bandwidth_mbps : f64;
  bytes_sent : Z;
  bytes_received : Z;
  created_at : Z;
  last_health_check : Z;
  last_activity : Z }.

Definition new (now : Z) : ConnectionMetrics :=
  mkConnectionMetrics None [] (f_of_Z 0) 0 0 0 0 (f_of_Z 0) 0 0 now now now.

Definition from_millis (ms : Z) : Z := ms * 10 ^ 6.

Definition avg_rtt (m : ConnectionMetrics) : option Z :=
  match rtt_samples m with
  | [] => None
  | samples => Some (foldr Z.add 0 samples / Z.of_nat (length samples))
  end.

Definition calculate_rtt_score (m : ConnectionMetrics) : f64 :=
  match avg_rtt m with
  | None => f_of_Z 50
  | Some rtt =>
      if rtt <? from_millis 50 then f_of_Z 100
      else if rtt <? from_millis 100 then f_of_Z 90
      else if rtt <? from_millis 200 then f_of_Z 70
      else if rtt <? from_millis 500 then f_of_Z 40
      else f_of_Z 10
  end.

Definition calculate_loss_score (m : ConnectionMetrics) : f64 :=
  f_mul (f_sub (f_of_Z 1) (packet_loss_rate m)) (f_of_Z 100).

Definition calculate_success_score (m : ConnectionMetrics) : f64 :=
  let total := u64_add (success_count m) (failure_count m) in
  if total =? 0 then f_of_Z 50
  else f_mul (f_div (f_of_Z (success_count m)) (f_of_Z total)) (f_of_Z 100).

(** The literal [0.5]. *)
Definition half : f64 := f_div (f_of_Z 1) (f_of_Z 2).

Definition calculate_bandwidth_score (m : ConnectionMetrics) : f64 :=
  if f_gt (bandwidth_mbps m) (f_of_Z 10) then f_of_Z 100
  else if f_gt (bandwidth_mbps m) (f_of_Z 5) then f_of_Z 80
  else if f_gt (bandwidth_mbps m) (f_of_Z 1) then f_of_Z 60
  else if f_gt (bandwidth_mbps m) half then f_of_Z 40
  else f_of_Z 20.

Definition calculate_quality_score (m : ConnectionMetrics) : Z :=
  let total_score :=
    f_div (f_add (f_add (f_add (f_mul (calculate_rtt_score m) (f_of_Z 40))
                               (f_mul (calculate_loss_score m) (f_of_Z 30)))
                        (f_mul (calculate_success_score m) (f_of_Z 20)))
                 (f_mul (calculate_bandwidth_score m) (f_of_Z 10))) (f_of_Z 100) in
  f_to_u 8 (f_max (f_min total_score (f_of_Z 100)) (f_of_Z 0)).

(** ** Updates *)

Definition with_samples (m : ConnectionMetrics) (r : option Z) (s : list Z) (check_at : Z) : ConnectionMetrics :=
  mkConnectionMetrics r s (packet_loss_rate m) (packets_sent m) (packets_lost m)
    (success_count m) (failure_count m) (bandwidth_mbps m) (bytes_sent m) (bytes_received m)
    (created_at m) check_at (last_activity m).

Definition add_rtt_sample (now : Z) (d : Z) (m : ConnectionMetrics) : ConnectionMetrics :=
  let samples := rtt_samples m ++ [d] in
  let samples := if (100 <? length samples)%nat then tail samples else samples in
  with_samples m (Some d) samples now.

Definition with_counters (m : ConnectionMetrics) (ok fail sent recv : Z) (bw : f64) (active : Z) : ConnectionMetrics :=
  mkConnectionMetrics (rtt m) (rtt_samples m) (packet_loss_rate m) (packets_sent m) (packets_lost m)
    ok fail bw sent recv (created_at m) (last_health_check m) active.

Definition update_bandwidth (duration : Z) (m : ConnectionMetrics) : ConnectionMetrics :=
  let seconds := f_of_nanos duration in
  if f_gt seconds (f_of_Z 0) then
    let total_bytes := u64_add (bytes_sent m) (bytes_received m) in
    with_counters m (success_count m) (failure_count m) (bytes_sent m) (bytes_received m)
      (f_div (f_div (f_of_Z total_bytes) seconds) (f_of_Z 1000000)) (last_activity m)
  else m.

Definition record_success (now : Z) (m : ConnectionMetrics) : ConnectionMetrics :=
  with_counters m (u64_add (success_count m) 1) (failure_count m) (bytes_sent m) (bytes_received m)
    (bandwidth_mbps m) now.

Definition record_failure (now : Z) (m : ConnectionMetrics) : ConnectionMetrics :=
  with_counters m (success_count m) (u64_add (failure_count m) 1) (bytes_sent m) (bytes_received m)
    (bandwidth_mbps m) now.

Definition update_transfer (now sent received : Z) (m : ConnectionMetrics) : ConnectionMetrics :=
  with_counters m (success_count m) (failure_count m) (u64_add (bytes_sent m) sent)
    (u64_add (bytes_received m) received) (bandwidth_mbps m) now.

(** ** Lemmas *)

Lemma add_rtt_sample_samples now d m :
  rtt_samples (add_rtt_sample now d m) =
  (let w := rtt_samples m ++ [d] in if (100 <? length w)%nat then tail w else w).
Proof. reflexivity. Qed.

Lemma sum_bounds l lo hi :
  Forall (fun x => lo <= x <= hi) l ->
  lo * Z.of_nat (length l) <= foldr Z.add 0 l <= hi * Z.of_nat (length l).
Proof. induction 1 as [|x l Hx _ IH]; [simpl; lia|]. cbn [foldr length]. lia. Qed.

Lemma avg_bounds l lo hi :
  l <> [] -> Forall (fun x => lo <= x <= hi) l ->
  lo <= foldr Z.add 0 l / Z.of_nat (length l) <= hi.
Proof.
  intros Hne H%sum_bounds. assert (0 < Z.of_nat (length l)) by (destruct l; simpl; [done|lia]).
  split; [apply Z.div_le_lower_bound|apply Z.div_le_upper_bound]; lia.
Qed.

Lemma hundred_is_int : is_int (f_of_Z 100) 100.
Proof. vm_compute. split; [discriminate|reflexivity]. Qed.

(** ** Properties *)

(** The quality score of a connection is a percentage whatever its
    counters, samples and rates hold, a NaN or an infinity included. *)
Theorem quality_score_percentage m : 0 <= calculate_quality_score m <= 100.
Proof.
  unfold calculate_quality_score. split.
  - apply f_to_u_range. lia.
  - change (f_of_Z 0) with (S754_zero false).
    apply f_to_u_max_zero; [lia..|]. apply f_to_u_min; [lia|exact hundred_is_int].
Qed.

(** The sample window is the last hundred samples in order, the current
    value is the newest one, and the average lies between the smallest and the
    largest sample of the window. *)
Theorem rtt_window now now' samples lo hi :
  samples <> [] -> Forall (fun d => lo <= d <= hi) samples ->
  let m := foldl (fun m d => add_rtt_sample now' d m) (new now) samples in
  rtt_samples m = last_n 100 samples /\
  rtt m = last samples /\
  exists a, avg_rtt m = Some a /\ lo <= a <= hi.
Proof.
  intros Hne Hall m.
  assert (rtt_samples m = last_n 100 samples /\ rtt m = last samples) as [Hs Hr].
  { subst m. clear Hne Hall. induction samples as [|x l IH] using rev_ind; [done|].
    rewrite foldl_app. cbn [foldl]. destruct IH as [Hs _]. split.
    - by rewrite last_n_snoc, add_rtt_sample_samples, Hs by lia.
    - by rewrite last_snoc. }
  split; [done|]. split; [done|].
  assert (last_n 100 samples <> []) as Hw.
  { intros H%(f_equal length). unfold last_n in H. rewrite length_drop in H.
    destruct samples; simpl in *; [done|lia]. }
  exists (foldr Z.add 0 (rtt_samples m) / Z.of_nat (length (rtt_samples m))).
  unfold avg_rtt. rewrite Hs. destruct (last_n 100 samples) as [|y ys] eqn:Hl; [done|].
  split; [done|]. apply avg_bounds; [done|]. rewrite <- Hl. unfold last_n. by apply Forall_drop.
Qed.

Theorem rtt_window_witness :
  let m := foldl (fun m d => add_rtt_sample 7 d m) (new 0) [30; 10; 20] in
  rtt_samples m = [30; 10; 20] /\ exists a, avg_rtt m = Some a /\ 10 <= a <= 30.
Proof.
  intros m. destruct (rtt_window 0 7 [30; 10; 20] 10 30) as (Hs & _ & Ha); [done| |].
  - repeat constructor; lia.
  - split; [exact Hs|exact Ha].
Defined.
