(* ===== verification/Selector.v ===== *)
(** * Selector: choosing a connection from the pool
    (src/src/proxy/connection_selector.rs, quality_aware_connection.rs)

    The pool is the list behind the [Vec]; [swap_remove] moves the last element
    into the gap.  A draw from [rand] is an argument, in the range the code
    asks for. *)

From Stdlib Require Import Ascii String ZArith Lia.
From stdpp Require Import base strings list.
From S2P Require Import Prelude Text F64 Errors Stream Metrics.

Inductive SelectionStrategy : Type := BestQuality | WeightedRandom | RoundRobin | LeastConnections.

(** [from_str]; no character outside ASCII lowers into one of the names. *)
Definition from_str (s : string) : option SelectionStrategy :=
  let l := ascii_lower s in
  if String.eqb l "best_quality" || String.eqb l "best" then Some BestQuality
  else if String.eqb l "weighted_random" || String.eqb l "weighted" then Some WeightedRandom
  else if String.eqb l "round_robin" || String.eqb l "roundrobin" then Some RoundRobin
  else if String.eqb l "least_connections" || String.eqb l "least" then Some LeastConnections
  else None.

(** ** [QualityAwareConnection]: the stream is what its peer has sent so far. *)
Record QualityAwareConnection := mkQualityAwareConnection {
  stream : Reader;
  metrics : ConnectionMetrics;
  connection_id : string }.

Definition new_with_metrics (stream : Reader) (m : ConnectionMetrics) (id : string) : QualityAwareConnection :=
  mkQualityAwareConnection stream m id.
(** [new], with the fresh UUID and the clock. *)
Definition new_connection (stream : Reader) (now : Z) (id : string) : QualityAwareConnection :=
  new_with_metrics stream (Metrics.new now) id.
Definition get_metrics (c : QualityAwareConnection) : ConnectionMetrics := metrics c.
Definition into_inner (c : QualityAwareConnection) : Reader := stream c.

Definition quality_score (c : QualityAwareConnection) : Z := calculate_quality_score (metrics c).

Definition would_block : IoError := mkIoError WouldBlock "would block".

(** [TcpStream::try_read] into one byte: the byte is taken from the stream.
    [open] says whether more may still arrive. *)
Definition try_read (open : bool) (c : QualityAwareConnection)
  : result (list byte) IoError * QualityAwareConnection :=
  match rd_data (stream c) with
  | b :: rest =>
      (Ok [b], mkQualityAwareConnection (mkReader rest (rd_fail (stream c))) (metrics c) (connection_id c))
  | [] =>
      (match rd_fail (stream c) with
       | Some e => Err e
       | None => if open then Err would_block else Ok []
       end, c)
  end.

Definition measure_rtt (elapsed : Z) (open : bool) (c : QualityAwareConnection)
  : result Z IoError * QualityAwareConnection :=
  match try_read open c with
  | (Ok _, c) => (Ok elapsed, c)
  | (Err e, c) => (if decide (io_kind e = WouldBlock) then Ok elapsed else Err e, c)
  end.

Definition is_alive (open : bool) (c : QualityAwareConnection) : bool * QualityAwareConnection :=
  match try_read open c with
  | (Ok _, c) => (true, c)
  | (Err e, c) => (bool_decide (io_kind e = WouldBlock), c)
  end.

(** ** Selection *)

Section Select.
Context {A : Type}.

(** [Vec::swap_remove(i)] *)
Definition swap_remove (i : nat) (l : list A) : option (A * list A) :=
  match l !! i, last l with
  | Some x, Some y =>
      let front := take (length l - 1) l in
      Some (x, if (i =? length l - 1)%nat then front else <[i := y]> front)
  | _, _ => None
  end.

Variable score : A -> Z.

(** The scan of [select_best_quality], from index [i] on. *)
Fixpoint best_from (i best_index : nat) (best_score : Z) (l : list A) : nat :=
  match l with
  | [] => best_index
  | c :: l =>
      if best_score <? score c then best_from (S i) i (score c) l
      else best_from (S i) best_index best_score l
  end.

Definition select_best_quality (pool : list A) : option (A * list A) :=
  match pool with
  | [] => None
  | c :: rest => swap_remove (best_from 1 0 (score c) rest) pool
  end.

(** The index at which the remaining weight falls below the score. *)
Fixpoint weighted_index (random_weight : Z) (scores : list Z) : option nat :=
  match scores with
  | [] => None
  | s :: scores =>
      if random_weight <? s then Some 0%nat
      else S <$> weighted_index (random_weight - s) scores
  end.

Definition total_weight (pool : list A) : Z := foldr Z.add 0 (map score pool).

(** [draw n]: a number below [n]. *)
Definition select_weighted_random (draw : Z -> Z) (pool : list A) : option (A * list A) :=
  match pool with
  | [] => None
  | _ =>
      let total := total_weight pool in
      if total =? 0 then swap_remove (Z.to_nat (draw (Z.of_nat (length pool)))) pool
      else match weighted_index (draw total) (map score pool) with
           | Some i => swap_remove i pool
           | None => swap_remove (length pool - 1) pool
           end
  end.

Definition select_round_robin (pool : list A) (index : nat) : option (A * list A) * nat :=
  match pool with
  | [] => (None, index)
  | _ => (swap_remove (index mod length pool) pool, ((index + 1) mod length pool)%nat)
  end.

Definition select (draw : Z -> Z) (pool : list A) (strategy : SelectionStrategy) (index : nat)
  : option (A * list A) * nat :=
  match pool with
  | [] => (None, index)
  | _ =>
      match strategy with
      | BestQuality | LeastConnections => (select_best_quality pool, index)
      | WeightedRandom => (select_weighted_random draw pool, index)
      | RoundRobin => select_round_robin pool index
      end
  end.
End Select.

(** ** Lemmas *)

Section Lemmas.
Context {A : Type}.
Implicit Types (l pool : list A).

(** The removed element and the rest are the pool, reordered. *)
Lemma swap_remove_spec i l :
  (i < length l)%nat ->
  exists x rest, swap_remove i l = Some (x, rest) /\ l !! i = Some x /\ l ≡ₚ x :: rest.
Proof.
  intros Hi. destruct (lookup_lt_is_Some_2 l i Hi) as [x Hx].
  destruct l as [|y front _] using rev_ind; [simpl in Hi; lia|].
  unfold swap_remove. rewrite Hx, last_snoc. rewrite length_app in *. simpl length in *.
  replace (length front + 1 - 1)%nat with (length front) by lia. rewrite take_app_length.
  eexists _, _. split; [done|]. split; [done|].
  destruct (Nat.eqb_spec i (length front)) as [->|Hne].
  - rewrite list_lookup_middle in Hx by done. simplify_eq. by rewrite Permutation_app_comm.
  - rewrite lookup_app_l in Hx by lia. rewrite Permutation_app_comm. simpl.
    clear Hi. revert i Hx Hne. induction front as [|z front IH]; intros [|i] Hx Hne; simpl in *; try done.
    + simplify_eq. apply perm_swap.
    + etransitivity; [apply perm_swap|]. etransitivity; [apply perm_skip, (IH i Hx); lia|].
      apply perm_swap.
Qed.

Context (score : A -> Z).

Lemma best_from_spec l pre i b s x :
  length pre = i -> (pre ++ l) !! b = Some x -> (b < i)%nat -> s = score x ->
  (forall j y, pre !! j = Some y -> score y <= s /\ (score y = s -> (b <= j)%nat)) ->
  exists z, (pre ++ l) !! best_from score i b s l = Some z /\
    forall j y, (pre ++ l) !! j = Some y ->
      score y <= score z /\ (score y = score z -> (best_from score i b s l <= j)%nat).
Proof.
  revert pre i b s x. induction l as [|c l IH]; intros pre i b s x Hl Hb Hbi -> Hmax; simpl.
  - rewrite app_nil_r in *. exists x. split; [done|]. done.
  - assert (forall b' x', (pre ++ c :: l) !! b' = Some x' -> (b' < S i)%nat ->
        (forall j y, (pre ++ [c]) !! j = Some y -> score y <= score x' /\ (score y = score x' -> (b' <= j)%nat)) ->
        exists z, (pre ++ c :: l) !! best_from score (S i) b' (score x') l = Some z /\
          forall j y, (pre ++ c :: l) !! j = Some y ->
            score y <= score z /\ (score y = score z -> (best_from score (S i) b' (score x') l <= j)%nat)) as Hgo.
    { intros b' x' Hb' Hlt Hm. rewrite cons_middle, (assoc_L (++)) in Hb' |- *.
      apply (IH (pre ++ [c]) (S i) b' _ x'); [rewrite length_app; simpl; lia|done|lia|done|done]. }
    destruct (Z.ltb_spec (score x) (score c)) as [Hc|Hc].
    + apply Hgo; [by apply list_lookup_middle|lia|].
      intros j y Hy. destruct (lookup_app_Some pre [c] j y) as [[Hj|[Hj Hy']] _]; [done| |].
      * destruct (Hmax j y Hj). split; [lia|lia].
      * apply lookup_lt_Some in Hy' as Hlt. simpl in Hlt.
        replace (j - length pre)%nat with 0%nat in Hy' by lia. simplify_eq/=. split; lia.
    + apply Hgo; [done|lia|].
      intros j y Hy. destruct (lookup_app_Some pre [c] j y) as [[Hj|[Hj Hy']] _]; [done| |].
      * by apply Hmax.
      * apply lookup_lt_Some in Hy' as Hlt. simpl in Hlt.
        replace (j - length pre)%nat with 0%nat in Hy' by lia. simplify_eq/=. split; lia.
Qed.

Lemma weighted_index_spec w scores :
  Forall (fun s => 0 <= s) scores -> 0 <= w < foldr Z.add 0 scores ->
  exists i s, weighted_index w scores = Some i /\ scores !! i = Some s /\
    foldr Z.add 0 (take i scores) <= w < foldr Z.add 0 (take i scores) + s.
Proof.
  intros Hs. revert w. induction Hs as [|s scores Hs Hss IH]; intros w; cbn [foldr weighted_index]; [lia|].
  intros Hw. destruct (Z.ltb_spec w s) as [Hlt|Hge].
  - exists 0%nat, s. split; [done|]. split; [done|]. simpl. lia.
  - destruct (IH (w - s)) as (i & s' & -> & Hi & Hb); [lia|].
    exists (S i), s'. split; [done|]. split; [done|]. cbn [take foldr]. lia.
Qed.

Lemma weighted_index_bound w scores i : weighted_index w scores = Some i -> (i < length scores)%nat.
Proof.
  revert w i. induction scores as [|s scores IH]; intros w i; simpl; [done|].
  destruct (_ <? _); [intros [= <-]; lia|].
  intros (j & Hj & ->)%fmap_Some. apply IH in Hj. lia.
Qed.
End Lemmas.

(** ** Properties *)

(** A draw below its bound. *)
Definition fair_draw (draw : Z -> Z) : Prop := forall n, 0 < n -> 0 <= draw n < n.

(** C26. Selection takes one connection out of the pool and keeps all the
    others, whatever the strategy; only an empty pool gives none. *)
Theorem select_takes_one draw pool strategy index :
  fair_draw draw ->
  match fst (select quality_score draw pool strategy index) with
  | None => pool = []
  | Some (c, rest) => pool ≡ₚ c :: rest
  end.
Proof.
  intros Hd. assert (forall i, (i < length pool)%nat ->
    match swap_remove i pool with None => pool = [] | Some (c, rest) => pool ≡ₚ c :: rest end) as Hsw.
  { intros i Hi. by destruct (swap_remove_spec i pool Hi) as (x & rest & -> & _ & Hp). }
  assert (pool <> [] -> (0 < length pool)%nat) as Hpos by (destruct pool; simpl; [done|lia]).
  unfold select. destruct pool as [|c pool'] eqn:Hpool; [done|]. rewrite <- Hpool in *.
  assert (0 < length pool)%nat as Hlen by (apply Hpos; by rewrite Hpool).
  assert (match select_best_quality quality_score pool with None => pool = [] | Some (c, rest) => pool ≡ₚ c :: rest end) as Hbest.
  { unfold select_best_quality. rewrite Hpool. rewrite <- Hpool. apply Hsw. rewrite Hpool.
    destruct (best_from_spec quality_score pool' [c] 1 0 (quality_score c) c) as (z & Hz & _);
      [done|done|lia|done| |by apply lookup_lt_Some in Hz].
    intros [|j] y; simpl; [intros [= ->]; lia|by rewrite lookup_nil]. }
  destruct strategy; simpl; [exact Hbest| | |exact Hbest].
  - unfold select_weighted_random. rewrite Hpool. rewrite <- Hpool.
    case_if; [apply Hsw; pose proof (Hd (Z.of_nat (length pool))); lia|].
    destruct (weighted_index _ _) as [i|] eqn:Hi; [|apply Hsw; lia].
    apply weighted_index_bound in Hi. rewrite length_map in Hi. by apply Hsw.
  - unfold select_round_robin. rewrite Hpool. rewrite <- Hpool. apply Hsw.
    apply Nat.mod_upper_bound. lia.
Qed.

(** The best-quality strategy returns a connection no other one beats, and
    of several equally good ones the first. *)
Theorem best_quality_is_best pool :
  pool <> [] ->
  exists i c rest,
    select_best_quality quality_score pool = Some (c, rest) /\ pool !! i = Some c /\
    forall j c', pool !! j = Some c' ->
      quality_score c' <= quality_score c /\ (quality_score c' = quality_score c -> (i <= j)%nat).
Proof.
  destruct pool as [|c pool]; [done|]. intros _. unfold select_best_quality.
  destruct (best_from_spec quality_score pool [c] 1 0 (quality_score c) c) as (z & Hz & Hmax);
    [done|done|lia|done| |].
  { intros [|j] y; simpl; [intros [= ->]; lia|by rewrite lookup_nil]. }
  cbn [app] in Hz, Hmax.
  destruct (swap_remove_spec (best_from quality_score 1 0 (quality_score c) pool) (c :: pool))
    as (x & rest & Hs & Hx & _); [by apply lookup_lt_Some in Hz|].
  assert (x = z) as -> by congruence. by exists (best_from quality_score 1 0 (quality_score c) pool), z, rest.
Qed.


(** Checking a connection consumes its data: [is_alive] and [measure_rtt]
    take the next byte off the stream, and a connection the peer has closed
    still counts as alive. *)
Theorem probing_consumes_data c b rest open :
  rd_data (stream c) = b :: rest ->
  fst (is_alive open c) = true /\ rd_data (stream (snd (is_alive open c))) = rest /\
  rd_data (stream (snd (measure_rtt 0 open c))) = rest /\
  forall closed, rd_data (stream closed) = [] -> rd_fail (stream closed) = None ->
    fst (is_alive false closed) = true.
Proof.
  intros H. unfold is_alive, measure_rtt, try_read. rewrite H. repeat (split; [done|]).
  intros closed Hd Hf. by rewrite Hd, Hf.
Qed.

(** ** Witnesses *)

Definition sample_conn (id : string) (sample : Z) : QualityAwareConnection :=
  mkQualityAwareConnection (reader_of [z_byte 104; z_byte 105]) (add_rtt_sample 0 sample (new 0)) id.

Definition sample_pool : list QualityAwareConnection :=
  [sample_conn "slow" (from_millis 600); sample_conn "fast" (from_millis 20); sample_conn "mid" (from_millis 150)].

Theorem select_takes_one_witness :
  match fst (select quality_score (fun n => n - 1) sample_pool WeightedRandom 0) with
  | None => sample_pool = []
  | Some (c, rest) => sample_pool ≡ₚ c :: rest
  end.
Proof. apply (select_takes_one (fun n => n - 1)). intros n Hn. lia. Defined.

Theorem best_quality_is_best_witness :
  exists i c rest, select_best_quality quality_score sample_pool = Some (c, rest) /\ sample_pool !! i = Some c.
Proof.
  destruct (best_quality_is_best sample_pool) as (i & c & rest & H1 & H2 & _); [discriminate|].
  exists i, c, rest. split; [exact H1|exact H2].
Defined.


Theorem probing_consumes_data_witness :
  rd_data (stream (snd (is_alive true (sample_conn "a" 1)))) = [z_byte 105].
Proof. apply (probing_consumes_data (sample_conn "a" 1) (z_byte 104) [z_byte 105] true). reflexivity. Defined.
