(* ===== verification/Blackhole.v ===== *)
(** * Blackhole: keeping a rejected client busy
    (src/src/proxy/blackhole.rs, src/src/proxy/stealth_handler.rs)

    The loops read the clock before each read; one round is given by the clock
    readings it makes and by when its read would complete.  The timer of its
    [select!] is the code's: it is due when the rest of the delay is over, and the
    read is taken only if it completes before the timer does. *)

From Stdlib Require Import Ascii String ZArith Lia.
From stdpp Require Import base strings list.
From S2P Require Import Prelude Text Errors.

(** [a.wrapping_mul(seed).wrapping_add(c) % 2^32], mapped into the range;
    [seed] is the number of nanoseconds since the epoch. *)
Definition pseudo_random_range (seed_nanos min max : Z) : Z :=
  let seed := wrap 64 seed_nanos in
  let a := 1664525 in
  let c := 1013904223 in
  let m := 2 ^ 32 in
  let result := (wrap 64 (wrap 64 (a * seed) + c)) mod m in
  min + result mod (max - min + 1).

(** [blackhole::is_connection_reset], [StealthHandler::is_io_rejection] *)
Definition is_connection_reset (e : IoError) : bool :=
  match io_kind e with
  | ConnectionReset | ConnectionRefused | ConnectionAborted => true
  | _ => false
  end.

Definition is_io_rejection (e : IoError) : bool :=
  match io_kind e with
  | ConnectionReset | ConnectionRefused | ConnectionAborted | BrokenPipe => true
  | _ => false
  end.

(** A round: the clock at the loop condition and, in the loop that reads it again,
    for [remaining]; when the read completes and with what, if it ever does; how
    long after the end of its sleep the timer is seen to have fired. *)
Record round := mkRound {
  r_check : Z;
  r_again : Z;
  r_read : option (Z * result (list byte) IoError);
  r_late : Z }.

(** The [select!] of a round whose timer is due at [due]: when it completes, and
    the result of the read or [None] for the timer. *)
Definition select_read (due : Z) (r : round) : Z * option (result (list byte) IoError) :=
  let fires := due + r_late r in
  match r_read r with
  | Some (t, res) => if t <=? fires then (t, Some res) else (fires, None)
  | None => (fires, None)
  end.

(** How a loop ended and when. *)
Inductive ending : Type :=
| Elapsed (at_ : Z)
| ClientClosed (at_ : Z)
| ReadFailed (at_ : Z) (e : IoError)
| TimerEnded (at_ : Z)
| StillRunning.

(** The bytes thrown away and how the loop ended. *)
Abbreviation absorbed := (list byte * ending)%type.

(** [enter_blackhole_mode] of blackhole.rs: sleeps until a deadline and retries a
    read that would block. *)
Fixpoint deadline_loop (deadline : Z) (rounds : list round) : absorbed :=
  match rounds with
  | [] => ([], StillRunning)
  | r :: rounds =>
      if r_check r <? deadline then
        match select_read deadline r with
        | (t, Some (Ok [])) => ([], ClientClosed t)
        | (_, Some (Ok data)) => let '(bs, e) := deadline_loop deadline rounds in (data ++ bs, e)
        | (t, Some (Err e)) =>
            if decide (io_kind e = WouldBlock) then deadline_loop deadline rounds else ([], ReadFailed t e)
        | (t, None) => ([], TimerEnded t)
        end
      else ([], Elapsed (r_check r))
  end.

(** [enter_blackhole_mode_enhanced], and the copy of it in stealth_handler.rs:
    [remaining] is computed from a second reading of the clock, subtracting a
    longer [Duration] from a shorter one panics, and the sleep is as long as what
    remains. *)
Fixpoint elapsed_loop (start delay : Z) (rounds : list round) : outcome absorbed :=
  match rounds with
  | [] => Val ([], StillRunning)
  | r :: rounds =>
      if r_check r - start <? delay then
        if delay <? r_again r - start then Panic
        else
          let remaining := delay - (r_again r - start) in
          match select_read (r_again r + remaining) r with
          | (t, Some (Ok [])) => Val ([], ClientClosed t)
          | (_, Some (Ok data)) =>
              let! x := elapsed_loop start delay rounds in Val (data ++ fst x, snd x)
          | (t, Some (Err e)) => Val ([], ReadFailed t e)
          | (t, None) => Val ([], TimerEnded t)
          end
      else Val ([], Elapsed (r_check r))
  end.

(** The three entry points, from the clock at the start and the seed. *)
Definition enter_blackhole_mode (now seed : Z) (rounds : list round) : absorbed :=
  deadline_loop (now + pseudo_random_range seed 120 1800 * 10 ^ 9) rounds.
Definition enter_blackhole_mode_enhanced (now seed : Z) (rounds : list round) : outcome absorbed :=
  elapsed_loop now (pseudo_random_range seed 120 1800 * 10 ^ 9) rounds.
Definition stealth_blackhole (now seed : Z) (rounds : list round) : outcome absorbed :=
  elapsed_loop now (pseudo_random_range seed 5 30 * 10 ^ 9) rounds.

(** ** Lemmas *)

Lemma pseudo_random_in_range seed min max :
  min <= max -> min <= pseudo_random_range seed min max <= max.
Proof.
  intros H. unfold pseudo_random_range. cbv zeta.
  pose proof (Z.mod_pos_bound (wrap 64 (wrap 64 (1664525 * wrap 64 seed) + 1013904223) mod 2 ^ 32)
    (max - min + 1)). lia.
Qed.

(** The data of the reads that complete. *)
Definition reads (rounds : list round) : list (list byte) :=
  omap (fun r => match r_read r with Some (_, Ok data) => Some data | _ => None end) rounds.

(** The clock does not run backwards and nothing is later than [slack]: a round
    begins within [slack] of [clock], the end of the one before; its sleep does not
    end early and is seen to be over within [slack]; its read takes its time. *)
Fixpoint timely (slack due clock : Z) (rounds : list round) : Prop :=
  match rounds with
  | [] => True
  | r :: rounds =>
      clock <= r_check r <= clock + slack /\ r_check r <= r_again r /\ 0 <= r_late r <= slack /\
      match r_read r with Some (t, _) => r_again r <= t | None => True end /\
      timely slack due (fst (select_read due r)) rounds
  end.

(** No round's two readings of the clock lie on either side of the end. *)
Definition no_race (start delay : Z) (rounds : list round) : Prop :=
  Forall (fun r => r_check r - start < delay -> r_again r - start <= delay) rounds.

(** When a loop with the time to stop [due] may end. *)
Definition ends_by (due slack : Z) (rounds : list round) (e : ending) : Prop :=
  match e with
  | Elapsed t => due <= t <= due + 2 * slack
  | TimerEnded t => due <= t <= due + slack
  | ClientClosed t | ReadFailed t _ => t <= due + slack
  | StillRunning => Forall (fun r => r_check r < due) rounds
  end.

Lemma select_read_by slack due r :
  0 <= r_late r <= slack ->
  fst (select_read due r) <= due + slack /\ (snd (select_read due r) = None -> due <= fst (select_read due r)).
Proof.
  intros Hl. unfold select_read. destruct (r_read r) as [[t res]|]; [|simpl; lia].
  destruct (Z.leb_spec t (due + r_late r)); simpl; split; (lia || done).
Qed.

Lemma select_read_data due r t data :
  select_read due r = (t, Some (Ok data)) -> exists u, r_read r = Some (u, Ok data).
Proof.
  unfold select_read. destruct (r_read r) as [[u res]|]; [|done]. destruct (u <=? _); [|done].
  intros [= <- ->]. by exists u.
Qed.

Lemma reads_prefix r rounds bs data u :
  r_read r = Some (u, Ok data) -> bs `prefix_of` concat (reads rounds) -> data ++ bs `prefix_of` concat (reads (r :: rounds)).
Proof. intros Hr Hp. unfold reads. cbn [omap list_omap]. rewrite Hr. by apply prefix_app. Qed.

Lemma elapsed_loop_ends slack start delay clock rounds :
  no_race start delay rounds -> timely slack (start + delay) clock rounds -> clock <= start + delay + slack ->
  exists bs e, elapsed_loop start delay rounds = Val (bs, e) /\ bs `prefix_of` concat (reads rounds) /\
    ends_by (start + delay) slack rounds e.
Proof.
  intros Hn. revert clock. induction Hn as [|r rounds Hr Hrs IH]; intros clock Ht Hc.
  { exists [], StillRunning. split; [done|]. split; [apply prefix_nil|constructor]. }
  destruct Ht as (Hchk & Hag & Hlate & Hrd & Ht). cbn [elapsed_loop].
  destruct (Z.ltb_spec (r_check r - start) delay) as [Hgo|Hgo].
  2: { exists [], (Elapsed (r_check r)). split; [done|]. split; [apply prefix_nil|]. simpl. lia. }
  destruct (Z.ltb_spec delay (r_again r - start)); [specialize (Hr Hgo); lia|].
  replace (r_again r + (delay - (r_again r - start))) with (start + delay) by lia.
  destruct (select_read_by slack (start + delay) r Hlate) as [Hby Hfired].
  destruct (select_read (start + delay) r) as [t [[[|b data]|e]|]] eqn:Hsel; simpl in Hby, Hfired.
  - exists [], (ClientClosed t). split; [done|]. split; [apply prefix_nil|done].
  - destruct (IH t Ht Hby) as (bs & e & -> & Hp & He). destruct (select_read_data _ _ _ _ Hsel) as [u Hu].
    exists ((b :: data) ++ bs), e. split; [done|]. split; [by eapply reads_prefix|].
    destruct e; simpl in *; [done..|]. constructor; [lia|done].
  - exists [], (ReadFailed t e). split; [done|]. split; [apply prefix_nil|done].
  - exists [], (TimerEnded t). split; [done|]. split; [apply prefix_nil|]. simpl. specialize (Hfired eq_refl). lia.
Qed.

(** ** Properties *)

(** C33. A rejected client is held for 5 to 30 seconds.  For any reads, as long as
    the clock does not run backwards, nothing is later than [slack], and no round
    reads the clock on both sides of the end of the delay: the loop does not
    panic and throws away a prefix of what the client sends; if it ends because the
    delay is over, it ends no sooner than 5 seconds after its start and no later
    than 30 seconds and twice the slack; if the client closes or its connection
    fails it ends then, within 30 seconds and the slack; and it is not still
    running once a round has begun after the delay. *)
Theorem blackhole_bounded slack now seed rounds :
  0 <= slack ->
  let delay := pseudo_random_range seed 5 30 * 10 ^ 9 in
  no_race now delay rounds -> timely slack (now + delay) now rounds ->
  exists bs e, stealth_blackhole now seed rounds = Val (bs, e) /\
    bs `prefix_of` concat (reads rounds) /\
    match e with
    | Elapsed t | TimerEnded t => now + 5 * 10 ^ 9 <= t <= now + 30 * 10 ^ 9 + 2 * slack
    | ClientClosed t | ReadFailed t _ => t <= now + 30 * 10 ^ 9 + slack
    | StillRunning => Forall (fun r => r_check r < now + 30 * 10 ^ 9) rounds
    end.
Proof.
  intros Hs delay Hn Ht. pose proof (pseudo_random_in_range seed 5 30 ltac:(lia)) as Hd.
  assert (5 * 10 ^ 9 <= delay <= 30 * 10 ^ 9) as Hdelay by (unfold delay; lia).
  destruct (elapsed_loop_ends slack now delay now rounds Hn Ht ltac:(lia)) as (bs & e & Hl & Hp & He).
  exists bs, e. split; [done|]. split; [done|]. destruct e; simpl in He; [lia..|].
  eapply Forall_impl; [exact He|]. simpl. intros r Hr. lia.
Qed.

(** The loop's second look at the clock can kill the process: whenever the
    delay ends between the loop condition and the computation of [remaining],
    the subtraction underflows and panics. *)
Theorem blackhole_clock_race now seed r rounds :
  let delay := pseudo_random_range seed 5 30 * 10 ^ 9 in
  r_check r - now < delay -> delay < r_again r - now ->
  stealth_blackhole now seed (r :: rounds) = Panic.
Proof.
  intros delay H1 H2. unfold stealth_blackhole. fold delay. cbn [elapsed_loop].
  rewrite (proj2 (Z.ltb_lt _ _) H1). by rewrite (proj2 (Z.ltb_lt _ _) H2).
Qed.

(** ** Witnesses *)

(** A byte after ten nanoseconds, then nothing. *)
Definition sample_rounds : list round :=
  [mkRound 0 5 (Some (10, Ok [z_byte 1])) 0; mkRound 20 25 None 7].

Theorem blackhole_bounded_witness :
  exists t, stealth_blackhole 0 0 sample_rounds = Val ([z_byte 1], TimerEnded t) /\
    5 * 10 ^ 9 <= t <= 30 * 10 ^ 9 + 200.
Proof.
  destruct (blackhole_bounded 100 0 0 sample_rounds ltac:(lia)) as (bs & e & H & _ & He).
  - repeat constructor; vm_compute; discriminate.
  - repeat split; vm_compute; discriminate.
  - vm_compute in H. injection H as <- <-. eexists. split; [vm_compute; reflexivity|exact He].
Defined.

Theorem blackhole_clock_race_witness :
  stealth_blackhole 0 0 [mkRound (pseudo_random_range 0 5 30 * 10 ^ 9 - 1)
                           (pseudo_random_range 0 5 30 * 10 ^ 9 + 1) None 0] = Panic.
Proof. apply (blackhole_clock_race 0 0); vm_compute; reflexivity. Defined.
