(* ===== verification/Stealth.v ===== *)
(** * Stealth: the connection handler of the forward proxy
    (src/src/proxy/stealth_connection_handler.rs, stealth_handler.rs)

    Access list, connection limit and rate limit per client address, the
    counters, and the UDP sessions.  Connections run concurrently: a handler's
    life is a list of events, each one a call that runs to its next await. *)

From Stdlib Require Import Ascii String ZArith Lia SpecFloat Sorted.
From stdpp Require Import base gmap gmultiset strings list.
From S2P Require Import Prelude Text F64 NetAddr Errors Blackhole.

(** ** Data *)

Record StealthConnectionHandler := mkHandler {
  remote_addr : SocketAddr;
  source_ip : option IpAddr;
  allow_ips : option (list string);
  max_conns_per_ip : option Z;
  cps_limit : option f64 }.

Record IpSecurityStats := mkIpSecurityStats {
  active_connections : Z;
  recent_connections : list Z }.

Definition new_ip_stats : IpSecurityStats := mkIpSecurityStats 0 [].

Record StealthConnectionCounters := mkCounters {
  total_connections : Z;
  counted_active : Z;
  successful_connections : Z;
  failed_connections : Z;
  bytes_transferred : Z }.

(** Backend sockets are named by numbers. *)
Record State := mkState {
  ip_stats : gmap IpAddr IpSecurityStats;
  counters : StealthConnectionCounters;
  udp_sessions : gmap SocketAddr nat }.

Definition initial : State := mkState ∅ (mkCounters 0 0 0 0 0) ∅.

Definition forwarding_failed {A} (s : string) : Result A := Err (Proxy (ForwardingFailed s)).
Definition second : Z := 10 ^ 9.

(** ** Security checks *)

Definition ip_allowed (h : StealthConnectionHandler) (ip : IpAddr) : bool :=
  match allow_ips h with
  | None => true
  | Some allowed =>
      let ip_str := show_ip ip in
      existsb (fun pattern => String.eqb ip_str pattern || String.eqb pattern "0.0.0.0/0"
                              || String.eqb pattern "::/0") allowed
  end.

(** [retain] of the last second. *)
Definition retained (now : Z) (ts : list Z) : list Z := filter (fun t => now - t < second) ts.

Definition check_security (h : StealthConnectionHandler) (now : Z) (ip : IpAddr)
    (m : gmap IpAddr IpSecurityStats) : Result unit * gmap IpAddr IpSecurityStats :=
  if negb (ip_allowed h ip) then (forwarding_failed ("IP " +:+ show_ip ip +:+ " not in allow list"), m)
  else if bool_decide (is_Some (max_conns_per_ip h)) || bool_decide (is_Some (cps_limit h)) then
    let stats := default new_ip_stats (m !! ip) in
    let m := <[ip := stats]> m in
    let full := match max_conns_per_ip h with
                | Some max_active => max_active <=? active_connections stats
                | None => false
                end in
    if full then (forwarding_failed ("Max connections per IP reached for " +:+ show_ip ip), m)
    else
      let admit_one (recent : list Z) :=
        (Ok tt, <[ip := mkIpSecurityStats (u64_add (active_connections stats) 1) recent]> m) in
      match cps_limit h with
      | Some limit =>
          let recent := retained now (recent_connections stats) in
          if f_to_u 64 limit <=? Z.of_nat (length recent)
          then (forwarding_failed ("Connection rate limit exceeded for " +:+ show_ip ip),
                <[ip := mkIpSecurityStats (active_connections stats) recent]> m)
          else admit_one (recent ++ [now])
      | None => admit_one (recent_connections stats)
      end
  else (Ok tt, m).

Definition register_disconnection (h : StealthConnectionHandler) (ip : IpAddr)
    (m : gmap IpAddr IpSecurityStats) : gmap IpAddr IpSecurityStats :=
  match max_conns_per_ip h with
  | Some _ =>
      match m !! ip with
      | Some stats => <[ip := mkIpSecurityStats (sat_sub (active_connections stats) 1) (recent_connections stats)]> m
      | None => m
      end
  | None => m
  end.

(** ** TCP connections *)

Definition with_stats (st : State) (m : gmap IpAddr IpSecurityStats) : State :=
  mkState m (counters st) (udp_sessions st).

Definition count (st : State) (f : StealthConnectionCounters -> StealthConnectionCounters) : State :=
  mkState (ip_stats st) (f (counters st)) (udp_sessions st).

Definition count_start (c : StealthConnectionCounters) : StealthConnectionCounters :=
  mkCounters (u64_add (total_connections c) 1) (u64_add (counted_active c) 1)
    (successful_connections c) (failed_connections c) (bytes_transferred c).
Definition count_success (c : StealthConnectionCounters) : StealthConnectionCounters :=
  mkCounters (total_connections c) (u64_sub (counted_active c) 1)
    (u64_add (successful_connections c) 1) (failed_connections c) (bytes_transferred c).
Definition count_failure (c : StealthConnectionCounters) : StealthConnectionCounters :=
  mkCounters (total_connections c) (counted_active c)
    (successful_connections c) (u64_add (failed_connections c) 1) (bytes_transferred c).

(** [get_connection_stats]: the getters, one after the other. *)
Definition get_connection_stats (st : State) : StealthConnectionCounters := counters st.

(** [handle_connection] up to [handle_stealth]; [optimized] is the result of
    [apply_tcp_optimizations], the peer address is unknown when the socket has
    none any more. *)
Definition connection_start (h : StealthConnectionHandler) (now : Z) (peer : option IpAddr)
    (optimized : Result unit) (st : State) : Result unit * State :=
  let '(checked, st) :=
    match peer with
    | Some ip => let '(r, m) := check_security h now ip (ip_stats st) in (r, with_stats st m)
    | None => (Ok tt, st)
    end in
  match checked with
  | Err e => (Err e, st)
  | Ok _ => (optimized, count st count_start)
  end.

(** [handle_connection] after [handle_stealth] returned. *)
Definition connection_end (h : StealthConnectionHandler) (peer : option IpAddr)
    (res : result unit ProxyError) (st : State) : Result unit * State :=
  let released := match peer with
                  | Some ip => with_stats st (register_disconnection h ip (ip_stats st))
                  | None => st
                  end in
  match res with
  | Ok _ => (Ok tt, count released count_success)
  | Err e => (Err (Proxy e), count released count_failure)
  end.

(** [handle_stealth]: forwarding, the blackhole for a rejection, or an error. *)
Inductive stealth_mode : Type := Forward | EnterBlackhole | Fail (e : ProxyError).

Definition is_connection_error_rejection (msg : string) : bool :=
  contains "refused" msg || contains "reset" msg || contains "rejected" msg
  || contains "timeout" msg || contains "connection" msg.

Definition handle_stealth (connected : result unit IoError) : stealth_mode :=
  match connected with
  | Ok _ => Forward
  | Err e =>
      if is_io_rejection e || is_connection_error_rejection (io_text e) then EnterBlackhole
      else Fail (ForwardingFailed ("Connection failed: " +:+ io_text e))
  end.

Definition is_rejection (e : ProxyError) : bool :=
  match e with
  | ForwardingFailed msg =>
      contains "refused" msg || contains "reset" msg || contains "rejected" msg || contains "timeout" msg
  | _ => false
  end.

(** ** UDP packets *)

(** The results of the socket calls a packet may make. *)
Record UdpCalls := mkUdpCalls {
  uc_bind : result nat IoError;
  uc_connect : result unit IoError;
  uc_send : result unit IoError }.

Definition handle_udp_packet (h : StealthConnectionHandler) (now : Z) (client_addr : SocketAddr)
    (calls : UdpCalls) (st : State) : Result unit * State :=
  let '(checked, m) := check_security h now (sa_ip client_addr) (ip_stats st) in
  let st := with_stats st m in
  match checked with
  | Err e => (Err e, st)
  | Ok _ =>
      let send st :=
        (match uc_send calls with
         | Ok _ => Ok tt
         | Err e => forwarding_failed ("Failed to forward UDP packet: " +:+ io_text e)
         end, st) in
      match udp_sessions st !! client_addr with
      | Some _ => send st
      | None =>
          match uc_bind calls with
          | Err e => (forwarding_failed ("Failed to bind backend UDP socket: " +:+ io_text e), st)
          | Ok socket =>
              match uc_connect calls with
              | Err e => (forwarding_failed ("Failed to connect to remote UDP " +:+
                            show_socket_addr (remote_addr h) +:+ ": " +:+ io_text e), st)
              | Ok _ =>
                  send (mkState (ip_stats st) (counters st) (<[client_addr := socket]> (udp_sessions st)))
              end
          end
      end
  end.

(** The relay task of a session ends: an error, or 60 seconds of silence. *)
Definition udp_session_end (client_addr : SocketAddr) (st : State) : State :=
  mkState (ip_stats st) (counters st) (delete client_addr (udp_sessions st)).

(** ** The handler as a transition system *)

Inductive event : Type :=
| TcpStart (ip : IpAddr) (now : Z) (optimized : Result unit)
| TcpEnd (ip : IpAddr) (res : result unit ProxyError)
| UdpPacket (addr : SocketAddr) (now : Z) (calls : UdpCalls)
| UdpEnd (addr : SocketAddr).

(** Beside the state: the connections being forwarded, the number whose socket
    options could not be set, and the admissions with their times. *)
Record World := mkWorld {
  w_state : State;
  w_running : gmultiset IpAddr;
  w_setup_failed : Z;
  w_admitted : list (IpAddr * Z) }.

Definition start_world : World := mkWorld initial ∅ 0 [].

Definition log_if (ok : bool) (x : IpAddr * Z) (l : list (IpAddr * Z)) : list (IpAddr * Z) :=
  if ok then l ++ [x] else l.

Definition run_event (h : StealthConnectionHandler) (W : World) (e : event) : World :=
  let st := w_state W in
  match e with
  | TcpStart ip now optimized =>
      let ok := is_ok (fst (check_security h now ip (ip_stats st))) in
      let '(res, st') := connection_start h now (Some ip) optimized st in
      mkWorld st' (if is_ok res then w_running W ⊎ {[+ ip +]} else w_running W)
        (w_setup_failed W + (if ok && negb (is_ok res) then 1 else 0))
        (log_if ok (ip, now) (w_admitted W))
  | TcpEnd ip res =>
      if bool_decide (ip ∈ w_running W) then
        mkWorld (snd (connection_end h (Some ip) res st)) (w_running W ∖ {[+ ip +]})
          (w_setup_failed W) (w_admitted W)
      else W
  | UdpPacket addr now calls =>
      let ok := is_ok (fst (check_security h now (sa_ip addr) (ip_stats st))) in
      mkWorld (snd (handle_udp_packet h now addr calls st)) (w_running W) (w_setup_failed W)
        (log_if ok (sa_ip addr, now) (w_admitted W))
  | UdpEnd addr => mkWorld (udp_session_end addr st) (w_running W) (w_setup_failed W) (w_admitted W)
  end.

Definition run (h : StealthConnectionHandler) (es : list event) : World :=
  foldl (run_event h) start_world es.

(** The clock never runs backwards. *)
Definition event_time (e : event) : option Z :=
  match e with TcpStart _ now _ | UdpPacket _ now _ => Some now | _ => None end.
Definition monotone (es : list event) : Prop := Sorted Z.le (omap event_time es).

(** ** Lemmas *)

Definition active (m : gmap IpAddr IpSecurityStats) (ip : IpAddr) : Z :=
  active_connections (default new_ip_stats (m !! ip)).
Definition recent (m : gmap IpAddr IpSecurityStats) (ip : IpAddr) : list Z :=
  recent_connections (default new_ip_stats (m !! ip)).

Lemma active_insert m ip s ip' :
  active (<[ip := s]> m) ip' = if decide (ip' = ip) then active_connections s else active m ip'.
Proof.
  unfold active. destruct (decide (ip' = ip)) as [->|]; [by rewrite lookup_insert_eq|by rewrite lookup_insert_ne].
Qed.

Lemma recent_insert m ip s ip' :
  recent (<[ip := s]> m) ip' = if decide (ip' = ip) then recent_connections s else recent m ip'.
Proof.
  unfold recent. destruct (decide (ip' = ip)) as [->|]; [by rewrite lookup_insert_eq|by rewrite lookup_insert_ne].
Qed.

(** What a check does to the two per-address records. *)
Lemma check_security_active h now ip m r m' ip' :
  check_security h now ip m = (r, m') ->
  active m' ip' =
  (if decide (ip' = ip /\ is_ok r = true /\ (is_Some (max_conns_per_ip h) \/ is_Some (cps_limit h)))
   then u64_add (active m ip') 1 else active m ip') /\
  (is_ok r = true -> forall mx, max_conns_per_ip h = Some mx -> active m ip < mx).
Proof.
  unfold check_security. destruct (ip_allowed h ip); simpl.
  2: { intros [= <- <-]. rewrite decide_False by (intros (_ & ? & _); done). done. }
  destruct (bool_decide_reflect (is_Some (max_conns_per_ip h) \/ is_Some (cps_limit h))) as [Ht|Ht].
  2: { rewrite !bool_decide_eq_false_2 by (intros ?; apply Ht; auto). simpl. intros [= <- <-].
       rewrite decide_False by (intros (_ & _ & ?); done). split; [done|].
       intros _ mx Hmx. destruct Ht. left. by rewrite Hmx. }
  assert (bool_decide (is_Some (max_conns_per_ip h)) || bool_decide (is_Some (cps_limit h)) = true) as ->.
  { rewrite orb_true_iff, !bool_decide_eq_true. done. }
  destruct (match max_conns_per_ip h with Some max_active => _ | None => false end) eqn:Hfull.
  { intros [= <- <-]. rewrite active_insert. rewrite (decide_False (P := ip' = ip /\ _)) by (intros (_ & ? & _); done).
    destruct (decide (ip' = ip)) as [->|]; done. }
  assert (forall mx, max_conns_per_ip h = Some mx -> active m ip < mx) as Hmx.
  { intros mx Hmx. rewrite Hmx in Hfull. boolp. exact Hfull. }
  destruct (cps_limit h) as [limit|] eqn:Hcps; [destruct (_ <=? _)|]; intros [= <- <-];
    rewrite !active_insert; simpl.
  - rewrite (decide_False (P := ip' = ip /\ _)) by (intros (_ & ? & _); done).
    destruct (decide (ip' = ip)) as [->|]; done.
  - destruct (decide (ip' = ip)) as [->|].
    + rewrite decide_True by done. done.
    + rewrite decide_False by (intros (? & _); done). done.
  - destruct (decide (ip' = ip)) as [->|].
    + rewrite decide_True by done. done.
    + rewrite decide_False by (intros (? & _); done). done.
Qed.

Lemma check_security_recent h now ip m r m' ip' :
  check_security h now ip m = (r, m') ->
  match cps_limit h with
  | None => True
  | Some limit =>
      if decide (ip' = ip) then
        if is_ok r then recent m' ip = retained now (recent m ip) ++ [now] /\
                        Z.of_nat (length (retained now (recent m ip))) < f_to_u 64 limit
        else recent m' ip = retained now (recent m ip) \/ recent m' ip = recent m ip
      else recent m' ip' = recent m ip'
  end.
Proof.
  intros H. destruct (cps_limit h) as [limit|] eqn:Hcps; [|done]. revert H.
  unfold check_security. rewrite Hcps, (bool_decide_eq_true_2 (is_Some (Some limit))), orb_true_r by eauto.
  destruct (ip_allowed h ip); simpl.
  2: { intros [= <- <-]. destruct (decide (ip' = ip)); simpl; auto. }
  destruct (match max_conns_per_ip h with Some max_active => _ | None => false end).
  { intros [= <- <-]. rewrite !recent_insert. destruct (decide (ip' = ip)) as [->|]; simpl; [|done].
    right. by rewrite decide_True. }
  destruct (Z.leb_spec (f_to_u 64 limit) (Z.of_nat (length (retained now (recent_connections (default new_ip_stats (m !! ip)))))));
    intros [= <- <-]; rewrite !recent_insert; destruct (decide (ip' = ip)) as [->|]; simpl; try done;
    rewrite ?decide_True by done; [by left|by split].
Qed.

Lemma active_register h ip m ip' :
  active (register_disconnection h ip m) ip' =
  (if decide (ip' = ip /\ is_Some (max_conns_per_ip h)) then sat_sub (active m ip') 1 else active m ip').
Proof.
  unfold register_disconnection. destruct (max_conns_per_ip h) as [mx|].
  2: { rewrite decide_False; [done|]. by intros (_ & ? & ?). }
  destruct (m !! ip) as [s|] eqn:Hm.
  - rewrite active_insert. destruct (decide (ip' = ip)) as [->|].
    + rewrite decide_True by eauto. unfold active. by rewrite Hm.
    + rewrite decide_False by (by intros (? & _)). done.
  - case_decide as Hd; [|done]. destruct Hd as [-> _]. unfold active. by rewrite Hm.
Qed.

Lemma recent_register h ip m ip' : recent (register_disconnection h ip m) ip' = recent m ip'.
Proof.
  unfold register_disconnection. destruct (max_conns_per_ip h); [|done].
  destruct (m !! ip) as [s|] eqn:Hm; [|done]. rewrite recent_insert.
  destruct (decide (ip' = ip)) as [->|]; [|done]. unfold recent. by rewrite Hm.
Qed.

(** A call's effect on the per-address table is that of its check. *)
Lemma connection_start_ip_stats h now ip opt st :
  ip_stats (snd (connection_start h now (Some ip) opt st)) = snd (check_security h now ip (ip_stats st)).
Proof. unfold connection_start. by destruct (check_security h now ip (ip_stats st)) as [[] m]. Qed.

Lemma connection_start_ok h now ip opt st :
  is_ok (fst (connection_start h now (Some ip) opt st)) =
  is_ok (fst (check_security h now ip (ip_stats st))) && is_ok opt.
Proof. unfold connection_start. by destruct (check_security h now ip (ip_stats st)) as [[] m]. Qed.

Lemma connection_start_counters h now ip opt st :
  counters (snd (connection_start h now (Some ip) opt st)) =
  if is_ok (fst (check_security h now ip (ip_stats st))) then count_start (counters st) else counters st.
Proof. unfold connection_start. by destruct (check_security h now ip (ip_stats st)) as [[] m]. Qed.

Lemma connection_end_ip_stats h ip res st :
  ip_stats (snd (connection_end h (Some ip) res st)) = register_disconnection h ip (ip_stats st).
Proof. unfold connection_end. by destruct res. Qed.

Lemma udp_packet_ip_stats h now addr calls st :
  ip_stats (snd (handle_udp_packet h now addr calls st)) =
  snd (check_security h now (sa_ip addr) (ip_stats st)) /\
  counters (snd (handle_udp_packet h now addr calls st)) = counters st.
Proof.
  unfold handle_udp_packet. destruct (check_security h now (sa_ip addr) (ip_stats st)) as [[] m]; [|done].
  simpl. destruct (udp_sessions st !! addr); [done|]. destruct (uc_bind calls); [|done].
  by destruct (uc_connect calls).
Qed.

(** ** The connection limit *)

Definition limited (h : StealthConnectionHandler) (mx : Z) : Prop :=
  max_conns_per_ip h = Some mx /\ in_u 64 mx.

Definition counted (mx : Z) (W : World) : Prop :=
  forall ip, Z.of_nat (multiplicity ip (w_running W)) <= active (ip_stats (w_state W)) ip <= mx.

Lemma check_counted h mx now ip m r m' ip' :
  limited h mx -> check_security h now ip m = (r, m') -> 0 <= active m ip' <= mx ->
  active m' ip' <= mx /\
  (active m' ip' = active m ip' \/
   (ip' = ip /\ active m' ip' = active m ip' + 1)) /\
  (is_ok r = true -> ip' = ip -> active m' ip' = active m ip' + 1).
Proof.
  intros [Hm Hmx] Hc Ha. destruct (check_security_active h now ip m r m' ip' Hc) as [-> Hlt].
  destruct (decide _) as [(-> & Hok & _)|Hno].
  - specialize (Hlt Hok mx Hm). unfold u64_add. rewrite wrap_small by (unfold in_u in *; lia).
    split; [lia|]. split; [right; split; [done|lia]|lia].
  - split; [lia|]. split; [by left|]. intros Hok ->. destruct Hno. rewrite Hm. eauto.
Qed.

Lemma run_event_counted h mx W e : limited h mx -> counted mx W -> counted mx (run_event h W e).
Proof.
  intros Hl Hc ip'. pose proof (Hc ip') as Hip.
  destruct e as [ip now opt|ip res|addr now calls|addr]; simpl.
  - pose proof (connection_start_ip_stats h now ip opt (w_state W)) as Hst.
    pose proof (connection_start_ok h now ip opt (w_state W)) as Hok.
    destruct (connection_start h now (Some ip) opt (w_state W)) as [res st'] eqn:Hcs. simpl in *. rewrite Hst.
    destruct (check_security h now ip (ip_stats (w_state W))) as [r m'] eqn:Hch. simpl in *.
    destruct (check_counted h mx now ip _ r m' ip' Hl Hch ltac:(lia)) as (H1 & H2 & H3).
    rewrite Hok. destruct (is_ok r) eqn:Hr, (is_ok opt); simpl; try lia.
    rewrite multiplicity_disj_union. destruct (decide (ip' = ip)) as [->|Hne].
    + rewrite multiplicity_singleton, decide_True by done. pose proof (H3 eq_refl eq_refl). lia.
    + rewrite multiplicity_singleton, decide_False by done. lia.
  - case_bool_decide as Hin; simpl; [|exact Hip].
    rewrite connection_end_ip_stats, active_register, multiplicity_difference.
    destruct (decide (ip' = ip)) as [->|Hne].
    + rewrite decide_True by (split; [done|]; rewrite (proj1 Hl); eauto).
      rewrite multiplicity_singleton, decide_True by done. unfold sat_sub. lia.
    + rewrite decide_False by (by intros (? & _)). rewrite multiplicity_singleton, decide_False by done. lia.
  - destruct (udp_packet_ip_stats h now addr calls (w_state W)) as [-> _].
    destruct (check_security h now (sa_ip addr) (ip_stats (w_state W))) as [r m'] eqn:Hch. simpl.
    destruct (check_counted h mx now (sa_ip addr) _ r m' ip' Hl Hch ltac:(lia)) as (H1 & H2 & _). lia.
  - exact Hip.
Qed.

Lemma run_counted h mx es : limited h mx -> counted mx (run h es).
Proof.
  intros Hl. unfold run. induction es as [|e es IH] using rev_ind.
  - intros ip. simpl. rewrite multiplicity_empty. unfold active. rewrite lookup_empty.
    destruct Hl as [_ Hmx]. unfold in_u in Hmx. simpl. lia.
  - rewrite foldl_app. by apply run_event_counted.
Qed.

(** The per-address limit holds: however connections, UDP packets and ends
    interleave, no address ever has more connections being forwarded than
    [max_conns_per_ip], and each of them is counted. *)
Theorem connection_limit_enforced h mx es ip :
  limited h mx ->
  Z.of_nat (multiplicity ip (w_running (run h es))) <= active (ip_stats (w_state (run h es))) ip <= mx.
Proof. intros Hl. by apply run_counted. Qed.

(** ** UDP packets and the limit *)

(** Packets of one address, from any of its ports, at any times. *)
Definition packets_from (ip : IpAddr) (flood : list event) : Prop :=
  Forall (fun e => exists addr now calls, e = UdpPacket addr now calls /\ sa_ip addr = ip) flood.

(** Below the limit every packet is counted. *)
Lemma flood_active h mx ip flood :
  limited h mx -> cps_limit h = None -> ip_allowed h ip = true -> packets_from ip flood ->
  Z.of_nat (length flood) <= mx ->
  active (ip_stats (w_state (run h flood))) ip = Z.of_nat (length flood) /\ w_running (run h flood) = ∅.
Proof.
  intros Hl Hcps Hal. induction flood as [|e flood IH] using rev_ind; intros Hp Hn.
  - split; [|done]. unfold active, run. simpl. by rewrite lookup_empty.
  - apply Forall_app in Hp as [Hp He]. rewrite Forall_singleton in He. destruct He as (addr & now & calls & -> & <-).
    rewrite length_app in Hn |- *. simpl in Hn |- *. destruct IH as [IH Hrun]; [done|lia|].
    unfold run in *. rewrite foldl_app. cbn [foldl]. set (W := foldl _ _ _) in *. simpl.
    split; [|done]. destruct (udp_packet_ip_stats h now addr calls (w_state W)) as [-> _].
    destruct (check_security h now (sa_ip addr) (ip_stats (w_state W))) as [r m'] eqn:Hch. simpl.
    destruct (check_counted h mx now (sa_ip addr) _ r m' (sa_ip addr) Hl Hch ltac:(lia)) as (_ & _ & H3).
    assert (is_ok r = true) as Hok; [|rewrite (H3 Hok eq_refl); lia].
    unfold check_security in Hch. rewrite Hal, Hcps, (proj1 Hl) in Hch.
    rewrite (bool_decide_eq_true_2 (is_Some (Some mx))) in Hch by eauto. simpl in Hch.
    unfold active in IH. rewrite (proj2 (Z.leb_gt _ _)) in Hch by lia. by injection Hch as <- _.
Qed.

Lemma full_refuses h mx m ip :
  limited h mx -> active m ip = mx -> forall now, is_ok (fst (check_security h now ip m)) = false.
Proof.
  intros [Hm _] Ha now. unfold check_security. rewrite Hm.
  rewrite (bool_decide_eq_true_2 (is_Some (Some mx))) by eauto.
  destruct (ip_allowed h ip); [|done]. simpl. unfold active in Ha.
  by rewrite (proj2 (Z.leb_le _ _)) by lia.
Qed.

(** An address whose count is full while none of its connections runs. *)
Definition locked_out (mx : Z) (ip : IpAddr) (W : World) : Prop :=
  active (ip_stats (w_state W)) ip = mx /\ ip ∉ w_running W.

(** A check leaves a full count as it is. *)
Lemma check_full h mx now ip m ip' :
  limited h mx -> active m ip = mx -> active (snd (check_security h now ip' m)) ip = mx.
Proof.
  intros Hl Ha. pose proof Hl as [_ Hmx]. unfold in_u in Hmx. pose proof (full_refuses h mx m ip Hl Ha now) as Hf.
  destruct (check_security h now ip' m) as [r m'] eqn:Hch. simpl.
  destruct (check_counted h mx now ip' m r m' ip Hl Hch ltac:(lia)) as (Hle & [|[-> Hup]] & _); lia.
Qed.

Lemma run_event_locked h mx ip W e : limited h mx -> locked_out mx ip W -> locked_out mx ip (run_event h W e).
Proof.
  intros Hl [Ha Hr]. unfold locked_out. destruct e as [ip' now opt|ip' res|addr now calls|addr]; simpl.
  - pose proof (connection_start_ip_stats h now ip' opt (w_state W)) as Hst.
    pose proof (connection_start_ok h now ip' opt (w_state W)) as Hok.
    destruct (connection_start h now (Some ip') opt (w_state W)) as [res st']. simpl in *.
    rewrite Hst. split; [by apply check_full|]. destruct (decide (ip' = ip)) as [->|Hne].
    + rewrite (full_refuses h mx _ ip Hl Ha) in Hok. simpl in Hok. by rewrite Hok.
    + case_if; [|done]. rewrite gmultiset_elem_of_disj_union, gmultiset_elem_of_singleton. naive_solver.
  - case_bool_decide as Hin; simpl; [|done]. rewrite connection_end_ip_stats, active_register.
    rewrite decide_False by (intros [-> _]; done). split; [done|]. intros Hx. apply Hr.
    rewrite elem_of_multiplicity, multiplicity_difference in Hx. rewrite elem_of_multiplicity. lia.
  - destruct (udp_packet_ip_stats h now addr calls (w_state W)) as [-> _]. split; [by apply check_full|done].
  - done.
Qed.


(** ** The rate limit *)

Abbreviation admissions := (list (IpAddr * Z)).

(** Admissions of one address no older than a second at [T], and in the second
    that starts at [w]. *)
Definition since (ip : IpAddr) (T : Z) (l : admissions) : list Z :=
  snd <$> filter (fun x => fst x = ip /\ T - snd x < second) l.
Definition window (ip : IpAddr) (w : Z) (l : admissions) : admissions :=
  filter (fun x => fst x = ip /\ w <= snd x < w + second) l.

Definition rate_ok (limit now : Z) (m : gmap IpAddr IpSecurityStats) (l : admissions) : Prop :=
  (forall ip T, now <= T -> since ip T l = retained T (recent m ip)) /\
  (forall ip w, Z.of_nat (length (window ip w l)) <= limit).

Lemma filter_length_mono {A} (P Q : A -> Prop) `{!forall x, Decision (P x), !forall x, Decision (Q x)} l :
  (forall x, P x -> Q x) -> (length (filter P l) <= length (filter Q l))%nat.
Proof.
  intros Himp. induction l as [|x l IH]; [done|]. rewrite !filter_cons.
  destruct (decide (P x)) as [Hp|], (decide (Q x)) as [|Hq]; simpl; try lia.
  destruct Hq. by apply Himp.
Qed.

Lemma retained_retained T now l : now <= T -> retained T (retained now l) = retained T l.
Proof.
  intros H. unfold retained. rewrite list_filter_filter. apply list_filter_iff. intros t. lia.
Qed.

Lemma since_snoc ip T l ip' now :
  since ip T (l ++ [(ip', now)]) =
  since ip T l ++ (if decide (ip' = ip /\ T - now < second) then [now] else []).
Proof.
  unfold since. rewrite filter_app, fmap_app, filter_cons, filter_nil. simpl. by case_decide.
Qed.

Lemma window_snoc ip w l ip' now :
  length (window ip w (l ++ [(ip', now)])) =
  (length (window ip w l) + if decide (ip' = ip /\ (w <= now < w + second)%Z) then 1 else 0)%nat.
Proof.
  unfold window. rewrite filter_app, length_app, filter_cons, filter_nil. simpl. by case_decide.
Qed.

(** The window before an admission at [now] is part of the second before it. *)
Lemma window_since ip w now l :
  w <= now < w + second -> (length (window ip w l) <= length (since ip now l))%nat.
Proof.
  intros Hw. unfold since, window. rewrite length_fmap. apply filter_length_mono.
  intros x [Hx Ht]. split; [done|lia].
Qed.

Lemma check_rate h limit now now' ip m r m' l :
  cps_limit h = Some limit -> now <= now' ->
  check_security h now' ip m = (r, m') -> rate_ok (f_to_u 64 limit) now m l ->
  rate_ok (f_to_u 64 limit) now' m' (log_if (is_ok r) (ip, now') l).
Proof.
  intros Hcps Hle Hch [H1 H2].
  pose proof (fun ip' => check_security_recent h now' ip m r m' ip' Hch) as Hrec. rewrite Hcps in Hrec.
  split.
  - intros ip' T HT. specialize (Hrec ip'). specialize (H1 ip' T ltac:(lia)).
    destruct (decide (ip' = ip)) as [->|Hne]; destruct (is_ok r); unfold log_if.
    + destruct Hrec as [-> _]. rewrite since_snoc, H1. unfold retained at 2.
      rewrite filter_app, filter_cons, filter_nil. fold (retained T (retained now' (recent m ip))).
      rewrite retained_retained by done.
      destruct (decide (T - now' < second)).
      * by rewrite decide_True.
      * by rewrite decide_False by (by intros [_ ?]).
    + destruct Hrec as [-> | ->]; [by rewrite retained_retained|done].
    + rewrite since_snoc, decide_False, app_nil_r, Hrec by (by intros [-> _]). done.
    + by rewrite Hrec.
  - intros ip' w. destruct (is_ok r) eqn:Hr; unfold log_if; [|apply H2].
    rewrite window_snoc. case_decide as Hd; [|specialize (H2 ip' w); lia].
    destruct Hd as [<- Hw]. specialize (Hrec ip). rewrite decide_True in Hrec by done.
    destruct Hrec as [_ Hlt]. rewrite <- (H1 ip now' Hle) in Hlt.
    pose proof (window_since ip w now' l Hw). lia.
Qed.

Lemma run_event_rate h limit now W e :
  cps_limit h = Some limit -> from_option (Z.le now) True (event_time e) ->
  rate_ok (f_to_u 64 limit) now (ip_stats (w_state W)) (w_admitted W) ->
  rate_ok (f_to_u 64 limit) (default now (event_time e))
    (ip_stats (w_state (run_event h W e))) (w_admitted (run_event h W e)).
Proof.
  intros Hcps Hle Hok. destruct e as [ip now' opt|ip res|addr now' calls|addr]; simpl in *.
  - pose proof (connection_start_ip_stats h now' ip opt (w_state W)) as Hst.
    destruct (connection_start h now' (Some ip) opt (w_state W)) as [res st']. simpl in *. rewrite Hst.
    destruct (check_security h now' ip (ip_stats (w_state W))) as [r m'] eqn:Hch. simpl.
    by eapply check_rate.
  - case_bool_decide; simpl; [|done]. rewrite connection_end_ip_stats.
    destruct Hok as [H1 H2]. split; [|done]. intros ip' T HT. by rewrite recent_register, H1.
  - destruct (udp_packet_ip_stats h now' addr calls (w_state W)) as [-> _].
    destruct (check_security h now' (sa_ip addr) (ip_stats (w_state W))) as [r m'] eqn:Hch. simpl.
    by eapply check_rate.
  - exact Hok.
Qed.

Lemma run_rate h limit es W now :
  cps_limit h = Some limit ->
  (forall t, t ∈ omap event_time es -> now <= t) -> monotone es ->
  rate_ok (f_to_u 64 limit) now (ip_stats (w_state W)) (w_admitted W) ->
  exists now', rate_ok (f_to_u 64 limit) now' (ip_stats (w_state (foldl (run_event h) W es)))
                 (w_admitted (foldl (run_event h) W es)).
Proof.
  intros Hcps. revert W now. induction es as [|e es IH]; intros W now Hge Hm Hok; [by exists now|].
  simpl. unfold monotone in Hm. simpl in Hm, Hge.
  pose proof (run_event_rate h limit now W e Hcps) as Hstep.
  destruct (event_time e) as [t|]; simpl in *.
  - apply (IH _ t).
    + apply Sorted_StronglySorted in Hm; [|intros x y z; lia].
      apply StronglySorted_inv in Hm as [_ Hall]. intros t' Ht'. by eapply Forall_forall in Hall.
    + by apply Sorted_inv in Hm as [? _].
    + apply Hstep; [|done]. apply Hge. by left.
  - apply (IH _ now); [done|done|]. by apply Hstep.
Qed.

(** C17. The rate limit holds over every second: on a clock that does not run
    backwards, no second-long window, wherever it starts, sees more admissions
    from one address than [cps_limit] truncated to an integer. *)
Theorem rate_limit_enforced h limit es ip w :
  cps_limit h = Some limit -> monotone es ->
  Z.of_nat (length (window ip w (w_admitted (run h es)))) <= f_to_u 64 limit.
Proof.
  intros Hcps Hm.
  destruct (run_rate h limit es start_world (default 0 (head (omap event_time es))) Hcps) as (now & _ & H2);
    [|done| |apply H2].
  - unfold monotone in Hm. apply Sorted_StronglySorted in Hm; [|intros x y z; lia].
    destruct (omap event_time es) as [|t ts]; simpl; [by intros t ?%elem_of_nil|].
    apply StronglySorted_inv in Hm as [_ Hall]. intros t' [->|Ht']%elem_of_cons; [lia|].
    by eapply Forall_forall in Hall.
  - split; simpl; [|intros; apply f_to_u_range; lia]. intros ip' T _. unfold recent. by rewrite lookup_empty.
Qed.

(** ** The counters *)

Definition gauge_ok (W : World) : Prop :=
  let c := counters (w_state W) in
  let running := Z.of_nat (size (w_running W)) in
  total_connections c = wrap 64 (running + successful_connections c + failed_connections c + w_setup_failed W) /\
  counted_active c = wrap 64 (running + failed_connections c + w_setup_failed W).

Lemma size_remove (ip : IpAddr) (X : gmultiset IpAddr) :
  ip ∈ X -> Z.of_nat (size (X ∖ {[+ ip +]})) = Z.of_nat (size X) - 1.
Proof.
  intros H. rewrite (gmultiset_disj_union_difference' ip X H) at 2.
  rewrite gmultiset_size_disj_union, gmultiset_size_singleton. lia.
Qed.

Ltac mod_lia := unfold u64_add, u64_sub, wrap in *; Z.div_mod_to_equations; lia.

Lemma run_event_gauge h W e : gauge_ok W -> gauge_ok (run_event h W e).
Proof.
  intros [Ht Ha]. destruct e as [ip now opt|ip res|addr now calls|addr]; simpl.
  - pose proof (connection_start_counters h now ip opt (w_state W)) as Hc.
    pose proof (connection_start_ok h now ip opt (w_state W)) as Hok.
    destruct (connection_start h now (Some ip) opt (w_state W)) as [res st']. simpl in Hc, Hok.
    unfold gauge_ok. simpl w_state. simpl w_running. simpl w_setup_failed. rewrite Hc, Hok.
    destruct (is_ok (fst (check_security h now ip (ip_stats (w_state W))))), (is_ok opt);
      simpl; rewrite ?gmultiset_size_disj_union, ?gmultiset_size_singleton; split; mod_lia.
  - case_bool_decide as Hin; [|done]. unfold gauge_ok. simpl w_state. simpl w_running. simpl w_setup_failed.
    rewrite size_remove by done. destruct res; simpl; split; mod_lia.
  - unfold gauge_ok. simpl. destruct (udp_packet_ip_stats h now addr calls (w_state W)) as [_ ->]. done.
  - done.
Qed.

Lemma run_gauge h es : gauge_ok (run h es).
Proof.
  unfold run. induction es as [|e es IH] using rev_ind; [by split|]. rewrite foldl_app. by apply run_event_gauge.
Qed.

(** What the counters mean: every admitted connection is exactly one of
    running, successful, failed or refused by its socket options, but the
    gauge of active connections also keeps every failed one, so with nothing
    running it shows the failures so far instead of zero. *)
Theorem active_gauge_keeps_failures h es :
  let W := run h es in
  let c := counters (w_state W) in
  let running := Z.of_nat (size (w_running W)) in
  total_connections c = wrap 64 (running + successful_connections c + failed_connections c + w_setup_failed W) /\
  counted_active c = wrap 64 (running + failed_connections c + w_setup_failed W) /\
  (w_running W = ∅ -> counted_active c = wrap 64 (failed_connections c + w_setup_failed W)).
Proof.
  intros W c running. destruct (run_gauge h es : gauge_ok W) as [Ht Ha].
  split; [exact Ht|]. split; [exact Ha|]. intros Hr. unfold c. rewrite Ha. rewrite Hr. done.
Qed.

(** While no counter can have wrapped, the events bound what has been counted. *)
Lemma counts_bounded h es :
  Z.of_nat (length es) < 2 ^ 64 ->
  let W := run h es in
  let c := counters (w_state W) in
  0 <= successful_connections c /\ 0 <= failed_connections c /\ 0 <= w_setup_failed W /\
  Z.of_nat (size (w_running W)) + successful_connections c + failed_connections c + w_setup_failed W <= Z.of_nat (length es).
Proof.
  induction es as [|e es IH] using rev_ind; [intros _; vm_compute; intuition discriminate|].
  rewrite length_app. simpl length. intros Hlen. destruct IH as (H1 & H2 & H3 & H4); [lia|].
  unfold run in *. rewrite foldl_app. cbn [foldl]. set (W := foldl _ _ es) in *.
  destruct e as [ip now opt|ip res|addr now calls|addr]; simpl.
  - pose proof (connection_start_counters h now ip opt (w_state W)) as Hc.
    pose proof (connection_start_ok h now ip opt (w_state W)) as Hok.
    destruct (connection_start h now (Some ip) opt (w_state W)) as [res st']. simpl in Hc, Hok.
    simpl w_state. simpl w_running. simpl w_setup_failed. rewrite Hc, Hok.
    destruct (is_ok (fst (check_security h now ip (ip_stats (w_state W))))), (is_ok opt);
      simpl; rewrite ?gmultiset_size_disj_union, ?gmultiset_size_singleton; lia.
  - case_bool_decide as Hin; [|lia]. simpl w_state. simpl w_running. simpl w_setup_failed.
    rewrite size_remove by done. destruct res; simpl; unfold u64_add; rewrite wrap_small by (unfold in_u; lia); lia.
  - destruct (udp_packet_ip_stats h now addr calls (w_state W)) as [_ ->]. lia.
  - lia.
Qed.

(** C18. What the handler counts: in any run of fewer than 2^64 events no counter
    wraps, every admitted connection is exactly one of running, successful, failed
    or turned away by its socket options, and the gauge of active connections is
    those running and, as it is never taken back, every one that failed in either
    way; and a connection that ends always finds its slot to give back: the
    saturating decrement never meets zero. *)
Theorem counters_exact h es :
  Z.of_nat (length es) < 2 ^ 64 ->
  let W := run h es in
  let c := counters (w_state W) in
  let running := Z.of_nat (size (w_running W)) in
  total_connections c = running + successful_connections c + failed_connections c + w_setup_failed W /\
  counted_active c = running + failed_connections c + w_setup_failed W /\
  (forall mx ip, limited h mx -> ip ∈ w_running W ->
     active (register_disconnection h ip (ip_stats (w_state W))) ip = active (ip_stats (w_state W)) ip - 1).
Proof.
  intros Hlen W c running. destruct (counts_bounded h es Hlen) as (H1 & H2 & H3 & H4). fold W c running in H1, H2, H3, H4.
  destruct (run_gauge h es) as [Ht Ha]. fold W c in Ht, Ha. fold running in Ht, Ha.
  rewrite Ht, Ha, !wrap_small by (unfold in_u; lia). split; [done|]. split; [done|].
  intros mx ip Hl Hin. pose proof (run_counted h mx es Hl ip) as [Hc _]. fold W in Hc.
  rewrite elem_of_multiplicity in Hin. rewrite active_register, decide_True by (by rewrite (proj1 Hl); eauto).
  unfold sat_sub. lia.
Qed.

(** ** Witnesses *)

Definition sample_ip : IpAddr := V4 192 0 2 7.
Definition sample_handler : StealthConnectionHandler :=
  mkHandler (mkSocketAddr (V4 10 0 0 1) 80) None (Some ["192.0.2.7"]) (Some 2) None.
Definition sample_calls : UdpCalls := mkUdpCalls (Ok 1%nat) (Ok tt) (Ok tt).
Definition rate_handler : StealthConnectionHandler :=
  mkHandler (mkSocketAddr (V4 10 0 0 1) 80) None None None (Some (f_of_Z 2)).

Lemma sample_limited : limited sample_handler 2.
Proof. split; [reflexivity|]. unfold in_u. lia. Qed.

Theorem connection_limit_enforced_witness :
  let W := run sample_handler [TcpStart sample_ip 0 (Ok tt); TcpStart sample_ip 0 (Ok tt); TcpStart sample_ip 0 (Ok tt)] in
  Z.of_nat (multiplicity sample_ip (w_running W)) <= active (ip_stats (w_state W)) sample_ip <= 2.
Proof. exact (connection_limit_enforced sample_handler 2 _ sample_ip sample_limited). Defined.


Theorem counters_exact_witness :
  let W := run sample_handler [TcpStart sample_ip 0 (Ok tt); TcpStart sample_ip 1 (Ok tt);
                               TcpEnd sample_ip (Err (ForwardingFailed "reset"))] in
  total_connections (counters (w_state W)) = 2 /\ counted_active (counters (w_state W)) = 2.
Proof.
  destruct (counters_exact sample_handler [TcpStart sample_ip 0 (Ok tt); TcpStart sample_ip 1 (Ok tt);
    TcpEnd sample_ip (Err (ForwardingFailed "reset"))] ltac:(simpl; lia)) as (H1 & H2 & _).
  split; [rewrite H1|rewrite H2]; vm_compute; reflexivity.
Defined.

Theorem rate_limit_enforced_witness :
  let W := run rate_handler [TcpStart sample_ip 1 (Ok tt); TcpStart sample_ip 2 (Ok tt); TcpStart sample_ip 3 (Ok tt)] in
  Z.of_nat (length (window sample_ip 0 (w_admitted W))) <= f_to_u 64 (f_of_Z 2).
Proof.
  apply (rate_limit_enforced rate_handler (f_of_Z 2)); [reflexivity|].
  unfold monotone. simpl. repeat constructor; discriminate.
Defined.
