(* ===== verification/Resilient.v ===== *)
(** * Resilient: retries, sessions and adaptive forwarding
    (src/src/proxy/resilient.rs)

    Session identifiers are numbers; the clock is an argument; one attempt to
    connect is its outcome. *)

From Stdlib Require Import Ascii String ZArith Lia SpecFloat.
From stdpp Require Import base gmap strings list.
From S2P Require Import Prelude Text F64 Errors.

Definition from_millis (ms : Z) : Z := ms * 10 ^ 6.
Definition as_millis (d : Z) : Z := d / 10 ^ 6.
Definition from_secs (s : Z) : Z := s * 10 ^ 9.

(** ** [ConnectionQuality] *)

Record ConnectionQuality := mkQuality {
  rtt_history : list Z;
  packet_loss : f64;
  bandwidth : option Z;
  last_active : Z;
  error_count : Z }.

Definition new_quality (now : Z) : ConnectionQuality := mkQuality [] (f_of_Z 0) None now 0.

Definition record_rtt (now rtt : Z) (q : ConnectionQuality) : ConnectionQuality :=
  let history := rtt_history q ++ [rtt] in
  let history := if (20 <? length history)%nat then tail history else history in
  mkQuality history (packet_loss q) (bandwidth q) now (error_count q).

Definition get_average_rtt (q : ConnectionQuality) : option Z :=
  match rtt_history q with
  | [] => None
  | h => Some (foldr Z.add 0 h / Z.of_nat (length h))
  end.

Definition with_errors (q : ConnectionQuality) (n : Z) : ConnectionQuality :=
  mkQuality (rtt_history q) (packet_loss q) (bandwidth q) (last_active q) n.
Definition record_error (q : ConnectionQuality) : ConnectionQuality :=
  with_errors q (wrap 32 (error_count q + 1)).
Definition reset_errors (q : ConnectionQuality) : ConnectionQuality := with_errors q 0.

Definition is_healthy (now : Z) (q : ConnectionQuality) : bool :=
  (error_count q <? 5) && (now - last_active q <? from_secs 30).

(** ** [SessionInfo] *)

Record SessionInfo := mkSessionInfo {
  si_id : nat;
  si_client_addr : string;
  si_target_addr : string;
  si_created_at : Z;
  si_last_updated : Z;
  si_pending_data : list (list byte) }.

Definition new_session (id : nat) (now : Z) (client_addr target_addr : string) : SessionInfo :=
  mkSessionInfo id client_addr target_addr now now [].

Definition with_pending (s : SessionInfo) (now : Z) (data : list (list byte)) : SessionInfo :=
  mkSessionInfo (si_id s) (si_client_addr s) (si_target_addr s) (si_created_at s) now data.
Definition add_pending_data (now : Z) (data : list byte) (s : SessionInfo) : SessionInfo :=
  with_pending s now (si_pending_data s ++ [data]).
Definition take_pending_data (now : Z) (s : SessionInfo) : list (list byte) * SessionInfo :=
  (si_pending_data s, with_pending s now []).
Definition is_expired (now timeout : Z) (s : SessionInfo) : bool := timeout <? now - si_last_updated s.

(** ** The connection manager *)

Record ReconnectConfig := mkReconnectConfig {
  max_retries : Z;
  initial_delay : Z;
  max_delay : Z;
  backoff_factor : f64;
  connect_timeout : Z }.

Definition default_config : ReconnectConfig :=
  mkReconnectConfig 5 (from_millis 100) (from_secs 10) (f_of_Z 2) (from_secs 10).

Record Manager := mkManager {
  sessions : gmap nat SessionInfo;
  quality : ConnectionQuality;
  reconnect_config : ReconnectConfig }.

Definition with_config (now : Z) (c : ReconnectConfig) : Manager := mkManager ∅ (new_quality now) c.

(** [Ok(Ok(stream))], [Ok(Err(e))] and [Err(_)] of the timed connect. *)
Inductive connect_outcome : Type := Connected (stream : nat) | ConnectFailed (e : IoError) | ConnectTimedOut.

Definition next_delay (c : ReconnectConfig) (delay : Z) : Z :=
  Z.min (from_millis (f_to_u 64 (f_mul (f_of_Z (as_millis delay)) (backoff_factor c)))) (max_delay c).

Section Connect.
Variable connect : Z -> connect_outcome.

(** The loop from [attempt] on: the stream, the quality monitor and the sleeps. *)
Fixpoint retry_loop (c : ReconnectConfig) (fuel : nat) (attempt delay : Z) (q : ConnectionQuality)
  : option nat * ConnectionQuality * list Z :=
  match fuel with
  | O => (None, q, [])
  | S fuel =>
      match connect attempt with
      | Connected stream => (Some stream, reset_errors q, [])
      | ConnectFailed _ | ConnectTimedOut =>
          let q := record_error q in
          if attempt <? max_retries c then
            let '(r, q, sleeps) := retry_loop c fuel (attempt + 1) (next_delay c delay) q in
            (r, q, delay :: sleeps)
          else retry_loop c fuel (attempt + 1) delay q
      end
  end.

(** [for attempt in 1..=max_retries] has [max_retries] rounds. *)
Definition connect_with_retry (c : ReconnectConfig) (q : ConnectionQuality)
  : Result nat * ConnectionQuality * list Z :=
  let '(r, q, sleeps) := retry_loop c (Z.to_nat (max_retries c)) 1 (initial_delay c) q in
  (match r with
   | Some s => Ok s
   | None => Err (Network (ConnectionFailed ("Failed to connect after " +:+ show_dec (max_retries c) +:+ " attempts")))
   end, q, sleeps).

Definition create_resilient_connection (id : nat) (now : Z) (client_addr target_addr : string) (m : Manager)
  : Result (nat * nat) * Manager :=
  let stored := <[id := new_session id now client_addr target_addr]> (sessions m) in
  let '(r, q, _) := connect_with_retry (reconnect_config m) (quality m) in
  (map_ok (fun s => (id, s)) r, mkManager stored q (reconnect_config m)).

Definition session_not_found {A} : Result A := Err (Network (ConnectionFailed "Session not found")).

Definition recover_connection (id : nat) (now : Z) (m : Manager)
  : Result (nat * list (list byte)) * Manager :=
  match sessions m !! id with
  | None => (session_not_found, m)
  | Some s =>
      let '(pending, s') := take_pending_data now s in
      let '(r, q, _) := connect_with_retry (reconnect_config m) (quality m) in
      (map_ok (fun stream => (stream, pending)) r,
       mkManager (<[id := s']> (sessions m)) q (reconnect_config m))
  end.
End Connect.

Definition cache_data (id : nat) (now : Z) (data : list byte) (m : Manager) : Result unit * Manager :=
  match sessions m !! id with
  | Some s => (Ok tt, mkManager (<[id := add_pending_data now data s]> (sessions m)) (quality m) (reconnect_config m))
  | None => (session_not_found, m)
  end.

Definition cleanup_expired_sessions (now : Z) (m : Manager) : Manager :=
  mkManager (filter (fun x => now - si_created_at x.2 <= from_secs 300) (sessions m))
    (quality m) (reconnect_config m).

Record QualityStats := mkQualityStats {
  average_rtt : option Z;
  qs_packet_loss : f64;
  qs_bandwidth : option Z;
  qs_error_count : Z;
  active_sessions : Z;
  qs_is_healthy : bool }.

Definition get_quality_stats (now : Z) (m : Manager) : QualityStats :=
  mkQualityStats (get_average_rtt (quality m)) (packet_loss (quality m)) (bandwidth (quality m))
    (error_count (quality m)) (Z.of_nat (size (sessions m))) (is_healthy now (quality m)).

(** The background task of [start_health_check], tick by tick; the statistics
    only go to the log. *)
Definition start_health_check (ticks : list Z) (m : Manager) : Manager :=
  foldl (fun m now => cleanup_expired_sessions now m) m ticks.

(** ** [AdaptiveForwarder] *)

Definition kb (n : Z) : Z := n * 1024.

Record AdaptiveForwarder := mkForwarder {
  af_quality : ConnectionQuality;
  af_buffer_size : Z;
  min_buffer_size : Z;
  max_buffer_size : Z }.

Definition new_forwarder (now : Z) : AdaptiveForwarder := mkForwarder (new_quality now) (kb 64) (kb 8) (kb 512).

Definition optimize_tcp_socket (nodelay : result unit IoError) : Result unit :=
  map_err (fun e => Proxy (ForwardingFailed ("Failed to set nodelay: " +:+ io_text e))) nodelay.

Definition adjust_buffer_size (q : ConnectionQuality) (min_size max_size current : Z) : Z :=
  match get_average_rtt q with
  | None => current
  | Some rtt =>
      if rtt <? from_millis 50 then Z.min (current * 2) max_size
      else if from_millis 200 <? rtt then Z.max (current / 2) min_size
      else current
  end.

(** One read of a direction's loop, with what the write after it does. *)
Inductive io_event : Type :=
| Got (data : list byte) (now elapsed : Z) (write_ok : bool)
| Eof
| ReadBroken.

(** A direction: the total it reports, what it writes, the monitor and the
    shared buffer size it leaves. *)
Fixpoint pump (q : ConnectionQuality) (size : Z) (events : list io_event)
  : Z * list byte * ConnectionQuality * Z :=
  match events with
  | [] | Eof :: _ => (0, [], q, size)
  | ReadBroken :: _ => (0, [], record_error q, size)
  | Got data now elapsed write_ok :: events =>
      if write_ok then
        let q := record_rtt now elapsed q in
        let size := adjust_buffer_size q (kb 8) (kb 512) size in
        let '(total, out, q, size) := pump q size events in
        (u64_add total (Z.of_nat (length data)), data ++ out, q, size)
      else (0, [], q, size)
  end.

(** What reaches each peer, and the two totals. *)
Record forwarding := mkForwarding { to_client : list byte; to_remote : list byte; totals : Z * Z }.

(** [client_to_remote] reads [client_read] and writes [client_write];
    [remote_to_client] reads [remote_read] and writes [remote_write].  Each
    direction starts from whatever monitor and buffer size it finds. *)
Definition forward_adaptive (nodelay : Result unit) (q1 q2 : ConnectionQuality) (size1 size2 : Z)
    (from_client from_remote : list io_event) : Result forwarding :=
  let? _ := nodelay in
  let '(bytes1, client_write, _, _) := pump q1 size1 from_client in
  let '(bytes2, remote_write, _, _) := pump q2 size2 from_remote in
  Ok (mkForwarding client_write remote_write (bytes1, bytes2)).

(** ** Lemmas *)

Definition connected (o : connect_outcome) : bool :=
  match o with Connected _ => true | _ => false end.

(** A run of the loop of [fuel] rounds from [attempt]. *)
Definition retry_ok (connect : Z -> connect_outcome) (c : ReconnectConfig) (attempt : Z) (n : nat)
    (r : option nat) (q : ConnectionQuality) (sleeps : list Z) : Prop :=
  match r with
  | Some s =>
      exists k, (k < n)%nat /\ connect (attempt + Z.of_nat k) = Connected s /\
        (forall j, attempt <= j < attempt + Z.of_nat k -> connected (connect j) = false) /\
        length sleeps = k /\ error_count q = 0
  | None =>
      (forall j, attempt <= j < attempt + Z.of_nat n -> connected (connect j) = false) /\
      length sleeps = (n - 1)%nat
  end.

Lemma retry_ok_cons connect c attempt n r q d sleeps :
  connected (connect attempt) = false -> (0 < n)%nat ->
  retry_ok connect c (attempt + 1) n r q sleeps -> retry_ok connect c attempt (S n) r q (d :: sleeps).
Proof.
  intros Hc Hn. unfold retry_ok. destruct r as [s|].
  - intros (k & Hk & Hs & Hj & Hlen & He). exists (S k). split; [lia|].
    split; [by replace (attempt + Z.of_nat (S k)) with (attempt + 1 + Z.of_nat k) by lia|].
    split; [|split; [simpl; lia|done]].
    intros j Hjr. destruct (decide (j = attempt)) as [->|]; [done|]. apply Hj. lia.
  - intros [Hj Hlen]. split; [|simpl; lia].
    intros j Hjr. destruct (decide (j = attempt)) as [->|]; [done|]. apply Hj. lia.
Qed.

Lemma retry_loop_fail connect c n attempt delay q :
  connected (connect attempt) = false ->
  retry_loop connect c (S n) attempt delay q =
  (if attempt <? max_retries c then
     let '(r, q, sleeps) := retry_loop connect c n (attempt + 1) (next_delay c delay) (record_error q) in
     (r, q, delay :: sleeps)
   else retry_loop connect c n (attempt + 1) delay (record_error q)).
Proof. simpl. by destruct (connect attempt). Qed.

Lemma retry_loop_spec connect c n attempt delay q r q' sleeps :
  attempt + Z.of_nat n = max_retries c + 1 ->
  retry_loop connect c n attempt delay q = (r, q', sleeps) ->
  retry_ok connect c attempt n r q' sleeps /\
  Forall (fun d => d <= Z.max delay (max_delay c)) sleeps.
Proof.
  revert attempt delay q r q' sleeps. induction n as [|n IH]; intros attempt delay q r q' sleeps Hn.
  - intros [= <- <- <-]. split; [split; [lia|done]|constructor].
  - destruct (connected (connect attempt)) eqn:Hc.
    { simpl. destruct (connect attempt) as [s| |] eqn:Hs; try done. intros [= <- <- <-].
      split; [|constructor]. exists 0%nat. rewrite Z.add_0_r. split_and!; try done; lia. }
    rewrite retry_loop_fail by done. destruct (Z.ltb_spec attempt (max_retries c)) as [Hlt|Hge].
    + destruct (retry_loop connect c n _ _ _) as [[r1 q1] sl] eqn:Hr. intros [= <- <- <-].
      destruct (IH (attempt + 1) _ _ _ _ _ ltac:(lia) Hr) as [Hok Hsl]. split.
      * apply retry_ok_cons; [done|lia|done].
      * constructor; [lia|]. eapply Forall_impl; [exact Hsl|]. intros d. unfold next_delay. lia.
    + destruct n as [|n]; [|lia]. intros [= <- <- <-]. split; [|constructor].
      split; [|done]. intros j Hj. by replace j with attempt by lia.
Qed.

(** ** Properties *)

(** C28. Connecting with retries makes at most [max_retries] attempts, returns
    the stream of the first one that succeeds after one pause per failure, and
    fails exactly when all of them fail; no pause is longer than the configured
    bound.  The default configuration pauses 100, 200, 400 and 800 ms. *)
Theorem retry_first_success connect c q r q' sleeps :
  0 <= max_retries c ->
  connect_with_retry connect c q = (r, q', sleeps) ->
  match r with
  | Ok s =>
      exists k, 1 <= k <= max_retries c /\ connect k = Connected s /\
        (forall j, 1 <= j < k -> connected (connect j) = false) /\
        Z.of_nat (length sleeps) = k - 1 /\ error_count q' = 0
  | Err _ =>
      (forall j, 1 <= j <= max_retries c -> connected (connect j) = false) /\
      Z.of_nat (length sleeps) = Z.max 0 (max_retries c - 1)
  end /\
  Forall (fun d => d <= Z.max (initial_delay c) (max_delay c)) sleeps.
Proof.
  intros Hm. unfold connect_with_retry.
  destruct (retry_loop _ _ _ _ _ _) as [[r1 q1] sl] eqn:Hr. intros [= <- <- <-].
  apply retry_loop_spec in Hr as [Hok Hsl]; [|lia]. split; [|done].
  unfold retry_ok in Hok. destruct r1 as [s|].
  - destruct Hok as (k & Hk & Hs & Hj & Hlen & He). exists (1 + Z.of_nat k).
    split; [lia|]. split; [done|]. split; [done|]. split; [lia|done].
  - destruct Hok as [Hj Hlen]. split; [|lia]. intros j Hjr. apply Hj. lia.
Qed.

(** Caching several pieces of data, in order. *)
Definition cache_all (id : nat) (now : Z) (ds : list (list byte)) (m : Manager) : Manager :=
  foldl (fun m d => snd (cache_data id now d m)) m ds.

Lemma cache_all_pending id now ds m s :
  sessions m !! id = Some s ->
  exists s', sessions (cache_all id now ds m) !! id = Some s' /\
    si_pending_data s' = si_pending_data s ++ ds /\
    reconnect_config (cache_all id now ds m) = reconnect_config m.
Proof.
  revert m s. induction ds as [|d ds IH]; intros m s Hs.
  - exists s. by rewrite app_nil_r.
  - set (m1 := mkManager (<[id:=add_pending_data now d s]> (sessions m)) (quality m) (reconnect_config m)).
    assert (cache_all id now (d :: ds) m = cache_all id now ds m1) as ->
      by (unfold cache_all; cbn [foldl]; f_equal; unfold cache_data; by rewrite Hs).
    destruct (IH m1 (add_pending_data now d s)) as (s' & H1 & H2 & H3); [apply lookup_insert_eq|].
    exists s'. split; [exact H1|]. split; [|exact H3]. rewrite H2. simpl. by rewrite <- (assoc_L (++)).
Qed.

(** Recovering a session hands over everything cached for it, oldest
    first, exactly once; but the cache is emptied before the reconnection, so
    when that fails the data is gone. *)
Theorem recovery_delivers_or_loses connect id now ds m s :
  sessions m !! id = Some s ->
  let m1 := cache_all id now ds m in
  let '(r, m2) := recover_connection connect id now m1 in
  (exists s', sessions m2 !! id = Some s' /\ si_pending_data s' = []) /\
  match r with
  | Ok (stream, pending) => pending = si_pending_data s ++ ds
  | Err _ =>
      forall r3 m3, recover_connection (fun _ => Connected 0) id now m2 = (r3, m3) ->
        forall stream pending, r3 = Ok (stream, pending) -> pending = []
  end.
Proof.
  intros Hs m1. destruct (cache_all_pending id now ds m s Hs) as (s1 & Hs1 & Hp & _). fold m1 in Hs1.
  unfold recover_connection at 1. rewrite Hs1. cbn [take_pending_data].
  destruct (connect_with_retry connect (reconnect_config m1) (quality m1)) as [[r q] sl].
  split; [eexists; split; [apply lookup_insert_eq|done]|].
  destruct r as [stream|e]; simpl; [done|]. intros r3 m3. unfold recover_connection.
  cbn [sessions]. rewrite lookup_insert_eq. cbn [take_pending_data].
  destruct (connect_with_retry _ _ _) as [[r q'] sl']. intros [= <- <-] stream pending.
  destruct r; simpl; [by intros [= _ <-]|done].
Qed.

Definition data_of (events : list io_event) : list byte :=
  concat (omap (fun e => match e with Got data _ _ _ => Some data | _ => None end) events).

Lemma pump_out q size events total out q' size' :
  pump q size events = (total, out, q', size') ->
  out `prefix_of` data_of events /\ total = wrap 64 (Z.of_nat (length out)) /\
  (kb 8 <= size <= kb 512 -> kb 8 <= size' <= kb 512).
Proof.
  revert q size total out q' size'.
  induction events as [|[data now elapsed ok| |] events IH]; intros q size total out q' size'; simpl;
    try (intros [= <- <- <- <-]; split; [apply prefix_nil|done]).
  destruct ok; [|intros [= <- <- <- <-]; split; [apply prefix_nil|done]].
  destruct (pump _ _ events) as [[[t o] q1] s1] eqn:Hp. intros [= <- <- <- <-].
  apply IH in Hp as (Hpre & Ht & Hsz). split; [|split].
  - unfold data_of. simpl. by apply prefix_app.
  - rewrite Ht, length_app. unfold u64_add. rewrite wrap_add_l. f_equal. lia.
  - intros Hs. apply Hsz. unfold adjust_buffer_size, kb in *.
    destruct (get_average_rtt _); [|done]. repeat case_if; Z.div_mod_to_equations; lia.
Qed.

(** The adaptive forwarder forwards nothing: whatever reaches the remote
    peer is a prefix of what that peer itself sent, whatever reaches the client
    is a prefix of the client's own data, and the totals count these echoes. *)
Theorem adaptive_forwarding_echoes nodelay q1 q2 size1 size2 from_client from_remote out :
  forward_adaptive nodelay q1 q2 size1 size2 from_client from_remote = Ok out ->
  to_remote out `prefix_of` data_of from_remote /\
  to_client out `prefix_of` data_of from_client /\
  totals out = (wrap 64 (Z.of_nat (length (to_client out))), wrap 64 (Z.of_nat (length (to_remote out)))).
Proof.
  unfold forward_adaptive. destruct nodelay; [|done].
  destruct (pump q1 size1 from_client) as [[[t1 o1] ?] ?] eqn:H1.
  destruct (pump q2 size2 from_remote) as [[[t2 o2] ?] ?] eqn:H2. intros [= <-]. simpl.
  apply pump_out in H1 as (? & -> & _). by apply pump_out in H2 as (? & -> & _).
Qed.

(** A session is dropped 300 seconds after its creation even while data is
    being cached for it: cleanup looks at the creation time, not at the last
    update that [is_expired] uses. *)
Theorem cleanup_ignores_activity id now data m s :
  sessions m !! id = Some s -> from_secs 300 < now - si_created_at s ->
  let m1 := snd (cache_data id now data m) in
  (exists s1, sessions m1 !! id = Some s1 /\ is_expired now (from_secs 300) s1 = false) /\
  sessions (cleanup_expired_sessions now m1) !! id = None.
Proof.
  intros Hs Ho m1. unfold m1, cache_data. rewrite Hs. simpl. split.
  - eexists. split; [apply lookup_insert_eq|]. unfold is_expired. simpl. by rewrite Z.sub_diag.
  - apply map_lookup_filter_None. right. intros s1. rewrite lookup_insert_eq. intros [= <-]. simpl. lia.
Qed.

(** ** Witnesses *)

Definition third_time (n : Z) : connect_outcome := if n =? 3 then Connected 7 else ConnectTimedOut.

Theorem retry_first_success_witness :
  connect_with_retry third_time default_config (new_quality 0) =
    (Ok 7%nat, new_quality 0, [from_millis 100; from_millis 200]) /\
  exists k, 1 <= k <= 5 /\ third_time k = Connected 7.
Proof.
  assert (connect_with_retry third_time default_config (new_quality 0) =
    (Ok 7%nat, new_quality 0, [from_millis 100; from_millis 200])) as H by (vm_compute; reflexivity).
  split; [exact H|].
  destruct (retry_first_success third_time default_config (new_quality 0) _ _ _ ltac:(simpl; lia) H)
    as [(k & Hk & Hs & _) _].
  exists k. split; [exact Hk|exact Hs].
Defined.

Definition sample_manager : Manager :=
  mkManager {[1%nat := new_session 1 0 "c" "t"]} (new_quality 0) default_config.

Theorem recovery_delivers_or_loses_witness :
  exists s', sessions (snd (recover_connection (fun _ => ConnectTimedOut) 1 5
                              (cache_all 1 5 [[z_byte 1]; [z_byte 2]] sample_manager))) !! 1%nat = Some s' /\
    si_pending_data s' = [].
Proof.
  pose proof (recovery_delivers_or_loses (fun _ => ConnectTimedOut) 1 5 [[z_byte 1]; [z_byte 2]]
    sample_manager (new_session 1 0 "c" "t") ltac:(apply lookup_singleton_eq)) as H.
  cbv zeta in H. destruct (recover_connection _ _ _ _) as [r m2]. exact (proj1 H).
Defined.

Theorem adaptive_forwarding_echoes_witness :
  exists out, forward_adaptive (Ok tt) (new_quality 0) (new_quality 0) (kb 64) (kb 64)
      [Got [z_byte 1; z_byte 2] 0 1 true; Eof] [Eof] = Ok out /\
    to_remote out `prefix_of` data_of [Eof].
Proof.
  eexists. split; [reflexivity|].
  eapply (adaptive_forwarding_echoes (Ok tt) (new_quality 0) (new_quality 0) (kb 64) (kb 64)
    [Got [z_byte 1; z_byte 2] 0 1 true; Eof] [Eof]). reflexivity.
Defined.

Theorem cleanup_ignores_activity_witness :
  sessions (cleanup_expired_sessions (from_secs 301)
    (snd (cache_data 1 (from_secs 301) [] sample_manager))) !! 1%nat = None.
Proof.
  apply (cleanup_ignores_activity 1 (from_secs 301) [] sample_manager (new_session 1 0 "c" "t"));
    [apply lookup_singleton_eq|reflexivity].
Defined.
