(* ===== verification/Splice.v ===== *)
(** * Splice: kernel-side forwarding through a pipe
    (src/src/proxy/zero_copy.rs, src/src/proxy/splice_optimizer.rs)

    One direction of [zero_copy_bidirectional] and the loops of
    [splice_blocking] and [splice_adaptive_blocking] move bytes from a socket
    into a pipe and from the pipe into the other socket.  A run is a list of the
    kernel's replies to the [splice] calls; which replies are possible in a
    state is [valid_reply], after splice(2). *)

From Stdlib Require Import Ascii String ZArith Lia.
From stdpp Require Import base strings list.
From S2P Require Import Prelude Text Errors.

(** The return value of one call: bytes moved, 0, or -1 with [errno]. *)
Inductive reply : Type := Moved (k : nat) | Zero | Failed (e : IoError).

(** Where the loop is: about to fill the pipe, draining [remaining] bytes of
    the last fill, or returned. *)
Inductive phase : Type :=
| Filling
| Draining (remaining : nat)
| Finished (res : Result Z).

Record state := mkState {
  source : list byte;  (** what the reading socket still has to give *)
  pipe : list byte;
  sink : list byte;    (** what the writing socket has taken *)
  total : Z;
  at_phase : phase }.

Definition start (data : list byte) : state := mkState data [] [] 0 Filling.

(** What the loop does on each kind of failure. *)
Record policy := mkPolicy {
  fill_retry : IoError -> bool;
  fill_error : IoError -> Z -> Result Z;
  drain_retry : IoError -> bool;
  drain_error : option (IoError -> Result Z) }.  (** [None]: leave the inner loop *)

Definition would_block (e : IoError) : bool := bool_decide (io_kind e = WouldBlock).
Definition would_block_or_interrupted (e : IoError) : bool :=
  would_block e || bool_decide (io_kind e = Interrupted).

(** [zero_copy_bidirectional]: retries on [WouldBlock], leaves the loop it is
    in on any other error, and always reports the bytes moved. *)
Definition zero_copy_policy : policy :=
  mkPolicy would_block (fun _ total => Ok total) would_block None.

(** [splice_blocking] and [splice_adaptive_blocking]: retry on [WouldBlock] and
    [Interrupted], return any other error. *)
Definition optimizer_policy (fill_msg drain_msg : string) : policy :=
  mkPolicy would_block_or_interrupted
    (fun e _ => Err (Proxy (ForwardingFailed (fill_msg +:+ io_text e))))
    would_block_or_interrupted
    (Some (fun e => Err (Proxy (ForwardingFailed (drain_msg +:+ io_text e))))).

Definition splice_blocking_policy : policy :=
  optimizer_policy "Splice reader→pipe failed: " "Splice pipe→writer failed: ".
Definition splice_adaptive_policy : policy := optimizer_policy "Splice failed: " "Splice failed: ".

(** [chunk_size] of [splice_adaptive] *)
Definition chunk_size (initial_sample_size : Z) : Z :=
  if initial_sample_size <? 64 * 1024 then 64 * 1024
  else if initial_sample_size <? 1024 * 1024 then 128 * 1024
  else 256 * 1024.

Definition at_ (s : state) (p : phase) : state := mkState (source s) (pipe s) (sink s) (total s) p.

(** One system call and the code that handles its reply. *)
Definition step (pol : policy) (s : state) (r : reply) : state :=
  match at_phase s with
  | Filling =>
      match r with
      | Moved k => mkState (drop k (source s)) (pipe s ++ take k (source s)) (sink s) (total s) (Draining k)
      | Zero => at_ s (Finished (Ok (total s)))
      | Failed e =>
          if fill_retry pol e then s else at_ s (Finished (fill_error pol e (total s)))
      end
  | Draining remaining =>
      match r with
      | Moved k =>
          mkState (source s) (drop k (pipe s)) (sink s ++ take k (pipe s)) (u64_add (total s) (Z.of_nat k))
            (if (k <? remaining)%nat then Draining (remaining - k) else Filling)
      | Zero => at_ s Filling
      | Failed e =>
          if drain_retry pol e then s
          else match drain_error pol with
               | Some err => at_ s (Finished (err e))
               | None => at_ s Filling
               end
      end
  | Finished _ => s
  end.

Definition run (pol : policy) (s : state) (rs : list reply) : state := foldl (step pol) s rs.

(** The replies splice(2) can give: a full pipe only blocks, 0 from the socket
    means its stream has ended, and no call moves more than it was asked, more
    than there is, or more than fits. *)
Definition valid_reply (cap chunk : nat) (s : state) (r : reply) : Prop :=
  match at_phase s with
  | Filling =>
      if (cap <=? length (pipe s))%nat then exists e, r = Failed e /\ io_kind e = WouldBlock
      else match r with
           | Moved k => (0 < k <= chunk)%nat /\ (k <= length (source s))%nat /\ (length (pipe s) + k <= cap)%nat
           | Zero => source s = []
           | Failed _ => True
           end
  | Draining remaining =>
      match r with
      | Moved k => (0 < k <= remaining)%nat /\ (k <= length (pipe s))%nat
      | Zero | Failed _ => True
      end
  | Finished _ => True
  end.

Fixpoint valid_run (pol : policy) (cap chunk : nat) (s : state) (rs : list reply) : Prop :=
  match rs with
  | [] => True
  | r :: rs => valid_reply cap chunk s r /\ valid_run pol cap chunk (step pol s r) rs
  end.

(** ** The entry points of splice_optimizer.rs *)

(** What awaiting a [JoinHandle] gives. *)
Inductive Joined (A : Type) : Type := Done (a : A) | JoinError (text : string).
Arguments Done {A} a.
Arguments JoinError {A} text.

(** A blocking loop: [pipe]'s answer, then the replies; its result, once it has
    one, and the bytes delivered.  Both ends of the pipe are closed on every
    way out. *)
Definition blocking_loop (pol : policy) (made : result unit IoError) (data : list byte) (rs : list reply)
  : option (Result Z) * list byte :=
  match made with
  | Err e => (Some (Err (Proxy (ForwardingFailed ("Pipe creation failed: " +:+ io_text e)))), [])
  | Ok _ =>
      let s := run pol (start data) rs in
      (match at_phase s with Finished r => Some r | _ => None end, sink s)
  end.

Definition splice_blocking := blocking_loop splice_blocking_policy.
Definition splice_adaptive_blocking := blocking_loop splice_adaptive_policy.

(** [spawn_blocking(..).await] around a loop. *)
Definition spliced (task : Joined (option (Result Z) * list byte)) : option (Result Z) * list byte :=
  match task with
  | JoinError text => (Some (Err (Proxy (ForwardingFailed ("Splice task failed: " +:+ text)))), [])
  | Done r => r
  end.

Definition splice_zero_copy (lost : option string) (made : result unit IoError) (data : list byte)
    (rs : list reply) : option (Result Z) * list byte :=
  spliced match lost with Some text => JoinError text | None => Done (splice_blocking made data rs) end.
(** The chunk size bounds what one reply may move ([valid_reply]). *)
Definition splice_adaptive (lost : option string) (made : result unit IoError) (data : list byte)
    (rs : list reply) : option (Result Z) * list byte :=
  spliced match lost with Some text => JoinError text | None => Done (splice_adaptive_blocking made data rs) end.

(** [fstat]'s mode, if the call succeeded: the file type is S_IFSOCK or S_IFIFO. *)
Definition supports_splice (st_mode : option Z) : bool :=
  match st_mode with
  | None => false
  | Some m => let ty := Z.land m (15 * 2 ^ 12) in (ty =? 12 * 2 ^ 12) || (ty =? 2 ^ 12)
  end.

(** ** Invariants *)

(** Nothing is lost, repeated or reordered, and the total is what was taken. *)
Definition fifo (data : list byte) (s : state) : Prop :=
  sink s ++ pipe s ++ source s = data /\ total s = wrap 64 (Z.of_nat (length (sink s))).

Lemma step_fifo pol cap chunk data s r :
  valid_reply cap chunk s r -> fifo data s -> fifo data (step pol s r).
Proof.
  intros Hv [Hd Ht]. unfold fifo, step, valid_reply in *.
  destruct (at_phase s) as [|n|res] eqn:Hp; [| |done].
  - destruct r as [k| |e]; simpl; [|done|by destruct (fill_retry pol e)].
    split; [|done]. rewrite <- Hd, <- (assoc_L (++)). do 2 f_equal. apply take_drop.
  - destruct r as [k| |e]; simpl; [|done|destruct (drain_retry pol e); [done|by destruct (drain_error pol)]].
    destruct Hv as [_ Hk]. split.
    + rewrite <- Hd, <- (assoc_L (++)). f_equal. by rewrite (assoc_L (++)), take_drop.
    + rewrite Ht, length_app, length_take. unfold u64_add. rewrite wrap_add_l. f_equal. lia.
Qed.

Lemma run_fifo pol cap chunk data s rs :
  valid_run pol cap chunk s rs -> fifo data s -> fifo data (run pol s rs).
Proof.
  revert s. induction rs as [|r rs IH]; intros s; [done|]. intros [Hr Hrs] Hf.
  apply IH; [done|]. by eapply step_fifo.
Qed.

(** A reply that makes a drain give up early. *)
Definition gives_up (pol : policy) (s : state) (r : reply) : Prop :=
  match at_phase s with
  | Draining _ => match r with Moved _ => False | Zero => True | Failed e => drain_retry pol e = false end
  | _ => False
  end.

Fixpoint clean_run (pol : policy) (s : state) (rs : list reply) : Prop :=
  match rs with
  | [] => True
  | r :: rs => ~ gives_up pol s r /\ clean_run pol (step pol s r) rs
  end.

(** The pipe holds what is left to drain, and an end by end of stream has an
    exhausted source. *)
Definition drained (s : state) : Prop :=
  match at_phase s with
  | Filling => pipe s = []
  | Draining n => length (pipe s) = n /\ (0 < n)%nat
  | Finished _ => pipe s = []
  end.

Lemma step_drained pol cap chunk s r :
  valid_reply cap chunk s r -> ~ gives_up pol s r -> drained s -> drained (step pol s r).
Proof.
  intros Hv Hg. unfold drained, step, valid_reply, gives_up in *.
  destruct (at_phase s) as [|n|res] eqn:Hp; [| |by rewrite Hp].
  - intros Hpipe. destruct r as [k| |e]; simpl; [|done|].
    + destruct (cap <=? length (pipe s))%nat; [by destruct Hv as (e & ? & _)|].
      rewrite Hpipe. simpl. rewrite length_take. destruct Hv as (Hk & Hs & _). lia.
    + destruct (fill_retry pol e); [by rewrite Hp|done].
  - intros [Hl Hn]. destruct r as [k| |e]; simpl.
    + destruct Hv as [Hk _]. destruct (Nat.ltb_spec k n).
      * rewrite length_drop. lia.
      * apply nil_length_inv. rewrite length_drop. lia.
    + by destruct Hg.
    + destruct (drain_retry pol e) eqn:He; [by rewrite Hp|by destruct Hg].
Qed.

Lemma run_drained pol cap chunk s rs :
  valid_run pol cap chunk s rs -> clean_run pol s rs -> drained s -> drained (run pol s rs).
Proof.
  revert s. induction rs as [|r rs IH]; intros s; [done|]. intros [Hr Hrs] [Hc Hcs] Hd.
  apply IH; [done|done|]. by eapply step_drained.
Qed.

(** A reply that ends the loop by an error of the socket it reads. *)
Definition read_fails (pol : policy) (s : state) (r : reply) : Prop :=
  match at_phase s, r with
  | Filling, Failed e => fill_retry pol e = false
  | _, _ => False
  end.

Fixpoint quiet_run (pol : policy) (s : state) (rs : list reply) : Prop :=
  match rs with
  | [] => True
  | r :: rs => ~ read_fails pol s r /\ quiet_run pol (step pol s r) rs
  end.

(** A loop that has returned has seen the end of its source. *)
Definition exhausted (s : state) : Prop :=
  match at_phase s with
  | Finished r => source s = [] /\ r = Ok (total s)
  | _ => True
  end.

Lemma step_exhausted pol cap chunk s r :
  (0 < cap)%nat -> valid_reply cap chunk s r -> ~ gives_up pol s r -> ~ read_fails pol s r ->
  drained s -> exhausted s -> exhausted (step pol s r).
Proof.
  intros Hcap Hv Hg Hf Hd He. unfold exhausted, drained, step, valid_reply, gives_up, read_fails in *.
  destruct (at_phase s) as [|n|res] eqn:Hp.
  - rewrite Hd in Hv. destruct (Nat.leb_spec cap (length (@nil byte))); [simpl in *; lia|].
    destruct r as [k| |e]; simpl; [done|by split|]. destruct (fill_retry pol e); [by rewrite Hp|done].
  - destruct r as [k| |e]; simpl; [by case_if|done|].
    destruct (drain_retry pol e); [by rewrite Hp|done].
  - by rewrite Hp.
Qed.

Lemma run_exhausted pol cap chunk s rs :
  (0 < cap)%nat -> valid_run pol cap chunk s rs -> clean_run pol s rs -> quiet_run pol s rs ->
  drained s -> exhausted s -> drained (run pol s rs) /\ exhausted (run pol s rs).
Proof.
  intros Hcap. revert s. induction rs as [|r rs IH]; intros s; [done|].
  intros [Hr Hrs] [Hc Hcs] [Hq Hqs] Hd He.
  apply IH; [done..| |]; [by eapply step_drained|by eapply step_exhausted].
Qed.

(** A run that returned without any error on the way delivered everything. *)
Lemma run_delivers_all pol cap chunk data rs r :
  (0 < cap)%nat -> valid_run pol cap chunk (start data) rs -> clean_run pol (start data) rs ->
  quiet_run pol (start data) rs -> at_phase (run pol (start data) rs) = Finished r ->
  sink (run pol (start data) rs) = data /\ (in_u 64 (Z.of_nat (length data)) -> r = Ok (Z.of_nat (length data))).
Proof.
  intros Hcap Hv Hc Hq Hr.
  destruct (run_fifo pol cap chunk data (start data) rs Hv) as [Hd Ht]; [by split|].
  destruct (run_exhausted pol cap chunk (start data) rs Hcap Hv Hc Hq eq_refl I) as [Hdr He].
  unfold drained, exhausted in *. rewrite Hr in Hdr, He. destruct He as [Hs ->].
  rewrite Hdr, Hs, !app_nil_r in Hd. split; [done|]. intros Hu. by rewrite Ht, Hd, wrap_small.
Qed.

(** Replies that are not errors, and how many of them a loop can still take:
    every byte is moved twice, and the end of the stream is seen once. *)
Definition is_answer (r : reply) : bool := match r with Failed _ => false | _ => true end.
Definition answered (rs : list reply) : nat := length (filter is_answer rs).

Definition work_left (s : state) : nat :=
  match at_phase s with
  | Filling => 2 * length (source s) + 1
  | Draining n => 2 * length (source s) + n + 1
  | Finished _ => 0
  end.

Lemma step_work pol cap chunk s r :
  valid_reply cap chunk s r -> ~ gives_up pol s r -> ~ read_fails pol s r ->
  (work_left (step pol s r) + answered [r] <= work_left s \/ work_left (step pol s r) = 0)%nat.
Proof.
  intros Hv Hg Hf. unfold work_left, valid_reply, gives_up, read_fails, step, answered in *.
  destruct (at_phase s) as [|n|res] eqn:Hp; [| |rewrite Hp; by right].
  - destruct (cap <=? length (pipe s))%nat; [destruct Hv as (e & -> & He)|]; [|destruct r as [k| |e]].
    + destruct (fill_retry pol e); simpl; [rewrite Hp; left; lia|by right].
    + left. simpl. rewrite length_drop. lia.
    + by right.
    + destruct (fill_retry pol e); simpl; [rewrite Hp; left; lia|by right].
  - destruct r as [k| |e]; simpl.
    + left. destruct (Nat.ltb_spec k n); lia.
    + by destruct Hg.
    + destruct (drain_retry pol e); [rewrite Hp; left; lia|by destruct Hg].
Qed.

Lemma run_work pol cap chunk s rs :
  valid_run pol cap chunk s rs -> clean_run pol s rs -> quiet_run pol s rs ->
  (work_left (run pol s rs) + answered rs <= work_left s \/ work_left (run pol s rs) = 0)%nat.
Proof.
  revert s. induction rs as [|r rs IH]; intros s; [intros; left; simpl; unfold answered; simpl; lia|].
  intros [Hr Hrs] [Hc Hcs] [Hq Hqs].
  pose proof (step_work pol cap chunk s r Hr Hc Hq) as H1.
  assert (answered (r :: rs) = answered [r] + answered rs)%nat as ->.
  { change (r :: rs) with ([r] ++ rs). unfold answered. by rewrite filter_app, length_app. }
  destruct (IH _ Hrs Hcs Hqs) as [H2|H2]; [|by right].
  change (run pol s (r :: rs)) with (run pol (step pol s r) rs). lia.
Qed.

(** A run without errors returns, and has delivered everything. *)
Lemma run_returns pol cap chunk data rs :
  (0 < cap)%nat -> valid_run pol cap chunk (start data) rs -> clean_run pol (start data) rs ->
  quiet_run pol (start data) rs -> (2 * length data < answered rs)%nat ->
  exists r, at_phase (run pol (start data) rs) = Finished r /\ sink (run pol (start data) rs) = data /\
    (in_u 64 (Z.of_nat (length data)) -> r = Ok (Z.of_nat (length data))).
Proof.
  intros Hcap Hv Hc Hq Hn. destruct (at_phase (run pol (start data) rs)) as [|n|r] eqn:Hp.
  3: { exists r. split; [done|]. by eapply run_delivers_all. }
  all: exfalso; destruct (run_work pol cap chunk (start data) rs Hv Hc Hq) as [H|H];
    unfold work_left in H; rewrite Hp in H; simpl in H; lia.
Qed.

(** A full pipe in front of the filling call: nothing the kernel can reply
    changes anything. *)
Lemma full_pipe_stuck cap chunk s rs :
  at_phase s = Filling -> (cap <= length (pipe s))%nat ->
  valid_run zero_copy_policy cap chunk s rs -> run zero_copy_policy s rs = s.
Proof.
  intros Hp Hc. induction rs as [|r rs IH]; [done|]. intros [Hr Hrs].
  assert (step zero_copy_policy s r = s) as Hs.
  { unfold valid_reply, step in *. rewrite Hp in *.
    destruct (Nat.leb_spec cap (length (pipe s))); [|lia].
    destruct Hr as (e & -> & He). simpl. unfold would_block. by rewrite bool_decide_eq_true_2. }
  unfold run. simpl. rewrite Hs in *. by apply IH.
Qed.

(** ** Properties *)

(** Whatever the kernel replies and whichever of the loops runs, the bytes
    delivered are a prefix of the bytes read, in order and without gaps, the
    rest is in the pipe or not yet read, and the total is the number of bytes
    delivered. *)
Theorem splice_delivers_prefix pol cap chunk data rs :
  valid_run pol cap chunk (start data) rs ->
  let s := run pol (start data) rs in
  sink s ++ pipe s ++ source s = data /\ sink s `prefix_of` data /\
  total s = wrap 64 (Z.of_nat (length (sink s))).
Proof.
  intros Hv s. destruct (run_fifo pol cap chunk data (start data) rs Hv) as [Hd Ht]; [by split|].
  split; [done|]. split; [|done]. exists (pipe s ++ source s). by rewrite <- Hd.
Qed.

(** A loop that ends at the end of the stream, with no drain given up on
    the way, has delivered everything and reports the exact count. *)
Theorem splice_complete pol cap chunk data rs r :
  valid_run pol cap chunk (start data) (rs ++ [Zero]) ->
  clean_run pol (start data) (rs ++ [Zero]) ->
  at_phase (run pol (start data) rs) = Filling ->
  at_phase (run pol (start data) (rs ++ [Zero])) = Finished r ->
  sink (run pol (start data) (rs ++ [Zero])) = data /\
  (in_u 64 (Z.of_nat (length data)) -> r = Ok (Z.of_nat (length data))).
Proof.
  intros Hv Hc Hf Hr.
  destruct (run_fifo pol cap chunk data (start data) _ Hv) as [Hd Ht]; [by split|].
  pose proof (run_drained pol cap chunk (start data) _ Hv Hc eq_refl) as Hdr.
  assert (source (run pol (start data) rs) = [] \/ (cap <= length (pipe (run pol (start data) rs)))%nat) as Hsrc.
  { clear -Hv Hf. revert Hv Hf. generalize (start data). induction rs as [|x rs IH]; intros s.
    - intros [Hz _]. unfold run. simpl. intros Hf. unfold valid_reply in Hz. rewrite Hf in Hz.
      destruct (Nat.leb_spec cap (length (pipe s))); [by right|by left].
    - intros [_ Hrest] Hf. by apply IH. }
  unfold run in *. rewrite foldl_app in *. cbn [foldl] in *. set (s := foldl (step pol) (start data) rs) in *.
  unfold step in Hr, Hd, Ht, Hdr |- *. rewrite Hf in Hr, Hd, Ht, Hdr |- *. simpl in *.
  injection Hr as <-. rewrite Hdr in Hd, Hsrc. simpl in Hd.
  assert (source s = []) as Hs0.
  { destruct Hsrc as [|Hcap]; [done|]. simpl in Hcap. exfalso. clear -Hv Hf Hcap.
    assert (cap = 0%nat) as -> by lia. revert Hv Hf. unfold s. generalize (start data).
    induction rs as [|x rs IH]; intros s'.
    - intros [Hz _] Hf. simpl in Hf. unfold valid_reply in Hz. rewrite Hf in Hz. simpl in Hz.
      by destruct Hz as (e & ? & _).
    - intros [_ Hrest] Hf. by apply (IH (step pol s' x)). }
  rewrite Hs0, app_nil_r in Hd. split; [done|]. intros Hu. rewrite Ht, Hd. by rewrite wrap_small.
Qed.

(** The entry points return what the stream held: a loop whose calls do not fail
    returns after at most two answers per byte and one for the end of the
    stream, and has then delivered everything and counted it. *)
Theorem splice_zero_copy_complete cap chunk data rs :
  (0 < cap)%nat -> in_u 64 (Z.of_nat (length data)) ->
  valid_run splice_blocking_policy cap chunk (start data) rs ->
  clean_run splice_blocking_policy (start data) rs -> quiet_run splice_blocking_policy (start data) rs ->
  (2 * length data < answered rs)%nat ->
  splice_zero_copy None (Ok tt) data rs = (Some (Ok (Z.of_nat (length data))), data).
Proof.
  intros Hcap Hu Hv Hc Hq Hn. destruct (run_returns _ cap chunk data rs Hcap Hv Hc Hq Hn) as (r & Hp & Hs & Hr).
  unfold splice_zero_copy, spliced, splice_blocking, blocking_loop. by rewrite Hp, Hs, (Hr Hu).
Qed.

(** A regular file is not taken for one that splice supports, although the
    comment on [supports_splice] lists it. *)
Theorem supports_splice_not_files permissions :
  0 <= permissions < 2 ^ 12 ->
  supports_splice (Some (12 * 2 ^ 12 + permissions)) = true /\
  supports_splice (Some (2 ^ 12 + permissions)) = true /\
  supports_splice (Some (8 * 2 ^ 12 + permissions)) = false.
Proof.
  intros H. assert (forallb (fun p => supports_splice (Some (12 * 2 ^ 12 + p)) && supports_splice (Some (2 ^ 12 + p))
    && negb (supports_splice (Some (8 * 2 ^ 12 + p)))) (seqZ 0 (2 ^ 12)) = true) as Hall by (vm_compute; reflexivity).
  rewrite forallb_forall in Hall. specialize (Hall permissions).
  rewrite !andb_true_iff, negb_true_iff in Hall. destruct Hall as [[? ?] ?]; [|done].
  apply list_elem_of_In, elem_of_seqZ. lia.
Qed.

(** ** A writer that has gone away *)

Definition peer_gone : IoError := mkIoError BrokenPipe "Broken pipe".

(** One byte into the pipe, then the write that fails. *)
Definition failing_rounds (n : nat) : list reply := concat (replicate n [Moved 1; Failed peer_gone]).

Lemma failing_rounds_spec cap chunk data n s :
  (0 < chunk)%nat -> at_phase s = Filling -> (length (pipe s) + n <= cap)%nat -> (n <= length (source s))%nat ->
  sink s ++ pipe s ++ source s = data ->
  valid_run zero_copy_policy cap chunk s (failing_rounds n) /\
  (let s' := run zero_copy_policy s (failing_rounds n) in
   at_phase s' = Filling /\ length (pipe s') = (length (pipe s) + n)%nat /\ sink s' = sink s).
Proof.
  intros Hch. revert s. induction n as [|n IH]; intros s Hp Hl Hn Hd.
  - simpl. split; [done|]. split; [done|]. split; [lia|done].
  - destruct (source s) as [|b bs] eqn:Hsrc; [simpl in Hn; lia|].
    set (s1 := mkState bs (pipe s ++ [b]) (sink s) (total s) Filling).
    assert (step zero_copy_policy (step zero_copy_policy s (Moved 1)) (Failed peer_gone) = s1) as Hs1.
    { unfold step at 2. rewrite Hp, Hsrc. simpl. unfold s1. by rewrite take_0, drop_0. }
    assert (length (pipe s1) = length (pipe s) + 1)%nat as Hl1 by (simpl; rewrite length_app; done).
    destruct (IH s1) as (Hv & H1 & H2 & H3); [done|lia|simpl in *; lia| |].
    { simpl. rewrite <- Hd. by rewrite <- (assoc_L (++)). }
    unfold failing_rounds. cbn [replicate concat]. fold (failing_rounds n).
    change (valid_run zero_copy_policy cap chunk s ([Moved 1; Failed peer_gone] ++ failing_rounds n))
      with (valid_reply cap chunk s (Moved 1) /\
            valid_reply cap chunk (step zero_copy_policy s (Moved 1)) (Failed peer_gone) /\
            valid_run zero_copy_policy cap chunk
              (step zero_copy_policy (step zero_copy_policy s (Moved 1)) (Failed peer_gone)) (failing_rounds n)).
    rewrite Hs1. split; [split; [|split; [|done]]|].
    + unfold valid_reply. rewrite Hp, Hsrc. destruct (Nat.leb_spec cap (length (pipe s))); [lia|]. simpl. lia.
    + unfold valid_reply, step. rewrite Hp. done.
    + cbv zeta. unfold run in *. cbn [foldl app]. rewrite Hs1. split; [done|]. split; [lia|done].
Qed.

(** C32. When the receiving peer goes away, the forwarding thread of
    [zero_copy_bidirectional] can be left running for ever: a failed write only
    leaves the inner loop, so input piles up in the pipe, and once the pipe is
    full every further call just asks to try again; no sequence of kernel
    replies ever gets the thread out. *)
Theorem splice_livelock cap chunk data :
  (0 < chunk)%nat -> (cap <= length data)%nat ->
  exists rs,
    valid_run zero_copy_policy cap chunk (start data) rs /\
    Forall (fun r => match r with Failed e => io_kind e = BrokenPipe | _ => True end) rs /\
    sink (run zero_copy_policy (start data) rs) = [] /\
    forall more, valid_run zero_copy_policy cap chunk (run zero_copy_policy (start data) rs) more ->
      at_phase (run zero_copy_policy (run zero_copy_policy (start data) rs) more) = Filling.
Proof.
  intros Hch Hcap. exists (failing_rounds cap).
  destruct (failing_rounds_spec cap chunk data cap (start data)) as (Hv & Hp & Hl & Hs); [done..| |].
  { done. }
  split; [done|]. split.
  { unfold failing_rounds. clear. induction cap as [|n IH]; simpl; [constructor|]. by repeat constructor. }
  split; [done|]. intros more Hm. rewrite (full_pipe_stuck cap chunk); [done|done| |done].
  rewrite Hl. simpl. lia.
Qed.

(** ** Witnesses *)

Definition sample_data : list byte := map z_byte [1; 2; 3].
Definition sample_replies : list reply :=
  [Failed (mkIoError WouldBlock "again"); Moved 2; Moved 1; Moved 1; Moved 1; Moved 1].

Lemma sample_valid pol : fill_retry pol (mkIoError WouldBlock "again") = true ->
  valid_run pol 16 8 (start sample_data) (sample_replies ++ [Zero]) /\
  clean_run pol (start sample_data) (sample_replies ++ [Zero]).
Proof.
  intros H. unfold sample_replies. cbn [app valid_run clean_run].
  assert (step pol (start sample_data) (Failed (mkIoError WouldBlock "again")) = start sample_data) as ->
    by (unfold step; simpl; by rewrite H).
  vm_compute. intuition lia.
Qed.

Theorem splice_delivers_prefix_witness :
  sink (run splice_blocking_policy (start sample_data) (sample_replies ++ [Zero])) `prefix_of` sample_data.
Proof.
  apply (splice_delivers_prefix splice_blocking_policy 16 8 sample_data (sample_replies ++ [Zero])).
  exact (proj1 (sample_valid splice_blocking_policy eq_refl)).
Defined.

Theorem splice_complete_witness :
  sink (run zero_copy_policy (start sample_data) (sample_replies ++ [Zero])) = sample_data.
Proof.
  destruct (sample_valid zero_copy_policy eq_refl) as [Hv Hc].
  exact (proj1 (splice_complete zero_copy_policy 16 8 sample_data sample_replies (Ok 3) Hv Hc eq_refl eq_refl)).
Defined.

Theorem splice_livelock_witness :
  exists rs,
    valid_run zero_copy_policy 2 8 (start sample_data) rs /\
    sink (run zero_copy_policy (start sample_data) rs) = [].
Proof.
  destruct (splice_livelock 2 8 sample_data) as (rs & H1 & _ & H2 & _); [lia|simpl; lia|].
  exists rs. split; [exact H1|exact H2].
Defined.

Theorem splice_zero_copy_complete_witness :
  splice_zero_copy None (Ok tt) sample_data (sample_replies ++ [Zero; Zero]) = (Some (Ok 3), sample_data).
Proof.
  apply (splice_zero_copy_complete 16 8 sample_data (sample_replies ++ [Zero; Zero]));
    [lia|unfold in_u; simpl; lia| | | |vm_compute; lia]; vm_compute; intuition (try lia; try discriminate).
Defined.

Theorem supports_splice_not_files_witness : supports_splice (Some (8 * 2 ^ 12 + 420)) = false.
Proof. apply (supports_splice_not_files 420). lia. Defined.
