(* ===== verification/Copy.v ===== *)
(** * Copy: the user-space copy loops
    (src/src/proxy/adaptive_copy.rs, zero_copy.rs, adaptive_stream.rs,
    high_perf.rs)

    A reader is the list of the outcomes of its [read] calls; a sink records
    what was written, how much of it a [flush] has covered, how many bytes it
    still takes and how many flushes still succeed. *)

From Stdlib Require Import Ascii String ZArith Lia.
From stdpp Require Import base strings list.
From S2P Require Import Prelude Text Errors.

(** ** Readers and sinks *)

(** [Ok(n)] with its bytes, [Ok(0)], or an error. *)
Inductive read_event : Type := Got (data : list byte) | Eof | ReadErr (e : IoError).

Record sink := mkSink { sk_out : list byte; sk_flushed : nat; sk_room : option nat; sk_flushes : option nat }.

Definition open_sink : sink := mkSink [] 0 None None.
Definition broken : IoError := mkIoError BrokenPipe "Broken pipe".

Definition write_all (bs : list byte) (s : sink) : result unit IoError * sink :=
  match sk_room s with
  | None => (Ok tt, mkSink (sk_out s ++ bs) (sk_flushed s) None (sk_flushes s))
  | Some room =>
      if (length bs <=? room)%nat
      then (Ok tt, mkSink (sk_out s ++ bs) (sk_flushed s) (Some (room - length bs)%nat) (sk_flushes s))
      else (Err broken, mkSink (sk_out s ++ take room bs) (sk_flushed s) (Some 0%nat) (sk_flushes s))
  end.
Definition flush (s : sink) : result unit IoError * sink :=
  let done_ rest := (Ok tt, mkSink (sk_out s) (length (sk_out s)) (sk_room s) rest) in
  match sk_flushes s with
  | None => done_ None
  | Some (S n) => done_ (Some n)
  | Some O => (Err broken, s)
  end.

(** [writer.flush().await?] before [k]. *)
Definition flush_then {A} (k : sink -> option (Result A) * sink) (s : sink) : option (Result A) * sink :=
  match flush s with
  | (Ok _, s) => k s
  | (Err e, s) => (Some (Err (Io e)), s)
  end.

(** A sink that never refuses. *)
Definition accepting (s : sink) : Prop := sk_room s = None /\ sk_flushes s = None.
Definition after_flush (s : sink) : sink := mkSink (sk_out s) (length (sk_out s)) (sk_room s) (sk_flushes s).

Lemma flush_then_accepting {A} (k : sink -> option (Result A) * sink) s : accepting s -> flush_then k s = k (after_flush s).
Proof. intros [_ Hf]. unfold flush_then, flush, after_flush. by rewrite Hf. Qed.

(** ** The loop the bulk copies share

    [should_flush total last_flush n] is the flushing policy after a read of [n]
    bytes, [label] the prefix of the error.  [None]: the loop is waiting for
    its next read. *)
Fixpoint copy_loop (should_flush : Z -> Z -> Z -> bool) (label : string)
    (events : list read_event) (total last_flush : Z) (s : sink) : option (Result Z) * sink :=
  match events with
  | [] => (None, s)
  | Eof :: _ => if last_flush <? total then flush_then (fun s => (Some (Ok total), s)) s else (Some (Ok total), s)
  | Got data :: events =>
      match write_all data s with
      | (Err e, s) => (Some (Err (Io e)), s)
      | (Ok _, s) =>
          let n := Z.of_nat (length data) in
          let total := u64_add total n in
          if should_flush total last_flush n
          then flush_then (copy_loop should_flush label events total total) s
          else copy_loop should_flush label events total last_flush s
      end
  | ReadErr e :: events =>
      if bool_decide (io_kind e = WouldBlock)
      then copy_loop should_flush label events total last_flush s
      else (Some (Err (Proxy (ForwardingFailed (label +:+ io_text e)))), s)
  end.

Definition kib (n : Z) : Z := n * 1024.
Definition mib (n : Z) : Z := n * 1024 * 1024.

(** Flush after a full interval or a short read. *)
Definition bulk_policy (flush_interval buffer_size total last_flush n : Z) : bool :=
  (flush_interval <=? total - last_flush) || (n <? buffer_size).

(** [cfg(target_os)]: the system the program is compiled for. *)
Inductive target_os : Type := Linux | MacOs | Windows | OtherOs.

Definition format_size (bytes : Z) : string :=
  if mib 1 <=? bytes then show_dec (bytes / mib 1) +:+ "MB"
  else if kib 1 <=? bytes then show_dec (bytes / kib 1) +:+ "KB"
  else show_dec bytes +:+ "B".

(** The copy of it in splice_optimizer.rs, which only its test calls. *)
Definition splice_format_size (bytes : Z) : string :=
  if 1024 * 1024 <=? bytes then show_dec (bytes / (1024 * 1024)) +:+ "MB"
  else if 1024 <=? bytes then show_dec (bytes / 1024) +:+ "KB"
  else show_dec bytes +:+ "B".

(** adaptive_copy.rs *)
Module AdaptiveCopy.
Definition SMALL_FILE_THRESHOLD : Z := kib 256.

Definition optimal_buffer_size (os : target_os) (data_size : Z) : Z :=
  if data_size <? SMALL_FILE_THRESHOLD then kib 8
  else match os with
       | Linux | OtherOs => kib 128
       | MacOs | Windows => kib 256
       end.

Definition bulk_copy_optimized (events : list read_event) (buffer_size : Z) (s : sink)
  : option (Result Z) * sink :=
  let flush_interval := if kib 256 <=? buffer_size then mib 4 else mib 2 in
  copy_loop (bulk_policy flush_interval buffer_size) "Copy error: " events 0 0 s.

(** [tokio::io::copy] is a parameter. *)
Definition adaptive_copy (os : target_os)
    (io_copy : list read_event -> sink -> option (result Z IoError) * sink) (events : list read_event) (estimated_size : Z) (s : sink) : option (Result Z) * sink :=
  let buffer_size := optimal_buffer_size os estimated_size in
  if buffer_size =? kib 8 then
    match io_copy events s with
    | (Some (Ok n), s) => flush_then (fun s => (Some (Ok n), s)) s
    | (Some (Err e), s) => (Some (Err (Io e)), s)
    | (None, s) => (None, s)
    end
  else bulk_copy_optimized events buffer_size s.
End AdaptiveCopy.

(** zero_copy.rs *)
Module ZeroCopy.
Definition bulk_copy_optimized (events : list read_event) (buffer_size : Z) (s : sink)
  : option (Result Z) * sink :=
  copy_loop (bulk_policy (mib 2) buffer_size) "Bulk copy error: " events 0 0 s.

Definition bulk_copy (events : list read_event) (s : sink) : option (Result Z) * sink :=
  bulk_copy_optimized events (kib 128) s.

(** What a copying task gives: an error is reported as no bytes. *)
Definition task_bytes (copied : option (Result Z)) : option Z :=
  match copied with
  | None => None
  | Some (Ok bytes) => Some bytes
  | Some (Err _) => Some 0
  end.

(** Two tasks that copy with 256 KB buffers until both have ended; nothing
    runs when a socket option cannot be set. *)
Definition bulk_copy_bidirectional (client_nodelay server_nodelay : result unit IoError)
    (from_client from_server : list read_event) (to_client to_server : sink)
  : option (Result (Z * Z)) * sink * sink :=
  match client_nodelay, server_nodelay with
  | Err e, _ | Ok _, Err e => (Some (Err (Io e)), to_client, to_server)
  | Ok _, Ok _ =>
      let '(c2s, to_server) := bulk_copy_optimized from_client (kib 256) to_server in
      let '(s2c, to_client) := bulk_copy_optimized from_server (kib 256) to_client in
      (match task_bytes c2s, task_bytes s2c with
       | Some bytes1, Some bytes2 => Some (Ok (bytes1, bytes2))
       | _, _ => None
       end, to_client, to_server)
  end.

(** The three [zero_copy_bidirectional] outside Linux. *)
Definition macos_bidirectional := bulk_copy_bidirectional.
Definition windows_bidirectional := bulk_copy_bidirectional.
Definition other_bidirectional := bulk_copy_bidirectional.
End ZeroCopy.

(** ** adaptive_stream.rs *)

Definition INITIAL_SAMPLE_SIZE : Z := kib 32.
Definition MIN_BUFFER_SIZE : Z := kib 8.

(** The sample, whether the stream ended in it, and the reads that remain. *)
Fixpoint read_initial_sample (events : list read_event) (total_read : list byte)
  : option (Result (list byte * bool)) * list read_event :=
  match events with
  | [] => (None, [])
  | Eof :: events => (Some (Ok (total_read, true)), events)
  | Got data :: events =>
      let total_read := total_read ++ data in
      if INITIAL_SAMPLE_SIZE <=? Z.of_nat (length total_read)
      then (Some (Ok (total_read, false)), events)
      else read_initial_sample events total_read
  | ReadErr e :: events =>
      if bool_decide (io_kind e = WouldBlock) then read_initial_sample events total_read
      else (Some (Err (Proxy (ForwardingFailed ("Read error: " +:+ io_text e)))), events)
  end.

Inductive TransferStrategy : Type :=
| SmallPacket (buffer_size : Z)
| BurstTraffic (buffer_size flush_interval : Z)
| ContinuousStream (buffer_size flush_interval : Z).

Definition analyze_traffic_pattern (os : target_os) (sample_size : Z) (is_eos : bool) : TransferStrategy :=
  if is_eos then SmallPacket MIN_BUFFER_SIZE
  else if sample_size <? kib 16 then SmallPacket (kib 16)
  else if sample_size <? kib 64 then
    match os with
    | Linux => BurstTraffic (kib 64) (kib 128)
    | MacOs | Windows | OtherOs => BurstTraffic (kib 128) (kib 256)
    end
  else
    match os with
    | Linux => ContinuousStream (kib 128) (mib 4)
    | MacOs | Windows | OtherOs => ContinuousStream (kib 256) (mib 4)
    end.

Definition execute_adaptive_transfer (strategy : TransferStrategy) (events : list read_event)
    (total : Z) (s : sink) : option (Result Z) * sink :=
  let '(buffer_size, flush_interval, should_flush_frequently) :=
    match strategy with
    | SmallPacket b => (b, b, true)
    | BurstTraffic b f => (b, f, true)
    | ContinuousStream b f => (b, f, false)
    end in
  copy_loop (fun total last_flush n =>
               if (should_flush_frequently : bool) then bulk_policy flush_interval buffer_size total last_flush n
               else flush_interval <=? total - last_flush)
    "Transfer error: " events total total s.

Definition sample_size (sample : list byte) : Z := Z.of_nat (length sample).

Definition adaptive_stream_copy (os : target_os) (events : list read_event) (s : sink) : option (Result Z) * sink :=
  match read_initial_sample events [] with
  | (None, _) => (None, s)
  | (Some (Err e), _) => (Some (Err e), s)
  | (Some (Ok (sample, is_eos)), events) =>
      match write_all sample s with
      | (Err e, s) => (Some (Err (Io e)), s)
      | (Ok _, s) =>
          if is_eos then flush_then (fun s => (Some (Ok (sample_size sample)), s)) s
          else execute_adaptive_transfer (analyze_traffic_pattern os (sample_size sample) is_eos) events
                 (sample_size sample) s
      end
  end.

(** [adaptive_tcp_stream_copy]; [splice] is what [splice_adaptive] would do with
    the rest of the stream. *)
Definition adaptive_tcp_stream_copy (splice : list read_event -> sink -> option (Result Z) * sink)
    (events : list read_event) (s : sink) : option (Result Z) * sink :=
  match read_initial_sample events [] with
  | (None, _) => (None, s)
  | (Some (Err e), _) => (Some (Err e), s)
  | (Some (Ok (sample, is_eos)), events) =>
      match write_all sample s with
      | (Err e, s) => (Some (Err (Io e)), s)
      | (Ok _, s) =>
          flush_then (fun s =>
            if is_eos then (Some (Ok (sample_size sample)), s)
            else if kib 64 <=? sample_size sample then
              match splice events s with
              | (Some (Ok bytes), s) => (Some (Ok (u64_add bytes (sample_size sample))), s)
              | (res, s) => (res, s)
              end
            else (Some (Err (Proxy (ForwardingFailed "TcpStream 小数据流需要单独处理"))), s)) s
      end
  end.

(** ** high_perf.rs: one direction of [buffered_bidirectional] *)
Fixpoint buffered_loop (events : list read_event) (total : Z) (s : sink) : option Z * sink :=
  match events with
  | [] => (None, s)
  | Eof :: _ | ReadErr _ :: _ => (Some total, s)
  | Got data :: events =>
      match write_all data s with
      | (Err _, s) => (Some total, s)
      | (Ok _, s) => buffered_loop events (u64_add total (Z.of_nat (length data))) s
      end
  end.

Definition buffered_bidirectional (from_client from_server : list read_event) (to_client to_server : sink)
  : option (Z * Z) * sink * sink :=
  let '(bytes1, to_server) := buffered_loop from_client 0 to_server in
  let '(bytes2, to_client) := buffered_loop from_server 0 to_client in
  (match bytes1, bytes2 with Some a, Some b => Some (a, b) | _, _ => None end, to_client, to_server).

(** ** Lemmas *)

Definition payload (events : list read_event) : list byte :=
  concat (omap (fun e => match e with Got data => Some data | _ => None end) events).

(** Reads that end with the end of the stream; blocking is allowed. *)
Fixpoint ends_well (events : list read_event) : Prop :=
  match events with
  | [] => False
  | Eof :: rest => rest = []
  | Got _ :: rest => ends_well rest
  | ReadErr e :: rest => io_kind e = WouldBlock /\ ends_well rest
  end.

Lemma payload_got data events : payload (Got data :: events) = data ++ payload events.
Proof. reflexivity. Qed.

(** The loop delivers everything, and leaves nothing unflushed unless it was
    started with unflushed data and had nothing to add. *)
Lemma copy_loop_complete pol label events total last s :
  ends_well events -> accepting s ->
  0 <= last <= total -> total + Z.of_nat (length (payload events)) < 2 ^ 64 ->
  exists s', copy_loop pol label events total last s =
    (Some (Ok (total + Z.of_nat (length (payload events)))), s') /\
    sk_out s' = sk_out s ++ payload events /\
    ((last = total -> payload events = [] -> sk_flushed s = length (sk_out s)) ->
     sk_flushed s' = length (sk_out s')).
Proof.
  revert total last s. induction events as [|[data| |e] events IH]; intros total last s He Hr Hl Hb; [done| | |].
  - rewrite payload_got, length_app in *. cbn [copy_loop]. unfold write_all. rewrite (proj1 Hr).
    assert (u64_add total (Z.of_nat (length data)) = total + Z.of_nat (length data)) as ->
      by (unfold u64_add; apply wrap_small; unfold in_u; lia).
    set (s1 := mkSink (sk_out s ++ data) (sk_flushed s) None (sk_flushes s)).
    assert (accepting s1) as Hr1 by (split; [done|apply Hr]).
    destruct (pol (total + Z.of_nat (length data)) last (Z.of_nat (length data))).
    + rewrite flush_then_accepting by done.
      destruct (IH (total + Z.of_nat (length data)) (total + Z.of_nat (length data)) (after_flush s1))
        as (s' & -> & Ho & Hfl); [done|done|lia|lia|].
      exists s'. split; [do 3 f_equal; lia|]. split; [rewrite Ho; simpl; by rewrite (assoc_L (++))|].
      intros _. by apply Hfl.
    + destruct (IH (total + Z.of_nat (length data)) last s1) as (s' & -> & Ho & Hfl); [done|done|lia|lia|].
      exists s'. split; [do 3 f_equal; lia|]. split; [rewrite Ho; simpl; by rewrite (assoc_L (++))|].
      intros Hf. apply Hfl. intros Heq Hpe. destruct data as [|b data]; [|simpl in Heq; lia].
      simpl. rewrite app_nil_r. apply Hf; [simpl in Heq; lia|done].
  - cbn [copy_loop]. simpl in He. subst events. rewrite Z.add_0_r.
    destruct (Z.ltb_spec last total).
    + rewrite flush_then_accepting by done. eexists. split; [done|]. simpl. by rewrite app_nil_r.
    + exists s. split; [done|]. simpl. rewrite app_nil_r. split; [done|]. intros Hf. apply Hf; [lia|done].
  - destruct He as [Hk He]. cbn [copy_loop]. rewrite bool_decide_eq_true_2 by done.
    by apply IH.
Qed.

(** The reads of the sample fit what is left of its buffer. *)
Fixpoint sample_fits (got : Z) (events : list read_event) : Prop :=
  match events with
  | Got data :: rest =>
      1 <= Z.of_nat (length data) <= INITIAL_SAMPLE_SIZE - got /\
      (got + Z.of_nat (length data) < INITIAL_SAMPLE_SIZE -> sample_fits (got + Z.of_nat (length data)) rest)
  | ReadErr _ :: rest => sample_fits got rest
  | Eof :: _ | [] => True
  end.

(** The sample is the start of the stream: all of it when the stream ends
    first, a full window otherwise. *)
Lemma read_initial_sample_spec events got :
  ends_well events -> Z.of_nat (length got) < INITIAL_SAMPLE_SIZE ->
  sample_fits (Z.of_nat (length got)) events ->
  exists sample is_eos rest,
    read_initial_sample events got = (Some (Ok (sample, is_eos)), rest) /\
    sample ++ payload rest = got ++ payload events /\
    (if is_eos : bool then payload rest = [] /\ Z.of_nat (length sample) < INITIAL_SAMPLE_SIZE
     else ends_well rest /\ Z.of_nat (length sample) = INITIAL_SAMPLE_SIZE).
Proof.
  revert got. induction events as [|[data| |e] events IH]; intros got He Hg Hs; [done| | |].
  - cbn [read_initial_sample sample_fits ends_well] in *. destruct Hs as [Hd Hs].
    destruct (Z.leb_spec INITIAL_SAMPLE_SIZE (Z.of_nat (length (got ++ data)))) as [Hc|Hc];
      rewrite length_app in Hc.
    + exists (got ++ data), false, events. split; [done|]. rewrite payload_got, (assoc_L (++)).
      split; [done|]. split; [done|]. rewrite length_app. lia.
    + destruct (IH (got ++ data)) as (sample & eos & rest & Hr & Hp & Hi);
        [done|rewrite length_app; lia| |].
      { rewrite length_app, Nat2Z.inj_add. apply Hs. lia. }
      exists sample, eos, rest. split; [done|]. split; [|done]. by rewrite Hp, payload_got, (assoc_L (++)).
  - simpl in *. subst events. exists got, true, []. split; [done|]. split; [done|]. by split.
  - cbn [read_initial_sample sample_fits ends_well] in *. destruct He as [Hk He].
    rewrite bool_decide_eq_true_2 by done. by apply IH.
Qed.

(** ** Properties *)

(** The bulk copies are faithful: on a stream that ends, into a writer that
    accepts, both deliver exactly the bytes read, report their number and leave
    nothing unflushed, whatever the sizes of the reads and however often one
    would block. *)
Theorem bulk_copies_faithful events buffer_size :
  ends_well events -> Z.of_nat (length (payload events)) < 2 ^ 64 ->
  exists s1 s2,
    AdaptiveCopy.bulk_copy_optimized events buffer_size open_sink =
      (Some (Ok (Z.of_nat (length (payload events)))), s1) /\
    ZeroCopy.bulk_copy_optimized events buffer_size open_sink =
      (Some (Ok (Z.of_nat (length (payload events)))), s2) /\
    sk_out s1 = payload events /\ sk_out s2 = payload events /\
    sk_flushed s1 = length (payload events) /\ sk_flushed s2 = length (payload events).
Proof.
  intros He Hb.
  destruct (copy_loop_complete
    (bulk_policy (if kib 256 <=? buffer_size then mib 4 else mib 2) buffer_size) "Copy error: " events 0 0 open_sink)
    as (s1 & H1 & Ho1 & Hf1); [done|done|lia|lia|].
  destruct (copy_loop_complete (bulk_policy (mib 2) buffer_size) "Bulk copy error: " events 0 0 open_sink)
    as (s2 & H2 & Ho2 & Hf2); [done|done|lia|lia|].
  exists s1, s2. rewrite Hf1, Hf2, Ho1, Ho2 by done. by repeat (split; [done|]).
Qed.

(** The sampling copy of any stream. *)
Lemma adaptive_stream_delivers os events :
  ends_well events -> sample_fits 0 events -> Z.of_nat (length (payload events)) < 2 ^ 64 ->
  exists s,
    adaptive_stream_copy os events open_sink = (Some (Ok (Z.of_nat (length (payload events)))), s) /\
    sk_out s = payload events /\
    (Z.of_nat (length (payload events)) <> INITIAL_SAMPLE_SIZE -> sk_flushed s = length (payload events)).
Proof.
  intros He Hs Hb.
  destruct (read_initial_sample_spec events [] He) as (sample & eos & rest & Hr & Hp & Hi); [done|done|].
  simpl in Hp. unfold adaptive_stream_copy. rewrite Hr. unfold write_all, open_sink. simpl sk_room.
  destruct eos.
  - destruct Hi as [Hn _]. rewrite Hn, app_nil_r in Hp. subst sample.
    eexists. split; [done|]. by split.
  - destruct Hi as [Hew Hl]. cbn [sk_out sk_flushed app]. unfold execute_adaptive_transfer, analyze_traffic_pattern.
    unfold sample_size. rewrite Hl. change (INITIAL_SAMPLE_SIZE <? kib 16) with false.
    change (INITIAL_SAMPLE_SIZE <? kib 64) with true. cbv iota.
    assert (Z.of_nat (length (payload events)) = INITIAL_SAMPLE_SIZE + Z.of_nat (length (payload rest))) as Hlen
      by (rewrite <- Hp, length_app; lia).
    assert (0 <= INITIAL_SAMPLE_SIZE) by (unfold INITIAL_SAMPLE_SIZE, kib; lia).
    set (interval := match os with Linux => kib 128 | _ => kib 256 end).
    set (buffer := match os with Linux => kib 64 | _ => kib 128 end).
    destruct (copy_loop_complete (bulk_policy interval buffer) "Transfer error: " rest
      INITIAL_SAMPLE_SIZE INITIAL_SAMPLE_SIZE (mkSink sample 0 None None)) as (s & Hc & Ho & Hf);
      [done|done|lia|lia|].
    exists s. rewrite Hlen. split; [rewrite <- Hc; by destruct os|]. rewrite Ho. simpl. split; [done|]. intros Hne.
    rewrite Hf, Ho; [simpl; by rewrite Hp|]. intros _ Hnil. rewrite Hnil in Hne. simpl in Hne. lia.
Qed.

(** C25. The sampling copy delivers the stream unchanged and reports its length;
    it also flushes everything, except when the stream ends right after a full
    32 KB sample: those bytes are left unflushed. *)
Theorem adaptive_stream_faithful os events :
  ends_well events -> sample_fits 0 events -> Z.of_nat (length (payload events)) < 2 ^ 64 ->
  exists s,
    adaptive_stream_copy os events open_sink = (Some (Ok (Z.of_nat (length (payload events)))), s) /\
    sk_out s = payload events /\
    (Z.of_nat (length (payload events)) <> INITIAL_SAMPLE_SIZE -> sk_flushed s = length (payload events)).
Proof. apply adaptive_stream_delivers. Qed.

(** The exception is real: a stream of exactly one 32 KB sample is reported
    as copied while none of it has been flushed. *)
Theorem full_sample_left_unflushed os data :
  Z.of_nat (length data) = INITIAL_SAMPLE_SIZE ->
  exists s, adaptive_stream_copy os [Got data; Eof] open_sink = (Some (Ok INITIAL_SAMPLE_SIZE), s) /\
    sk_out s = data /\ sk_flushed s = 0%nat.
Proof.
  intros Hd. unfold adaptive_stream_copy, read_initial_sample. cbn [app]. rewrite Hd, Z.leb_refl.
  unfold write_all, open_sink. cbn [sk_room sk_out sk_flushed app]. unfold sample_size. rewrite Hd.
  eexists. split; [by destruct os|]. by split.
Qed.

(** [adaptive_tcp_stream_copy] works for short streams only: a stream of 32
    KB or more always ends in an error after its first 32 KB, because the sample
    never reaches the 64 KB at which splice would take over. *)
Theorem adaptive_tcp_needs_short_streams splice events :
  ends_well events -> sample_fits 0 events ->
  exists s, sk_out s = take (Z.to_nat INITIAL_SAMPLE_SIZE) (payload events) /\
  adaptive_tcp_stream_copy splice events open_sink =
    (Some (if INITIAL_SAMPLE_SIZE <=? Z.of_nat (length (payload events))
           then Err (Proxy (ForwardingFailed "TcpStream 小数据流需要单独处理"))
           else Ok (Z.of_nat (length (payload events)))), s).
Proof.
  intros He Hs.
  destruct (read_initial_sample_spec events [] He) as (sample & eos & rest & Hr & Hp & Hi); [done|done|].
  simpl in Hp. unfold adaptive_tcp_stream_copy. rewrite Hr. unfold write_all, open_sink. cbn [sk_room].
  destruct eos; eexists.
  - destruct Hi as [Hn Hl]. rewrite Hn, app_nil_r in Hp. subst sample.
    split; [|rewrite (proj2 (Z.leb_gt _ _)) by done; reflexivity].
    simpl. rewrite take_ge; [done|lia].
  - destruct Hi as [_ Hl]. split.
    2: { unfold sample_size. rewrite Hl. change (kib 64 <=? INITIAL_SAMPLE_SIZE) with false.
         rewrite <- Hp, length_app. rewrite (proj2 (Z.leb_le _ _)) by lia. reflexivity. }
    simpl. rewrite <- Hp, <- Hl, Nat2Z.id. by rewrite take_app_length.
Qed.

(** [buffered_bidirectional] does not mix directions or lose data: each
    peer receives exactly what the other sent, and the two totals count it. *)
Theorem buffered_bidirectional_faithful from_client from_server :
  ends_well from_client -> ends_well from_server ->
  Forall (fun e => match e with ReadErr _ => False | _ => True end) (from_client ++ from_server) ->
  Z.of_nat (length (payload from_client)) < 2 ^ 64 -> Z.of_nat (length (payload from_server)) < 2 ^ 64 ->
  exists to_client to_server,
    buffered_bidirectional from_client from_server open_sink open_sink =
      (Some (Z.of_nat (length (payload from_client)), Z.of_nat (length (payload from_server))), to_client, to_server) /\
    sk_out to_server = payload from_client /\ sk_out to_client = payload from_server.
Proof.
  assert (forall events total s, ends_well events ->
    Forall (fun e => match e with ReadErr _ => False | _ => True end) events ->
    sk_room s = None -> 0 <= total -> total + Z.of_nat (length (payload events)) < 2 ^ 64 ->
    exists s', buffered_loop events total s = (Some (total + Z.of_nat (length (payload events))), s') /\
      sk_out s' = sk_out s ++ payload events) as Hloop.
  { induction events as [|[data| |e] events IH]; intros total s He Hn Hr Ht Hb; [done| | |].
    - apply Forall_cons in Hn as [_ Hn]. rewrite payload_got, length_app in *. cbn [buffered_loop].
      unfold write_all. rewrite Hr. unfold u64_add. rewrite wrap_small by (unfold in_u; lia).
      destruct (IH (total + Z.of_nat (length data)) (mkSink (sk_out s ++ data) (sk_flushed s) None (sk_flushes s)))
        as (s' & -> & Ho); [done|done|done|lia|lia|].
      exists s'. split; [do 2 f_equal; lia|]. rewrite Ho. simpl. by rewrite (assoc_L (++)).
    - simpl in He. subst events. exists s. split; [simpl; do 2 f_equal; lia|]. simpl. by rewrite app_nil_r.
    - by apply Forall_cons in Hn as [? _]. }
  intros Hc Hs [Hnc Hns]%Forall_app Hbc Hbs. unfold buffered_bidirectional.
  destruct (Hloop from_client 0 open_sink) as (s1 & -> & Ho1); [done|done|done|lia|lia|].
  destruct (Hloop from_server 0 open_sink) as (s2 & -> & Ho2); [done|done|done|lia|lia|].
  exists s2, s1. split; [done|]. by split.
Qed.

Lemma bulk_copy_delivers events buffer_size s :
  ends_well events -> accepting s -> Z.of_nat (length (payload events)) < 2 ^ 64 ->
  exists s', ZeroCopy.bulk_copy_optimized events buffer_size s =
      (Some (Ok (Z.of_nat (length (payload events)))), s') /\ sk_out s' = sk_out s ++ payload events.
Proof.
  intros He Hr Hb. destruct (copy_loop_complete (bulk_policy (mib 2) buffer_size) "Bulk copy error: " events 0 0 s)
    as (s' & H & Ho & _); [done|done|lia|lia|]. by exists s'.
Qed.

(** Both directions of the portable forwarding. *)
Lemma bulk_copy_bidirectional_delivers from_client from_server :
  ends_well from_client -> ends_well from_server ->
  Z.of_nat (length (payload from_client)) < 2 ^ 64 -> Z.of_nat (length (payload from_server)) < 2 ^ 64 ->
  exists to_client to_server,
    ZeroCopy.bulk_copy_bidirectional (Ok tt) (Ok tt) from_client from_server open_sink open_sink =
      (Some (Ok (Z.of_nat (length (payload from_client)), Z.of_nat (length (payload from_server)))), to_client, to_server) /\
    sk_out to_server = payload from_client /\ sk_out to_client = payload from_server.
Proof.
  intros Hc Hs Bc Bs. unfold ZeroCopy.bulk_copy_bidirectional.
  destruct (bulk_copy_delivers from_client (kib 256) open_sink Hc (conj eq_refl eq_refl) Bc) as (s1 & -> & H1).
  destruct (bulk_copy_delivers from_server (kib 256) open_sink Hs (conj eq_refl eq_refl) Bs) as (s2 & -> & H2).
  exists s2, s1. by split.
Qed.

(** A transfer cut short is reported as no transfer: when the peer stops
    reading after part of a chunk, the call still succeeds, with 0 bytes for the
    direction although some were delivered. *)
Theorem failed_transfer_reports_zero data room rest :
  (room < length data)%nat ->
  exists to_client to_server,
    ZeroCopy.bulk_copy_bidirectional (Ok tt) (Ok tt) (Got data :: rest) [Eof] open_sink (mkSink [] 0 (Some room) None) =
      (Some (Ok (0, 0)), to_client, to_server) /\ sk_out to_server = take room data.
Proof.
  intros Hr. unfold ZeroCopy.bulk_copy_bidirectional, ZeroCopy.bulk_copy_optimized. cbn [copy_loop].
  unfold write_all. cbn [sk_room]. rewrite (proj2 (Nat.leb_gt _ _) Hr). eexists _, _. split; [reflexivity|done].
Qed.

(** ** Witnesses *)

Theorem failed_transfer_reports_zero_witness :
  exists to_client to_server,
    ZeroCopy.bulk_copy_bidirectional (Ok tt) (Ok tt) [Got (map z_byte [1; 2])] [Eof] open_sink (mkSink [] 0 (Some 1%nat) None) =
      (Some (Ok (0, 0)), to_client, to_server) /\ sk_out to_server = [z_byte 1].
Proof. apply (failed_transfer_reports_zero (map z_byte [1; 2]) 1 []). simpl. lia. Defined.

Definition sample_events : list read_event :=
  [ReadErr (mkIoError WouldBlock "again"); Got (map z_byte [1; 2; 3]); Got [z_byte 4]; Eof].

Lemma sample_events_ok : ends_well sample_events /\ sample_fits 0 sample_events.
Proof.
  unfold sample_events, INITIAL_SAMPLE_SIZE, kib; simpl. unfold INITIAL_SAMPLE_SIZE, kib.
  repeat split; try lia; done.
Qed.

Theorem bulk_copies_faithful_witness :
  exists s1 s2, AdaptiveCopy.bulk_copy_optimized sample_events (kib 128) open_sink = (Some (Ok 4), s1) /\
    ZeroCopy.bulk_copy_optimized sample_events (kib 128) open_sink = (Some (Ok 4), s2).
Proof.
  destruct (bulk_copies_faithful sample_events (kib 128)) as (s1 & s2 & H1 & H2 & _);
    [exact (proj1 sample_events_ok)|reflexivity|].
  exists s1, s2. split; [exact H1|exact H2].
Defined.

Theorem adaptive_stream_faithful_witness :
  exists s, adaptive_stream_copy Linux sample_events open_sink = (Some (Ok 4), s) /\ sk_out s = map z_byte [1; 2; 3; 4].
Proof.
  destruct (adaptive_stream_faithful Linux sample_events) as (s & H1 & H2 & _);
    [exact (proj1 sample_events_ok)|exact (proj2 sample_events_ok)|reflexivity|].
  exists s. split; [exact H1|exact H2].
Defined.

Theorem full_sample_left_unflushed_witness :
  exists s, adaptive_stream_copy MacOs [Got (replicate (Z.to_nat INITIAL_SAMPLE_SIZE) (z_byte 0)); Eof] open_sink =
    (Some (Ok INITIAL_SAMPLE_SIZE), s) /\ sk_flushed s = 0%nat.
Proof.
  destruct (full_sample_left_unflushed MacOs (replicate (Z.to_nat INITIAL_SAMPLE_SIZE) (z_byte 0))) as (s & H1 & _ & H2);
    [rewrite length_replicate, Z2Nat.id by (unfold INITIAL_SAMPLE_SIZE, kib; lia); reflexivity|].
  exists s. split; [exact H1|exact H2].
Defined.

Theorem adaptive_tcp_needs_short_streams_witness :
  exists s, sk_out s = take (Z.to_nat INITIAL_SAMPLE_SIZE) (payload sample_events) /\
    adaptive_tcp_stream_copy (fun _ s => (None, s)) sample_events open_sink = (Some (Ok 4), s).
Proof.
  exact (adaptive_tcp_needs_short_streams (fun _ s => (None, s)) sample_events
    (proj1 sample_events_ok) (proj2 sample_events_ok)).
Defined.

Theorem buffered_bidirectional_faithful_witness :
  exists to_client to_server,
    buffered_bidirectional [Got [z_byte 1]; Eof] [Eof] open_sink open_sink = (Some (1, 0), to_client, to_server).
Proof.
  destruct (buffered_bidirectional_faithful [Got [z_byte 1]; Eof] [Eof]) as (c & s & H & _);
    [done|done|by repeat constructor|reflexivity|reflexivity|].
  exists c, s. exact H.
Defined.
