(* ===== verification/Forward.v ===== *)
(** * Forward: a forwarded connection from accept to close
    (src/src/proxy/zero_copy.rs, stealth_handler.rs, stealth_connection_handler.rs)

    [zero_copy_bidirectional] runs two splice threads (Splice) beside the task
    that awaits them.  A connection is a list of events: the kernel's replies to
    the two threads in whatever order they come, the creation of the second
    pipe, the loss of a thread.  The abstract specification is a pair of byte
    channels; the connection refines it under every schedule.  The last part
    composes the handler: accept, security checks, forwarding or blackhole,
    release. *)

From Stdlib Require Import Ascii String ZArith Lia.
From stdpp Require Import base gmap strings list relations.
From S2P Require Import Prelude Text NetAddr Errors Channels Blackhole Stealth Copy Splice.

(** ** [zero_copy_bidirectional] on Linux *)

(** A [spawn_blocking] thread: where its loop is, and the text of the join error
    when it was cancelled. *)
Record thread := mkThread { work : Splice.state; lost : option string }.

Definition spawn_thread (data : list byte) : thread := mkThread (Splice.start data) None.

Definition thread_step (t : thread) (r : reply) : thread :=
  match lost t with
  | Some _ => t
  | None => mkThread (Splice.step zero_copy_policy (work t) r) None
  end.

Definition cancel (text : string) (t : thread) : thread :=
  match lost t, at_phase (work t) with
  | None, Filling | None, Draining _ => mkThread (work t) (Some text)
  | _, _ => t
  end.

(** [handle.map_err(..)??], once the thread has ended. *)
Definition join_result (label : string) (t : thread) : option (Result Z) :=
  match lost t with
  | Some text => Some (Err (Proxy (ForwardingFailed (label +:+ " join error: " +:+ text))))
  | None => match at_phase (work t) with Finished r => Some r | _ => None end
  end.

(** [tokio::join!] and the two results. *)
Definition join_both (a b : thread) : option (Result (Z * Z)) :=
  match join_result "C2S" a, join_result "S2C" b with
  | Some r1, Some r2 => Some (let? b1 := r1 in let? b2 := r2 in Ok (b1, b2))
  | _, _ => None
  end.

Definition create_pipe (p : Joined (result unit IoError)) : Result unit :=
  match p with
  | JoinError text => Err (Proxy (ForwardingFailed ("Pipe creation failed: " +:+ text)))
  | Done (Err e) => Err (Io e)
  | Done (Ok _) => Ok tt
  end.

(** Where the awaiting task is. *)
Inductive stage : Type := SecondPipe | Joining | Returned (res : Result (Z * Z)).

Record session := mkSession {
  c2s : thread;
  s2c : option thread;       (** spawned once its pipe exists *)
  from_server : list byte;   (** what the server sends over the connection *)
  at_stage : stage }.

Record Setup := mkSetup {
  client_nodelay : result unit IoError;
  server_nodelay : result unit IoError;
  first_pipe : Joined (result unit IoError) }.

(** Up to the first thread, which runs from here on. *)
Definition zero_copy_start (calls : Setup) (client_data server_data : list byte) : Result session :=
  let? _ := map_err Io (client_nodelay calls) in
  let? _ := map_err Io (server_nodelay calls) in
  let? _ := create_pipe (first_pipe calls) in
  Ok (mkSession (spawn_thread client_data) None server_data SecondPipe).

Inductive event : Type :=
| C2S (r : reply)
| S2C (r : reply)
| PipeMade (p : Joined (result unit IoError))
| CancelC2S (text : string)
| CancelS2C (text : string).

(** The task wakes up when both threads have ended. *)
Definition settle (s : session) : session :=
  match at_stage s, s2c s with
  | Joining, Some t =>
      match join_both (c2s s) t with
      | Some r => mkSession (c2s s) (s2c s) (from_server s) (Returned r)
      | None => s
      end
  | _, _ => s
  end.

Definition second_pipe (p : Joined (result unit IoError)) (s : session) : session :=
  match at_stage s with
  | SecondPipe =>
      match create_pipe p with
      | Err e => mkSession (c2s s) None (from_server s) (Returned (Err e))
      | Ok _ => mkSession (c2s s) (Some (spawn_thread (from_server s))) (from_server s) Joining
      end
  | _ => s
  end.

Definition zero_copy_step (s : session) (e : event) : session :=
  settle match e with
  | C2S r => mkSession (thread_step (c2s s) r) (s2c s) (from_server s) (at_stage s)
  | S2C r => mkSession (c2s s) ((fun t => thread_step t r) <$> s2c s) (from_server s) (at_stage s)
  | PipeMade p => second_pipe p s
  | CancelC2S text => mkSession (cancel text (c2s s)) (s2c s) (from_server s) (at_stage s)
  | CancelS2C text => mkSession (c2s s) (cancel text <$> s2c s) (from_server s) (at_stage s)
  end.

Definition zero_copy_run (s : session) (es : list event) : session := foldl zero_copy_step s es.

(** The value [zero_copy_bidirectional] has returned, if it has. *)
Definition zero_copy_bidirectional (calls : Setup) (client_data server_data : list byte)
    (es : list event) : option (Result (Z * Z)) :=
  match zero_copy_start calls client_data server_data with
  | Err e => Some (Err e)
  | Ok s => match at_stage (zero_copy_run s es) with Returned r => Some r | _ => None end
  end.

(** ** The simulation *)

Definition ended (t : thread) : bool :=
  match lost t, at_phase (work t) with
  | None, Filling | None, Draining _ => false
  | _, _ => true
  end.

Definition thread_channel (t : thread) : channel :=
  mkChannel (source (work t)) (pipe (work t)) (sink (work t)) (ended t).

Definition session_channels (s : session) : channel * channel :=
  (thread_channel (c2s s),
   match s2c s with
   | Some t => thread_channel t
   | None => mkChannel (from_server s) [] [] (match at_stage s with Returned _ => true | _ => false end)
   end).

Lemma thread_step_simulates t r :
  thread_channel (thread_step t r) = thread_channel t \/
  channel_step (thread_channel t) (thread_channel (thread_step t r)).
Proof.
  destruct t as [[src p snk tot ph] [text|]]; [by left|].
  unfold thread_step, thread_channel, ended, Splice.step. simpl.
  destruct ph as [|n|res]; simpl; [| |by left].
  - destruct r as [k| |e]; simpl.
    + right. rewrite <- (take_drop k src) at 1. apply channel_accept.
    + right. apply channel_close.
    + destruct (would_block e); simpl; [by left|right; apply channel_close].
  - destruct r as [k| |e]; simpl.
    + right. assert (forall c1 c2, c1 = false -> c2 = c1 ->
        channel_step (mkChannel src p snk c1) (mkChannel src (drop k p) (snk ++ take k p) c2)) as H.
      { intros c1 c2 -> ->. rewrite <- (take_drop k p) at 1. apply channel_deliver. }
      apply H; [done|]. by case_if.
    + by left.
    + by destruct (would_block e); left.
Qed.

Lemma cancel_simulates text t :
  thread_channel (cancel text t) = thread_channel t \/
  channel_step (thread_channel t) (thread_channel (cancel text t)).
Proof.
  destruct t as [[src p snk tot ph] [t|]]; [by left|].
  unfold cancel, thread_channel, ended. simpl.
  destruct ph; simpl; try (right; apply channel_close). by left.
Qed.

(** What happens to a thread is a step of its channel or none. *)
Definition simulated (f : thread -> thread) : Prop :=
  forall t, thread_channel (f t) = thread_channel t \/ channel_step (thread_channel t) (thread_channel (f t)).

Lemma settle_channels s : session_channels (settle s) = session_channels s.
Proof.
  unfold settle. destruct s as [c s2 data st], st; simpl; try done.
  destruct s2; [|done]. by destruct (join_both c t).
Qed.

Lemma left_simulates f s :
  simulated f ->
  rtc duplex_step (session_channels s)
    (session_channels (mkSession (f (c2s s)) (s2c s) (from_server s) (at_stage s))).
Proof.
  intros Hf. unfold session_channels. simpl.
  destruct (Hf (c2s s)) as [-> | H]; [done|by apply rtc_once, duplex_left].
Qed.

Lemma right_simulates f s :
  simulated f ->
  rtc duplex_step (session_channels s)
    (session_channels (mkSession (c2s s) (f <$> s2c s) (from_server s) (at_stage s))).
Proof.
  intros Hf. unfold session_channels. simpl. destruct (s2c s) as [t|]; simpl; [|done].
  destruct (Hf t) as [-> | H]; [done|by apply rtc_once, duplex_right].
Qed.

Lemma zero_copy_step_simulates s e :
  (at_stage s = SecondPipe -> s2c s = None) ->
  rtc duplex_step (session_channels s) (session_channels (zero_copy_step s e)).
Proof.
  intros Hpipe. unfold zero_copy_step. rewrite settle_channels. destruct e as [r|r|p|text|text].
  - apply (left_simulates (fun t => thread_step t r)). intros t. apply thread_step_simulates.
  - apply (right_simulates (fun t => thread_step t r)). intros t. apply thread_step_simulates.
  - unfold second_pipe. destruct s as [c s2 data st]. simpl in *.
    destruct st; [|done..]. rewrite (Hpipe eq_refl).
    destruct (create_pipe p); [done|]. apply rtc_once. unfold session_channels. simpl. apply duplex_right, channel_close.
  - apply (left_simulates (cancel text)). intros t. apply cancel_simulates.
  - apply (right_simulates (cancel text)). intros t. apply cancel_simulates.
Qed.

(** The second thread exists exactly after its pipe was made, and a result is
    the join of the two threads. *)
Definition coherent (s : session) : Prop :=
  match at_stage s with
  | SecondPipe => s2c s = None
  | Joining => is_Some (s2c s)
  | Returned r => forall t, s2c s = Some t -> join_both (c2s s) t = Some r
  end.

Lemma join_result_step label t r x :
  join_result label t = Some x -> join_result label (thread_step t r) = Some x.
Proof.
  destruct t as [w [text|]]; [done|]. unfold join_result, thread_step, Splice.step. simpl.
  destruct (at_phase w) eqn:Hp; try done. simpl. by rewrite Hp.
Qed.

Lemma join_result_cancel label text t x :
  join_result label t = Some x -> join_result label (cancel text t) = Some x.
Proof.
  destruct t as [w [t|]]; [done|]. unfold join_result, cancel. simpl.
  destruct (at_phase w) eqn:Hp; try done. simpl. by rewrite Hp.
Qed.

Lemma join_both_mono f g a b r :
  (forall label x, join_result label a = Some x -> join_result label (f a) = Some x) ->
  (forall label x, join_result label b = Some x -> join_result label (g b) = Some x) ->
  join_both a b = Some r -> join_both (f a) (g b) = Some r.
Proof.
  unfold join_both. intros Ha Hb H.
  destruct (join_result "C2S" a) as [ra|] eqn:Hja; [|done].
  destruct (join_result "S2C" b) as [rb|] eqn:Hjb; [|done].
  by rewrite (Ha _ _ Hja), (Hb _ _ Hjb).
Qed.

Lemma settle_coherent s : coherent s -> coherent (settle s).
Proof.
  destruct s as [c s2 data st]. unfold coherent, settle. simpl. destruct st; simpl; try done.
  intros [t ->]. destruct (join_both c t) eqn:Hj; simpl; [|by eexists]. by intros ? [= <-].
Qed.

Lemma threads_coherent f g s :
  (forall t label x, join_result label t = Some x -> join_result label (f t) = Some x) ->
  (forall t label x, join_result label t = Some x -> join_result label (g t) = Some x) ->
  coherent s -> coherent (mkSession (f (c2s s)) (g <$> s2c s) (from_server s) (at_stage s)).
Proof.
  intros Hf Hg. unfold coherent. simpl. destruct (at_stage s).
  - by intros ->.
  - intros [t ->]. by eexists.
  - intros H t. destruct (s2c s) as [t'|]; [|done]. intros [= <-].
    apply join_both_mono; auto.
Qed.

Lemma zero_copy_step_coherent s e : coherent s -> coherent (zero_copy_step s e).
Proof.
  intros H. apply settle_coherent. destruct e as [r|r|p|text|text].
  - rewrite <- (option_fmap_id (s2c s)). apply (threads_coherent (fun t => thread_step t r) id); auto using join_result_step.
  - apply (threads_coherent id (fun t => thread_step t r)); auto using join_result_step.
  - unfold second_pipe, coherent in *. destruct (at_stage s) eqn:Hst; [|by rewrite Hst..].
    by destruct (create_pipe p); simpl; [eexists|].
  - rewrite <- (option_fmap_id (s2c s)). apply (threads_coherent (cancel text) id); auto using join_result_cancel.
  - apply (threads_coherent id (cancel text)); auto using join_result_cancel.
Qed.

Lemma zero_copy_run_coherent s es : coherent s -> coherent (zero_copy_run s es).
Proof.
  revert s. induction es as [|e es IH]; intros s H; [done|]. by apply IH, zero_copy_step_coherent.
Qed.

(** The task never sleeps on two threads that have ended. *)
Definition awake (s : session) : Prop :=
  at_stage s = Joining -> forall t, s2c s = Some t -> join_both (c2s s) t = None.

Lemma settle_awake s : awake (settle s).
Proof.
  destruct s as [c s2 data st]. unfold settle, awake. simpl. destruct st; simpl; try done.
  destruct s2 as [t|]; [|done]. destruct (join_both c t) eqn:Hj; [done|]. simpl. by intros _ ? [= <-].
Qed.

Lemma zero_copy_run_awake s es : awake s -> awake (zero_copy_run s es).
Proof.
  revert s. induction es as [|e es IH]; intros s H; [done|]. apply IH, settle_awake.
Qed.

Lemma joined_returns s t r :
  coherent s -> awake s -> s2c s = Some t -> join_both (c2s s) t = Some r -> at_stage s = Returned r.
Proof.
  unfold coherent, awake. intros Hc Ha Ht Hj. destruct (at_stage s) as [| |r'].
  - congruence.
  - specialize (Ha eq_refl t Ht). congruence.
  - specialize (Hc t Ht). congruence.
Qed.

Lemma zero_copy_run_simulates s es :
  coherent s -> rtc duplex_step (session_channels s) (session_channels (zero_copy_run s es)).
Proof.
  revert s. induction es as [|e es IH]; intros s H; [done|].
  transitivity (session_channels (zero_copy_step s e)).
  - apply zero_copy_step_simulates. intros Hst. unfold coherent in H. by rewrite Hst in H.
  - by apply IH, zero_copy_step_coherent.
Qed.

(** ** One direction of a schedule *)

Definition c2s_replies (es : list event) : list reply :=
  omap (fun e => match e with C2S r => Some r | _ => None end) es.
Definition s2c_replies (es : list event) : list reply :=
  omap (fun e => match e with S2C r => Some r | _ => None end) es.

(** No thread is cancelled. *)
Definition undisturbed (es : list event) : Prop :=
  Forall (fun e => match e with CancelC2S _ | CancelS2C _ => False | _ => True end) es.

Lemma settle_c2s s : c2s (settle s) = c2s s.
Proof. unfold settle. destruct (at_stage s), (s2c s); try done. by destruct (join_both _ _). Qed.

Lemma settle_s2c s : s2c (settle s) = s2c s.
Proof. unfold settle. destruct (at_stage s), (s2c s) eqn:H; try done. by destruct (join_both _ _). Qed.

Lemma c2s_run s es w :
  undisturbed es -> c2s s = mkThread w None ->
  c2s (zero_copy_run s es) = mkThread (Splice.run zero_copy_policy w (c2s_replies es)) None.
Proof.
  intros Hu. revert s w. induction Hu as [|e es He _ IH]; intros s w Hs; [done|].
  unfold zero_copy_run. cbn [foldl]. fold (zero_copy_run (zero_copy_step s e) es).
  destruct e as [r|r|p|text|text]; try done; cbn [c2s_replies omap list_omap].
  - apply (IH _ (Splice.step zero_copy_policy w r)). unfold zero_copy_step. rewrite settle_c2s. simpl. by rewrite Hs.
  - apply IH. unfold zero_copy_step. by rewrite settle_c2s.
  - apply IH. unfold zero_copy_step. rewrite settle_c2s. unfold second_pipe.
    destruct (at_stage s); [|done..]. by destruct (create_pipe p).
Qed.

(** Once the second pipe exists. *)
Lemma s2c_run s es w :
  undisturbed es -> at_stage s <> SecondPipe -> s2c s = Some (mkThread w None) ->
  s2c (zero_copy_run s es) = Some (mkThread (Splice.run zero_copy_policy w (s2c_replies es)) None).
Proof.
  intros Hu. revert s w. induction Hu as [|e es He _ IH]; intros s w Hst Hs; [done|].
  unfold zero_copy_run. cbn [foldl]. fold (zero_copy_run (zero_copy_step s e) es).
  assert (at_stage (zero_copy_step s e) <> SecondPipe) as Hst'.
  { unfold zero_copy_step, settle, second_pipe.
    destruct e; simpl; destruct (at_stage s) eqn:Hat; simpl; rewrite ?Hat; try done;
      destruct (s2c s); simpl; try done; rewrite ?Hat; try done; by destruct (join_both _ _); simpl; rewrite ?Hat. }
  destruct e as [r|r|p|text|text]; try done; cbn [s2c_replies omap list_omap].
  - apply IH; [done|]. unfold zero_copy_step. by rewrite settle_s2c.
  - apply (IH _ (Splice.step zero_copy_policy w r)); [done|].
    unfold zero_copy_step. rewrite settle_s2c. simpl. by rewrite Hs.
  - apply IH; [done|]. unfold zero_copy_step. rewrite settle_s2c. unfold second_pipe. by destruct (at_stage s).
Qed.

Definition session_start (client_data server_data : list byte) : session :=
  mkSession (spawn_thread client_data) None server_data SecondPipe.

Lemma zero_copy_start_ok calls client_data server_data s :
  zero_copy_start calls client_data server_data = Ok s -> s = session_start client_data server_data.
Proof.
  unfold zero_copy_start. destruct (client_nodelay calls), (server_nodelay calls); simpl; try done.
  destruct (create_pipe (first_pipe calls)); [|done]. by intros [= <-].
Qed.

(** Before the second pipe only the first thread runs. *)
Definition first_thread_only (es : list event) : Prop :=
  Forall (fun e => match e with C2S _ => True | _ => False end) es.

Lemma first_thread_undisturbed es : first_thread_only es -> undisturbed es.
Proof. intros H. eapply Forall_impl; [exact H|]. by intros []. Qed.

Lemma before_second_pipe s es :
  first_thread_only es -> at_stage s = SecondPipe -> s2c s = None ->
  at_stage (zero_copy_run s es) = SecondPipe /\ s2c (zero_copy_run s es) = None /\
  from_server (zero_copy_run s es) = from_server s.
Proof.
  intros He. revert s. induction He as [|[] es]; intros s Hst Hs; try done.
  unfold zero_copy_run. cbn [foldl].
  destruct (IHHe (zero_copy_step s (C2S r))) as (H1 & H2 & H3);
    unfold zero_copy_step, settle in *; simpl in *; rewrite Hst in *; simpl in *; try done.
Qed.

Lemma second_pipe_made data s before after :
  first_thread_only before -> undisturbed after -> s = session_start (source (work (c2s s))) data ->
  s2c (zero_copy_run s (before ++ PipeMade (Done (Ok tt)) :: after)) =
  Some (mkThread (Splice.run zero_copy_policy (Splice.start data) (s2c_replies after)) None).
Proof.
  intros Hb Ha Hs. unfold zero_copy_run. rewrite foldl_app. cbn [foldl].
  destruct (before_second_pipe s before Hb) as (H1 & H2 & H3); [by rewrite Hs..|].
  unfold zero_copy_run in *. set (s1 := foldl zero_copy_step s before) in *.
  assert (from_server s1 = data) as Hd by (by rewrite H3, Hs).
  apply s2c_run; [done| |].
  - unfold zero_copy_step, second_pipe, settle. rewrite H1. simpl. by destruct (join_both _ _).
  - unfold zero_copy_step. rewrite settle_s2c. unfold second_pipe. rewrite H1. simpl. by rewrite Hd.
Qed.

(** ** Properties of the two directions *)

(** A forwarded connection is a transparent bidirectional pipe: under every
    schedule of the two threads, whatever the kernel replies and whichever
    thread is lost, each run of [zero_copy_bidirectional] is a run of two
    one-way channels, so each peer has received a prefix of what the other sent,
    in order, without gaps and without anything of its own. *)
Theorem forward_refines_channels calls client_data server_data s es :
  zero_copy_start calls client_data server_data = Ok s ->
  let s' := zero_copy_run s es in
  rtc duplex_step (fresh_channel client_data, fresh_channel server_data) (session_channels s') /\
  sink (work (c2s s')) `prefix_of` client_data /\
  (forall t, s2c s' = Some t -> sink (work t) `prefix_of` server_data).
Proof.
  intros ->%zero_copy_start_ok s'.
  pose proof (zero_copy_run_simulates (session_start client_data server_data) es eq_refl) as Hsim.
  fold s' in Hsim. change (session_channels (session_start client_data server_data)) with
    (fresh_channel client_data, fresh_channel server_data) in Hsim.
  destruct (duplex_steps_carry client_data server_data _ _ Hsim) as [Hc Hs]; [done|].
  split; [done|]. split; [exact (carries_prefix _ _ Hc)|]. intros t Ht.
  unfold session_channels in Hs. rewrite Ht in Hs. exact (carries_prefix _ _ Hs).
Qed.

(** The kernel's replies to one thread: no error on the way, and enough of them
    to move every byte twice and to see the end of the stream. *)
Definition flawless (cap chunk : nat) (data : list byte) (rs : list reply) : Prop :=
  valid_run zero_copy_policy cap chunk (Splice.start data) rs /\
  clean_run zero_copy_policy (Splice.start data) rs /\ quiet_run zero_copy_policy (Splice.start data) rs /\
  (2 * length data < answered rs)%nat.

Lemma session_delivers cap chunk client_data server_data before after :
  (0 < cap)%nat -> first_thread_only before -> undisturbed after ->
  let es := before ++ PipeMade (Done (Ok tt)) :: after in
  flawless cap chunk client_data (c2s_replies es) -> flawless cap chunk server_data (s2c_replies after) ->
  in_u 64 (Z.of_nat (length client_data)) -> in_u 64 (Z.of_nat (length server_data)) ->
  let s := zero_copy_run (session_start client_data server_data) es in
  at_stage s = Returned (Ok (Z.of_nat (length client_data), Z.of_nat (length server_data))) /\
  sink (work (c2s s)) = client_data /\ (exists t, s2c s = Some t /\ sink (work t) = server_data).
Proof.
  intros Hcap Hb Ha es (Hv1 & Hc1 & Hq1 & Hn1) (Hv2 & Hc2 & Hq2 & Hn2) I1 I2 s.
  assert (undisturbed es) as Hu.
  { apply Forall_app. split; [by apply first_thread_undisturbed|]. by constructor. }
  pose proof (zero_copy_run_coherent (session_start client_data server_data) es eq_refl) as Hco.
  assert (awake s) as Haw by by apply zero_copy_run_awake.
  pose proof (c2s_run (session_start client_data server_data) es _ Hu eq_refl) as H1.
  pose proof (second_pipe_made server_data (session_start client_data server_data) before after Hb Ha eq_refl) as H2.
  fold es in H2. fold s in Hco, H1, H2.
  destruct (run_returns _ cap chunk _ _ Hcap Hv1 Hc1 Hq1 Hn1) as (r1 & P1 & D1 & L1).
  destruct (run_returns _ cap chunk _ _ Hcap Hv2 Hc2 Hq2 Hn2) as (r2 & P2 & D2 & L2).
  split.
  - apply (joined_returns s _ _ Hco Haw H2). rewrite H1. unfold join_both, join_result. cbn [lost work].
    unfold session_start, spawn_thread. cbn [c2s work]. rewrite P1, P2, (L1 I1), (L2 I2). done.
  - split; [by rewrite H1|by eexists].
Qed.

(** C11. [zero_copy_bidirectional] forwards a connection whole: however its two
    threads interleave, if no call fails and the kernel answers each thread
    twice per byte and once more, it returns, both streams have been delivered
    to the last byte, and the counts it returns are their lengths. *)
Theorem forward_complete cap chunk calls client_data server_data before after :
  (0 < cap)%nat -> first_thread_only before -> undisturbed after ->
  let es := before ++ PipeMade (Done (Ok tt)) :: after in
  flawless cap chunk client_data (c2s_replies es) -> flawless cap chunk server_data (s2c_replies after) ->
  is_ok (zero_copy_start calls client_data server_data) = true ->
  in_u 64 (Z.of_nat (length client_data)) -> in_u 64 (Z.of_nat (length server_data)) ->
  zero_copy_bidirectional calls client_data server_data es =
    Some (Ok (Z.of_nat (length client_data), Z.of_nat (length server_data))) /\
  let s := zero_copy_run (session_start client_data server_data) es in
  sink (work (c2s s)) = client_data /\ (exists t, s2c s = Some t /\ sink (work t) = server_data).
Proof.
  intros Hcap Hb Ha es Hc Hs Hok Uc Us. unfold zero_copy_bidirectional.
  destruct (zero_copy_start calls client_data server_data) as [s0|] eqn:Hst; [|done].
  apply zero_copy_start_ok in Hst as ->.
  destruct (session_delivers cap chunk client_data server_data before after Hcap Hb Ha Hc Hs Uc Us) as (H1 & H2 & H3).
  fold es in H1, H2, H3. by rewrite H1.
Qed.

(** C16. When the second pipe cannot be made, the call fails but the connection
    is not closed: the thread already started goes on carrying the client's
    bytes to the server, and the client never gets a byte back. *)
Theorem second_pipe_failure_half_open client_data server_data before after p e :
  first_thread_only before -> undisturbed after -> create_pipe p = Err e ->
  let s := zero_copy_run (session_start client_data server_data) (before ++ PipeMade p :: after) in
  at_stage s = Returned (Err e) /\
  work (c2s s) = Splice.run zero_copy_policy (Splice.start client_data) (c2s_replies before ++ c2s_replies after) /\
  s2c s = None.
Proof.
  intros Hb Ha Hp s. unfold s.
  assert (undisturbed (before ++ PipeMade p :: after)) as Hu.
  { apply Forall_app. split; [by apply first_thread_undisturbed|]. by constructor. }
  rewrite (c2s_run (session_start client_data server_data) _ (Splice.start client_data) Hu eq_refl).
  unfold c2s_replies. rewrite omap_app. cbn [omap list_omap].
  unfold zero_copy_run. rewrite foldl_app. cbn [foldl].
  destruct (before_second_pipe (session_start client_data server_data) before Hb eq_refl eq_refl) as (H1 & H2 & H3).
  unfold zero_copy_run in *. set (s1 := foldl zero_copy_step (session_start client_data server_data) before) in *.
  assert (forall es s, at_stage s = Returned (Err e) -> s2c s = None ->
    at_stage (foldl zero_copy_step s es) = Returned (Err e) /\ s2c (foldl zero_copy_step s es) = None) as Hstay.
  { induction es as [|x es IH]; intros s' Hs Hn; [done|]. cbn [foldl].
    apply IH; unfold zero_copy_step; rewrite ?settle_s2c; unfold settle, second_pipe;
      destruct x; simpl; rewrite ?Hs, ?Hn; simpl; rewrite ?Hs, ?Hn; done. }
  destruct (Hstay after (zero_copy_step s1 (PipeMade p))) as [Hst Hnone].
  - unfold zero_copy_step, second_pipe, settle. rewrite H1, Hp. done.
  - unfold zero_copy_step. rewrite settle_s2c. unfold second_pipe. by rewrite H1, Hp.
  - done.
Qed.

(** C15. The implementations for Linux and for the other systems agree: when two
    streams are forwarded without an error, splicing them in any interleaving
    and copying them through buffers both return, with the same counts, and
    deliver the same bytes to the same peers. *)
Theorem platforms_agree cap chunk from_client from_server before after :
  (0 < cap)%nat -> first_thread_only before -> undisturbed after ->
  ends_well from_client -> ends_well from_server ->
  in_u 64 (Z.of_nat (length (payload from_client))) -> in_u 64 (Z.of_nat (length (payload from_server))) ->
  let es := before ++ PipeMade (Done (Ok tt)) :: after in
  flawless cap chunk (payload from_client) (c2s_replies es) ->
  flawless cap chunk (payload from_server) (s2c_replies after) ->
  let s := zero_copy_run (session_start (payload from_client) (payload from_server)) es in
  exists res to_client to_server t,
    at_stage s = Returned res /\
    ZeroCopy.bulk_copy_bidirectional (Ok tt) (Ok tt) from_client from_server open_sink open_sink =
      (Some res, to_client, to_server) /\
    s2c s = Some t /\ sink (work (c2s s)) = sk_out to_server /\ sink (work t) = sk_out to_client.
Proof.
  intros Hcap Hb Ha Ec Es Uc Us es Fc Fs s.
  destruct (bulk_copy_bidirectional_delivers from_client from_server Ec Es (proj2 Uc) (proj2 Us)) as (tc & ts & -> & H1 & H2).
  destruct (session_delivers cap chunk _ _ before after Hcap Hb Ha Fc Fs Uc Us) as (Hr & D1 & t & Ht & D2).
  eexists _, tc, ts, t. rewrite H1, H2. by split_and!.
Qed.

(** ** The handler of one connection *)

(** [StealthHandler::normal_forwarding] *)
Definition normal_forwarding (res : Result (Z * Z)) : result unit ProxyError :=
  match res with
  | Ok _ => Ok tt
  | Err e => Err (ForwardingFailed ("Zero-copy failed: " +:+ show_AppError e))
  end.

(** [StealthHandler::test_remote_connection]; [None]: the 500 ms are over. *)
Definition test_remote_connection (attempt : option (result unit IoError)) : result unit ProxyError :=
  match attempt with
  | None => Err (ForwardingFailed "Connection timeout")
  | Some (Err e) => Err (ForwardingFailed ("Connection failed: " +:+ io_text e))
  | Some (Ok _) => Ok tt
  end.

(** A failing keepalive is ignored. *)
Definition apply_tcp_optimizations (nodelay keepalive : result unit IoError) : Result unit :=
  match nodelay with
  | Err e => Err (Proxy (ForwardingFailed ("Failed to set nodelay: " +:+ io_text e)))
  | Ok _ => Ok tt
  end.

(** Everything that happens to a connection from outside. *)
Record ConnectionCalls := mkConnectionCalls {
  cc_nodelay : result unit IoError;
  cc_keepalive : result unit IoError;
  cc_connect : result unit IoError;
  cc_setup : Setup;
  cc_client_data : list byte;
  cc_server_data : list byte;
  cc_schedule : list event;
  cc_now : Z;
  cc_seed : Z;
  cc_rounds : list round }.

(** [StealthHandler::handle_stealth]: a panic, still running, or its result. *)
Definition handle_stealth_run (c : ConnectionCalls) : outcome (option (result unit ProxyError)) :=
  match handle_stealth (cc_connect c) with
  | Forward =>
      Val (normal_forwarding <$>
             zero_copy_bidirectional (cc_setup c) (cc_client_data c) (cc_server_data c) (cc_schedule c))
  | EnterBlackhole =>
      let! absorbed := stealth_blackhole (cc_now c) (cc_seed c) (cc_rounds c) in
      Val (match snd absorbed with StillRunning => None | _ => Some (Ok tt) end)
  | Fail e => Val (Some (Err e))
  end.

(** [StealthConnectionHandler::handle_connection]; a panic ends the task where
    it is.  The peer's address is read twice: [peer] for the check, [later] for the
    release. *)
Definition handle_connection (h : StealthConnectionHandler) (now : Z) (peer later : option IpAddr)
    (c : ConnectionCalls) (st : State) : outcome (option (Result unit)) * State :=
  match connection_start h now peer (apply_tcp_optimizations (cc_nodelay c) (cc_keepalive c)) st with
  | (Err e, st) => (Val (Some (Err e)), st)
  | (Ok _, st) =>
      match handle_stealth_run c with
      | Panic => (Panic, st)
      | Val None => (Val None, st)
      | Val (Some res) => let '(r, st) := connection_end h later res st in (Val (Some r), st)
      end
  end.

(** Connections one after the other, each to its end. *)
Definition handle_all (h : StealthConnectionHandler) (now : Z) (peer later : option IpAddr)
    (cs : list ConnectionCalls) (st : State) : State :=
  foldl (fun st c => snd (handle_connection h now peer later c st)) st cs.

Lemma handle_connection_refused h now ip c st :
  is_ok (fst (check_security h now ip (ip_stats st))) = false ->
  is_ok (fst (connection_start h now (Some ip) (apply_tcp_optimizations (cc_nodelay c) (cc_keepalive c)) st)) = false.
Proof. intros H. by rewrite connection_start_ok, H. Qed.

(** A connection that the limit leaves room for is counted. *)
Lemma admitted_active h mx now ip m :
  limited h mx -> cps_limit h = None -> ip_allowed h ip = true -> 0 <= active m ip < mx ->
  is_ok (fst (check_security h now ip m)) = true /\
  active (snd (check_security h now ip m)) ip = active m ip + 1.
Proof.
  intros Hl Hcps Hal Ha. destruct (check_security h now ip m) as [r m'] eqn:Hch. simpl.
  destruct (check_counted h mx now ip m r m' ip Hl Hch ltac:(lia)) as (_ & _ & H3).
  assert (is_ok r = true) as Hok; [|split; [done|by apply H3]].
  unfold check_security in Hch. rewrite Hal, Hcps, (proj1 Hl) in Hch.
  rewrite (bool_decide_eq_true_2 (is_Some (Some mx))) in Hch by eauto. simpl in Hch.
  unfold active in Ha. rewrite (proj2 (Z.leb_gt _ _)) in Hch by lia. by injection Hch as <- _.
Qed.

Lemma panicking_connection h mx now ip later c st :
  limited h mx -> cps_limit h = None -> ip_allowed h ip = true -> 0 <= active (ip_stats st) ip < mx ->
  is_ok (cc_nodelay c) = true -> handle_stealth_run c = Panic ->
  active (ip_stats (snd (handle_connection h now (Some ip) later c st))) ip = active (ip_stats st) ip + 1.
Proof.
  intros Hl Hcps Hal Ha Hn Hp.
  destruct (admitted_active h mx now ip (ip_stats st) Hl Hcps Hal Ha) as [Hok Hact].
  pose proof (connection_start_ip_stats h now ip (apply_tcp_optimizations (cc_nodelay c) (cc_keepalive c)) st) as Hst.
  pose proof (connection_start_ok h now ip (apply_tcp_optimizations (cc_nodelay c) (cc_keepalive c)) st) as Hres.
  rewrite Hok in Hres. unfold handle_connection.
  destruct (cc_nodelay c); [|done]. simpl in Hres |- *.
  destruct (connection_start h now (Some ip) _ st) as [[[]|e] st']; [|done]. simpl in Hst |- *.
  rewrite Hp. simpl. by rewrite Hst.
Qed.

Lemma panicking_connections h mx now ip later cs :
  limited h mx -> cps_limit h = None -> ip_allowed h ip = true ->
  Forall (fun c => is_ok (cc_nodelay c) = true /\ handle_stealth_run c = Panic) cs ->
  forall st, 0 <= active (ip_stats st) ip -> active (ip_stats st) ip + Z.of_nat (length cs) <= mx ->
  active (ip_stats (handle_all h now (Some ip) later cs st)) ip = active (ip_stats st) ip + Z.of_nat (length cs).
Proof.
  intros Hl Hcps Hal. induction 1 as [|c cs [Hn Hpan] Hcs IH]; intros st H0 Hle; simpl in Hle; [simpl; lia|].
  pose proof (panicking_connection h mx now ip later c st Hl Hcps Hal ltac:(lia) Hn Hpan) as H1.
  unfold handle_all. cbn [foldl]. fold (handle_all h now (Some ip) later cs (snd (handle_connection h now (Some ip) later c st))).
  rewrite IH; simpl length; lia.
Qed.

(** A panic in the blackhole's clock arithmetic ends the connection's task
    before it gives its slot back: after [max_conns_per_ip] such connections,
    all of them over, every further connection from the address is refused. *)
Theorem panics_lock_out h mx now ip later cs c :
  limited h mx -> cps_limit h = None -> ip_allowed h ip = true ->
  Forall (fun c => is_ok (cc_nodelay c) = true /\ handle_stealth_run c = Panic) cs ->
  Z.of_nat (length cs) = mx ->
  let st := handle_all h now (Some ip) later cs Stealth.initial in
  active (ip_stats st) ip = mx /\
  exists e, fst (handle_connection h now (Some ip) later c st) = Val (Some (Err e)).
Proof.
  intros Hl Hcps Hal Hall Hlen st.
  assert (active (ip_stats st) ip = mx) as Ha.
  { unfold st. assert (active (ip_stats Stealth.initial) ip = 0) as H0 by (unfold active; simpl; by rewrite lookup_empty).
    rewrite (panicking_connections h mx now ip later cs Hl Hcps Hal Hall); lia. }
  split; [done|].
  pose proof (full_refuses h mx (ip_stats st) ip Hl Ha now) as Hf.
  pose proof (handle_connection_refused h now ip c st Hf) as Hr. unfold handle_connection.
  destruct (connection_start h now (Some ip) _ st) as [[[]|e] st']; [done|]. by exists e.
Qed.

(** A server's rejection is hidden: the client's connection is accepted, gets
    no byte and no error, ends as a success and gives its slot back. *)
Theorem rejection_is_hidden h now ip c st e bs en :
  is_ok (fst (check_security h now ip (ip_stats st))) = true -> is_ok (cc_nodelay c) = true ->
  cc_connect c = Err e -> is_io_rejection e = true ->
  stealth_blackhole (cc_now c) (cc_seed c) (cc_rounds c) = Val (bs, en) -> en <> StillRunning ->
  let '(res, st') := handle_connection h now (Some ip) (Some ip) c st in
  res = Val (Some (Ok tt)) /\
  ip_stats st' = register_disconnection h ip (snd (check_security h now ip (ip_stats st))) /\
  counters st' = count_success (count_start (counters st)).
Proof.
  intros Hok Hn Hc Hr Hb He. unfold handle_connection, handle_stealth_run, handle_stealth.
  rewrite Hc, Hr, Hb. simpl. unfold connection_start, connection_end.
  destruct (check_security h now ip (ip_stats st)) as [[[]|] m]; [|done].
  destruct (cc_nodelay c); [|done]. simpl. by destruct en.
Qed.

(** ** Witnesses *)

Definition sample_setup : Setup := mkSetup (Ok tt) (Ok tt) (Done (Ok tt)).
Definition sample_reply : list byte := map z_byte [9].
Definition again : IoError := mkIoError WouldBlock "again".
Definition sample_before : list event := [C2S (Moved 2)].
Definition sample_after : list event :=
  [S2C (Moved 1); C2S (Moved 1); S2C (Failed again); C2S (Moved 1); S2C (Moved 1); C2S (Moved 1);
   C2S (Moved 1); C2S Zero; S2C Zero; C2S Zero].

(** A connection whose blackhole reads the clock on both sides of its end. *)
Definition refused : IoError := mkIoError ConnectionRefused "Connection refused (os error 111)".
Definition racing : ConnectionCalls :=
  mkConnectionCalls (Ok tt) (Ok tt) (Err refused) sample_setup [] [] [] 0 0
    [mkRound (pseudo_random_range 0 5 30 * 10 ^ 9 - 1) (pseudo_random_range 0 5 30 * 10 ^ 9 + 1) None 0].
Definition rejected : ConnectionCalls :=
  mkConnectionCalls (Ok tt) (Ok tt) (Err refused) sample_setup [] [] [] 0 0
    sample_rounds.

Theorem forward_refines_channels_witness :
  sink (work (c2s (zero_copy_run (session_start sample_data sample_reply) (sample_before ++ sample_after))))
    `prefix_of` sample_data.
Proof.
  apply (forward_refines_channels sample_setup sample_data sample_reply
    (session_start sample_data sample_reply) (sample_before ++ sample_after)). reflexivity.
Defined.

Lemma sample_flawless :
  flawless 16 8 sample_data (c2s_replies (sample_before ++ PipeMade (Done (Ok tt)) :: sample_after)) /\
  flawless 16 8 sample_reply (s2c_replies sample_after).
Proof. split; vm_compute; intuition (try lia; try discriminate). Qed.

Theorem forward_complete_witness :
  zero_copy_bidirectional sample_setup sample_data sample_reply
    (sample_before ++ PipeMade (Done (Ok tt)) :: sample_after) = Some (Ok (3, 1)).
Proof.
  apply (forward_complete 16 8 sample_setup sample_data sample_reply sample_before sample_after).
  - lia.
  - repeat constructor.
  - repeat constructor.
  - exact (proj1 sample_flawless).
  - exact (proj2 sample_flawless).
  - reflexivity.
  - vm_compute. by split.
  - vm_compute. by split.
Defined.

Theorem platforms_agree_witness :
  exists to_client to_server,
    ZeroCopy.bulk_copy_bidirectional (Ok tt) (Ok tt) [Got sample_data; Eof] [Got sample_reply; Eof] open_sink open_sink =
      (Some (Ok (3, 1)), to_client, to_server) /\ sk_out to_server = sample_data.
Proof.
  destruct (platforms_agree 16 8 [Got sample_data; Eof] [Got sample_reply; Eof] sample_before sample_after)
    as (res & tc & ts & t & Hr & H1 & _ & H2 & _).
  - lia.
  - repeat constructor.
  - repeat constructor.
  - reflexivity.
  - reflexivity.
  - vm_compute. by split.
  - vm_compute. by split.
  - exact (proj1 sample_flawless).
  - exact (proj2 sample_flawless).
  - vm_compute in Hr. injection Hr as <-. exists tc, ts. split; [exact H1|]. rewrite <- H2. vm_compute. reflexivity.
Defined.

Theorem second_pipe_failure_half_open_witness :
  let s := zero_copy_run (session_start sample_data sample_reply)
             (sample_before ++ PipeMade (Done (Err (mkIoError OtherKind "Too many open files"))) :: sample_after) in
  at_stage s = Returned (Err (Io (mkIoError OtherKind "Too many open files"))) /\ s2c s = None.
Proof.
  destruct (second_pipe_failure_half_open sample_data sample_reply sample_before sample_after
    (Done (Err (mkIoError OtherKind "Too many open files"))) (Io (mkIoError OtherKind "Too many open files")))
    as (H1 & _ & H2); [repeat constructor|repeat constructor|reflexivity|].
  split; [exact H1|exact H2].
Defined.

Theorem panics_lock_out_witness :
  active (ip_stats (handle_all sample_handler 0 (Some sample_ip) (Some sample_ip) [racing; racing] Stealth.initial)) sample_ip = 2.
Proof.
  apply (panics_lock_out sample_handler 2 0 sample_ip (Some sample_ip) [racing; racing] rejected sample_limited);
    [reflexivity|reflexivity| |reflexivity].
  repeat constructor; vm_compute; reflexivity.
Defined.

Theorem rejection_is_hidden_witness :
  fst (handle_connection sample_handler 0 (Some sample_ip) (Some sample_ip) rejected Stealth.initial) = Val (Some (Ok tt)).
Proof.
  pose proof (rejection_is_hidden sample_handler 0 sample_ip rejected Stealth.initial refused [z_byte 1] _
    eq_refl eq_refl eq_refl eq_refl ltac:(vm_compute; reflexivity) ltac:(discriminate)) as H.
  destruct (handle_connection sample_handler 0 (Some sample_ip) (Some sample_ip) rejected Stealth.initial) as [res st].
  exact (proj1 H).
Defined.
