(* ===== verification/UdpRelay.v ===== *)
(** * UdpRelay: the UDP sessions of a forward rule
    (src/src/proxy/stealth_connection_handler.rs, [handle_udp_packet])

    Each client address has a session: a socket connected to the remote server
    and a spawned relay task that sends what comes back to the client.  The
    datagrams themselves, the relay tasks and the session table are one system;
    its events are a datagram from a client (handled under the table's lock), a
    relay's poll, what its [recv] gives, and its clean-up.  Sockets are numbers,
    which the operating system may use again once a socket is closed. *)

From Stdlib Require Import Ascii String ZArith Lia.
From stdpp Require Import base gmap strings list.
From S2P Require Import Prelude Text NetAddr Errors Stealth.

(** ** State *)

(** About to wait for a reply, waiting until a deadline, or out of the loop and
    about to lock the table. *)
Inductive relay_phase : Type := Polling | Receiving (deadline : Z) | CleaningUp.

Record relay := mkRelay { r_client : SocketAddr; r_phase : relay_phase }.

Record system := mkSystem {
  handler_state : State;
  relays : gmap nat relay;
  to_remote : list (SocketAddr * nat * list byte);   (** whose datagram, over which socket *)
  to_clients : list (SocketAddr * nat * list byte) }.

Definition initial_system : system := mkSystem initial ∅ [] [].

Inductive udp_event : Type :=
| Packet (client_addr : SocketAddr) (now : Z) (data : list byte) (calls : UdpCalls)
| Poll (socket : nat) (now : Z)
| Reply (socket : nat) (data : list byte) (sent : result unit IoError)
| RecvError (socket : nat) (e : IoError)
| Timeout (socket : nat) (now : Z)
| Cleanup (socket : nat).

(** The timeout of a [recv] and the size of its buffer. *)
Definition RELAY_TIMEOUT : Z := 60 * second.
Definition RELAY_BUFFER : nat := Z.to_nat 65535.

(** ** Operations *)

Definition set_phase (socket : nat) (r : relay) (p : relay_phase) (s : system) : system :=
  mkSystem (handler_state s) (<[socket := mkRelay (r_client r) p]> (relays s)) (to_remote s) (to_clients s).

(** A datagram of a client: [handle_udp_packet], with the relay of a new session
    spawned. *)
Definition packet (h : StealthConnectionHandler) (client_addr : SocketAddr) (now : Z) (data : list byte)
    (calls : UdpCalls) (s : system) : Result unit * system :=
  let before := udp_sessions (handler_state s) !! client_addr in
  let '(res, st) := handle_udp_packet h now client_addr calls (handler_state s) in
  let after := udp_sessions st !! client_addr in
  (res,
   mkSystem st
     (match before, after with
      | None, Some socket => <[socket := mkRelay client_addr Polling]> (relays s)
      | _, _ => relays s
      end)
     (match res, after with
      | Ok _, Some socket => to_remote s ++ [(client_addr, socket, data)]
      | _, _ => to_remote s
      end)
     (to_clients s)).

(** One step of the relay that owns [socket]; nothing happens in the wrong phase. *)
Definition relay_step (socket : nat) (r : relay) (e : udp_event) (s : system) : system :=
  match e, r_phase r with
  | Poll _ now, Polling => set_phase socket r (Receiving (now + RELAY_TIMEOUT)) s
  | Reply _ data sent, Receiving _ =>
      match sent with
      | Ok _ =>
          let s := set_phase socket r Polling s in
          mkSystem (handler_state s) (relays s) (to_remote s)
            (to_clients s ++ [(r_client r, socket, take RELAY_BUFFER data)])
      | Err _ => set_phase socket r CleaningUp s
      end
  | RecvError _ _, Receiving _ => set_phase socket r CleaningUp s
  | Timeout _ now, Receiving deadline =>
      if deadline <=? now then set_phase socket r CleaningUp s else s
  | Cleanup _, CleaningUp =>
      mkSystem (udp_session_end (r_client r) (handler_state s)) (delete socket (relays s))
        (to_remote s) (to_clients s)
  | _, _ => s
  end.

Definition udp_step (h : StealthConnectionHandler) (s : system) (e : udp_event) : system :=
  match e with
  | Packet client_addr now data calls => snd (packet h client_addr now data calls s)
  | Poll socket _ | Reply socket _ _ | RecvError socket _ | Timeout socket _ | Cleanup socket =>
      match relays s !! socket with Some r => relay_step socket r e s | None => s end
  end.

Definition udp_run (h : StealthConnectionHandler) (s : system) (es : list udp_event) : system :=
  foldl (udp_step h) s es.

(** The operating system never hands out the number of an open socket. *)
Definition fresh_socket (s : system) (e : udp_event) : Prop :=
  match e with
  | Packet _ _ _ calls => forall socket, uc_bind calls = Ok socket -> relays s !! socket = None
  | _ => True
  end.

Fixpoint fresh_sockets (h : StealthConnectionHandler) (s : system) (es : list udp_event) : Prop :=
  match es with
  | [] => True
  | e :: es => fresh_socket s e /\ fresh_sockets h (udp_step h s e) es
  end.

(** ** The session table and the relays *)

(** Sessions and relays are the same one-to-one relation. *)
Definition sessions_match (s : system) : Prop :=
  forall client_addr socket,
    udp_sessions (handler_state s) !! client_addr = Some socket <->
    exists r, relays s !! socket = Some r /\ r_client r = client_addr.

(** What a datagram does to the table. *)
Lemma handle_udp_packet_sessions h now a calls st :
  let st' := snd (handle_udp_packet h now a calls st) in
  udp_sessions st' = udp_sessions st \/
  (exists socket, udp_sessions st !! a = None /\ uc_bind calls = Ok socket /\
     udp_sessions st' = <[a := socket]> (udp_sessions st)).
Proof.
  unfold handle_udp_packet. destruct (check_security h now (sa_ip a) (ip_stats st)) as [[] m]; [|by left].
  simpl. destruct (udp_sessions st !! a) eqn:Ha; [by left|].
  destruct (uc_bind calls) as [socket|] eqn:Hb; [|by left].
  destruct (uc_connect calls); [|by left]. right. by exists socket.
Qed.

Lemma packet_matches h a now data calls s :
  fresh_socket s (Packet a now data calls) -> sessions_match s ->
  sessions_match (snd (packet h a now data calls s)).
Proof.
  intros Hf Hm. unfold packet.
  pose proof (handle_udp_packet_sessions h now a calls (handler_state s)) as Hs.
  destruct (handle_udp_packet h now a calls (handler_state s)) as [res st]. simpl in Hs |- *.
  intros b k. simpl. destruct Hs as [-> | (socket & Hn & Hb & ->)].
  - rewrite (Hm b k). by destruct (udp_sessions (handler_state s) !! a).
  - rewrite Hn, lookup_insert_eq. specialize (Hf socket Hb). destruct (decide (k = socket)) as [->|Hne].
    + rewrite lookup_insert_eq. destruct (decide (b = a)) as [->|Hab].
      * rewrite lookup_insert_eq. split; [|done]. intros _. by eexists.
      * rewrite lookup_insert_ne by done. rewrite (Hm b socket). split.
        -- intros (r & Hr & _). by rewrite Hf in Hr.
        -- intros (r & [= <-] & Hr). by destruct Hab.
    + rewrite (lookup_insert_ne (relays s)) by done. destruct (decide (b = a)) as [->|Hab].
      * rewrite lookup_insert_eq. split; [intros [= <-]; done|].
        intros Hr. apply Hm in Hr. by rewrite Hn in Hr.
      * rewrite lookup_insert_ne by done. apply Hm.
Qed.

Lemma set_phase_matches k r p s :
  relays s !! k = Some r -> sessions_match s -> sessions_match (set_phase k r p s).
Proof.
  intros Hr Hm b j. simpl. rewrite (Hm b j). destruct (decide (j = k)) as [->|Hne].
  - rewrite lookup_insert_eq, Hr. split; intros (x & [= <-] & <-); by eexists.
  - by rewrite lookup_insert_ne.
Qed.

Lemma cleanup_matches k r s :
  relays s !! k = Some r -> sessions_match s ->
  sessions_match (mkSystem (udp_session_end (r_client r) (handler_state s)) (delete k (relays s))
    (to_remote s) (to_clients s)).
Proof.
  intros Hr Hm b j. simpl. destruct (decide (b = r_client r)) as [->|Hb].
  - rewrite lookup_delete_eq. split; [done|]. intros (x & Hx & Hc).
    destruct (decide (j = k)) as [->|Hj]; [by rewrite lookup_delete_eq in Hx|].
    rewrite lookup_delete_ne in Hx by done.
    assert (udp_sessions (handler_state s) !! r_client r = Some j) as H1 by (apply Hm; by eexists).
    assert (udp_sessions (handler_state s) !! r_client r = Some k) as H2 by (apply Hm; by eexists).
    congruence.
  - rewrite lookup_delete_ne by done. rewrite (Hm b j). destruct (decide (j = k)) as [->|Hj].
    + rewrite lookup_delete_eq, Hr. split; intros (x & [= <-] & Hx); by destruct Hb.
    + by rewrite lookup_delete_ne.
Qed.

Lemma relay_step_matches k r e s :
  relays s !! k = Some r -> sessions_match s -> sessions_match (relay_step k r e s).
Proof.
  intros Hr Hm. unfold relay_step.
  destruct e as [| | ? data []| | |], (r_phase r); try done; try (by apply set_phase_matches).
  - case_if; [by apply set_phase_matches|done].
  - by apply cleanup_matches.
Qed.

Lemma udp_step_matches h s e : fresh_socket s e -> sessions_match s -> sessions_match (udp_step h s e).
Proof.
  intros Hf Hm. destruct e; cbn [udp_step]; [by apply packet_matches|..];
    (destruct (relays s !! socket) as [r|] eqn:Hr; [exact (relay_step_matches socket r _ s Hr Hm)|exact Hm]).
Qed.

Lemma udp_run_matches h s es : fresh_sockets h s es -> sessions_match s -> sessions_match (udp_run h s es).
Proof.
  revert s. induction es as [|e es IH]; intros s; [done|]. intros [He Hes] Hm.
  apply IH; [done|]. by apply udp_step_matches.
Qed.

Lemma initial_matches : sessions_match initial_system.
Proof. intros a k. simpl. rewrite !lookup_empty. split; [done|]. by intros (r & ? & _). Qed.

(** ** Properties *)

(** C12. The UDP sessions of a rule are isolated: under every interleaving of
    datagrams, replies, timeouts and clean-ups, sessions and relays stay one to
    one, and a reply that goes out to a client came over the very socket its
    session sends on, cut to the buffer and otherwise unchanged. *)
Theorem udp_sessions_isolated h es e :
  fresh_sockets h initial_system (es ++ [e]) ->
  let s := udp_run h initial_system es in
  sessions_match s /\
  (to_clients (udp_step h s e) = to_clients s \/
   exists socket data client_addr,
     e = Reply socket data (Ok tt) /\
     udp_sessions (handler_state s) !! client_addr = Some socket /\
     to_clients (udp_step h s e) = to_clients s ++ [(client_addr, socket, take RELAY_BUFFER data)]).
Proof.
  intros Hf s. assert (sessions_match s) as Hm.
  { apply udp_run_matches; [|apply initial_matches]. revert Hf. generalize initial_system.
    induction es as [|x es IH]; intros s0; [done|]. intros [H1 H2]. split; [done|by apply IH]. }
  split; [done|]. destruct e as [a now data calls|k now|k data sent|k err|k now|k]; cbn [udp_step].
  { left. unfold packet. by destruct (handle_udp_packet h now a calls (handler_state s)). }
  all: destruct (relays s !! k) as [r|] eqn:Hr; [|by left]; unfold relay_step; destruct (r_phase r) eqn:Hp;
    try (by left).
  - destruct sent as [[]|]; [|by left]. right. exists k, data, (r_client r).
    split; [done|]. split; [|done]. apply Hm. by exists r.
  - case_if; by left.
Qed.

(** A relay's table entry is only touched by its own events. *)
Lemma packet_keeps_relay h a now data calls s k r :
  fresh_socket s (Packet a now data calls) -> relays s !! k = Some r ->
  relays (snd (packet h a now data calls s)) !! k = Some r.
Proof.
  intros Hf Hr. unfold packet. pose proof (handle_udp_packet_sessions h now a calls (handler_state s)) as Hs.
  destruct (handle_udp_packet h now a calls (handler_state s)) as [res st]. simpl in Hs |- *.
  destruct Hs as [-> | (socket & Hn & Hb & ->)].
  - by destruct (udp_sessions (handler_state s) !! a).
  - rewrite Hn, lookup_insert_eq. specialize (Hf socket Hb).
    rewrite lookup_insert_ne; [done|]. intros ->. congruence.
Qed.

Lemma packets_keep_relay h es s k r :
  Forall (fun e => match e with Packet _ _ _ _ => True | _ => False end) es ->
  fresh_sockets h s es -> relays s !! k = Some r -> relays (udp_run h s es) !! k = Some r.
Proof.
  intros Hp. revert s. induction Hp as [|[] es]; intros s Hf Hr; try done.
  destruct Hf as [Hf Hfs]. apply IHHp; [done|]. by apply packet_keeps_relay.
Qed.

(** A session ends sixty seconds after the last reply however busy its
    client is: datagrams, whoever sends them and however many, do not move the
    relay's deadline, so with a silent server the session is dropped when it is
    over. *)
Theorem udp_expiry_ignores_client h s k a deadline now es :
  sessions_match s -> relays s !! k = Some (mkRelay a (Receiving deadline)) ->
  Forall (fun e => match e with Packet _ _ _ _ => True | _ => False end) es -> fresh_sockets h s es ->
  deadline <= now ->
  udp_sessions (handler_state (udp_run h s es)) !! a = Some k /\
  udp_sessions (handler_state (udp_run h s (es ++ [Timeout k now; Cleanup k]))) !! a = None.
Proof.
  intros Hm Hr Hp Hf Hd. pose proof (packets_keep_relay h es s k _ Hp Hf Hr) as Hk.
  split; [apply (udp_run_matches h s es Hf Hm); by eexists|].
  unfold udp_run in *. rewrite foldl_app. cbn [foldl]. set (s1 := foldl (udp_step h) s es) in *.
  assert (udp_step h s1 (Timeout k now) = set_phase k (mkRelay a (Receiving deadline)) CleaningUp s1) as ->.
  { cbn [udp_step]. rewrite Hk. unfold relay_step. cbn [r_phase]. by rewrite (proj2 (Z.leb_le _ _) Hd). }
  cbn [udp_step set_phase relays]. rewrite lookup_insert_eq. simpl. apply lookup_delete_eq.
Qed.

(** A datagram that arrives between the end of a relay's loop and its
    clean-up is accepted and sent over the socket nobody reads any more: no
    reply to it is ever passed on. *)
Theorem udp_closing_window h s k a now data calls res s' :
  sessions_match s -> relays s !! k = Some (mkRelay a CleaningUp) ->
  packet h a now data calls s = (Ok res, s') ->
  to_remote s' = to_remote s ++ [(a, k, data)] /\
  (forall more reply sent, Forall (fun e => e <> Cleanup k) more -> fresh_sockets h s' more ->
     udp_step h (udp_run h s' more) (Reply k reply sent) = udp_run h s' more).
Proof.
  intros Hm Hr Hp.
  assert (udp_sessions (handler_state s) !! a = Some k) as Hs by (apply Hm; by eexists).
  assert (to_remote s' = to_remote s ++ [(a, k, data)] /\ relays s' !! k = Some (mkRelay a CleaningUp)) as [H1 H2].
  { unfold packet in Hp. pose proof (handle_udp_packet_sessions h now a calls (handler_state s)) as Hh.
    destruct (handle_udp_packet h now a calls (handler_state s)) as [res' st]. simpl in Hh.
    destruct Hh as [Hst | (socket & Hn & _)]; [|congruence].
    rewrite Hst, Hs in Hp. injection Hp as -> <-. by split. }
  split; [done|]. clear Hp Hs Hr Hm H1 res. intros more reply sent Hmore. revert s' H2.
  induction Hmore as [|e more He _ IH]; intros s' H2 Hf.
  - simpl. by rewrite H2.
  - destruct Hf as [Hf Hfs]. apply IH; [|done].
    destruct e as [b t d c|j t|j d x|j x|j t|j]; [by apply packet_keeps_relay|..]; cbn [udp_step];
      destruct (relays s' !! j) as [r|] eqn:Hj; try done;
      (destruct (decide (j = k)) as [->|Hne];
        [rewrite H2 in Hj; injection Hj as <-; done|]);
      unfold relay_step, set_phase; repeat case_match; cbn [relays]; rewrite ?lookup_insert_ne, ?lookup_delete_ne; done.
Qed.

(** ** Witnesses *)

Definition udp_client : SocketAddr := mkSocketAddr sample_ip 5000.
Definition open_handler : StealthConnectionHandler :=
  mkHandler (mkSocketAddr (V4 10 0 0 1) 53) None None None None.
Definition ping : list byte := map z_byte [1; 2].
Definition one_session : list udp_event := [Packet udp_client 0 ping sample_calls; Poll 1 0].

(** The second datagram would bind another socket. *)
Definition other_calls : UdpCalls := mkUdpCalls (Ok 2%nat) (Ok tt) (Ok tt).

Lemma one_session_fresh es :
  fresh_sockets open_handler (udp_run open_handler initial_system one_session) es ->
  fresh_sockets open_handler initial_system (one_session ++ es).
Proof. intros H. split; [|split; [done|exact H]]. intros k _. apply lookup_empty. Qed.

Lemma one_session_matches : sessions_match (udp_run open_handler initial_system one_session).
Proof.
  apply udp_run_matches; [|apply initial_matches].
  rewrite <- (app_nil_r one_session). by apply one_session_fresh.
Qed.

Theorem udp_sessions_isolated_witness :
  to_clients (udp_run open_handler initial_system (one_session ++ [Reply 1 ping (Ok tt)])) = [(udp_client, 1%nat, ping)].
Proof.
  destruct (udp_sessions_isolated open_handler one_session (Reply 1 ping (Ok tt))) as [_ [H|H]].
  - by apply one_session_fresh.
  - apply (f_equal length) in H. vm_compute in H. discriminate.
  - vm_compute. reflexivity.
Defined.

Theorem udp_expiry_ignores_client_witness :
  udp_sessions (handler_state (udp_run open_handler (udp_run open_handler initial_system one_session)
    ([Packet udp_client (59 * second) ping other_calls] ++ [Timeout 1 (60 * second); Cleanup 1]))) !! udp_client = None.
Proof.
  apply (udp_expiry_ignores_client open_handler _ 1 udp_client (60 * second) (60 * second)).
  - apply one_session_matches.
  - vm_compute. reflexivity.
  - repeat constructor.
  - split; [|done]. intros k [= <-]. vm_compute. reflexivity.
  - lia.
Defined.

Theorem udp_closing_window_witness :
  exists s',
  to_remote s' = [(udp_client, 1%nat, ping); (udp_client, 1%nat, ping)] /\
  udp_step open_handler s' (Reply 1 ping (Ok tt)) = s'.
Proof.
  set (s := udp_run open_handler initial_system (one_session ++ [Timeout 1 (60 * second)])).
  destruct (udp_closing_window open_handler s 1 udp_client (60 * second) ping other_calls tt
    (snd (packet open_handler udp_client (60 * second) ping other_calls s))) as [H1 H2].
  - unfold s. apply udp_run_matches; [|apply initial_matches]. by apply one_session_fresh.
  - vm_compute. reflexivity.
  - vm_compute. reflexivity.
  - eexists. split; [exact H1|]. exact (H2 [] ping (Ok tt) (Forall_nil_2 _) I).
Defined.
