(* ===== verification/Concurrent.v ===== *)
(** * Concurrent: the connections of one rule at the same time
    (src/src/proxy/server.rs, stealth_connection_handler.rs, stealth_handler.rs)

    Every connection an instance accepts is a task of its own; the tasks share
    the handler.  [Forward.handle_connection] is one task alone; here any number
    of them run interleaved, each with its own calls and its own two splice
    threads, beside the UDP packets of the rule.  A task reads its peer's address
    twice, for the check and for the release, and either read may fail. *)

From Stdlib Require Import Ascii String ZArith Lia.
From stdpp Require Import base gmap gmultiset strings list relations.
From S2P Require Import Prelude Text NetAddr Errors Channels Blackhole Stealth Copy Splice Forward.

(** ** State *)

(** Where a task is: about to connect, forwarding, in the blackhole since a time
    with a seed, back from [handle_stealth], lost to a panic, returned. *)
Inductive task : Type :=
| Dialing
| Forwarding
| Absorbing (now seed : Z)
| Answered (res : result unit ProxyError)
| Died
| Ended (r : Result unit).

(** [cn_ip], [cn_later]: the peer's address as it was read for the access check and
    as it was read for the release; [cn_slot]: the check counted the connection and
    no [register_disconnection] has taken it off; [cn_session]: its splice threads,
    which can outlive the task. *)
Record connection := mkConnection {
  cn_ip : option IpAddr;
  cn_later : option IpAddr;
  cn_data : list byte;
  cn_slot : bool;
  cn_task : task;
  cn_session : option session }.

Record live := mkLive { l_state : State; l_conns : gmap nat connection }.

Definition quiet : live := mkLive Stealth.initial ∅.

(** ** Steps *)

Inductive own_event : Type :=
| Dial (connected : result unit IoError) (setup : Setup) (server_data : list byte) (now seed : Z)
| Kernel (e : Forward.event)
| Round (r : round)
| Finish.

Definition with_task (t : task) (c : connection) : connection :=
  mkConnection (cn_ip c) (cn_later c) (cn_data c) (cn_slot c) t (cn_session c).

(** [handle_stealth] has connected or not. *)
Definition dial (connected : result unit IoError) (setup : Setup) (server_data : list byte) (now seed : Z)
    (c : connection) : connection :=
  match handle_stealth connected with
  | Forward =>
      match zero_copy_start setup (cn_data c) server_data with
      | Ok s => mkConnection (cn_ip c) (cn_later c) (cn_data c) (cn_slot c) Forwarding (Some s)
      | Err e => with_task (Answered (normal_forwarding (Err e))) c
      end
  | EnterBlackhole => with_task (Absorbing now seed) c
  | Fail e => with_task (Answered (Err e)) c
  end.

(** A reply to one of the splice threads; the task goes on when
    [zero_copy_bidirectional] has returned. *)
Definition kernel (e : Forward.event) (c : connection) : connection :=
  match cn_session c with
  | None => c
  | Some s =>
      let s := zero_copy_step s e in
      mkConnection (cn_ip c) (cn_later c) (cn_data c) (cn_slot c)
        (match cn_task c, at_stage s with
         | Forwarding, Returned r => Answered (normal_forwarding r)
         | t, _ => t
         end) (Some s)
  end.

(** One round of the blackhole. *)
Definition absorb (now seed : Z) (r : round) : task :=
  match stealth_blackhole now seed [r] with
  | Panic => Died
  | Val (_, StillRunning) => Absorbing now seed
  | Val _ => Answered (Ok tt)
  end.

Definition own_step (c : connection) (e : own_event) : connection :=
  match e with
  | Dial connected setup server_data now seed =>
      match cn_task c with Dialing => dial connected setup server_data now seed c | _ => c end
  | Kernel e => kernel e c
  | Round r => match cn_task c with Absorbing now seed => with_task (absorb now seed r) c | _ => c end
  | Finish =>
      match cn_task c with
      | Answered res =>
          mkConnection (cn_ip c) (cn_later c) (cn_data c) (match cn_later c with Some _ => false | None => cn_slot c end)
            (Ended (map_err Proxy res)) (cn_session c)
      | _ => c
      end
  end.

(** What a step of a connection does to the shared state. *)
Definition own_effect (h : StealthConnectionHandler) (c : connection) (e : own_event) (st : State) : State :=
  match e with
  | Finish => match cn_task c with Answered res => snd (connection_end h (cn_later c) res st) | _ => st end
  | _ => st
  end.

Inductive live_event : Type :=
| Arrive (id : nat) (peer later : option IpAddr) (now : Z) (nodelay keepalive : result unit IoError) (data : list byte)
| Own (id : nat) (e : own_event)
| Datagram (addr : SocketAddr) (now : Z) (calls : UdpCalls)
| SessionOver (addr : SocketAddr).

(** The task spawned for an accepted connection, up to its call of
    [handle_stealth]: [peer] and [later] are the answers of its two
    [client.peer_addr()]. *)
Definition arrive (h : StealthConnectionHandler) (peer later : option IpAddr) (now : Z)
    (nodelay keepalive : result unit IoError) (data : list byte) (st : State) : connection * State :=
  let '(r, st') := connection_start h now peer (apply_tcp_optimizations nodelay keepalive) st in
  (mkConnection peer later data
     (match peer with Some ip => is_ok (fst (check_security h now ip (ip_stats st))) | None => false end)
     (match r with Ok _ => Dialing | Err e => Ended (Err e) end) None, st').

Definition live_step (h : StealthConnectionHandler) (s : live) (e : live_event) : live :=
  match e with
  | Arrive id peer later now nodelay keepalive data =>
      match l_conns s !! id with
      | Some _ => s
      | None =>
          let '(c, st) := arrive h peer later now nodelay keepalive data (l_state s) in
          mkLive st (<[id := c]> (l_conns s))
      end
  | Own id e =>
      match l_conns s !! id with
      | Some c => mkLive (own_effect h c e (l_state s)) (<[id := own_step c e]> (l_conns s))
      | None => s
      end
  | Datagram addr now calls => mkLive (snd (handle_udp_packet h now addr calls (l_state s))) (l_conns s)
  | SessionOver addr => mkLive (udp_session_end addr (l_state s)) (l_conns s)
  end.

Definition live_run (h : StealthConnectionHandler) (s : live) (es : list live_event) : live :=
  foldl (live_step h) s es.

Definition own_run (c : connection) (es : list own_event) : connection := foldl own_step c es.

(** ** Connections do not interfere *)

Definition events_of (id : nat) (es : list live_event) : list own_event :=
  omap (fun e => match e with Own id' e => if decide (id' = id) then Some e else None | _ => None end) es.

Lemma live_step_projects h s e id c :
  l_conns s !! id = Some c -> l_conns (live_step h s e) !! id = Some (own_run c (events_of id [e])).
Proof.
  intros Hc. destruct e as [id' ip later now nd ka data|id' e|addr now calls|addr]; try done; simpl.
  - destruct (l_conns s !! id') eqn:Hid; [done|].
    destruct (arrive h ip later now nd ka data (l_state s)). simpl. rewrite lookup_insert_ne; [done|congruence].
  - case_decide as Hd; simpl.
    + subst id'. rewrite Hc. simpl. by rewrite lookup_insert_eq.
    + destruct (l_conns s !! id'); [|done]. simpl. by rewrite lookup_insert_ne.
Qed.

(** Once it has arrived, what becomes of a connection is decided by its own
    events, whatever happens between them. *)
Lemma live_run_projects h s es id c :
  l_conns s !! id = Some c -> l_conns (live_run h s es) !! id = Some (own_run c (events_of id es)).
Proof.
  revert s c. induction es as [|e es IH]; intros s c Hc; [done|].
  change (live_run h s (e :: es)) with (live_run h (live_step h s e) es).
  rewrite (IH _ _ (live_step_projects h s e id c Hc)). f_equal.
  change (e :: es) with ([e] ++ es). unfold events_of, own_run. by rewrite omap_app, foldl_app.
Qed.

(** ** One connection alone *)

(** The events of a connection with the calls [c]. *)
Definition body (c : ConnectionCalls) : list own_event :=
  Dial (cc_connect c) (cc_setup c) (cc_server_data c) (cc_now c) (cc_seed c) ::
  match handle_stealth (cc_connect c) with
  | Forward => map Kernel (cc_schedule c)
  | EnterBlackhole => map Round (cc_rounds c)
  | Fail _ => []
  end.

Lemma returned_stays s es r : at_stage s = Returned r -> at_stage (zero_copy_run s es) = Returned r.
Proof.
  revert s. induction es as [|e es IH]; intros s H; [done|]. apply IH.
  unfold zero_copy_step, settle, second_pipe. destruct e; simpl; rewrite ?H; simpl; by rewrite ?H.
Qed.

Lemma own_run_cons c e es : own_run c (e :: es) = own_run (own_step c e) es.
Proof. done. Qed.

Lemma kernel_keeps_task c es :
  cn_task c <> Forwarding -> cn_task (own_run c (map Kernel es)) = cn_task c.
Proof.
  revert c. induction es as [|e es IH]; intros c Ht; [done|]. cbn [map]. rewrite own_run_cons.
  assert (cn_task (own_step c (Kernel e)) = cn_task c) as He.
  { simpl. unfold kernel. destruct (cn_session c); [|done]. simpl. by destruct (cn_task c). }
  rewrite IH; by rewrite He.
Qed.

Lemma kernel_forwards c s es :
  cn_task c = Forwarding -> cn_session c = Some s -> (forall r, at_stage s <> Returned r) ->
  cn_task (own_run c (map Kernel es)) =
  match at_stage (zero_copy_run s es) with
  | Returned r => Answered (normal_forwarding r)
  | _ => Forwarding
  end.
Proof.
  revert c s. induction es as [|e es IH]; intros c s Ht Hc Hs.
  - simpl. rewrite Ht. by destruct (at_stage s) eqn:H; [..|destruct (Hs res)].
  - cbn [map]. rewrite own_run_cons. change (zero_copy_run s (e :: es)) with (zero_copy_run (zero_copy_step s e) es).
    simpl. unfold kernel. rewrite Hc, Ht. destruct (at_stage (zero_copy_step s e)) as [| |r] eqn:He.
    1,2: apply IH; [done|done|]; intros r; by rewrite He.
    rewrite kernel_keeps_task by done. by rewrite (returned_stays _ es r He).
Qed.

Lemma kernel_run_session c s es :
  cn_session c = Some s -> cn_session (own_run c (map Kernel es)) = Some (zero_copy_run s es).
Proof.
  revert c s. induction es as [|e es IH]; intros c s Hc; [done|]. cbn [map]. rewrite own_run_cons.
  apply (IH _ (zero_copy_step s e)). simpl. unfold kernel. by rewrite Hc.
Qed.

Lemma kernel_without_session c es : cn_session c = None -> own_run c (map Kernel es) = c.
Proof.
  intros Hc. induction es as [|e es IH]; [done|]. cbn [map]. rewrite own_run_cons. simpl.
  unfold kernel. by rewrite Hc.
Qed.

Lemma elapsed_loop_cons start delay r rounds :
  elapsed_loop start delay (r :: rounds) =
  match elapsed_loop start delay [r] with
  | Val (data, StillRunning) => let! x := elapsed_loop start delay rounds in Val (data ++ fst x, snd x)
  | x => x
  end.
Proof.
  cbn [elapsed_loop]. destruct (r_check r - start <? delay); [|done].
  destruct (delay <? r_again r - start); [done|].
  destruct (select_read _ r) as [t [[[|b data]|e]|]]; try done. simpl. by rewrite app_nil_r.
Qed.

Lemma rounds_keep_task c rounds :
  (forall now seed, cn_task c <> Absorbing now seed) -> own_run c (map Round rounds) = c.
Proof.
  intros Hc. induction rounds as [|r rounds IH]; [done|]. cbn [map]. rewrite own_run_cons. simpl.
  destruct (cn_task c) eqn:Ht; try done. by destruct (Hc now seed).
Qed.

Lemma blackhole_run c now seed rounds :
  cn_task c = Absorbing now seed ->
  cn_task (own_run c (map Round rounds)) =
  match stealth_blackhole now seed rounds with
  | Panic => Died
  | Val (_, StillRunning) => Absorbing now seed
  | Val _ => Answered (Ok tt)
  end.
Proof.
  revert c. induction rounds as [|r rounds IH]; intros c Hc; [done|]. cbn [map]. rewrite own_run_cons.
  simpl. rewrite Hc. unfold absorb, stealth_blackhole in *. rewrite (elapsed_loop_cons _ _ r rounds).
  destruct (elapsed_loop now _ [r]) as [[bs []]|]; try (by rewrite rounds_keep_task).
  rewrite IH by done. by destruct (elapsed_loop now _ rounds) as [[? []]|].
Qed.

(** A task between its admission and its end does what [handle_stealth] does. *)
Lemma body_run peer later c slot :
  let t := cn_task (own_run (mkConnection peer later (cc_client_data c) slot Dialing None) (body c)) in
  match handle_stealth_run c with
  | Panic => t = Died
  | Val None => (forall res, t <> Answered res) /\ forall r, t <> Ended r
  | Val (Some res) => t = Answered res
  end.
Proof.
  unfold body. rewrite own_run_cons. cbn [own_step cn_task]. unfold dial, handle_stealth_run.
  destruct (handle_stealth (cc_connect c)) as [| |e]; [| |done].
  - unfold zero_copy_bidirectional. cbn [cn_data cn_ip cn_slot].
    destruct (zero_copy_start _ _ _) as [s|e] eqn:Hs; [|by rewrite kernel_without_session].
    pose proof (zero_copy_start_ok _ _ _ _ Hs) as ->. erewrite kernel_forwards; [|reflexivity|reflexivity|done].
    by destruct (at_stage _).
  - rewrite (blackhole_run _ (cc_now c) (cc_seed c)) by done.
    by destruct (stealth_blackhole _ _ _) as [[bs []]|].
Qed.

Lemma ended_stays c r es : cn_task c = Ended r -> cn_task (own_run c es) = Ended r.
Proof.
  revert c. induction es as [|e es IH]; intros c Hc; [done|]. rewrite own_run_cons. apply IH.
  destruct e; simpl; rewrite ?Hc; try done. unfold kernel. destruct (cn_session c); [|done]. simpl. by rewrite Hc.
Qed.

Lemma own_run_snoc c es e : own_run c (es ++ [e]) = own_step (own_run c es) e.
Proof. unfold own_run. by rewrite foldl_app. Qed.

(** A connection that arrives under a fresh name: what it is after a run. *)
Lemma arrive_run_projects h s id peer later now nodelay keepalive data es own :
  l_conns s !! id = None -> events_of id es = own ->
  l_conns (live_run h s (Arrive id peer later now nodelay keepalive data :: es)) !! id =
    Some (own_run (fst (arrive h peer later now nodelay keepalive data (l_state s))) own).
Proof.
  intros Hid <-. change (live_run h s (?e :: es)) with (live_run h (live_step h s e) es).
  apply live_run_projects. simpl. rewrite Hid. destruct (arrive _ _ _ _ _ _ _ _). apply lookup_insert_eq.
Qed.

(** ** Slots *)

Definition holds_slot (ip : IpAddr) (c : connection) : Prop := cn_ip c = Some ip /\ cn_slot c = true.
#[local] Instance holds_slot_dec ip c : Decision (holds_slot ip c) := _.

(** The connections of an address that the limit counts. *)
Definition taken (ip : IpAddr) (m : gmap nat connection) : Z :=
  Z.of_nat (size (filter (fun x => holds_slot ip (snd x)) m)).

Definition one_if (P : Prop) `{Decision P} : Z := if decide P then 1 else 0.

Lemma taken_insert ip m id c :
  m !! id = None -> taken ip (<[id := c]> m) = one_if (holds_slot ip c) + taken ip m.
Proof.
  intros Hm. unfold taken, one_if. case_decide as Hd.
  - rewrite map_filter_insert_True by done. rewrite map_size_insert_None; [lia|].
    apply map_lookup_filter_None. by left.
  - rewrite map_filter_insert_False by done. by rewrite delete_id.
Qed.

Lemma taken_update ip m id c c' :
  m !! id = Some c ->
  taken ip (<[id := c']> m) + one_if (holds_slot ip c) = one_if (holds_slot ip c') + taken ip m.
Proof.
  intros Hm. rewrite <- (insert_delete_id m id c Hm) at 2. rewrite <- insert_delete_eq.
  rewrite !taken_insert by apply lookup_delete_eq. lia.
Qed.

(** The UDP packets of an address the check let in. *)
Fixpoint datagrams_admitted (h : StealthConnectionHandler) (ip : IpAddr) (s : live) (es : list live_event) : Z :=
  match es with
  | [] => 0
  | e :: es =>
      match e with
      | Datagram addr now _ =>
          one_if (sa_ip addr = ip /\ is_ok (fst (check_security h now (sa_ip addr) (ip_stats (l_state s)))) = true)
      | _ => 0
      end + datagrams_admitted h ip (live_step h s e) es
  end.

(** The step is the end of a task that finds its peer's address again. *)
Definition releasing (c : connection) (e : own_event) : bool :=
  match e, cn_task c, cn_later c with Finish, Answered _, Some _ => true | _, _, _ => false end.

(** A step of a connection keeps its slot unless it releases it. *)
Lemma own_step_slot ip c e :
  holds_slot ip (own_step c e) <-> holds_slot ip c /\ releasing c e = false.
Proof.
  unfold holds_slot, releasing. destruct e as [connected setup data now seed|e|r|]; simpl.
  - destruct (cn_task c); simpl; try naive_solver. unfold dial, with_task.
    destruct (handle_stealth connected); simpl; [destruct (zero_copy_start _ _ _)|..]; naive_solver.
  - unfold kernel. destruct (cn_session c); naive_solver.
  - destruct (cn_task c); naive_solver.
  - destruct (cn_task c); try naive_solver. simpl. destruct (cn_later c); naive_solver.
Qed.

Lemma own_step_peer c e : cn_ip (own_step c e) = cn_ip c /\ cn_later (own_step c e) = cn_later c.
Proof.
  destruct e as [connected setup data now seed|e|r|]; simpl.
  - destruct (cn_task c); try done. unfold dial, with_task.
    by destruct (handle_stealth connected); [destruct (zero_copy_start _ _ _)|..].
  - unfold kernel. by destruct (cn_session c).
  - by destruct (cn_task c).
  - by destruct (cn_task c).
Qed.

Lemma own_run_peer c es : cn_ip (own_run c es) = cn_ip c /\ cn_later (own_run c es) = cn_later c.
Proof.
  revert c. induction es as [|e es IH]; intros c; [done|]. rewrite own_run_cons.
  destruct (IH (own_step c e)) as [-> ->]. apply own_step_peer.
Qed.

(** A connected socket's peer does not change: when both reads of its address
    answer they agree, and one that has failed does not answer again. *)
Definition same_peer (peer later : option IpAddr) : Prop := later = None \/ later = peer.

(** A task that has not returned holds the slot of the address it was checked
    under. *)
Definition slot_kept (c : connection) : Prop :=
  same_peer (cn_ip c) (cn_later c) /\ (cn_ip c = None \/ cn_slot c = true \/ exists r, cn_task c = Ended r).

Lemma own_step_kept c e : slot_kept c -> slot_kept (own_step c e).
Proof.
  intros [Hp Hk]. unfold slot_kept. destruct (own_step_peer c e) as [Hip Hlater]. rewrite Hip, Hlater. split; [done|].
  destruct Hk as [Hn|[Hs|[r Hr]]]; [by left| |right; right; exists r; exact (ended_stays c r [e] Hr)]. right.
  destruct e as [connected setup data now seed|e|r|]; simpl.
  - destruct (cn_task c); [|by left..]. left. unfold dial, with_task.
    by destruct (handle_stealth connected); [destruct (zero_copy_start _ _ _)|..].
  - left. unfold kernel. by destruct (cn_session c).
  - destruct (cn_task c); by left.
  - destruct (cn_task c); try (by left). right. by eexists.
Qed.

Lemma own_effect_cases h c e st :
  (releasing c e = false /\ ip_stats (own_effect h c e st) = ip_stats st) \/
  (exists res ip, releasing c e = true /\ cn_task c = Answered res /\ cn_later c = Some ip /\
     ip_stats (own_effect h c e st) = register_disconnection h ip (ip_stats st)).
Proof.
  unfold releasing. destruct e; simpl; [by left..|]. destruct (cn_task c) as [| |now seed|res| |r]; try (by left).
  destruct (cn_later c) as [ip|].
  - right. exists res, ip. by rewrite connection_end_ip_stats.
  - left. split; [done|]. by destruct res.
Qed.

(** What a check does to the count of an address that is within the limit. *)
Lemma check_exact h mx now ip m ip' :
  limited h mx -> 0 <= active m ip' <= mx ->
  let (r, m') := check_security h now ip m in
  active m' ip' = active m ip' + one_if (ip = ip' /\ is_ok r = true) /\ active m' ip' <= mx.
Proof.
  intros [Hm Hmx] Ha. destruct (check_security h now ip m) as [r m'] eqn:Hc.
  destruct (check_security_active h now ip m r m' ip' Hc) as [-> Hlt]. unfold one_if.
  destruct (decide (ip' = ip /\ _)) as [(-> & Hok & _)|Hno].
  - rewrite decide_True by done. specialize (Hlt Hok mx Hm).
    unfold u64_add. rewrite wrap_small by (unfold in_u in *; lia). lia.
  - rewrite decide_False; [lia|]. intros [-> Hok]. destruct Hno. rewrite Hm. eauto.
Qed.

Lemma taken_nonneg ip m : 0 <= taken ip m.
Proof. unfold taken. lia. Qed.

Lemma one_if_iff (P Q : Prop) `{Decision P, Decision Q} : (P <-> Q) -> one_if P = one_if Q.
Proof. intros HPQ. unfold one_if. by rewrite (decide_ext P Q _ _ HPQ). Qed.

Lemma one_if_and (P Q : Prop) `{Decision P, Decision Q} : one_if (P /\ Q) = if decide Q then one_if P else 0.
Proof. unfold one_if. repeat case_decide; tauto. Qed.

(** Every count is the connections that hold a slot and the UDP packets let in. *)
Definition slots_ok (mx : Z) (udp : IpAddr -> Z) (s : live) : Prop :=
  (forall id c, l_conns s !! id = Some c -> slot_kept c) /\
  forall ip, 0 <= udp ip /\ active (ip_stats (l_state s)) ip = taken ip (l_conns s) + udp ip /\
    active (ip_stats (l_state s)) ip <= mx.

Lemma slots_in_limit mx udp s ip :
  slots_ok mx udp s -> 0 <= active (ip_stats (l_state s)) ip <= mx.
Proof. intros [_ Hs]. destruct (Hs ip) as (? & ? & ?). pose proof (taken_nonneg ip (l_conns s)). lia. Qed.

Lemma own_step_slots h mx s id e udp :
  limited h mx -> slots_ok mx udp s -> slots_ok mx udp (live_step h s (Own id e)).
Proof.
  intros [Hm Hmx] Hslots. destruct Hslots as [Hk Hs] eqn:Heq. clear Heq. simpl.
  destruct (l_conns s !! id) as [c|] eqn:Hc; [|done]. split; simpl.
  { intros id' c'. destruct (decide (id' = id)) as [->|Hne].
    - rewrite lookup_insert_eq. intros [= <-]. by eapply own_step_kept, Hk.
    - rewrite lookup_insert_ne by done. apply Hk. }
  intros ip. destruct (Hs ip) as (Hu & Ha & Hle). split; [done|].
  pose proof (taken_update ip (l_conns s) id c (own_step c e) Hc) as Ht.
  pose proof (taken_nonneg ip (<[id := own_step c e]> (l_conns s))) as Hn.
  rewrite (one_if_iff _ _ (own_step_slot ip c e)), one_if_and in Ht.
  destruct (own_effect_cases h c e (l_state s)) as [[Hf ->]|(res & ip' & Hf & Hres & Hlater & ->)].
  - rewrite decide_True in Ht by done. lia.
  - rewrite active_register, Hm.
    rewrite (decide_False (P := releasing c e = false)) in Ht by congruence.
    destruct (Hk id c Hc) as [[Hp|Hp] Hkept]; [congruence|].
    assert (cn_slot c = true) as Hslot by (destruct Hkept as [?|[?|[r Hr]]]; congruence).
    assert (cn_ip c = Some ip') as Hip by congruence.
    unfold one_if, holds_slot in Ht. destruct (decide (ip = ip' /\ _)) as [[-> _]|Hne].
    + rewrite decide_True in Ht by done. unfold sat_sub. lia.
    + rewrite decide_False in Ht; [lia|]. intros [? _]. destruct Hne. split; [congruence|by eexists].
Qed.

Lemma arrive_slots h mx s id peer later now nodelay keepalive data udp :
  limited h mx -> same_peer peer later -> slots_ok mx udp s ->
  slots_ok mx udp (live_step h s (Arrive id peer later now nodelay keepalive data)).
Proof.
  intros Hl Hp Hs. simpl. destruct (l_conns s !! id) eqn:Hid; [done|]. unfold arrive.
  assert (forall st' c, slot_kept c -> (forall ip, active (ip_stats st') ip =
      active (ip_stats (l_state s)) ip + one_if (holds_slot ip c) /\ active (ip_stats st') ip <= mx) ->
    slots_ok mx udp (mkLive st' (<[id := c]> (l_conns s)))) as Hnew.
  { intros st' c Hc Hst. split; simpl.
    - intros id' c'. destruct (decide (id' = id)) as [->|Hne]; [by rewrite lookup_insert_eq; intros [= <-]|].
      rewrite lookup_insert_ne by done. apply Hs.
    - intros ip. destruct (proj2 Hs ip) as (Hu & Ha & Hle). destruct (Hst ip) as [-> ?]. rewrite taken_insert by done. lia. }
  destruct peer as [ip|].
  - pose proof (connection_start_ip_stats h now ip (apply_tcp_optimizations nodelay keepalive) (l_state s)) as Hst.
    pose proof (connection_start_ok h now ip (apply_tcp_optimizations nodelay keepalive) (l_state s)) as Hok.
    destruct (connection_start h now (Some ip) _ (l_state s)) as [r st']. simpl in *. apply Hnew.
    + split; [done|]. right. destruct r; [|right; by eexists].
      left. symmetry in Hok. by apply andb_true_iff in Hok as [? _].
    + intros ip'. rewrite Hst.
      pose proof (check_exact h mx now ip (ip_stats (l_state s)) ip' Hl (slots_in_limit _ _ _ _ Hs)) as Hce.
      destruct (check_security h now ip (ip_stats (l_state s))) as [r' m']. simpl in *.
      rewrite (one_if_iff (holds_slot ip' _) (ip = ip' /\ is_ok r' = true)); [done|].
      unfold holds_slot. simpl. naive_solver.
  - assert (forall r, slot_kept (mkConnection None later data false r None)) as Hnone by (intros r; split; [done|by left]).
    assert (forall ip r, one_if (holds_slot ip (mkConnection None later data false r None)) = 0) as Hz
      by (intros ip r; unfold one_if; by rewrite decide_False by by intros [? _]).
    unfold connection_start. destruct (apply_tcp_optimizations nodelay keepalive); apply Hnew; try done.
    all: intros ip; rewrite Hz; destruct (proj2 Hs ip) as (_ & _ & ?); simpl; lia.
Qed.

Lemma datagram_slots h mx s addr now calls udp :
  limited h mx -> slots_ok mx udp s ->
  slots_ok mx (fun ip => udp ip + datagrams_admitted h ip s [Datagram addr now calls])
    (live_step h s (Datagram addr now calls)).
Proof.
  intros Hl Hs. simpl. split; [apply Hs|]. intros ip. simpl.
  destruct (udp_packet_ip_stats h now addr calls (l_state s)) as [-> _].
  destruct (proj2 Hs ip) as (Hu & Ha & Hle).
  pose proof (check_exact h mx now (sa_ip addr) (ip_stats (l_state s)) ip Hl (slots_in_limit _ _ _ _ Hs)) as Hce.
  destruct (check_security h now (sa_ip addr) (ip_stats (l_state s))) as [r m']. simpl in *.
  unfold one_if in *. case_decide; lia.
Qed.

(** The peers of a run's connections. *)
Definition peers_stay (es : list live_event) : Prop :=
  Forall (fun e => match e with Arrive _ peer later _ _ _ _ => same_peer peer later | _ => True end) es.

Lemma live_run_slots h mx s es udp :
  limited h mx -> peers_stay es -> slots_ok mx udp s ->
  slots_ok mx (fun ip => udp ip + datagrams_admitted h ip s es) (live_run h s es).
Proof.
  intros Hl Hp. revert s udp. induction Hp as [|e es He _ IH]; intros s udp Hs.
  - split; [apply Hs|]. intros ip. simpl. rewrite Z.add_0_r. apply Hs.
  - change (live_run h s (e :: es)) with (live_run h (live_step h s e) es).
    assert (exists udp', slots_ok mx udp' (live_step h s e) /\
      forall ip, udp' ip = udp ip + datagrams_admitted h ip s [e]) as (udp' & Hs' & Hu).
    { destruct e as [id peer later now nd ka data|id e|addr now calls|addr].
      - exists udp. split; [by apply arrive_slots|]. intros; simpl; lia.
      - exists udp. split; [by apply own_step_slots|]. intros; simpl; lia.
      - eexists. split; [by apply datagram_slots|done].
      - exists udp. split; [done|]. intros; simpl; lia. }
    destruct (IH _ _ Hs') as [H1 H2]. split; [done|]. intros ip. specialize (H2 ip). rewrite Hu in H2.
    cbn [datagrams_admitted] in *. lia.
Qed.

Lemma quiet_slots mx : 0 <= mx -> slots_ok mx (fun _ => 0) quiet.
Proof.
  intros H. split; [by intros id c|]. intros ip. unfold active, taken. simpl. rewrite map_filter_empty, map_size_empty.
  rewrite lookup_empty. simpl. lia.
Qed.

(** C4. Slots are accounted for exactly: under every interleaving of arriving,
    connecting, forwarding, blackholed, panicking and finishing connections and
    of UDP packets, when the peer of a socket stays the same, the handler's count
    of an address is the number of its connections that hold a slot plus the
    number of its UDP packets let in, and never above [max_conns_per_ip]; every
    task that has not returned holds the slot of the address it was checked under,
    so no address is served on more connections than the limit.  Only a task whose
    peer had no address to read at the check, which is then skipped, holds none. *)
Theorem slots_accounted h mx es ip :
  limited h mx -> peers_stay es ->
  let s := live_run h quiet es in
  active (ip_stats (l_state s)) ip = taken ip (l_conns s) + datagrams_admitted h ip quiet es /\
  active (ip_stats (l_state s)) ip <= mx /\
  (forall id c ip, l_conns s !! id = Some c -> cn_ip c = Some ip -> (forall r, cn_task c <> Ended r) -> holds_slot ip c).
Proof.
  intros Hl Hp s. assert (slots_ok mx (fun ip => 0 + datagrams_admitted h ip quiet es) s) as [Hk Hs].
  { apply live_run_slots; [done..|]. apply quiet_slots. destruct Hl as [_ Hmx]. unfold in_u in Hmx. lia. }
  destruct (Hs ip) as (_ & H1 & H2). split; [done|]. split; [done|]. intros id c ip' Hc Hip Hr.
  split; [done|]. destruct (Hk id c Hc) as [_ [?|[?|[r ?]]]]; [congruence|done|by destruct (Hr r)].
Qed.

(** ** The server as independent duplex channels *)

Definition pipes (s : live) : gmap nat (channel * channel) :=
  omap (fun c => session_channels <$> cn_session c) (l_conns s).

(** What a connection's session carries: the bytes that came from its own two
    peers. *)
Definition own_bytes (es : list live_event) (id : nat) (c : connection) : Prop :=
  (exists now nodelay keepalive, In (Arrive id (cn_ip c) (cn_later c) now nodelay keepalive (cn_data c)) es) /\
  (cn_task c = Dialing -> cn_session c = None) /\
  forall s, cn_session c = Some s ->
    coherent s /\ carries (cn_data c) (session_channels s).1 /\
    exists connected setup server_data now seed,
      In (Own id (Dial connected setup server_data now seed)) es /\ carries server_data (session_channels s).2.

Lemma own_bytes_later es e id c : own_bytes es id c -> own_bytes (es ++ [e]) id c.
Proof.
  intros ((now & nd & ka & Ha) & Hd & Hs). split; [|split; [done|]].
  - exists now, nd, ka. apply in_or_app. by left.
  - intros s Hc. destruct (Hs s Hc) as (? & ? & x1 & x2 & x3 & x4 & x5 & Hi & ?). split; [done|]. split; [done|].
    exists x1, x2, x3, x4, x5. split; [|done]. apply in_or_app. by left.
Qed.

(** What a step leaves of a connection: its task may change, its session moves
    along its channels. *)
Lemma kernel_session c e s :
  cn_session c = Some s -> kernel e c =
    mkConnection (cn_ip c) (cn_later c) (cn_data c) (cn_slot c) (cn_task (kernel e c))
    (Some (zero_copy_step s e)) /\ (cn_task (kernel e c) = Dialing -> cn_task c = Dialing).
Proof. intros Hc. unfold kernel. rewrite Hc. split; [done|]. simpl. by destruct (cn_task c), (at_stage (zero_copy_step s e)). Qed.

Definition pipes_of (c : connection) : option (channel * channel) := session_channels <$> cn_session c.

(** A step of a connection opens its channels, moves them, or leaves them. *)
Lemma own_step_pipes es id c e :
  own_bytes es id c ->
  own_bytes (es ++ [Own id e]) id (own_step c e) /\
  evolves (pipes_of c) (pipes_of (own_step c e)).
Proof.
  intros Hb. pose proof (own_bytes_later es (Own id e) id c Hb) as Hl.
  assert (forall t, t <> Dialing -> own_bytes (es ++ [Own id e]) id (with_task t c) /\
    evolves (pipes_of c) (pipes_of (with_task t c))) as Htask.
  { intros t Ht. split; [|apply evolves_not]. destruct Hl as (? & _ & ?). by split_and!. }
  assert (own_bytes (es ++ [Own id e]) id c /\ evolves (pipes_of c) (pipes_of c)) as Hsame by (split; [done|apply evolves_not]).
  destruct e as [connected setup data now seed|e|r|]; simpl.
  - destruct (cn_task c) eqn:Ht; try done. destruct Hb as (_ & Hd & _). specialize (Hd Ht).
    unfold dial. destruct (handle_stealth connected); [|by apply Htask..].
    destruct (zero_copy_start setup (cn_data c) data) as [s|] eqn:Hs; [|by apply Htask].
    apply zero_copy_start_ok in Hs as ->. split.
    + destruct Hl as (Ha & _ & _). split; [done|]. split; [done|]. intros s [= <-]. split; [done|]. split; [done|].
      exists connected, setup, data, now, seed. split; [|done]. apply in_or_app. right. by left.
    + unfold pipes_of. rewrite Hd. by apply (evolves_open (cn_data c) data).
  - destruct (cn_session c) as [s|] eqn:Hs; [|by unfold kernel; rewrite Hs].
    destruct (kernel_session c e s Hs) as [-> Hdial]. destruct Hl as (Ha & Hd & Hss).
    destruct (Hss s Hs) as (Hco & Hc & x1 & x2 & x3 & x4 & x5 & Hi & Hsd).
    pose proof (zero_copy_run_simulates s [e] Hco) as Hsim.
    destruct (duplex_steps_carry _ _ _ _ Hsim (conj Hc Hsd)) as [Hc' Hs'].
    pose proof (zero_copy_step_coherent s e Hco) as Hco'. split.
    + split; [done|]. split; [intros Ht; by rewrite (Hd (Hdial Ht)) in Hs|]. intros s' [= <-].
      split; [done|]. split; [done|]. by exists x1, x2, x3, x4, x5.
    + unfold pipes_of. rewrite Hs. by apply evolves_move.
  - destruct (cn_task c); try done. apply Htask. unfold absorb. by destruct (stealth_blackhole _ _ _) as [[? []]|].
  - destruct (cn_task c); try done. split; [|apply evolves_not]. destruct Hl as (? & _ & ?). by split_and!.
Qed.

Lemma pipes_insert s st id c : pipes (mkLive st (<[id := c]> (l_conns s))) = partial_alter (fun _ => pipes_of c) id (pipes s).
Proof. apply omap_insert_alter. Qed.

Lemma pipes_lookup s id c : l_conns s !! id = Some c -> pipes s !! id = pipes_of c.
Proof. intros H. unfold pipes. by rewrite lookup_omap, H. Qed.

Definition refined (es : list live_event) (s : live) : Prop :=
  rtc pipes_step ∅ (pipes s) /\ forall id c, l_conns s !! id = Some c -> own_bytes es id c.

Lemma refined_later es e s s' :
  refined es s -> l_conns s' = l_conns s -> refined (es ++ [e]) s'.
Proof.
  intros [Hr Ho] Hc. unfold refined, pipes. rewrite Hc. split; [done|]. intros id c H. by apply own_bytes_later, Ho.
Qed.

Lemma arrive_refined h es s id peer later now nodelay keepalive data :
  refined es s ->
  let e := Arrive id peer later now nodelay keepalive data in refined (es ++ [e]) (live_step h s e).
Proof.
  intros Hs e. simpl. destruct (l_conns s !! id) eqn:Hid; [by apply (refined_later es e s)|].
  destruct (arrive h peer later now nodelay keepalive data (l_state s)) as [c st] eqn:Ha. destruct Hs as [Hr Ho].
  unfold arrive in Ha. destruct (connection_start _ _ _ _ _) as [r st']. injection Ha as <- <-. split.
  - rewrite pipes_insert, partial_alter_id; [done|]. unfold pipes. by rewrite lookup_omap, Hid.
  - intros id' c'. simpl. destruct (decide (id' = id)) as [->|Hne].
    + rewrite lookup_insert_eq. intros [= <-]. split; [|by split]. exists now, nodelay, keepalive.
      apply in_or_app. right. by left.
    + rewrite lookup_insert_ne by done. intros Hc. by apply own_bytes_later, Ho.
Qed.

Lemma own_refined h es s id e :
  refined es s -> refined (es ++ [Own id e]) (live_step h s (Own id e)).
Proof.
  intros [Hr Ho]. simpl. destruct (l_conns s !! id) as [c|] eqn:Hid; [|by apply (refined_later es _ s)].
  destruct (own_step_pipes es id c e (Ho id c Hid)) as [Hb Hp]. pose proof (pipes_lookup s id c Hid) as Hl. split.
  - rewrite pipes_insert. etransitivity; [exact Hr|]. apply evolves_pipes. by rewrite Hl.
  - intros id' c'. simpl. destruct (decide (id' = id)) as [->|Hne].
    + rewrite lookup_insert_eq. by intros [= <-].
    + rewrite lookup_insert_ne by done. intros Hc. by apply own_bytes_later, Ho.
Qed.

Lemma run_refined h es : refined es (live_run h quiet es).
Proof.
  induction es as [|e es IH] using rev_ind; [split; [done|by intros id c]|].
  unfold live_run. rewrite foldl_app. fold (live_run h quiet es). cbn [foldl].
  destruct e; [by apply arrive_refined|by apply own_refined|by apply (refined_later es _ (live_run h quiet es))..].
Qed.

(** C3. The server under load is a set of independent byte pipes: whatever
    connections arrive, connect, forward, are blackholed, fail and finish in
    whatever order, beside the UDP packets of the rule, its run is a run of the
    abstract system of duplex channels, and what each peer of a connection has
    received is a prefix of what the other peer of that same connection sent. *)
Theorem live_refines_channels h es :
  let s := live_run h quiet es in
  rtc pipes_step ∅ (pipes s) /\
  forall id c z, l_conns s !! id = Some c -> cn_session c = Some z ->
    (exists now nodelay keepalive data,
      In (Arrive id (cn_ip c) (cn_later c) now nodelay keepalive data) es /\ sink (work (c2s z)) `prefix_of` data) /\
    (exists connected setup data now seed,
      In (Own id (Dial connected setup data now seed)) es /\
      forall t, s2c z = Some t -> sink (work t) `prefix_of` data).
Proof.
  destruct (run_refined h es) as [Hr Ho]. split; [done|]. intros id c z Hc Hz.
  destruct (Ho id c Hc) as ((now & nd & ka & Ha) & _ & Hs).
  destruct (Hs z Hz) as (_ & Hcc & x1 & x2 & x3 & x4 & x5 & Hi & Hsd). split.
  - exists now, nd, ka, (cn_data c). split; [done|]. exact (carries_prefix _ _ Hcc).
  - exists x1, x2, x3, x4, x5. split; [done|]. intros t Ht. unfold session_channels in Hsd. rewrite Ht in Hsd.
    exact (carries_prefix _ _ Hsd).
Qed.

(** ** Witnesses *)

(** Two connections from one address at once, and a UDP packet: the first is
    forwarded, the second dies in its blackhole. *)
Definition forwarding : ConnectionCalls :=
  mkConnectionCalls (Ok tt) (Ok tt) (Ok tt) sample_setup sample_data sample_reply
    (sample_before ++ PipeMade (Done (Ok tt)) :: sample_after) 0 0 [].

Definition alternate (id id' : nat) (es es' : list own_event) : list live_event :=
  concat (zip_with (fun e e' => [Own id e; Own id' e']) es es') ++
  map (Own id) (drop (length es') es) ++ map (Own id') (drop (length es) es').

Definition sample_run : list live_event :=
  Arrive 1 (Some sample_ip) (Some sample_ip) 0 (Ok tt) (Ok tt) [] :: alternate 0 1 (body forwarding ++ [Finish]) (body racing).

Theorem slots_accounted_witness :
  let s := live_run sample_handler quiet (Arrive 0 (Some sample_ip) (Some sample_ip) 0 (Ok tt) (Ok tt) sample_data :: sample_run) in
  active (ip_stats (l_state s)) sample_ip = 1 /\ taken sample_ip (l_conns s) = 1 /\
  (exists c, l_conns s !! 1%nat = Some c /\ cn_task c = Died).
Proof.
  destruct (slots_accounted sample_handler 2 (Arrive 0 (Some sample_ip) (Some sample_ip) 0 (Ok tt) (Ok tt) sample_data :: sample_run) sample_ip
    sample_limited) as [H _].
  { repeat constructor; by right. }
  intros s. fold s in H. split; [rewrite H; vm_compute; reflexivity|]. split; [vm_compute; reflexivity|].
  eexists. split; vm_compute; reflexivity.
Defined.
