(* ===== verification/TunnelRelay.v ===== *)
(** * TunnelRelay: the public connections of a reverse tunnel at the same time
    (src/src/reverse_proxy/server.rs, client.rs)

    The listener tasks hand the connections they accept to the loop over the
    multiplexed connection through a bounded channel; the loop takes a request,
    waits for a stream and spawns a task that writes the header and copies; the
    client's loop spawns a task per stream that reads the header, connects to the
    local service and copies.  Any number of these tasks run interleaved.  What
    tokio and the multiplexer do is a parameter: [Copying] is one direction of
    [copy_bidirectional], [Mpsc] the channel, [Multiplexer] says whether waiting
    for a stream drives the connection. *)

From Stdlib Require Import Ascii String ZArith Lia Permutation.
From stdpp Require Import base gmap strings list relations.
From S2P Require Import Prelude Text NetAddr Errors Channels Stream Protocol ReverseServer Tunnel.

#[local] Existing Instance Permutation_app'.

(** ** What the tasks call *)

(** One direction of a copy: the bytes it can still read, those it has read and
    not written, and those it has written. *)
Record half := mkHalf { h_from : list byte; h_held : list byte; h_to : list byte }.

(** [copy_bidirectional] copies each direction in order: what it does next is its
    own affair, and so is how much it holds. *)
Class Copying := {
  copy_event : Type;
  copy_step : copy_event -> half -> half }.

Class CopyingLaws `{Copying} : Prop :=
  copy_in_order : forall e h, exists r w,
    h_from h = r ++ h_from (copy_step e h) /\
    h_held h ++ r = w ++ h_held (copy_step e h) /\
    h_to (copy_step e h) = h_to h ++ w.

(** tokio's bounded [mpsc]; [mpsc_send] gives [None] while there is no room and
    [mpsc_recv] while there is nothing. *)
Class Mpsc (A : Type) := {
  mpsc : Type;
  mpsc_channel : nat -> mpsc;
  mpsc_send : A -> mpsc -> option mpsc;
  mpsc_recv : mpsc -> option (A * mpsc);
  mpsc_items : mpsc -> list A }.

(** Every value sent is received at most once; the order is not used. *)
Class MpscLaws (A : Type) `{Mpsc A} : Prop := {
  mpsc_channel_items n : mpsc_items (mpsc_channel n) = [];
  mpsc_send_items a q q' : mpsc_send a q = Some q' -> mpsc_items q' ≡ₚ a :: mpsc_items q;
  mpsc_recv_items a q q' : mpsc_recv q = Some (a, q') -> mpsc_items q ≡ₚ a :: mpsc_items q' }.

(** Whether [poll_new_outbound] carries the bytes of the open streams while it
    waits; the loop polls the connection for nothing else meanwhile. *)
Class Multiplexer := { opening_polls : bool }.

(** ** One stream *)

(** One direction: the copy on the side of its source, which writes to the
    multiplexed connection, and the copy on the other side, which reads from it. *)
Record path := mkPath { p_out : half; p_in : half }.

Definition idle_path (data : list byte) : path := mkPath (mkHalf data [] []) (mkHalf [] [] []).

(** What has arrived at the end. *)
Definition p_sink (p : path) : list byte := h_to (p_in p).

(** The connection carries [k] bytes across. *)
Definition cross (k : nat) (p : path) : path :=
  mkPath (mkHalf (h_from (p_out p)) (h_held (p_out p)) (drop k (h_to (p_out p))))
         (mkHalf (h_from (p_in p) ++ take k (h_to (p_out p))) (h_held (p_in p)) (h_to (p_in p))).

(** The server's task for the stream and the client's. *)
Inductive server_task : Type := WritingHeader | ServerCopying | ServerOver.
Inductive client_task : Type := AwaitingHeader | ClientCopying | ClientOver (res : Result unit).

(** [st_up]: from the public peer to the local service; [st_target]: the address
    the client has connected to. *)
Record stream := mkStream {
  st_port : Z;
  st_server : server_task;
  st_client : client_task;
  st_target : option string;
  st_up : path;
  st_down : path }.

Definition open_stream (port : Z) (data : list byte) : stream :=
  mkStream port WritingHeader AwaitingHeader None (idle_path data) (idle_path []).

Definition with_server (t : server_task) (s : stream) : stream :=
  mkStream (st_port s) t (st_client s) (st_target s) (st_up s) (st_down s).
Definition with_client (t : client_task) (s : stream) : stream :=
  mkStream (st_port s) (st_server s) t (st_target s) (st_up s) (st_down s).
Definition with_paths (up down : path) (s : stream) : stream :=
  mkStream (st_port s) (st_server s) (st_client s) (st_target s) up down.

Definition with_out (h : half) (p : path) : path := mkPath h (p_in p).
Definition with_in (h : half) (p : path) : path := mkPath (p_out p) h.

Section Relay.
Context `{CP : !Copying, CH : !Mpsc TunnelRequest, MX : !Multiplexer}.

(** What a [copy_bidirectional] does next: something in one of its directions, or
    its end, after which the task drops both its ends. *)
Inductive copying : Type :=
| CopyUp (e : copy_event)
| CopyDown (e : copy_event)
| CopyEnds.

Inductive stream_event : Type :=
| WriteHeader (room : option nat)
| ServerCopy (c : copying)
| ReadHeader (net : LocalNet) (service_data : list byte)
| ClientCopy (c : copying).

(** The server's copy: the public connection is its first end. *)
Definition server_copy (c : copying) (s : stream) : stream :=
  match c with
  | CopyUp e => with_paths (with_out (copy_step e (p_out (st_up s))) (st_up s)) (st_down s) s
  | CopyDown e => with_paths (st_up s) (with_in (copy_step e (p_in (st_down s))) (st_down s)) s
  | CopyEnds => with_server ServerOver s
  end.

(** The client's copy: its first end is the tunnel, the other the service. *)
Definition client_copy (c : copying) (s : stream) : stream :=
  match c with
  | CopyUp e => with_paths (with_in (copy_step e (p_in (st_up s))) (st_up s)) (st_down s) s
  | CopyDown e => with_paths (st_up s) (with_out (copy_step e (p_out (st_down s))) (st_down s)) s
  | CopyEnds => with_client (ClientOver (Ok tt)) s
  end.

(** The task the server spawns: the header, then the copy. *)
Definition write_header (room : option nat) (s : stream) : stream :=
  let out := p_out (st_up s) in
  let written w := with_out (mkHalf (h_from out) (h_held out) (h_to out ++ wr_out w)) (st_up s) in
  match serve_request (tcp_request 0 (st_port s)) (reader_of []) (mkWriter [] room broken_pipe 0) with
  | (CopyBidirectional _, w) => with_paths (written w) (st_down s) (with_server ServerCopying s)
  | (_, w) => with_paths (written w) (st_down s) (with_server ServerOver s)
  end.

(** The stream has ended for the client: the server's task has dropped it and all
    its bytes have come across, or the connection is over. *)
Definition stream_ended (connected : bool) (s : stream) : bool :=
  negb connected ||
  match st_server s with ServerOver => bool_decide (h_to (p_out (st_up s)) = []) | _ => false end.

(** The task the client spawns, up to its copy: it waits for four bytes or the
    end of the stream, and copies what [handle_tunnel_stream] has left.
    [service_data]: what the service it reaches will send. *)
Definition read_header (cs : list ReverseProxyConfig) (connected : bool) (net : LocalNet) (service_data : list byte)
    (s : stream) : stream :=
  let arrived := h_from (p_in (st_up s)) in
  if (4 <=? length arrived)%nat || stream_ended connected s then
    let '(res, r, _) := handle_tunnel_stream (H := net) cs (reader_of arrived) open_writer in
    let up := with_in (mkHalf (rd_data r) (h_held (p_in (st_up s))) (h_to (p_in (st_up s)))) (st_up s) in
    match res with
    | Ok (ForwardTcp addr) =>
        mkStream (st_port s) (st_server s) ClientCopying (Some addr) up (idle_path service_data)
    | Ok (SentUdp _ _) => with_paths up (st_down s) (with_client (ClientOver (Ok tt)) s)
    | Err e => with_paths up (st_down s) (with_client (ClientOver (Err e)) s)
    end
  else s.

Definition stream_step (cs : list ReverseProxyConfig) (connected : bool) (s : stream) (e : stream_event) : stream :=
  match e with
  | WriteHeader room => match st_server s with WritingHeader => write_header room s | _ => s end
  | ServerCopy c => match st_server s with ServerCopying => server_copy c s | _ => s end
  | ReadHeader net service_data =>
      match st_client s with AwaitingHeader => read_header cs connected net service_data s | _ => s end
  | ClientCopy c => match st_client s with ClientCopying => client_copy c s | _ => s end
  end.

(** ** The tunnel *)

(** [mpsc::channel::<TunnelRequest>(256)] *)
Definition TUNNEL_REQUESTS : nat := 256.

(** [t_sending]: the listener tasks that wait in [send], with their requests;
    [t_opening]: the request the loop has taken and waits for a stream for.  The
    connections accepted so far number [t_next] and are named in that order.
    [t_udp]: the tasks spawned for datagrams, with what they ended with. *)
Record tunnel := mkTunnel {
  t_listeners : list Listener;
  t_sending : list (Listener * TunnelRequest);
  t_requests : mpsc;
  t_opening : option TunnelRequest;
  t_next : nat;
  t_sockets : gmap nat (list byte);
  t_streams : gmap nat stream;
  t_udp : list (TunnelRequest * option (served * Writer));
  t_up : bool }.

Definition tunnel_start (ls : list Listener) : tunnel :=
  mkTunnel ls [] (mpsc_channel TUNNEL_REQUESTS) None 0 ∅ ∅ [] true.

Inductive tunnel_event : Type :=
| AcceptTcp (port : Z) (data : list byte)
| RecvUdp (port : Z) (socket : nat) (data : list byte) (peer : SocketAddr)
| Send (l : Listener)
| Take
| Opened (res : result unit string)
| Polled (id up down : nat)
| OnStream (id : nat) (e : stream_event)
| OnDatagram (i : nat) (r : Reader) (w : Writer)
| Aborted
| ConnectionOver.

(** The listener tasks, the channel and the loop's position in it change. *)
Definition with_requests (ls : list Listener) (sending : list (Listener * TunnelRequest)) (q : mpsc)
    (opening : option TunnelRequest) (up : bool) (t : tunnel) : tunnel :=
  mkTunnel ls sending q opening (t_next t) (t_sockets t) (t_streams t) (t_udp t) up.
Definition with_streams (m : gmap nat stream) (t : tunnel) : tunnel :=
  mkTunnel (t_listeners t) (t_sending t) (t_requests t) (t_opening t) (t_next t) (t_sockets t) m (t_udp t) (t_up t).
Definition with_udp (u : list (TunnelRequest * option (served * Writer))) (t : tunnel) : tunnel :=
  mkTunnel (t_listeners t) (t_sending t) (t_requests t) (t_opening t) (t_next t) (t_sockets t) (t_streams t) u (t_up t).

(** A listener accepts nothing while it waits in [send]. *)
Definition listening (l : Listener) (t : tunnel) : bool :=
  bool_decide (l ∈ t_listeners t /\ l ∉ map fst (t_sending t)).

Definition accept_tcp (port : Z) (data : list byte) (t : tunnel) : tunnel :=
  if listening (Tcp, port) t then
    let id := t_next t in
    mkTunnel (t_listeners t) (((Tcp, port), tcp_request id port) :: t_sending t) (t_requests t) (t_opening t)
      (S id) (<[id := data]> (t_sockets t)) (t_streams t) (t_udp t) (t_up t)
  else t.

(** [recv_from] fills a buffer of 65535 bytes. *)
Definition UDP_BUFFER : nat := Z.to_nat 65535.

Definition recv_udp (port : Z) (socket : nat) (data : list byte) (peer : SocketAddr) (t : tunnel) : tunnel :=
  if listening (Udp, port) t then
    with_requests (t_listeners t)
      (((Udp, port), udp_request socket port (take UDP_BUFFER data) peer) :: t_sending t)
      (t_requests t) (t_opening t) (t_up t) t
  else t.

(** [tx_clone.send(..).await] of the listener [l] completes, or finds no room yet;
    the listener stops when the receiver is gone. *)
Definition send (l : Listener) (t : tunnel) : tunnel :=
  match list_find (fun x => fst x = l) (t_sending t) with
  | None => t
  | Some (i, (_, req)) =>
      let sending := delete i (t_sending t) in
      if t_up t then
        match mpsc_send req (t_requests t) with
        | Some q => with_requests (t_listeners t) sending q (t_opening t) true t
        | None => t
        end
      else with_requests (filter (fun l' => l' <> l) (t_listeners t)) sending (t_requests t) (t_opening t) false t
  end.

(** [Some(request) = rx.recv()] completes: the loop goes on to [poll_new_outbound]. *)
Definition take_request (t : tunnel) : tunnel :=
  match t_opening t, mpsc_recv (t_requests t) with
  | None, Some (req, q) =>
      if t_up t then with_requests (t_listeners t) (t_sending t) q (Some req) true t else t
  | _, _ => t
  end.

(** [poll_new_outbound] completes: a task is spawned for the request. *)
Definition opened (res : result unit string) (t : tunnel) : tunnel :=
  match t_opening t with
  | None => t
  | Some req =>
      let t := with_requests (t_listeners t) (t_sending t) (t_requests t) None (t_up t) t in
      match res with
      | Err _ => t
      | Ok _ =>
          match tr_tcp_stream req with
          | Some id =>
              with_streams (<[id := open_stream (tr_target_port req) (default [] (t_sockets t !! id))]> (t_streams t)) t
          | None => with_udp (t_udp t ++ [(req, None)]) t
          end
      end
  end.

(** The loop polls the connection: bytes of a stream come across, both ways. *)
Definition polled (id up down : nat) (t : tunnel) : tunnel :=
  match t_streams t !! id with
  | Some s =>
      if t_up t && (opening_polls || bool_decide (t_opening t = None))
      then with_streams (<[id := with_paths (cross up (st_up s)) (cross down (st_down s)) s]> (t_streams t)) t
      else t
  | None => t
  end.

(** The task of a datagram runs to its end: [r] is what comes back on its stream,
    [w] what the stream takes. *)
Definition on_datagram (i : nat) (r : Reader) (w : Writer) (t : tunnel) : tunnel :=
  match t_udp t !! i with
  | Some (req, None) => with_udp (<[i := (req, Some (serve_request req r w))]> (t_udp t)) t
  | _ => t
  end.

Definition tunnel_step (cs : list ReverseProxyConfig) (t : tunnel) (e : tunnel_event) : tunnel :=
  match e with
  | AcceptTcp port data => accept_tcp port data t
  | RecvUdp port socket data peer => recv_udp port socket data peer t
  | Send l => send l t
  | Take => take_request t
  | Opened res => opened res t
  | Polled id up down => polled id up down t
  | OnStream id e =>
      match t_streams t !! id with
      | Some s => with_streams (<[id := stream_step cs (t_up t) s e]> (t_streams t)) t
      | None => t
      end
  | OnDatagram i r w => on_datagram i r w t
  | Aborted => with_requests [] [] (t_requests t) (t_opening t) (t_up t) t
  | ConnectionOver =>
      match t_opening t with
      | None => with_requests (t_listeners t) (t_sending t) (mpsc_channel TUNNEL_REQUESTS) None false t
      | Some _ => t
      end
  end.

Definition tunnel_run (cs : list ReverseProxyConfig) (t : tunnel) (es : list tunnel_event) : tunnel :=
  foldl (tunnel_step cs) t es.

(** ** One stream as a pair of channels *)

Definition path_channel (c : bool) (p : path) : channel :=
  mkChannel (h_from (p_out p)) (h_held (p_in p) ++ h_from (p_in p) ++ h_to (p_out p) ++ h_held (p_out p)) (p_sink p) c.

(** What a copy or the connection does moves bytes along. *)
Definition along (p p' : path) : Prop := rtc channel_step (path_channel false p) (path_channel false p').

Lemma along_refl p : along p p.
Proof. apply rtc_refl. Qed.

Lemma cross_channel c k p : path_channel c (cross k p) = path_channel c p.
Proof.
  unfold path_channel, cross. simpl. f_equal. rewrite <- (assoc_L (++) (h_from (p_in p))).
  by rewrite (assoc_L (++) (take k _)), take_drop.
Qed.

Section Laws.
Context `{CL : !CopyingLaws, ML : !MpscLaws TunnelRequest}.

Lemma out_along e p : along p (with_out (copy_step e (p_out p)) p).
Proof.
  destruct (copy_in_order e (p_out p)) as (r & w & Hf & Hh & Ht). apply rtc_once.
  unfold path_channel, with_out. simpl. rewrite Hf, Ht, <- !(assoc_L (++)), <- Hh, !(assoc_L (++)). apply channel_accept.
Qed.

Lemma in_along e p : along p (with_in (copy_step e (p_in p)) p).
Proof.
  destruct (copy_in_order e (p_in p)) as (r & w & Hf & Hh & Ht). apply rtc_once.
  unfold path_channel, with_in, p_sink. simpl. rewrite Hf, Ht, <- !(assoc_L (++)), (assoc_L (++) (h_held (p_in p)) r), Hh.
  rewrite <- !(assoc_L (++)). apply channel_deliver.
Qed.

#[local] Hint Resolve along_refl out_along in_along : core.

Lemma server_copy_along c s :
  c <> CopyEnds ->
  exists up down, server_copy c s = with_paths up down s /\ along (st_up s) up /\ along (st_down s) down.
Proof. intros Hc. destruct c; try done; simpl; eexists _, _; split_and!; auto. Qed.

Lemma client_copy_along c s :
  c <> CopyEnds ->
  exists up down, client_copy c s = with_paths up down s /\ along (st_up s) up /\ along (st_down s) down.
Proof. intros Hc. destruct c; try done; simpl; eexists _, _; split_and!; auto. Qed.

(** A direction ends when both tasks have. *)
Definition both_over (s : stream) : bool :=
  match st_server s, st_client s with ServerOver, ClientOver _ => true | _, _ => false end.

Definition stream_channels (s : stream) : option (channel * channel) :=
  match st_target s with
  | Some _ => Some (path_channel (both_over s) (st_up s), path_channel (both_over s) (st_down s))
  | None => None
  end.

(** *** The header *)

Lemma forward_tcp_target {N : LocalNet} cs port f :
  forward_tcp cs port = Ok f -> exists c, find_target cs port = Ok c /\ f = ForwardTcp (local_addr_of c).
Proof.
  unfold forward_tcp. destruct (find_target cs port) as [c|]; simpl; [|done].
  destruct (tcp_connect _); [|done]. intros [= <-]. by exists c.
Qed.

Lemma tunnel_stream_tcp {N : LocalNet} cs port rest w :
  in_u 16 port ->
  handle_tunnel_stream cs (reader_of (header 1 port ++ rest)) w = (forward_tcp cs port, reader_of rest, w).
Proof.
  intros Hp. unfold handle_tunnel_stream, reader_of. rewrite Tunnel.read_header.
  by rewrite header_type, header_port by (done || unfold in_u; lia).
Qed.

Lemma tunnel_stream_short {N : LocalNet} cs data w :
  (length data < 4)%nat ->
  handle_tunnel_stream cs (reader_of data) w =
    (Err (described "Failed to read header: " unexpected_eof), reader_of [], w).
Proof. intros Hl. unfold handle_tunnel_stream. by rewrite (read_exact_short 4 (reader_of data)). Qed.

(** What the server's task has put into the stream when it is done. *)
Lemma header_written port room :
  exists w,
    (serve_request (tcp_request 0 port) (reader_of []) (mkWriter [] room broken_pipe 0) = (CopyBidirectional 0, w) /\
     wr_out w = header 1 port) \/
    (serve_request (tcp_request 0 port) (reader_of []) (mkWriter [] room broken_pipe 0) = (WriteFailed broken_pipe, w) /\
     (length (wr_out w) < 4)%nat).
Proof.
  unfold serve_request. simpl. unfold write_all. simpl. destruct room as [room|]; [|eexists; left; done].
  destruct room as [|[|[|[|room]]]]; simpl; eexists; (by left) || (right; split; [done|simpl; lia]).
Qed.

(** *** Its invariant *)

(** Before the client has read the header: it is in front of the peer's bytes,
    unless the server's task failed to write it. *)
Definition unread (data : list byte) (s : stream) : Prop :=
  let out := p_out (st_up s) in
  let wire := h_from (p_in (st_up s)) ++ h_to out in
  st_down s = idle_path [] /\ h_held (p_in (st_up s)) = [] /\ p_sink (st_up s) = [] /\
  match st_server s with
  | WritingHeader => st_up s = idle_path data
  | t =>
      (t = ServerOver /\ (length wire < 4)%nat) \/
      exists rest, wire = header 1 (st_port s) ++ rest /\ rest ++ h_held out ++ h_from out = data
  end.

(** [from]: what the local services send. *)
Definition stream_ok (cs : list ReverseProxyConfig) (data : list byte) (from : list byte -> Prop) (s : stream) : Prop :=
  in_u 16 (st_port s) /\
  match st_target s with
  | Some addr =>
      st_server s <> WritingHeader /\ st_client s <> AwaitingHeader /\
      (exists c, find_target cs (st_port s) = Ok c /\ addr = local_addr_of c) /\
      carries data (path_channel false (st_up s)) /\
      exists service_data, from service_data /\ carries service_data (path_channel false (st_down s))
  | None => st_client s <> ClientCopying /\ (st_client s = AwaitingHeader -> unread data s)
  end.

Definition steps_well cs data from (s s' : stream) : Prop :=
  stream_ok cs data from s' /\ evolves (stream_channels s) (stream_channels s').

Lemma along_carries data p p' : along p p' -> carries data (path_channel false p) -> carries data (path_channel false p').
Proof. intros Ha. induction Ha; eauto using channel_step_carries. Qed.

Lemma relayed cs data from s up down :
  stream_ok cs data from s -> is_Some (st_target s) -> both_over s = false ->
  along (st_up s) up -> along (st_down s) down -> steps_well cs data from s (with_paths up down s).
Proof.
  intros [Hp Hs] [addr Ha] Hb Hu Hd. unfold steps_well, stream_ok, stream_channels. simpl.
  rewrite Ha in *. destruct Hs as (H1 & H2 & H3 & Hcu & sd & Hf & Hcd). split.
  - split; [done|]. split_and!; try done; [by eapply along_carries|]. exists sd. split; [done|by eapply along_carries].
  - change (both_over (with_paths up down s)) with (both_over s). rewrite Hb. apply evolves_move. by apply duplex_both.
Qed.

Lemma same_steps_well cs data from s : stream_ok cs data from s -> steps_well cs data from s s.
Proof. intros H. split; [done|apply evolves_not]. Qed.

(** A task ends: once both have, the channels are closed. *)
Lemma over_evolves s s' :
  st_up s' = st_up s -> st_down s' = st_down s -> st_target s' = st_target s -> both_over s = false ->
  evolves (stream_channels s) (stream_channels s').
Proof.
  intros Hu Hd Ht Hb. unfold stream_channels. rewrite Hu, Hd, Ht, Hb. destruct (st_target s); [|apply evolves_not].
  destruct (both_over s'); [|apply evolves_not]. apply evolves_move, duplex_close.
Qed.

Lemma write_header_ok cs data from s room :
  st_server s = WritingHeader -> stream_ok cs data from s -> steps_well cs data from s (write_header room s).
Proof.
  intros Hw [Hp Hs]. destruct (st_target s) as [addr|] eqn:Ht; [by destruct Hs as [? _]|]. unfold write_header.
  destruct (header_written (st_port s) room) as (w & [[-> Hout]|[-> Hout]]); simpl.
  all: unfold steps_well, stream_ok, stream_channels; simpl; rewrite Ht; split; [|apply evolves_not].
  all: destruct Hs as [Hc Hu]; split_and!; try done; intros Hcl; specialize (Hu Hcl).
  all: destruct Hu as (Hd & Hf & Hsk & Hup); rewrite Hw in Hup; unfold unread; simpl; rewrite Hup; simpl; split_and!; try done.
  - right. exists []. by rewrite Hout.
  - by left.
Qed.

(** Nothing comes down before the client's task copies. *)
Lemma copy_step_empty e : copy_step e (mkHalf [] [] []) = mkHalf [] [] [].
Proof.
  destruct (copy_in_order e (mkHalf [] [] [])) as (r & w & Hf & Hh & Ht). destruct (copy_step e _) as [f h t]. simpl in *.
  symmetry in Hf. apply app_nil in Hf as [-> ->]. symmetry in Hh. apply app_nil in Hh as [-> ->]. by subst t.
Qed.

Lemma unread_server_copy data s c :
  st_server s = ServerCopying -> unread data s -> unread data (server_copy c s).
Proof.
  intros Hs (Hd & Hf & Hk & Hu). unfold unread. rewrite Hs in Hu.
  destruct Hu as [[? _]|(rest & Hw & Hr)]; [done|].
  destruct c as [e|e|]; simpl; rewrite ?Hs, ?Hd, ?Hf, ?Hk; simpl; rewrite ?copy_step_empty; split_and!; try done; right.
  - destruct (copy_in_order e (p_out (st_up s))) as (r & w & Hcf & Hch & Hct). exists (rest ++ w).
    rewrite Hct, (assoc_L (++)), Hw, <- !(assoc_L (++)). split; [done|].
    by rewrite (assoc_L (++) w), <- Hch, <- (assoc_L (++)), <- Hcf.
  - by exists rest.
  - by exists rest.
Qed.

Lemma unread_cross data s up down :
  unread data s -> unread data (with_paths (cross up (st_up s)) (cross down (st_down s)) s).
Proof.
  intros (Hd & Hf & Hk & Hu). unfold unread. simpl. rewrite Hd. split_and!; [|done|done|].
  - unfold cross, idle_path. simpl. by rewrite drop_nil, take_nil.
  - destruct (st_server s); [rewrite Hu; unfold cross, idle_path; simpl; by rewrite drop_nil, take_nil|..];
      by rewrite <- (assoc_L (++)), take_drop.
Qed.

Lemma server_copy_target c s :
  st_target (server_copy c s) = st_target s /\ st_port (server_copy c s) = st_port s /\
  st_client (server_copy c s) = st_client s.
Proof. by destruct c. Qed.

Lemma server_copy_ok cs data from s c :
  st_server s = ServerCopying -> stream_ok cs data from s -> steps_well cs data from s (server_copy c s).
Proof.
  intros Hs Hok. assert (both_over s = false) as Hb by (unfold both_over; by rewrite Hs).
  destruct (st_target s) as [addr|] eqn:Ht.
  - destruct c as [e|e|] eqn:Hc; [..|split; [|by apply over_evolves]].
    1, 2: destruct (server_copy_along c s) as (up & down & Heq & Hu & Hd); [by subst c|]; subst c; rewrite Heq;
      by apply relayed; [|rewrite Ht|..].
    destruct Hok as [Hp Hx]. split; [done|]. simpl. rewrite Ht in *. destruct Hx as (_ & ? & ? & ? & ?). by split_and!.
  - destruct Hok as [Hp Hx]. rewrite Ht in Hx. destruct Hx as [Hcl Hu].
    destruct (server_copy_target c s) as (Ht' & Hp' & Hcl').
    unfold steps_well, stream_ok, stream_channels. rewrite Ht', Hp', Hcl', Ht. split; [|apply evolves_not].
    split; [done|]. split; [done|]. intros Hw. by apply unread_server_copy, Hu.
Qed.

Lemma client_copy_ok cs data from s c :
  st_client s = ClientCopying -> stream_ok cs data from s -> steps_well cs data from s (client_copy c s).
Proof.
  intros Hs Hok. assert (both_over s = false) as Hb by (unfold both_over; rewrite Hs; by destruct (st_server s)).
  destruct (st_target s) as [addr|] eqn:Ht.
  - destruct c as [e|e|] eqn:Hc; [..|split; [|by apply over_evolves]].
    1, 2: destruct (client_copy_along c s) as (up & down & Heq & Hu & Hd); [by subst c|]; subst c; rewrite Heq;
      by apply relayed; [|rewrite Ht|..].
    destruct Hok as [Hp Hx]. split; [done|]. simpl. rewrite Ht in *. destruct Hx as (? & _ & ? & ? & ?). by split_and!.
  - destruct Hok as [_ Hx]. rewrite Ht in Hx. by destruct Hx.
Qed.

Lemma polled_ok cs data from s up down :
  stream_ok cs data from s ->
  steps_well cs data from s (with_paths (cross up (st_up s)) (cross down (st_down s)) s).
Proof.
  intros [Hp Hx]. unfold steps_well, stream_ok, stream_channels. simpl.
  change (both_over (with_paths _ _ s)) with (both_over s). rewrite !cross_channel. split; [|apply evolves_not].
  split; [done|]. destruct (st_target s); [done|]. destruct Hx as [Hcl Hu]. split; [done|].
  intros Hw. by apply unread_cross, Hu.
Qed.

(** What the client's task finds when it goes on: the header and what has come
    across of the peer's bytes, or the end of the stream. *)
Lemma unread_arrived connected data s :
  unread data s -> let arrived := h_from (p_in (st_up s)) in
  (4 <=? length arrived)%nat || stream_ended connected s = true ->
  (length arrived < 4)%nat \/
  st_server s <> WritingHeader /\ exists rest, arrived = header 1 (st_port s) ++ rest /\
    rest ++ h_to (p_out (st_up s)) ++ h_held (p_out (st_up s)) ++ h_from (p_out (st_up s)) = data.
Proof.
  intros (_ & _ & _ & Hup) arrived _. destruct (decide (length arrived < 4)%nat) as [|Hlen]; [by left|].
  subst arrived. right. destruct (st_server s); [rewrite Hup in Hlen; simpl in Hlen; lia|..].
  all: split; [done|]; rewrite length_app in Hup; destruct Hup as [[_ ?]|(rest & Hw & Hr)]; [lia|].
  all: exists (drop 4 (h_from (p_in (st_up s)))).
  all: assert (take 4 (h_from (p_in (st_up s))) = header 1 (st_port s)) as Ht
      by (rewrite <- (take_app_le _ (h_to (p_out (st_up s)))), Hw by lia; reflexivity).
  all: assert (drop 4 (h_from (p_in (st_up s))) ++ h_to (p_out (st_up s)) = rest) as Hd
      by (rewrite <- drop_app_le, Hw by lia; reflexivity).
  all: split; [by rewrite <- Ht, take_drop|]; by rewrite (assoc_L (++)), Hd.
Qed.

Lemma read_header_ok cs data connected (from : list byte -> Prop) s net service_data :
  st_client s = AwaitingHeader -> stream_ok cs data from s -> from service_data ->
  steps_well cs data from s (read_header cs connected net service_data s).
Proof.
  intros Hcl Hok Hf. pose proof (same_steps_well cs data from s Hok) as Hsame. destruct Hok as [Hp Hx]. unfold read_header.
  destruct ((4 <=? _)%nat || _) eqn:Hgo; [|done].
  destruct (st_target s) as [addr|] eqn:Ht; [by destruct Hx as (_ & ? & _)|]. destruct Hx as [_ Hu]. specialize (Hu Hcl).
  destruct (unread_arrived connected data s Hu Hgo) as [Hshort|(Hsv & rest & Ha & Hr)].
  - rewrite tunnel_stream_short by done. unfold steps_well, stream_ok, stream_channels. simpl. rewrite Ht.
    split; [done|apply evolves_not].
  - rewrite Ha, tunnel_stream_tcp by done. destruct Hu as (_ & Hheld & Hsink & _).
    destruct (forward_tcp (H := net) cs (st_port s)) as [f|e] eqn:Hft.
    + apply forward_tcp_target in Hft as (c & Hc & ->). unfold steps_well, stream_ok, stream_channels, both_over. simpl.
      rewrite Ht. split.
      * split; [done|]. split_and!; try done; [by exists c| |by exists service_data].
        unfold carries, path_channel, p_sink in *. simpl. rewrite Hheld, Hsink. simpl. by rewrite <- !(assoc_L (++)).
      * replace (match st_server s with ServerOver => false | _ => false end) with false by by destruct (st_server s).
        apply (evolves_open data service_data). apply duplex_both; [|done]. apply rtc_once.
        unfold path_channel, p_sink in *. simpl. rewrite Hheld, Hsink. simpl. subst data. unfold fresh_channel.
        pose proof (channel_accept (rest ++ h_to (p_out (st_up s)) ++ h_held (p_out (st_up s))) (h_from (p_out (st_up s))) [] [])
          as Hstep. by rewrite <- !(assoc_L (++)) in Hstep.
    + unfold steps_well, stream_ok, stream_channels. simpl. rewrite Ht. split; [done|apply evolves_not].
Qed.

Lemma stream_step_ok cs data connected (from : list byte -> Prop) s e :
  stream_ok cs data from s -> (forall net service_data, e = ReadHeader net service_data -> from service_data) ->
  steps_well cs data from s (stream_step cs connected s e).
Proof.
  intros Hok Hf. pose proof (same_steps_well cs data from s Hok) as Hsame. destruct e as [room|c|net sd|c]; simpl.
  - destruct (st_server s) eqn:Hs; try done. by apply write_header_ok.
  - destruct (st_server s) eqn:Hs; try done. by apply server_copy_ok.
  - destruct (st_client s) eqn:Hs; try done. apply read_header_ok; [done|done|by eapply Hf].
  - destruct (st_client s) eqn:Hs; try done. by apply client_copy_ok.
Qed.

Lemma open_stream_ok cs from port data :
  in_u 16 port -> stream_ok cs data from (open_stream port data) /\ stream_channels (open_stream port data) = None.
Proof. intros Hp. by split_and!. Qed.

Lemma stream_step_port cs connected s e : st_port (stream_step cs connected s e) = st_port s.
Proof.
  destruct e as [room|c|net sd|c]; simpl.
  - destruct (st_server s); try done. unfold write_header. by destruct (serve_request _ _ _) as [[] ?].
  - destruct (st_server s); try done. by destruct c.
  - destruct (st_client s); try done. unfold read_header. case_if; [|done].
    by destruct (handle_tunnel_stream _ _ _) as [[[[]|] ?] ?].
  - destruct (st_client s); try done. by destruct c.
Qed.

(** ** The tunnel as independent channels *)

(** The requests that have not got a stream yet: the one the loop waits with,
    those in the channel and those a listener waits with. *)
Definition pending (t : tunnel) : list TunnelRequest :=
  option_list (t_opening t) ++ mpsc_items (t_requests t) ++ map snd (t_sending t).

(** The accepted connections among them. *)
Definition pending_ids (t : tunnel) : list nat := omap tr_tcp_stream (pending t).

Definition tunnel_pipes (t : tunnel) : gmap nat (channel * channel) := omap stream_channels (t_streams t).

(** What the service reached for a connection sends. *)
Definition service_sends (es : list tunnel_event) (id : nat) (service_data : list byte) : Prop :=
  exists net, In (OnStream id (ReadHeader net service_data)) es.

(** The connection [id] was accepted on [port] and its peer sends [data]. *)
Definition accepted (es : list tunnel_event) (t : tunnel) (id : nat) (port : Z) (data : list byte) : Prop :=
  (id < t_next t)%nat /\ t_sockets t !! id = Some data /\ In (AcceptTcp port data) es.

Definition request_ok (es : list tunnel_event) (t : tunnel) (req : TunnelRequest) : Prop :=
  in_u 16 (tr_target_port req) /\
  forall id, tr_tcp_stream req = Some id -> exists data, accepted es t id (tr_target_port req) data.

Record tunnel_ok (cs : list ReverseProxyConfig) (es : list tunnel_event) (t : tunnel) : Prop := {
  ok_listeners : Forall (fun l => in_u 16 (snd l)) (t_listeners t);
  ok_requests : Forall (request_ok es t) (pending t);
  ok_ids : NoDup (pending_ids t);
  ok_streams : forall id s, t_streams t !! id = Some s ->
    id ∉ pending_ids t /\
    exists data, accepted es t id (st_port s) data /\ stream_ok cs data (service_sends es id) s;
  ok_pipes : rtc pipes_step ∅ (tunnel_pipes t) }.

Lemma tunnel_start_ok cs ls : Forall (fun l => in_u 16 (snd l)) ls -> tunnel_ok cs [] (tunnel_start ls).
Proof.
  intros Hl. assert (pending (tunnel_start ls) = []) as Hp by (unfold pending; simpl; by rewrite mpsc_channel_items).
  split; unfold pending_ids; rewrite ?Hp; try done. apply NoDup_nil_2.
Qed.

Lemma stream_ok_mono cs data (from from' : list byte -> Prop) s :
  (forall sd, from sd -> from' sd) -> stream_ok cs data from s -> stream_ok cs data from' s.
Proof.
  intros Hm [Hp Hx]. split; [done|]. destruct (st_target s); [|done].
  destruct Hx as (? & ? & ? & ? & sd & ? & ?). split_and!; try done. exists sd. auto.
Qed.

Lemma service_sends_later es e id sd : service_sends es id sd -> service_sends (es ++ [e]) id sd.
Proof. intros [net Hx]. exists net. apply in_or_app. by left. Qed.

(** Nothing accepted so far is changed by what follows. *)
Definition keeps_sockets (t t' : tunnel) : Prop :=
  (t_next t <= t_next t')%nat /\ forall id, (id < t_next t)%nat -> t_sockets t' !! id = t_sockets t !! id.

Lemma accepted_later es e t t' id port data :
  keeps_sockets t t' -> accepted es t id port data -> accepted (es ++ [e]) t' id port data.
Proof.
  intros [Hn Hs] (Hx1 & Hx2 & Hx3). split_and!; [lia|by rewrite Hs|]. apply in_or_app. by left.
Qed.

Lemma request_ok_later es e t t' req : keeps_sockets t t' -> request_ok es t req -> request_ok (es ++ [e]) t' req.
Proof.
  intros Hk [Hp Hr]. split; [done|]. intros id Hid. destruct (Hr id Hid) as [data Ha]. exists data. by eapply accepted_later.
Qed.

Lemma keeps_sockets_same t t' : t_next t' = t_next t -> t_sockets t' = t_sockets t -> keeps_sockets t t'.
Proof. intros Hn Hs. split; [lia|]. by rewrite Hs. Qed.

(** A step that leaves the streams as they are. *)
Lemma requests_change cs es e t t' :
  tunnel_ok cs es t -> keeps_sockets t t' ->
  t_listeners t' ⊆ t_listeners t -> t_streams t' = t_streams t ->
  Forall (request_ok (es ++ [e]) t') (pending t') -> NoDup (pending_ids t') ->
  (forall id, (id < t_next t)%nat -> id ∉ pending_ids t -> id ∉ pending_ids t') ->
  tunnel_ok cs (es ++ [e]) t'.
Proof.
  intros [Hl Hr Ho Hs Hp] Hk Hsub Hst Hr' Ho' Hb. split; try done.
  - rewrite Forall_forall in *. intros l Hin. by apply Hl, Hsub.
  - rewrite Hst. intros id s Hid. destruct (Hs id s Hid) as (Hlt & data & Ha & Hok). split.
    + apply Hb; [|done]. apply Ha.
    + exists data. split; [by eapply accepted_later|]. eapply stream_ok_mono; [|done]. apply service_sends_later.
  - unfold tunnel_pipes. by rewrite Hst.
Qed.

(** One that only loses requests, or hands them on. *)
Lemma requests_lost cs es e t t' :
  tunnel_ok cs es t -> t_next t' = t_next t -> t_sockets t' = t_sockets t ->
  t_listeners t' ⊆ t_listeners t -> t_streams t' = t_streams t -> pending t' ⊆+ pending t ->
  tunnel_ok cs (es ++ [e]) t'.
Proof.
  intros Hok Hn Hsock Hsub Hst [lost Hlost]%submseteq_Permutation. pose proof Hok as [Hl Hr Ho Hs Hp].
  pose proof (keeps_sockets_same t t' Hn Hsock) as Hk. unfold pending_ids in *.
  assert (omap tr_tcp_stream (pending t) ≡ₚ omap tr_tcp_stream (pending t') ++ omap tr_tcp_stream lost) as Hids
    by by rewrite <- omap_app, <- Hlost.
  apply requests_change with t; try done.
  - rewrite Hlost in Hr. apply Forall_app in Hr as [Hr _]. eapply Forall_impl; [exact Hr|].
    intros x Hx. by eapply request_ok_later.
  - rewrite Hids in Ho. by apply NoDup_app in Ho as (? & _).
  - intros id _. unfold pending_ids. rewrite Hids. set_solver.
Qed.

Lemma unchanged_ok cs es e t : tunnel_ok cs es t -> tunnel_ok cs (es ++ [e]) t.
Proof. intros Hok. by apply requests_lost with t. Qed.

(** The steps of the channel lose nothing of what they hand on. *)
Lemma sending_pending i l req (t : tunnel) :
  t_sending t !! i = Some (l, req) -> map snd (t_sending t) ≡ₚ req :: map snd (delete i (t_sending t)).
Proof. intros Hi. by rewrite (delete_Permutation _ _ _ Hi) at 1. Qed.

Lemma send_pending l t : pending (send l t) ⊆+ pending t.
Proof.
  unfold send. destruct (list_find _ (t_sending t)) as [[i [l' req]]|] eqn:Hf; [|done].
  apply list_find_Some in Hf as (Hi & _). apply sending_pending in Hi. unfold pending. destruct (t_up t).
  - destruct (mpsc_send req _) as [q|] eqn:Hq; [|done]. simpl. apply mpsc_send_items in Hq.
    apply Permutation_submseteq. by rewrite Hq, Hi, <- Permutation_middle.
  - simpl. rewrite Hi. repeat (apply submseteq_app; [reflexivity|]). by apply submseteq_cons.
Qed.

Lemma take_pending t : pending (take_request t) ⊆+ pending t.
Proof.
  unfold take_request. destruct (t_opening t) eqn:Ho; [done|]. destruct (mpsc_recv _) as [[req q]|] eqn:Hq; [|done].
  destruct (t_up t); [|done]. unfold pending. rewrite Ho. simpl. apply mpsc_recv_items in Hq.
  apply Permutation_submseteq. by rewrite Hq.
Qed.

Lemma send_rest l t :
  t_next (send l t) = t_next t /\ t_sockets (send l t) = t_sockets t /\ t_streams (send l t) = t_streams t /\
  t_udp (send l t) = t_udp t /\ t_listeners (send l t) ⊆ t_listeners t.
Proof.
  unfold send. destruct (list_find _ _) as [[i [l' req]]|]; [|done]. destruct (t_up t).
  - by destruct (mpsc_send _ _).
  - split_and!; try done. simpl. intros x Hx. by apply list_elem_of_filter in Hx as [_ ?].
Qed.

Lemma take_rest t :
  t_next (take_request t) = t_next t /\ t_sockets (take_request t) = t_sockets t /\
  t_streams (take_request t) = t_streams t /\ t_udp (take_request t) = t_udp t /\ t_listeners (take_request t) = t_listeners t.
Proof.
  unfold take_request. destruct (t_opening t); [done|]. destruct (mpsc_recv _) as [[req q]|]; [|done]. by destruct (t_up t).
Qed.

Lemma pending_below es t : Forall (request_ok es t) (pending t) -> t_next t ∉ pending_ids t.
Proof.
  rewrite Forall_forall. intros Hr (req & Hin & Hid)%list_elem_of_omap. destruct (Hr req Hin) as [_ Hx].
  destruct (Hx _ Hid) as (data & Hlt & _). lia.
Qed.

Lemma listening_port cs es t l : tunnel_ok cs es t -> listening l t = true -> in_u 16 (snd l).
Proof.
  intros [Hl _ _ _ _] [Hin _]%bool_decide_eq_true. rewrite Forall_forall in Hl. exact (Hl _ Hin).
Qed.

(** A listener has one more request. *)
Lemma added_pending l req (t : tunnel) :
  option_list (t_opening t) ++ mpsc_items (t_requests t) ++ map snd ((l, req) :: t_sending t) ≡ₚ req :: pending t.
Proof. simpl. unfold pending. by rewrite !(assoc_L (++)), <- Permutation_middle. Qed.

Lemma requests_added cs es e t t' req :
  tunnel_ok cs es t -> keeps_sockets t t' -> t_listeners t' = t_listeners t -> t_streams t' = t_streams t ->
  pending t' ≡ₚ req :: pending t -> request_ok (es ++ [e]) t' req ->
  (forall id, tr_tcp_stream req = Some id -> id = t_next t) ->
  tunnel_ok cs (es ++ [e]) t'.
Proof.
  intros Hok Hk Hls Hst Hpend Hreq Hnext. pose proof Hok as [Hl Hr Ho Hs Hp].
  pose proof (pending_below es t Hr) as Hbelow.
  assert (pending_ids t' ≡ₚ omap tr_tcp_stream [req] ++ pending_ids t) as Hids.
  { unfold pending_ids. rewrite Hpend. simpl. by destruct (tr_tcp_stream req). }
  apply requests_change with t; try done.
  - by rewrite Hls.
  - rewrite Hpend. constructor; [done|]. eapply Forall_impl; [exact Hr|]. intros x Hx. by eapply request_ok_later.
  - rewrite Hids. simpl. destruct (tr_tcp_stream req) as [id|]; [|done]. simpl. rewrite (Hnext id eq_refl). by constructor.
  - intros id Hlt Hid. rewrite Hids. simpl. destruct (tr_tcp_stream req) as [id'|]; [|done].
    rewrite (Hnext id' eq_refl). simpl. intros [->|?]%elem_of_cons; [lia|done].
Qed.

Lemma accept_tcp_ok cs es t port data :
  tunnel_ok cs es t -> tunnel_ok cs (es ++ [AcceptTcp port data]) (accept_tcp port data t).
Proof.
  intros Hok. unfold accept_tcp. destruct (listening (Tcp, port) t) eqn:Hlis; [|by apply unchanged_ok].
  pose proof (listening_port cs es t _ Hok Hlis) as Hport.
  apply requests_added with t (tcp_request (t_next t) port); try done.
  - split; simpl; [lia|]. intros id Hid. by rewrite lookup_insert_ne by lia.
  - exact (added_pending (Tcp, port) _ t).
  - split; [done|]. intros id [= <-]. exists data. split_and!; simpl; [lia|apply lookup_insert_eq|].
    apply in_or_app. right. by left.
  - by intros id [= <-].
Qed.

Lemma recv_udp_ok cs es t port socket data peer :
  tunnel_ok cs es t -> tunnel_ok cs (es ++ [RecvUdp port socket data peer]) (recv_udp port socket data peer t).
Proof.
  intros Hok. unfold recv_udp. destruct (listening (Udp, port) t) eqn:Hlis; [|by apply unchanged_ok].
  pose proof (listening_port cs es t _ Hok Hlis) as Hport.
  eapply requests_added with (t := t) (req := udp_request socket port (take UDP_BUFFER data) peer); try done.
  exact (added_pending (Udp, port) _ t).
Qed.

Lemma send_ok cs es t l : tunnel_ok cs es t -> tunnel_ok cs (es ++ [Send l]) (send l t).
Proof.
  intros Hok. destruct (send_rest l t) as (Hn & Hsock & Hst & _ & Hls).
  apply requests_lost with t; try done. apply send_pending.
Qed.

Lemma take_ok cs es t : tunnel_ok cs es t -> tunnel_ok cs (es ++ [Take]) (take_request t).
Proof.
  intros Hok. destruct (take_rest t) as (Hn & Hsock & Hst & _ & Hls).
  apply requests_lost with t; try done; [by rewrite Hls|apply take_pending].
Qed.

(** A stream is opened for a connection that was still waiting. *)
Lemma opened_ok cs es t res : tunnel_ok cs es t -> tunnel_ok cs (es ++ [Opened res]) (opened res t).
Proof.
  intros Hok. unfold opened. destruct (t_opening t) as [req|] eqn:Hop; [|by apply unchanged_ok].
  set (t1 := with_requests _ _ _ None _ t).
  assert (pending t = req :: pending t1) as Hpend by (unfold pending; by rewrite Hop).
  assert (tunnel_ok cs (es ++ [Opened res]) t1) as Hok1.
  { apply requests_lost with t; try done. rewrite Hpend. by apply submseteq_cons. }
  pose proof Hok as [Hl Hr Ho Hs Hp]. unfold pending_ids in Ho, Hs. rewrite Hpend in Hr, Ho, Hs. apply Forall_cons in Hr as [[Hport Hreq] _].
  destruct res as [[]|]; [|done]. destruct (tr_tcp_stream req) as [id|] eqn:Hid; [|by destruct Hok1; split].
  simpl in Ho, Hs. rewrite Hid in Ho, Hs. apply NoDup_cons in Ho as [Hnew _]. fold (pending_ids t1) in Hnew.
  destruct (Hreq id eq_refl) as (data & Ha1 & Ha2 & Ha3). simpl. rewrite Ha2. simpl.
  assert (t_streams t !! id = None) as Hnone.
  { destruct (t_streams t !! id) as [s|] eqn:Hsid; [|done]. destruct (Hs id s Hsid) as [[]%not_elem_of_cons _]. done. }
  destruct Hok1 as [Hl1 Hr1 Ho1 Hs1 Hp1]. split; try done.
  - simpl. intros id' s. destruct (decide (id' = id)) as [->|Hne].
    + rewrite lookup_insert_eq. intros [= <-]. split; [done|]. exists data. simpl.
      split; [|by apply open_stream_ok]. split_and!; simpl; [lia|done|]. apply in_or_app. by left.
    + rewrite lookup_insert_ne by done. apply Hs1.
  - unfold tunnel_pipes in *. cbn [t_streams with_streams]. rewrite omap_insert_None by done.
    by rewrite delete_id by by rewrite lookup_omap, Hnone.
Qed.

(** A stream moves on. *)
Lemma stream_moves cs es e t id s s' :
  tunnel_ok cs es t -> t_streams t !! id = Some s -> st_port s' = st_port s ->
  (forall data, stream_ok cs data (service_sends (es ++ [e]) id) s ->
     steps_well cs data (service_sends (es ++ [e]) id) s s') ->
  tunnel_ok cs (es ++ [e]) (with_streams (<[id := s']> (t_streams t)) t).
Proof.
  intros Hok Hid Hport Hstep. destruct (unchanged_ok cs es e t Hok) as [Hl Hr Ho Hs Hp].
  destruct (Hs id s Hid) as (Hlt & data & Ha & Hsok). destruct (Hstep data Hsok) as [Hnew Hev]. split; try done.
  - simpl. intros id' s1. destruct (decide (id' = id)) as [->|Hne].
    + rewrite lookup_insert_eq. intros [= <-]. split; [done|]. exists data. by rewrite Hport.
    + rewrite lookup_insert_ne by done. apply Hs.
  - etransitivity; [exact Hp|]. unfold tunnel_pipes. cbn [t_streams with_streams]. rewrite omap_insert_alter.
    apply evolves_pipes. by rewrite lookup_omap, Hid.
Qed.

Lemma tunnel_step_ok cs es t e : tunnel_ok cs es t -> tunnel_ok cs (es ++ [e]) (tunnel_step cs t e).
Proof.
  intros Hok. destruct e as [port data|port socket data peer|l| |res|id up down|id e|i r w| |]; cbn [tunnel_step];
    auto using accept_tcp_ok, recv_udp_ok, send_ok, take_ok, opened_ok.
  - unfold polled. destruct (t_streams t !! id) as [s|] eqn:Hid; [|by apply unchanged_ok].
    case_if; [|by apply unchanged_ok]. eapply stream_moves; try done. intros data. apply polled_ok.
  - destruct (t_streams t !! id) as [s|] eqn:Hid; [|by apply unchanged_ok].
    eapply stream_moves; try done; [apply stream_step_port|]. intros data Hs. apply stream_step_ok; [done|].
    intros net sd ->. exists net. apply in_or_app. right. by left.
  - unfold on_datagram. destruct (t_udp t !! i) as [[req []]|]; [by apply unchanged_ok| |by apply unchanged_ok].
    by destruct (unchanged_ok cs es (OnDatagram i r w) t Hok); split.
  - apply requests_lost with t; try done; [apply list_subseteq_nil|]. unfold pending. simpl. rewrite app_nil_r, (assoc_L (++)).
    by apply submseteq_inserts_r.
  - destruct (t_opening t) eqn:Ho; [by apply unchanged_ok|]. apply requests_lost with t; try done. unfold pending.
    simpl. rewrite mpsc_channel_items, Ho. simpl. by apply submseteq_inserts_l.
Qed.

Lemma tunnel_run_snoc cs t es e : tunnel_run cs t (es ++ [e]) = tunnel_step cs (tunnel_run cs t es) e.
Proof. unfold tunnel_run. by rewrite foldl_app. Qed.

Lemma tunnel_run_ok cs ls es :
  Forall (fun l => in_u 16 (snd l)) ls -> tunnel_ok cs es (tunnel_run cs (tunnel_start ls) es).
Proof.
  intros Hls. induction es as [|e es IH] using rev_ind; [by apply tunnel_start_ok|].
  rewrite tunnel_run_snoc. by apply tunnel_step_ok.
Qed.

(** Where a stream leads and what has come out of it. *)
Lemma stream_leads cs ls es id s addr :
  Forall (fun l => in_u 16 (snd l)) ls ->
  let t := tunnel_run cs (tunnel_start ls) es in
  t_streams t !! id = Some s -> st_target s = Some addr ->
  (exists c, find_target cs (st_port s) = Ok c /\ addr = local_addr_of c) /\
  (exists data, t_sockets t !! id = Some data /\ In (AcceptTcp (st_port s) data) es /\
     p_sink (st_up s) `prefix_of` data) /\
  (exists net service_data, In (OnStream id (ReadHeader net service_data)) es /\
     p_sink (st_down s) `prefix_of` service_data).
Proof.
  intros Hls t Hid Ht. destruct (tunnel_run_ok cs ls es Hls) as [_ _ _ Hs _]. fold t in Hs.
  destruct (Hs id s Hid) as (_ & data & (_ & Hsock & Hin) & _ & Hx).
  rewrite Ht in Hx. destruct Hx as (_ & _ & Hc & Hup & sd & [net Hsd] & Hdown). split; [done|]. split.
  - exists data. split; [done|]. split; [done|]. exact (carries_prefix _ _ Hup).
  - exists net, sd. split; [done|]. exact (carries_prefix _ _ Hdown).
Qed.

(** The client's task reaches the service of its port: the header it reads is the
    one the server's task wrote, whatever else the tunnel has carried. *)
Lemma stream_reaches cs ls es id s (net : LocalNet) service_data c :
  Forall (fun l => in_u 16 (snd l)) ls ->
  let t := tunnel_run cs (tunnel_start ls) es in
  t_streams t !! id = Some s -> st_client s = AwaitingHeader -> (4 <= length (h_from (p_in (st_up s))))%nat ->
  find_target cs (st_port s) = Ok c -> tcp_connect (local_addr_of c) = Ok tt ->
  exists s', t_streams (tunnel_step cs t (OnStream id (ReadHeader net service_data))) !! id = Some s' /\
    st_client s' = ClientCopying /\ st_target s' = Some (local_addr_of c) /\
    h_from (p_in (st_up s')) = drop 4 (h_from (p_in (st_up s))).
Proof.
  intros Hls t Hid Hcl Hlen Hc Hconn. destruct (tunnel_run_ok cs ls es Hls) as [_ _ _ Hs _]. fold t in Hs.
  destruct (Hs id s Hid) as (_ & data & _ & Hp & Hx).
  assert (unread data s) as Hu by (destruct (st_target s); [by destruct Hx as (_ & ? & _)|by apply Hx]).
  assert ((4 <=? length (h_from (p_in (st_up s))))%nat || stream_ended (t_up t) s = true) as Hgo
    by (by rewrite (proj2 (Nat.leb_le _ _) Hlen)).
  destruct (unread_arrived (t_up t) data s Hu Hgo) as [?|(_ & rest & Ha & _)]; [lia|].
  assert (forward_tcp (H := net) cs (st_port s) = Ok (ForwardTcp (local_addr_of c))) as Hf
    by (unfold forward_tcp; rewrite Hc; simpl; by rewrite Hconn).
  cbn [tunnel_step]. rewrite Hid. eexists. split; [apply lookup_insert_eq|]. cbn [stream_step]. rewrite Hcl.
  unfold read_header. rewrite Hgo, Ha, tunnel_stream_tcp, Hf by done. done.
Qed.

(** ** Datagrams *)

(** The datagrams received on the listeners, as requests. *)
Definition datagrams (es : list tunnel_event) : list TunnelRequest :=
  omap (fun e => match e with
                 | RecvUdp port socket data peer => Some (udp_request socket port (take UDP_BUFFER data) peer)
                 | _ => None
                 end) es.

Definition of_udp (req : TunnelRequest) : Prop := tr_tcp_stream req = None.
#[local] Instance of_udp_dec req : Decision (of_udp req) := _.

(** A task or a waiting request for each datagram at most. *)
Record datagrams_ok (es : list tunnel_event) (t : tunnel) : Prop := {
  dg_once : map fst (t_udp t) ++ filter of_udp (pending t) ⊆+ datagrams es;
  dg_served : Forall (fun u => match snd u with
                               | Some out => exists r w, out = serve_request (fst u) r w
                               | None => True
                               end) (t_udp t) }.

Lemma filter_lost (l l' : list TunnelRequest) : l' ⊆+ l -> filter of_udp l' ⊆+ filter of_udp l.
Proof.
  intros [k ->]%submseteq_Permutation. rewrite filter_app. by apply submseteq_inserts_r.
Qed.

Lemma datagrams_snoc es e : datagrams (es ++ [e]) = datagrams es ++ datagrams [e].
Proof. apply omap_app. Qed.

Lemma datagrams_lost es e t t' :
  datagrams_ok es t -> t_udp t' = t_udp t -> pending t' ⊆+ pending t -> datagrams_ok (es ++ [e]) t'.
Proof.
  intros [Ho Hs] Hu Hp%filter_lost. split; [|by rewrite Hu]. rewrite Hu, datagrams_snoc.
  apply submseteq_inserts_r. etransitivity; [|exact Ho]. by apply submseteq_app.
Qed.

Lemma datagrams_added es e t t' req :
  datagrams_ok es t -> t_udp t' = t_udp t -> pending t' ≡ₚ req :: pending t -> filter of_udp [req] = datagrams [e] ->
  datagrams_ok (es ++ [e]) t'.
Proof.
  intros [Ho Hs] Hu Hp Hd. split; [|by rewrite Hu]. rewrite Hu, datagrams_snoc, <- Hd, Hp.
  change (req :: pending t) with ([req] ++ pending t). rewrite filter_app, (Permutation_app_comm (filter _ [req])), (assoc_L (++)).
  by apply submseteq_app.
Qed.

Lemma datagrams_step cs es t e : datagrams_ok es t -> datagrams_ok (es ++ [e]) (tunnel_step cs t e).
Proof.
  intros Hok. pose proof (datagrams_lost es e t t Hok eq_refl (reflexivity _)) as Hsame.
  destruct e as [port data|port socket data peer|l| |res|id up down|id e|i r w| |]; cbn [tunnel_step].
  - unfold accept_tcp. destruct (listening _ t); [|done].
    apply datagrams_added with t (tcp_request (t_next t) port); [done..|exact (added_pending (Tcp, port) _ t)|done].
  - unfold recv_udp. destruct (listening _ t); [|done].
    apply datagrams_added with t (udp_request socket port (take UDP_BUFFER data) peer);
      [done..|exact (added_pending (Udp, port) _ t)|done].
  - apply datagrams_lost with t; [done|apply send_rest|apply send_pending].
  - apply datagrams_lost with t; [done|apply take_rest|apply take_pending].
  - unfold opened. destruct (t_opening t) as [req|] eqn:Hop; [|done]. set (t1 := with_requests _ _ _ None _ t).
    assert (pending t = req :: pending t1) as Hpend by (unfold pending; by rewrite Hop).
    assert (datagrams_ok (es ++ [Opened res]) t1) as Hok1.
    { apply datagrams_lost with t; try done. rewrite Hpend. by apply submseteq_cons. }
    destruct res as [[]|]; [|done]. destruct (tr_tcp_stream req) as [id|] eqn:Hid; [by destruct Hok1; split|].
    destruct Hok as [Ho Hs]. rewrite Hpend, filter_cons_True in Ho by done. split.
    + simpl. rewrite map_app, datagrams_snoc, <- (assoc_L (++)). by apply submseteq_inserts_r.
    + apply Forall_app. split; [done|]. by apply Forall_singleton.
  - unfold polled. destruct (t_streams t !! id); [|done]. case_if; [|done]. by destruct Hsame; split.
  - destruct (t_streams t !! id); [|done]. by destruct Hsame; split.
  - unfold on_datagram. destruct (t_udp t !! i) as [[req []]|] eqn:Hi; [done| |done]. destruct Hsame as [Ho Hs]. split.
    + simpl. rewrite list_fmap_insert, list_insert_id; [done|]. by rewrite list_lookup_fmap, Hi.
    + simpl. apply Forall_insert; [done|]. by exists r, w.
  - apply datagrams_lost with t; try done. unfold pending. simpl. rewrite app_nil_r, (assoc_L (++)).
    by apply submseteq_inserts_r.
  - destruct (t_opening t) eqn:Ho; [done|]. apply datagrams_lost with t; try done. unfold pending.
    simpl. rewrite mpsc_channel_items, Ho. simpl. by apply submseteq_inserts_l.
Qed.

Lemma datagrams_run cs ls es : datagrams_ok es (tunnel_run cs (tunnel_start ls) es).
Proof.
  induction es as [|e es IH] using rev_ind.
  - split; [|done]. unfold pending. simpl. by rewrite mpsc_channel_items.
  - rewrite tunnel_run_snoc. by apply datagrams_step.
Qed.
End Laws.
End Relay.

(** ** Properties *)

(** C7. The reverse tunnel is a set of independent byte pipes: whatever
    connections and datagrams arrive on its ports, whichever streams open, and
    however the tasks at both ends read, write, fail and end, its run is a run of
    the abstract system of duplex channels; a stream leads to the first
    configured proxy with the port its own connection was accepted on, the
    service gets a prefix of what that connection's peer sends, and the peer a
    prefix of what that service sends. *)
Theorem tunnel_refines_channels `{CL : CopyingLaws, ML : MpscLaws TunnelRequest, MX : Multiplexer} cs ls es :
  Forall (fun l => in_u 16 (snd l)) ls ->
  let t := tunnel_run cs (tunnel_start ls) es in
  rtc pipes_step ∅ (tunnel_pipes t) /\
  forall id s addr, t_streams t !! id = Some s -> st_target s = Some addr ->
    (exists c, find_target cs (st_port s) = Ok c /\ addr = local_addr_of c) /\
    (exists data, t_sockets t !! id = Some data /\ In (AcceptTcp (st_port s) data) es /\
       p_sink (st_up s) `prefix_of` data) /\
    (exists net service_data, In (OnStream id (ReadHeader net service_data)) es /\
       p_sink (st_down s) `prefix_of` service_data).
Proof.
  intros Hls t. split; [apply (tunnel_run_ok cs ls es Hls)|]. intros id s addr. by apply stream_leads.
Qed.

(** C20. Datagrams through the tunnel, in whatever order their tasks run: every
    task is that of one datagram received, and no datagram has two; replies go
    back through the socket the datagram came in on, to the peer that sent it;
    and over a stream that takes everything the datagram reaches the local service
    of the first proxy with its port, as [recv_from] gave it. *)
Theorem tunnel_datagrams `{CL : CopyingLaws, ML : MpscLaws TunnelRequest, MX : Multiplexer} cs ls es :
  let t := tunnel_run cs (tunnel_start ls) es in
  map fst (t_udp t) ⊆+ datagrams es /\
  forall req out, (req, out) ∈ t_udp t ->
    exists port socket data peer,
      req = udp_request socket port (take UDP_BUFFER data) peer /\ In (RecvUdp port socket data peer) es /\
      (forall sent w s p buf, out = Some (UdpReplies sent, w) -> (s, p, buf) ∈ sent -> s = socket /\ p = peer) /\
      forall (net : LocalNet) c r,
        in_u 16 port -> find_target cs port = Ok c ->
        udp_bind = Ok tt -> udp_send (local_addr_of c) (take UDP_BUFFER data) = Ok tt ->
        exists replies w, serve_request req r open_writer = (UdpReplies replies, w) /\
          fst (fst (handle_tunnel_stream cs (reader_of (wr_out w)) open_writer)) =
            Ok (SentUdp (local_addr_of c) (take UDP_BUFFER data)).
Proof.
  intros t. destruct (datagrams_run cs ls es) as [Ho Hs]. fold t in Ho, Hs.
  assert (map fst (t_udp t) ⊆+ datagrams es) as Hsub by (etransitivity; [by apply submseteq_inserts_r|exact Ho]).
  split; [done|]. intros req out Hin. rewrite Forall_forall in Hs. specialize (Hs _ Hin). simpl in Hs.
  assert (req ∈ datagrams es) as Hreq by (eapply elem_of_submseteq; [by apply (list_elem_of_fmap_2 fst _ _ Hin)|done]).
  apply list_elem_of_omap in Hreq as ([] & He%list_elem_of_In & [= <-]).
  exists port, socket, data, peer. split; [done|]. split; [done|]. split.
  - intros sent w s p buf -> Hbuf. destruct Hs as (r & w' & Hserve). by eapply replies_to_peer.
  - intros net c r H16 Hc Hb Hsend. apply datagram_sent; try done. unfold in_u, UDP_BUFFER. rewrite length_take. lia.
Qed.

(** ** Witnesses *)

(** A copy that reads and writes any number of bytes, and a bounded queue. *)
#[local] Instance sample_copying : Copying := {|
  copy_event := nat * nat;
  copy_step e h :=
    let held := h_held h ++ take (fst e) (h_from h) in
    mkHalf (drop (fst e) (h_from h)) (drop (snd e) held) (h_to h ++ take (snd e) held) |}.

#[local] Instance sample_copying_laws : CopyingLaws.
Proof.
  intros [n m] h. exists (take n (h_from h)), (take m (h_held h ++ take n (h_from h))). simpl. by rewrite !take_drop.
Qed.

#[local] Instance sample_mpsc {A} : Mpsc A := {|
  mpsc := nat * list A;
  mpsc_channel n := (n, []);
  mpsc_send a q := if (length (snd q) <? fst q)%nat then Some (fst q, snd q ++ [a]) else None;
  mpsc_recv q := match snd q with [] => None | a :: l => Some (a, (fst q, l)) end;
  mpsc_items := snd |}.

#[local] Instance sample_mpsc_laws {A} : MpscLaws A.
Proof.
  split; [done|..]; intros a [n l] [n' l']; simpl.
  - case_if; [|done]. intros [= <- <-]. symmetry. apply Permutation_cons_append.
  - destruct l; [done|]. by intros [= <- <- <-].
Qed.

#[local] Instance sample_multiplexer : Multiplexer := {| opening_polls := false |}.

Definition relay_targets : list ReverseProxyConfig := [mkReverseProxyConfig 8080 None "127.0.0.1" 80].
Definition relay_listeners : list Listener := [(Tcp, 8080); (Udp, 8080)].
Definition relay_request : list byte := map z_byte [71; 69; 84].
Definition relay_answer : list byte := map z_byte [79; 75].

(** Two connections and a datagram, which come in while the first connection waits
    for its stream; that connection is copied half way, and the datagram's task
    runs meanwhile. *)
Definition relay_events : list tunnel_event :=
  [AcceptTcp 8080 relay_request; RecvUdp 8080 3 relay_answer sample_peer; Send (Tcp, 8080); AcceptTcp 8080 relay_answer;
   Send (Udp, 8080); Take; Send (Tcp, 8080); Opened (Ok tt); OnStream 0 (WriteHeader None);
   OnStream 0 (ServerCopy (CopyUp (3, 1)%nat)); Take; Polled 0 5 0; Opened (Ok tt); Polled 0 4 0;
   OnStream 0 (ReadHeader sample_net relay_answer); Polled 0 1 0; OnDatagram 0 (reader_of []) open_writer;
   OnStream 0 (ServerCopy (CopyUp (0, 1)%nat)); Polled 0 1 0; OnStream 0 (ClientCopy (CopyUp (2, 2)%nat));
   OnStream 0 (ClientCopy (CopyDown (1, 1)%nat))].

Lemma relay_ports : Forall (fun l : Listener => in_u 16 (snd l)) relay_listeners.
Proof. repeat constructor; simpl; lia. Qed.

Theorem tunnel_refines_channels_witness :
  exists s, t_streams (tunnel_run relay_targets (tunnel_start relay_listeners) relay_events) !! 0%nat = Some s /\
    p_sink (st_up s) = map z_byte [71; 69] /\ p_sink (st_up s) `prefix_of` relay_request /\
    local_addr_of (mkReverseProxyConfig 8080 None "127.0.0.1" 80) = "127.0.0.1:80".
Proof.
  destruct (tunnel_refines_channels relay_targets relay_listeners relay_events relay_ports) as [_ H].
  eexists. split; [vm_compute; reflexivity|].
  destruct (H 0%nat _ "127.0.0.1:80" ltac:(vm_compute; reflexivity) eq_refl) as (_ & (data & Hs & _ & Hp) & _).
  vm_compute in Hs. injection Hs as <-. split; [reflexivity|]. split; [exact Hp|reflexivity].
Defined.

Theorem tunnel_datagrams_witness :
  exists out w',
    t_udp (tunnel_run relay_targets (tunnel_start relay_listeners) relay_events) =
      [(udp_request 3 8080 relay_answer sample_peer, Some (out, w'))] /\
    exists replies w,
      serve_request (udp_request 3 8080 relay_answer sample_peer) (reader_of []) open_writer = (UdpReplies replies, w) /\
      fst (fst (handle_tunnel_stream (H := sample_net) relay_targets (reader_of (wr_out w)) open_writer)) =
        Ok (SentUdp "127.0.0.1:80" relay_answer).
Proof.
  eexists _, _. split; [vm_compute; reflexivity|].
  destruct (tunnel_datagrams relay_targets relay_listeners relay_events) as [_ H].
  edestruct (H (udp_request 3 8080 relay_answer sample_peer)) as (port & socket & data & peer & Hr & _ & _ & Hd);
    [vm_compute; left|].
  injection Hr as <- <- Hdata <-. rewrite <- Hdata in Hd.
  apply (Hd sample_net (mkReverseProxyConfig 8080 None "127.0.0.1" 80)); [unfold in_u; lia|reflexivity..].
Defined.
