(* ===== verification/ReversePath.v ===== *)
(** * ReversePath: a public connection to a local service, end to end
    (src/src/reverse_proxy/server.rs, client.rs)

    The connections under the tunnel (the client's [create_optimized_tcp], the
    server's loop over its multiplexed connection), and the composition of the
    reverse proxy's parts: a validated rule, the session its handshake opens,
    the listener of its port, the tunnel request of a connection on that port
    and the client's end of the tunnel stream, alone and among all others. *)

From Stdlib Require Import Ascii String ZArith Lia.
From stdpp Require Import base gmap strings list.
From S2P Require Import Prelude Text NetAddr Errors Config ConfigSpec Totp Stream Protocol ReverseServer Tunnel ReverseClient TunnelRelay.

(** ** The client's TCP connection *)

(** The socket's calls; [connect] is that of an IPv4 socket, and [None] the
    30-second timeout. *)
Record TcpCalls := mkTcpCalls {
  tc_new_v4 : result unit IoError;
  tc_nodelay : result unit IoError;
  tc_recv_buffer : result unit IoError;
  tc_send_buffer : result unit IoError;
  tc_keepalive : result unit IoError;
  tc_connect : SocketAddr -> option (result (Reader * Writer) IoError) }.

Definition create_optimized_tcp (calls : TcpCalls) (addr : SocketAddr) : Result (Reader * Writer) :=
  let? _ := map_err Io (tc_new_v4 calls) in
  let? _ := map_err Io (tc_nodelay calls) in
  let? _ := map_err Io (tc_recv_buffer calls) in
  let? _ := map_err Io (tc_send_buffer calls) in
  let? _ := map_err Io (tc_keepalive calls) in
  match tc_connect calls addr with
  | None => Err (ReverseProxy (RpConnectionFailed "Connection timeout"))
  | Some r => map_err Io r
  end.

(** ** The server's loop over the multiplexed connection *)

(** What its [select!] completes with: a request of a listener task, with the
    stream opened for it or the error, or something from the client. *)
Inductive mux_event : Type :=
| Request (req : TunnelRequest) (opened : result (Reader * Writer) string)
| UnexpectedStream
| MuxError (e : string)
| MuxClosed.

(** The tasks spawned for the requests, and whether the loop has ended. *)
Fixpoint mux_loop (events : list mux_event) : list (served * Writer) * bool :=
  match events with
  | [] => ([], false)
  | Request req (Ok (r, w)) :: events =>
      let '(tasks, ended) := mux_loop events in (serve_request req r w :: tasks, ended)
  | Request _ (Err _) :: events | UnexpectedStream :: events => mux_loop events
  | MuxError _ :: _ | MuxClosed :: _ => ([], true)
  end.

(** [handle_client] after its handshake: the loop, then the clean-up. *)
Definition tunnel_connection (addr : SocketAddr) (events : list mux_event) (st : State)
  : option (Result unit) * list (served * Writer) * State :=
  let '(tasks, ended) := mux_loop events in
  if ended : bool then (Some (Ok tt), tasks, remove_session (client_id addr) st) else (None, tasks, st).

(** The whole of [handle_client], when no other task changes the sessions
    meanwhile (ReverseServer has the interleaving); no result while it is in its
    loop. *)
Definition handle_client `{Env, Codec} (os_permits : Listener -> bool) (srv : ReverseProxyServer) (wall now : Z)
    (addr : SocketAddr) (r : Reader) (w : Writer) (events : list mux_event) (st : State)
  : outcome (option (Result unit) * list (served * Writer) * Writer * State) :=
  let! admitted := admit_client os_permits srv wall now addr r w st in
  match admitted with
  | (Err e, _, w, st) => Val (Some (Err e), [], w, st)
  | (Ok _, _, w, st) =>
      let '(res, tasks, st) := tunnel_connection addr events st in Val (res, tasks, w, st)
  end.

(** ** One TCP connection through the tunnel *)

(** What the client does with the stream opened for a connection on [port] whose
    peer sends [data], and the bytes left in the stream, which it hands on. *)
Definition tcp_through_tunnel `{LocalNet} (cs : list ReverseProxyConfig) (stream : nat) (port : Z)
    (data : list byte) : option (Result forwarded * list byte) :=
  match serve_request (tcp_request stream port) (reader_of []) open_writer with
  | (CopyBidirectional _, w) =>
      let '(res, r, _) := handle_tunnel_stream cs (reader_of (wr_out w ++ data)) open_writer in
      Some (res, rd_data r)
  | _ => None
  end.

(** ** Lemmas *)

Lemma find_target_unique cs p :
  NoDup (map server_port cs) -> p ∈ cs -> find_target cs (server_port p) = Ok p.
Proof.
  unfold find_target. induction cs as [|c cs IH]; [by intros _ ?%elem_of_nil|].
  cbn [map find]. intros [Hc Hnd]%NoDup_cons [->|Hp]%elem_of_cons.
  - by rewrite Z.eqb_refl.
  - destruct (Z.eqb_spec (server_port c) (server_port p)) as [He|_]; [|by apply IH].
    destruct Hc. rewrite He. by apply list_elem_of_fmap_2.
Qed.

(** A requested port that is free and permitted gets its listener. *)
Lemma bind_all_binds os cs b ls b' p :
  bind_all os cs b = (ls, b') -> NoDup (map server_port cs) -> p ∈ cs -> server_port p <> 0 ->
  os (Tcp, server_port p) = true -> (Tcp, server_port p) ∉ b -> (Tcp, server_port p) ∈ ls.
Proof.
  revert b ls b'. induction cs as [|c cs IH]; intros b ls b'; [by intros _ _ ?%elem_of_nil|].
  cbn [bind_all map]. intros Hb [Hc Hnd]%NoDup_cons Hp H0 Hos Hfree.
  destruct (bind_config os c b) as [l1 b1] eqn:H1. destruct (bind_all os cs b1) as [l2 b2] eqn:H2.
  injection Hb as <- <-. apply elem_of_app. apply elem_of_cons in Hp as [->|Hp].
  - left. unfold bind_config, can_bind in H1.
    rewrite Hos, (bool_decide_eq_false_2 _ Hfree), orb_true_r in H1. simpl in H1.
    case_if; injection H1 as <- <-; by left.
  - right. eapply IH; try done. intros Hin. apply (bind_config_adds os c b l1 b1 H1) in Hin as [|[Hin _]]; [done|].
    apply (bind_config_permitted os c b l1 b1 _ H1) in Hin as [Hport _]. simpl in Hport.
    apply Hc. rewrite <- Hport. by apply list_elem_of_fmap_2.
Qed.

(** The listeners of a session are on ports of the client's proxies. *)
Lemma session_ports os now addr ps st s :
  Forall (fun p => valid_port (server_port p) /\ valid_port (local_port p)) ps ->
  clients (open_session os now addr ps st) !! client_id addr = Some s ->
  Forall (fun l => in_u 16 (snd l)) (cs_listeners s).
Proof.
  intros Hps. unfold open_session. destruct (bind_all os ps (bound st)) as [ls b'] eqn:Hb. simpl.
  rewrite lookup_insert_eq. intros [= <-]. apply Forall_forall. intros l Hl.
  destruct (bind_all_permitted _ _ _ _ _ _ Hb Hl) as (c & Hc & -> & _).
  rewrite Forall_forall in Hps. destruct (Hps c Hc) as [[? ?] _]. unfold in_u. lia.
Qed.

(** A rule's streams in any run of the tunnel of its session.  One that has
    reached a service has reached the rule's: the connection it was opened for was
    accepted on the rule's port, the service has a prefix of what that connection's
    peer sends and the peer a prefix of what the service sends.  One whose header
    has come across reaches it, when the client's task reads it and connects, and
    the bytes behind the header are what the task copies. *)
Definition serves_rule `{CP : Copying, CH : Mpsc TunnelRequest, MX : Multiplexer} (ps : list ReverseProxyConfig) (p : ReverseProxyConfig)
    (session : ClientSession) : Prop :=
  forall es id s,
    let t := tunnel_run ps (tunnel_start (cs_listeners session)) es in
    t_streams t !! id = Some s -> st_port s = server_port p ->
    (forall target, st_target s = Some target ->
       target = local_addr_of p /\
       (exists data, t_sockets t !! id = Some data /\ In (AcceptTcp (server_port p) data) es /\
          p_sink (st_up s) `prefix_of` data) /\
       exists net service_data, In (OnStream id (ReadHeader net service_data)) es /\
          p_sink (st_down s) `prefix_of` service_data) /\
    (forall (net : LocalNet) service_data,
       st_client s = AwaitingHeader -> (4 <= length (h_from (p_in (st_up s))))%nat ->
       tcp_connect (local_addr_of p) = Ok tt ->
       exists s', t_streams (tunnel_step ps t (OnStream id (ReadHeader net service_data))) !! id = Some s' /\
         st_client s' = ClientCopying /\ st_target s' = Some (local_addr_of p) /\
         h_from (p_in (st_up s')) = drop 4 (h_from (p_in (st_up s)))).

Lemma session_serves_rule `{CL : CopyingLaws, ML : MpscLaws TunnelRequest, MX : Multiplexer} ps p session :
  NoDup (map server_port ps) -> p ∈ ps -> Forall (fun l => in_u 16 (snd l)) (cs_listeners session) ->
  serves_rule ps p session.
Proof.
  intros Hnd Hp Hls es id s t Hid Hport. pose proof (find_target_unique ps p Hnd Hp) as Hfind. split.
  - intros target Ht. destruct (stream_leads _ _ _ _ _ target Hls Hid Ht) as ((q & Hq & ->) & Hup & Hdown).
    rewrite Hport in *. rewrite Hfind in Hq. injection Hq as <-. by split_and!.
  - intros net sd Hcl Hlen Hc. eapply stream_reaches; try done. by rewrite Hport.
Qed.

(** ** Properties *)

(** C6. A validated reverse rule is served end to end: once its client's session is
    open, the rule's port has a listener if the system permits it and nobody
    held it, and a connection on that port reaches the rule's local service, when
    the client can connect to it, with the peer's bytes unchanged behind the
    header; and in any run of the session's tunnel, with any connections and
    datagrams, a stream opened for the port whose header has come across reaches
    the rule's service, one that has reached a service has reached the rule's, and
    what comes out at each end is a prefix of what the other end of that same
    connection sends. *)
Theorem reverse_rule_is_served
    `{N : LocalNet, CL : CopyingLaws, ML : MpscLaws TunnelRequest, MX : Multiplexer} c env srv_addr os now addr st r :
  is_ok (validate c).1 = true -> r ∈ cf_reverse_proxies c ->
  exists ps p,
    parse_proxy_configs (new env srv_addr c) = Ok ps /\ p ∈ ps /\ parse_proxy_config r = Ok p /\
    (os (Tcp, server_port p) = true -> (Tcp, server_port p) ∉ bound st ->
     exists s, clients (open_session os now addr ps st) !! client_id addr = Some s /\
       (Tcp, server_port p) ∈ cs_listeners s) /\
    (forall stream data, tcp_connect (local_addr_of p) = Ok tt ->
     tcp_through_tunnel ps stream (server_port p) data = Some (Ok (ForwardTcp (local_addr_of p)), data)) /\
    (forall session,
     clients (open_session os now addr ps st) !! client_id addr = Some session -> serves_rule ps p session).
Proof.
  intros Hv Hr. destruct (validated_rules_parse_all c env srv_addr Hv) as (ps & Hps & Hnd & Hports).
  pose proof (proj1 (parse_proxy_configs_Ok _ _) Hps) as Hall.
  apply list_elem_of_lookup in Hr as [i Hi]. destruct (Forall2_lookup_l _ _ _ _ _ Hall Hi) as (p & Hp%list_elem_of_lookup_2 & Hpr).
  exists ps, p. split; [done|]. split; [done|]. split; [done|].
  pose proof Hports as Hall'. rewrite Forall_forall in Hports. destruct (Hports p Hp) as [[Hp0 Hp16] _].
  split; [|split].
  - intros Hos Hfree. unfold open_session. destruct (bind_all os ps (bound st)) as [ls b'] eqn:Hb. simpl.
    rewrite lookup_insert_eq. eexists. split; [done|]. simpl.
    eapply bind_all_binds; try done. lia.
  - intros stream data Hc. unfold tcp_through_tunnel, serve_request, tcp_request.
    cbn [tr_tcp_stream tr_target_port]. rewrite write_parts_open by done.
    cbn [wr_out open_writer concat app]. rewrite app_nil_r, tunnel_stream_tcp by (unfold in_u; lia).
    unfold forward_tcp. by rewrite (find_target_unique ps p Hnd Hp), Hc.
  - intros session Hses. apply session_serves_rule; [done..|]. by eapply session_ports.
Qed.


(** The server promises ports before it binds them: a client with valid
    credentials is told that all its ports are allocated, whatever the
    operating system then permits; when it permits none, the session is stored
    with no listener at all. *)
Theorem promised_ports_may_be_unbound `{Env, Codec} srv wall now addr r w st ps msg r' w' :
  read_from r = (Ok msg, r') -> check_hello srv wall msg = Val (Accept ps) ->
  write_to (hello_ok wall addr ps) w = (Ok tt, w') ->
  admit_client (fun _ => false) srv wall now addr r w st =
    Val (Ok tt, r', w', open_session (fun _ => false) now addr ps st) /\
  clients (open_session (fun _ => false) now addr ps st) !! client_id addr = Some (mkClientSession ps [] now) /\
  exists text session,
    hello_ok wall addr ps = ServerHello PROTOCOL_VERSION HsOk text (map server_port ps) session.
Proof.
  intros Hr Hc Hw. split; [unfold admit_client, greet; by rewrite Hr, Hc, Hw|]. split; [|by eexists _, _].
  assert (forall b, bind_all (fun _ => false) ps b = ([], b)) as Hb.
  { clear. induction ps as [|p ps IH]; intros b; [done|]. cbn [bind_all]. unfold bind_config, can_bind. simpl.
    by rewrite IH. }
  unfold open_session. rewrite Hb. simpl. by rewrite lookup_insert_eq.
Qed.

(** An IPv4 socket cannot be connected to an IPv6 address. *)
Definition v4_only (calls : TcpCalls) : Prop :=
  forall addr, is_v4 (sa_ip addr) = false -> exists e, tc_connect calls addr = Some (Err e).

(** A server with an IPv6 address is never reached: the client always makes
    an IPv4 socket, so every connection fails before its handshake, and unless
    it is shut down the client gives up after ten of them. *)
Theorem ipv6_server_unreachable `{Env, Codec} c :
  is_v4 (sa_ip (server_addr c)) = false ->
  (forall calls wall events, v4_only calls ->
   exists e, run_connection c wall (create_optimized_tcp calls (server_addr c)) events = Val (Some (Err e), [])) /\
  (forall (calls : Z -> TcpCalls) wall events attempt,
   (forall k, v4_only (calls k)) ->
   (forall k, at_shutdown (attempt k) = false /\ at_backoff_shutdown (attempt k) = false /\
      run_connection c (wall k) (create_optimized_tcp (calls k) (server_addr c)) (events k) =
        Val (Some (at_result (attempt k)), [])) ->
   start attempt = Some (Err (ReverseProxy (RpConnectionFailed "Failed after 10 retry attempts")), 10,
     [1; 2; 4; 8; 16; 32; 60; 60; 60])).
Proof.
  intros Hv6.
  assert (forall calls wall events, v4_only calls ->
    exists e, run_connection c wall (create_optimized_tcp calls (server_addr c)) events = Val (Some (Err e), [])) as Hrun.
  { intros calls wall events Hv4. unfold run_connection. destruct (parse_proxy_configs c) as [[|p ps]|]; [by eexists| |by eexists].
    assert (exists e, create_optimized_tcp calls (server_addr c) = Err e) as [e ->]; [|by eexists].
    destruct (Hv4 _ Hv6) as [e He]. unfold create_optimized_tcp. rewrite He.
    destruct (tc_new_v4 calls), (tc_nodelay calls), (tc_recv_buffer calls), (tc_send_buffer calls), (tc_keepalive calls);
      by eexists. }
  split; [done|]. intros calls wall events attempt Hv4 Hatt.
  unfold start. rewrite start_loop_all_fail; [reflexivity|]. intros k. destruct (Hatt k) as (H1 & H2 & H3).
  split; [done|]. split; [done|]. destruct (Hrun (calls k) (wall k) (events k) (Hv4 k)) as [e He].
  rewrite He in H3. injection H3 as H3. by rewrite <- H3.
Qed.

(** ** Witnesses *)

#[local] Existing Instances FixedWidth.codec FixedWidth.laws ReverseServer.sample_env Tunnel.sample_net.
#[local] Existing Instances sample_copying sample_copying_laws sample_mpsc sample_mpsc_laws sample_multiplexer.

(** The run of TunnelRelay's examples on the listeners of the session. *)
Definition sample_session : ClientSession :=
  mkClientSession relay_targets relay_listeners 0.

Theorem reverse_rule_is_served_witness :
  exists ps p, parse_proxy_configs sample_client = Ok ps /\ server_port p = 8080 /\
    tcp_through_tunnel ps 3 (server_port p) sample_datagram = Some (Ok (ForwardTcp "127.0.0.1:80"), sample_datagram) /\
    clients (open_session (fun _ => true) 0 ReverseServer.sample_peer ps initial) !! client_id ReverseServer.sample_peer
      = Some sample_session /\
    exists s data, t_streams (tunnel_run ps (tunnel_start (cs_listeners sample_session)) relay_events) !! 0%nat = Some s /\
      st_target s = Some (local_addr_of p) /\ p_sink (st_up s) = map z_byte [71; 69] /\ p_sink (st_up s) `prefix_of` data.
Proof.
  destruct (reverse_rule_is_served sample_config None (mkSocketAddr (V4 10 0 0 1) 9001) (fun _ => true) 0
    ReverseServer.sample_peer initial (mkReverseProxySection "8080" "127.0.0.1:80" None))
    as (ps & p & Hps & _ & Hp & _ & Ht & Ha); [vm_compute; reflexivity|left|].
  exists ps, p. split; [exact Hps|]. vm_compute in Hp. injection Hp as <-. split; [reflexivity|].
  split; [exact (Ht 3%nat sample_datagram eq_refl)|]. vm_compute in Hps. injection Hps as <-.
  split; [vm_compute; reflexivity|].
  destruct (Ha sample_session ltac:(vm_compute; reflexivity) relay_events 0%nat _ ltac:(vm_compute; reflexivity) eq_refl)
    as [Hr _].
  destruct (Hr "127.0.0.1:80" eq_refl) as (_ & (data & _ & _ & Hpre) & _).
  eexists _, data. split; [vm_compute; reflexivity|]. split; [reflexivity|]. split; [reflexivity|exact Hpre].
Defined.

Definition sample_run (events : list mux_event) : outcome (option (Result unit) * list (served * Writer) * Writer * State) :=
  handle_client (fun _ => true) sample_server 1700000000 0 ReverseServer.sample_peer (sample_input "guest") open_writer
    events initial.

Lemma initial_ports : ports_ok initial.
Proof.
  split; [intros l; split; [set_solver|intros (id & s & Hs & _); discriminate Hs]|].
  intros id id' l (s & Hs & _). discriminate Hs.
Qed.


Definition v6_calls : TcpCalls :=
  mkTcpCalls (Ok tt) (Ok tt) (Ok tt) (Ok tt) (Ok tt)
    (fun _ => Some (Err (mkIoError OtherKind "Address family not supported by protocol (os error 97)"))).
Definition v6_client : ReverseProxyClient :=
  new None (mkSocketAddr (V6 [8193; 3512; 0; 0; 0; 0; 0; 1]) 9001) sample_config.

Theorem ipv6_server_unreachable_witness :
  start (fun _ => mkAttempt false (Err (Io (mkIoError OtherKind "Address family not supported by protocol (os error 97)"))) false) =
    Some (Err (ReverseProxy (RpConnectionFailed "Failed after 10 retry attempts")), 10,
      [1; 2; 4; 8; 16; 32; 60; 60; 60]).
Proof.
  apply (proj2 (ipv6_server_unreachable v6_client eq_refl) (fun _ => v6_calls) (fun _ => 0) (fun _ => [])).
  - intros _ a _. eexists. reflexivity.
  - intros k. split; [reflexivity|]. split; [reflexivity|]. vm_compute. reflexivity.
Defined.

Theorem promised_ports_may_be_unbound_witness :
  exists w', admit_client (fun _ => false) (new_with_auth UNSPECIFIED 9001 None []) 0 0 ReverseServer.sample_peer
    (reader_of (wr_out (snd (write_to (ClientHello PROTOCOL_VERSION "" None sample_ps
       (sha256_hex (default "" (result_ok (to_json sample_ps))))) open_writer)))) open_writer initial =
    Val (Ok tt, reader_of [], w', open_session (fun _ => false) 0 ReverseServer.sample_peer sample_ps initial).
Proof.
  eexists.
  refine (proj1 (promised_ports_may_be_unbound (new_with_auth UNSPECIFIED 9001 None []) 0 0 ReverseServer.sample_peer
    _ open_writer initial sample_ps _ _ _ _ _ _)); vm_compute; reflexivity.
Defined.
