(* ===== verification/ProxyServer.v ===== *)
(** * ProxyServer: the forward proxy server (src/src/proxy/server.rs)

    One [ProxyInstance] per [[proxies]] rule, each with its own connection
    handler; the builder that turns rules into instances; the life of an
    instance from binding its sockets to the shutdown signal; the server that
    runs them all.  The operating system's answers are arguments. *)

From Stdlib Require Import Ascii String ZArith Lia SpecFloat.
From stdpp Require Import base gmap strings list.
From S2P Require Import Prelude Text NetAddr Errors Config ConfigSpec F64 Stealth.

(** ** Data *)

(** The connection handler is shared by reference and its configuration never
    changes; its state is that of Stealth. *)
Record ProxyInstance := mkProxyInstance {
  bind_addr : SocketAddr;
  pi_remote_addr : SocketAddr;
  pi_source_ip : option IpAddr;
  connection_handler : StealthConnectionHandler;
  running : bool }.

Record ProxyServer := mkProxyServer {
  bind_ip : IpAddr;
  proxy_instances : list ProxyInstance }.

Record ServerStatus := mkServerStatus {
  st_bind_ip : IpAddr;
  total_instances : Z;
  active_instances : Z }.

Record ProxyServerBuilder := mkBuilder {
  b_bind_ip : option IpAddr;
  b_proxy_configs : list ProxySection }.

(** ** Building *)

Definition new_instance (ip : IpAddr) (local_port : Z) (remote : SocketAddr) (src : option IpAddr)
    (allow : option (list string)) (max_conns : option Z) (cps : option f64) : ProxyInstance :=
  mkProxyInstance (mkSocketAddr ip local_port) remote src (mkHandler remote src allow max_conns cps) false.

Definition placeholder_from (original : ProxyInstance) : ProxyInstance :=
  mkProxyInstance (mkSocketAddr UNSPECIFIED 0) (pi_remote_addr original) (pi_source_ip original)
    (connection_handler original) false.

Definition new_server (ip : IpAddr) : ProxyServer := mkProxyServer ip [].

Definition add_proxy (s : ProxyServer) (p : ProxySection) : Result ProxyServer :=
  let? local_port := ProxySection.get_local_port p in
  let? local_bind_ip :=
    match ProxySection.get_local_ip p with
    | Some local_ip => parse_ip_address local_ip
    | None => Ok (bind_ip s)
    end in
  let? remote_host := ProxySection.get_remote_host p in
  let? remote_port := ProxySection.get_remote_port p in
  let? remote := create_socket_addr remote_host remote_port in
  let? src :=
    match ps_source_ip p with
    | Some src => map_ok Some (parse_ip_address src)
    | None => Ok None
    end in
  let instance := new_instance local_bind_ip local_port remote src (ps_allow_ips p)
                    (ps_max_conns_per_ip p) (ps_cps_limit p) in
  Ok (mkProxyServer (bind_ip s) (proxy_instances s ++ [instance])).

Definition new_builder : ProxyServerBuilder := mkBuilder None [].
Definition with_bind_ip (b : ProxyServerBuilder) (ip : IpAddr) : ProxyServerBuilder :=
  mkBuilder (Some ip) (b_proxy_configs b).
Definition builder_add_proxy (b : ProxyServerBuilder) (p : ProxySection) : ProxyServerBuilder :=
  mkBuilder (b_bind_ip b) (b_proxy_configs b ++ [p]).
Definition add_proxies (b : ProxyServerBuilder) (ps : list ProxySection) : ProxyServerBuilder :=
  mkBuilder (b_bind_ip b) (b_proxy_configs b ++ ps).

Fixpoint add_all (s : ProxyServer) (ps : list ProxySection) : Result ProxyServer :=
  match ps with
  | [] => Ok s
  | p :: ps => let? s := add_proxy s p in add_all s ps
  end.

Definition build (b : ProxyServerBuilder) : Result ProxyServer :=
  add_all (new_server (default LOCALHOST (b_bind_ip b))) (b_proxy_configs b).

(** ** One instance *)

(** The answers of the operating system to the calls that set an instance up. *)
Record ListenCalls := mkListenCalls {
  lc_socket : result unit IoError;
  lc_reuse_address : result unit IoError;
  lc_bind : result unit IoError;
  lc_listen : result unit IoError;
  lc_nonblocking : result unit IoError;
  lc_from_std : result unit IoError;
  lc_local_addr : result unit IoError;
  lc_udp_bind : result unit IoError }.

Definition network {A} (f : IoError -> NetworkError) (r : result A IoError) : Result A :=
  map_err (fun e => Network (f e)) r.

Definition create_optimized_listener (i : ProxyInstance) (c : ListenCalls) : Result unit :=
  let addr := show_socket_addr (bind_addr i) in
  let? _ := map_err Io (lc_socket c) in
  let? _ := network (fun e => InvalidSocketOption ("set_reuse_address: " +:+ io_text e)) (lc_reuse_address c) in
  let? _ := network (fun e => ListenFailed ("Failed to bind to " +:+ addr +:+ ": " +:+ io_text e)) (lc_bind c) in
  let? _ := network (fun e => ListenFailed ("Failed to listen on " +:+ addr +:+ ": " +:+ io_text e)) (lc_listen c) in
  let? _ := network (fun e => ListenFailed ("set_nonblocking: " +:+ io_text e)) (lc_nonblocking c) in
  network (fun e => ListenFailed ("Failed to create TcpListener: " +:+ io_text e)) (lc_from_std c).

(** What the accept loop sees, in the order its [select!] takes it. *)
Inductive accept_event : Type :=
| Accepted (addr : SocketAddr)
| AcceptError (e : IoError)
| ShutdownSignal.

(** The connections handed to the handler, and whether the loop has ended. *)
Fixpoint accept_loop (events : list accept_event) : list SocketAddr * bool :=
  match events with
  | [] => ([], false)
  | Accepted addr :: events => let '(conns, ended) := accept_loop events in (addr :: conns, ended)
  | AcceptError _ :: events => accept_loop events
  | ShutdownSignal :: _ => ([], true)
  end.

Inductive datagram_event : Type :=
| Datagram (data : list byte) (addr : SocketAddr)
| RecvError (e : IoError)
| UdpShutdown.

(** The receive buffer of the UDP loop has 65535 bytes. *)
Definition UDP_BUFFER : nat := Z.to_nat 65535.

Fixpoint datagram_loop (events : list datagram_event) : list (list byte * SocketAddr) * bool :=
  match events with
  | [] => ([], false)
  | Datagram data addr :: events =>
      let '(packets, ended) := datagram_loop events in ((take UDP_BUFFER data, addr) :: packets, ended)
  | RecvError _ :: events => datagram_loop events
  | UdpShutdown :: _ => ([], true)
  end.

Definition with_running (i : ProxyInstance) (b : bool) : ProxyInstance :=
  mkProxyInstance (bind_addr i) (pi_remote_addr i) (pi_source_ip i) (connection_handler i) b.

(** A running instance: its record, the calls made on its handler, and the
    result once [start] has returned. *)
Record Running := mkRunning {
  r_instance : ProxyInstance;
  r_connections : list SocketAddr;
  r_packets : list (list byte * SocketAddr);
  r_result : option (Result unit) }.

Definition instance_start (i : ProxyInstance) (c : ListenCalls)
    (accepts : list accept_event) (datagrams : list datagram_event) : Running :=
  let i := with_running i true in
  let setup :=
    let? _ := create_optimized_listener i c in
    let? _ := network (fun e => ListenFailed ("Failed to get local address: " +:+ io_text e)) (lc_local_addr c) in
    network (fun e => ListenFailed ("Failed to bind UDP port " +:+ show_socket_addr (bind_addr i)
                                      +:+ ": " +:+ io_text e)) (lc_udp_bind c) in
  match setup with
  | Err e => mkRunning i [] [] (Some (Err e))
  | Ok _ =>
      let '(packets, _) := datagram_loop datagrams in
      let '(conns, ended) := accept_loop accepts in
      mkRunning (with_running i (negb ended)) conns packets (if ended then Some (Ok tt) else None)
  end.

(** ** The server *)

(** [start]: every instance is moved into a task and replaced by its
    placeholder; the server waits for a signal ([signalled]), sends the shutdown,
    waits for all tasks and drops their results.  [None]: still waiting. *)
Definition start (s : ProxyServer) (signalled : bool)
    (env : nat -> ListenCalls * list accept_event * list datagram_event)
  : option (Result unit) * ProxyServer * list Running :=
  let tasks :=
    imap (fun n i => let '(c, accepts, datagrams) := env n in instance_start i c accepts datagrams)
      (proxy_instances s) in
  (if signalled && forallb (fun t => bool_decide (is_Some (r_result t))) tasks then Some (Ok tt) else None,
   mkProxyServer (bind_ip s) (map placeholder_from (proxy_instances s)), tasks).

Definition get_status (s : ProxyServer) : ServerStatus :=
  mkServerStatus (bind_ip s) (Z.of_nat (length (proxy_instances s)))
    (Z.of_nat (length (filter (fun i => running i = true) (proxy_instances s)))).

Definition show_status (st : ServerStatus) : string :=
  "Proxy Server Status:" +:+ nl +:+ "- Bind IP: " +:+ show_ip (st_bind_ip st)
  +:+ nl +:+ "- Total Instances: " +:+ show_dec (total_instances st)
  +:+ nl +:+ "- Active Instances: " +:+ show_dec (active_instances st).

(** The answers to one connectivity probe; [None] is the 3-second timeout. *)
Record ProbeCalls := mkProbeCalls {
  pc_socket : result unit IoError;
  pc_bind : result unit IoError;
  pc_connect : result unit IoError;
  pc_elapsed : option Z }.

Definition test_remote_connectivity (i : ProxyInstance) (c : ProbeCalls) : Result Z :=
  let connect := network (fun e => ConnectionFailed ("Connection failed: " +:+ io_text e)) (pc_connect c) in
  let probe :=
    match pi_source_ip i with
    | Some src =>
        let family := if is_v4 (sa_ip (pi_remote_addr i)) then "IPv4" else "IPv6" in
        let? _ := network (fun e => ConnectionFailed ("Failed to create " +:+ family +:+ " socket: " +:+ io_text e))
                    (pc_socket c) in
        let? _ := network (fun e => ConnectionFailed ("Failed to bind to source IP " +:+ show_ip src +:+ ": " +:+ io_text e))
                    (pc_bind c) in
        connect
    | None => connect
    end in
  match pc_elapsed c with
  | None => Err (Network ConnectionTimeout)
  | Some elapsed => map_ok (fun _ => elapsed) probe
  end.

(** The status column of [display_startup_info]; durations in nanoseconds. *)
Definition connectivity_status (r : Result Z) : string :=
  match r with
  | Ok d => if d / 10 ^ 6 =? 0 then "✅ Connected (" +:+ show_dec (d / 10 ^ 3) +:+ "μs)"
            else "✅ Connected (" +:+ show_dec (d / 10 ^ 6) +:+ "ms)"
  | Err e => "❌ Failed: " +:+ show_AppError e
  end.

(** ** What a rule asks for *)

Definition local_ip_of (dflt : IpAddr) (p : ProxySection) : option IpAddr :=
  match ProxySection.get_local_ip p with Some s => parse_ip (trim s) | None => Some dflt end.

Definition remote_of (p : ProxySection) : option SocketAddr :=
  match ProxySection.get_remote_host p, ProxySection.get_remote_port p with
  | Ok host, Ok port => option_map (fun ip => mkSocketAddr ip port) (parse_ip host)
  | _, _ => None
  end.

Definition source_of (p : ProxySection) : option IpAddr :=
  match ps_source_ip p with Some s => parse_ip (trim s) | None => None end.

(** The instance a rule is served by. *)
Record serves (dflt : IpAddr) (p : ProxySection) (i : ProxyInstance) : Prop := {
  serves_port : ProxySection.get_local_port p = Ok (sa_port (bind_addr i));
  serves_ip : local_ip_of dflt p = Some (sa_ip (bind_addr i));
  serves_remote : remote_of p = Some (pi_remote_addr i);
  serves_source : pi_source_ip i = source_of p;
  serves_handler : connection_handler i =
    mkHandler (pi_remote_addr i) (source_of p) (ps_allow_ips p) (ps_max_conns_per_ip p) (ps_cps_limit p);
  serves_idle : running i = false }.

(** The rules that can be served: addresses are literals, not names. *)
Definition buildable (dflt : IpAddr) (p : ProxySection) : Prop :=
  is_Some (local_ip_of dflt p) /\ is_Some (remote_of p).

Lemma add_proxy_Ok s p s' :
  source_normal (ps_source_ip p) ->
  add_proxy s p = Ok s' <->
  exists i, serves (bind_ip s) p i /\ s' = mkProxyServer (bind_ip s) (proxy_instances s ++ [i]).
Proof.
  intros Hn. unfold add_proxy.
  assert (match ps_source_ip p with Some src => map_ok Some (parse_ip_address src) | None => Ok None end
          = Ok (source_of p)) as ->.
  { unfold source_of, parse_ip_address. destruct (ps_source_ip p) as [src|]; [|done].
    destruct Hn as [[ip ->] _]. done. }
  split.
  - destruct (ProxySection.get_local_port p) as [lp|] eqn:Hlp; [|done].
    destruct (match ProxySection.get_local_ip p with Some _ => _ | None => _ end) as [lip|] eqn:Hlip; [|done].
    destruct (ProxySection.get_remote_host p) as [h|] eqn:Hh; [|done].
    destruct (ProxySection.get_remote_port p) as [rp|] eqn:Hrp; [|done].
    unfold create_socket_addr. destruct (parse_ip h) as [rip|] eqn:Hrip; [|done].
    intros [= <-]. eexists. split; [|reflexivity]. constructor; simpl; try done.
    + unfold local_ip_of, parse_ip_address in *. destruct (ProxySection.get_local_ip p) as [l|]; [|congruence].
      destruct (parse_ip (trim l)); congruence.
    + unfold remote_of. by rewrite Hh, Hrp, Hrip.
  - intros (i & [Hlp Hlip Hr Hsrc Hh Hi] & ->). rewrite Hlp.
    unfold remote_of in Hr. destruct (ProxySection.get_remote_host p) as [h|]; [|done].
    destruct (ProxySection.get_remote_port p) as [rp|]; [|done].
    unfold create_socket_addr. destruct (parse_ip h) as [rip|]; [|done]. injection Hr as Hr.
    assert (match ProxySection.get_local_ip p with Some l => parse_ip_address l | None => Ok (bind_ip s) end
            = Ok (sa_ip (bind_addr i))) as ->.
    { unfold local_ip_of, parse_ip_address in *. destruct (ProxySection.get_local_ip p) as [l|]; [|congruence].
      by rewrite Hlip. }
    do 4 f_equal. unfold new_instance. rewrite Hr. destruct i as [[? ?] ? ? ? ?]. simpl in *. subst.
    done.
Qed.

Lemma add_all_Ok s ps s' :
  Forall (fun p => source_normal (ps_source_ip p)) ps ->
  add_all s ps = Ok s' <->
  exists insts, Forall2 (serves (bind_ip s)) ps insts /\ s' = mkProxyServer (bind_ip s) (proxy_instances s ++ insts).
Proof.
  intros Hn. revert s. induction Hn as [|p ps Hp Hps IH]; intros s; simpl.
  - split.
    + intros [= <-]. exists []. split; [constructor|]. rewrite app_nil_r. by destruct s.
    + intros (insts & Hf & ->). apply Forall2_nil_inv_l in Hf as ->. rewrite app_nil_r. by destruct s.
  - split.
    + destruct (add_proxy s p) as [s1|] eqn:H1; [|done].
      apply add_proxy_Ok in H1 as (i & Hi & ->); [|done].
      rewrite IH. simpl. intros (insts & Hf & ->). exists (i :: insts). split; [by constructor|].
      by rewrite <- (assoc_L (++)).
    + intros (insts & Hf & ->). apply Forall2_cons_inv_l in Hf as (i & insts' & Hi & Hf & ->).
      rewrite (proj2 (add_proxy_Ok s p (mkProxyServer (bind_ip s) (proxy_instances s ++ [i])) Hp)) by eauto.
      apply IH. exists insts'. split; [done|]. simpl. by rewrite <- (assoc_L (++)).
Qed.

Lemma serves_exists dflt p :
  is_ok (ProxySection.get_local_port p) = true ->
  buildable dflt p <-> exists i, serves dflt p i.
Proof.
  destruct (ProxySection.get_local_port p) as [lp|] eqn:Hlp; [|done]. intros _. split.
  - intros [[lip Hl] [r Hr]].
    exists (new_instance lip lp r (source_of p) (ps_allow_ips p) (ps_max_conns_per_ip p) (ps_cps_limit p)).
    by constructor.
  - intros (i & [_ Hl Hr _ _ _]). split; eauto.
Qed.

(** The ports of the instances are the rules' distinct, valid local ports. *)
Lemma serves_ports dflt ps insts lps :
  Forall2 (serves dflt) ps insts -> Forall2 proxy_ok ps lps ->
  map (fun i => sa_port (bind_addr i)) insts = lps.
Proof.
  intros Hs. revert lps. induction Hs as [|p i ps insts [Hp _ _ _ _ _] _ IH]; intros lps Hl.
  - by apply Forall2_nil_inv_l in Hl as ->.
  - apply Forall2_cons_inv_l in Hl as (lp & lps' & (Hlp & _) & Hl & ->). simpl. f_equal; [congruence|by apply IH].
Qed.

Lemma build_validated c ws c' ip s :
  validate c = (Ok ws, c') ->
  build (mkBuilder (Some ip) (cf_proxies c')) = Ok s <->
  bind_ip s = ip /\ Forall2 (serves ip) (cf_proxies c') (proxy_instances s).
Proof.
  intros Hv. destruct (validate_normal _ _ _ Hv) as ((_ & Hn) & _).
  unfold build. simpl. rewrite add_all_Ok by done. simpl. split.
  - by intros (insts & Hf & ->).
  - intros [<- Hf]. exists (proxy_instances s). by destruct s.
Qed.

Lemma build_succeeds_iff c ws c' ip :
  validate c = (Ok ws, c') ->
  is_ok (build (mkBuilder (Some ip) (cf_proxies c'))) = true <-> Forall (buildable ip) (cf_proxies c').
Proof.
  intros Hv. destruct (validate_normal _ _ _ Hv) as (_ & _ & Hok & _).
  apply validate_acceptable in Hok as [_ _ (lps & Hf & _) _]. split.
  - destruct (build _) as [s|] eqn:Hb; [|done]. intros _. apply (build_validated _ _ _ _ _ Hv) in Hb as [_ Hs].
    revert Hf. generalize lps. clear -Hs. induction Hs as [|p i ps insts Hi _ IH]; intros lps Hf; constructor.
    + apply Forall2_cons_inv_l in Hf as (? & ? & (Hlp & _) & _). apply serves_exists; [by rewrite Hlp|eauto].
    + apply Forall2_cons_inv_l in Hf as (? & ? & _ & ? & _). eauto.
  - intros Hb. assert (exists insts, Forall2 (serves ip) (cf_proxies c') insts) as [insts Hs].
    { clear Hv. induction Hf as [|p lp ps lps (Hlp & _) _ IH]; [by exists []|].
      apply Forall_cons in Hb as [Hp Hb]. destruct (IH Hb) as [insts His].
      apply serves_exists in Hp as [i Hi]; [|by rewrite Hlp]. exists (i :: insts). by constructor. }
    by rewrite (proj2 (build_validated _ _ _ ip (mkProxyServer ip insts) Hv)).
Qed.

(** An instance whose sockets could all be set up. *)
Definition calls_ok (c : ListenCalls) : Prop :=
  is_ok (lc_socket c) && is_ok (lc_reuse_address c) && is_ok (lc_bind c) && is_ok (lc_listen c)
  && is_ok (lc_nonblocking c) && is_ok (lc_from_std c) && is_ok (lc_local_addr c) && is_ok (lc_udp_bind c) = true.

Definition accepted (events : list accept_event) : list SocketAddr :=
  omap (fun e => match e with Accepted a => Some a | _ => None end) events.

Lemma accept_loop_no_shutdown events :
  ShutdownSignal ∉ events -> accept_loop events = (accepted events, false).
Proof.
  induction events as [|[a|e|] events IH]; intros H; simpl; [done| | |by destruct H; left].
  - rewrite IH by (intros ?; apply H; by right). done.
  - apply IH. intros ?; apply H; by right.
Qed.

Lemma accept_loop_shutdown before after :
  ShutdownSignal ∉ before -> accept_loop (before ++ ShutdownSignal :: after) = (accepted before, true).
Proof.
  induction before as [|[a|e|] before IH]; intros H; simpl; [done| | |by destruct H; left].
  - rewrite IH by (intros ?; apply H; by right). done.
  - apply IH. intros ?; apply H; by right.
Qed.

Lemma instance_start_ok i c accepts datagrams :
  calls_ok c ->
  instance_start i c accepts datagrams =
  mkRunning (with_running i (negb (accept_loop accepts).2)) (accept_loop accepts).1 (datagram_loop datagrams).1
    (if (accept_loop accepts).2 then Some (Ok tt) else None).
Proof.
  unfold calls_ok, instance_start, create_optimized_listener, network.
  destruct (lc_socket c), (lc_reuse_address c), (lc_bind c), (lc_listen c), (lc_nonblocking c),
    (lc_from_std c), (lc_local_addr c), (lc_udp_bind c); try done. intros _. simpl.
  by destruct (datagram_loop datagrams), (accept_loop accepts).
Qed.

Lemma get_status_placeholders s l :
  get_status (mkProxyServer s (map placeholder_from l)) = mkServerStatus s (Z.of_nat (length l)) 0.
Proof.
  unfold get_status. simpl. rewrite length_map. f_equal.
  replace (filter _ (map placeholder_from l)) with (@nil ProxyInstance); [done|].
  symmetry. induction l as [|i l IH]; [done|]. simpl. by rewrite filter_cons_False.
Qed.

(** ** Properties *)

(** C13. A validated configuration starts the proxies it describes: the build
    succeeds exactly when every rule's addresses are IP literals, and then there
    is one instance per rule, in order, listening where the rule says,
    forwarding to the address the rule names with its source address, access
    list and limits, and no two instances share a port. *)
Theorem validated_rules_are_served c ws c' ip :
  validate c = (Ok ws, c') ->
  (is_ok (build (mkBuilder (Some ip) (cf_proxies c'))) = true <-> Forall (buildable ip) (cf_proxies c')) /\
  (forall s, build (mkBuilder (Some ip) (cf_proxies c')) = Ok s ->
     Forall2 (serves ip) (cf_proxies c') (proxy_instances s) /\
     Forall (fun i => valid_port (sa_port (bind_addr i))) (proxy_instances s) /\
     NoDup (map (fun i => sa_port (bind_addr i)) (proxy_instances s))).
Proof.
  intros Hv. split; [by eapply build_succeeds_iff|]. intros s Hs.
  apply (build_validated _ _ _ _ _ Hv) in Hs as [_ Hs]. split; [done|].
  destruct (validate_normal _ _ _ Hv) as (_ & _ & Hok & _).
  apply validate_acceptable in Hok as [_ _ (lps & Hf & Hd) _].
  pose proof (serves_ports _ _ _ _ Hs Hf) as Hp. split; [|by rewrite Hp].
  apply Forall_map with (P := valid_port). rewrite Hp. clear -Hf.
  induction Hf as [|p lp ps lps (_ & ? & _) _ IH]; by constructor.
Qed.

(** An instance serves until it is told to stop: when its sockets could be
    set up it hands every connection accepted before the signal to its handler,
    once and in order, none after it, survives failed accepts, and returns
    successfully, no longer running. *)
Theorem instance_serves_until_shutdown i c before after datagrams :
  calls_ok c -> ShutdownSignal ∉ before ->
  let r := instance_start i c (before ++ ShutdownSignal :: after) datagrams in
  let r' := instance_start i c before datagrams in
  r_connections r = accepted before /\ r_result r = Some (Ok tt) /\ running (r_instance r) = false /\
  r_connections r' = accepted before /\ r_result r' = None /\ running (r_instance r') = true.
Proof.
  intros Hc Hb. rewrite !instance_start_ok by done.
  rewrite accept_loop_shutdown, accept_loop_no_shutdown by done. done.
Qed.

(** The status of a started server always reports no active instance: the
    instances were moved into their tasks and the server counts the placeholders
    left behind, so even while every task still runs, as after the caller gave
    up waiting for [start], none is counted. *)
Theorem started_server_reports_idle s env :
  (forall n, calls_ok (env n).1.1 /\ ShutdownSignal ∉ (env n).1.2) ->
  let '(_, s', tasks) := start s false env in
  Forall (fun r => running (r_instance r) = true /\ r_result r = None) tasks /\
  length tasks = length (proxy_instances s) /\
  get_status s' = mkServerStatus (bind_ip s) (Z.of_nat (length (proxy_instances s))) 0.
Proof.
  intros Henv. simpl. split_and!; [|by rewrite length_imap|apply get_status_placeholders].
  apply Forall_lookup. intros n r. rewrite list_lookup_imap. destruct (proxy_instances s !! n) as [i|]; simpl; [|done].
  specialize (Henv n). destruct (env n) as [[c accepts] datagrams]. destruct Henv as [Hc Hs]. simpl in Hc, Hs.
  intros [= <-]. rewrite instance_start_ok by done. by rewrite accept_loop_no_shutdown.
Qed.

(** [start] returns successfully once the signal has come and every instance
    has seen the shutdown, however many of them could not be set up. *)
Theorem start_returns_after_shutdown s env :
  (forall n, ShutdownSignal ∈ (env n).1.2) ->
  (start s true env).1.1 = Some (Ok tt) /\
  Forall (fun r => r_result r <> None) (start s true env).2.
Proof.
  intros Henv. assert (Forall (fun r => is_Some (r_result r)) (start s true env).2) as Hall.
  { simpl. apply Forall_lookup. intros n r. rewrite list_lookup_imap.
    destruct (proxy_instances s !! n) as [i|]; simpl; [|done]. specialize (Henv n).
    destruct (env n) as [[c accepts] datagrams]. simpl in Henv. intros [= <-]. unfold instance_start.
    destruct (let? _ := create_optimized_listener _ _ in _) as [|e]; [|by eexists].
    assert ((accept_loop accepts).2 = true) as He.
    { clear -Henv. induction accepts as [|a l IH]; [by apply elem_of_nil in Henv|].
      destruct a; simpl; [|apply IH|done];
        (apply elem_of_cons in Henv as [?|Hin]; [done|]); [|done]. destruct (accept_loop l). by apply IH. }
    destruct (datagram_loop datagrams), (accept_loop accepts) as [conns ended]. simpl in He. subst. by eexists. }
  split; [|eapply Forall_impl; [exact Hall|]; intros r [x Hx]; by rewrite Hx].
  unfold start in *. simpl in *.
  rewrite (proj2 (forallb_forall _ _)); [done|]. intros r Hr%list_elem_of_In.
  rewrite Forall_forall in Hall. by apply bool_decide_eq_true_2, Hall.
Qed.

(** ** Witnesses *)

Definition literal_rule : ProxySection :=
  mkProxySection "127.0.0.1:8080" "10.0.0.2:443" None None (Some 4) None.

(** The rule of the README's first example. *)
Definition named_rule : ProxySection :=
  mkProxySection "8081" "api.example.com:443" None None None None.

Definition rules_config (ps : list ProxySection) : ConfigFile := mkConfigFile None ps None None [] None None.

Definition working_calls : ListenCalls :=
  mkListenCalls (Ok tt) (Ok tt) (Ok tt) (Ok tt) (Ok tt) (Ok tt) (Ok tt) (Ok tt).

Definition sample_instance : ProxyInstance :=
  new_instance LOCALHOST 8080 (mkSocketAddr (V4 10 0 0 2) 443) None None (Some 4) None.

Theorem validated_rules_are_served_witness :
  build (mkBuilder (Some UNSPECIFIED) [literal_rule]) = Ok (mkProxyServer UNSPECIFIED [sample_instance]) /\
  Forall2 (serves UNSPECIFIED) [literal_rule] [sample_instance] /\
  ~ is_ok (build (mkBuilder (Some UNSPECIFIED) [literal_rule; named_rule])) = true.
Proof.
  split; [vm_compute; reflexivity|]. split.
  - refine (proj1 (proj2 (validated_rules_are_served (rules_config [literal_rule]) [] (rules_config [literal_rule])
      UNSPECIFIED _) (mkProxyServer UNSPECIFIED [sample_instance]) _)); vm_compute; reflexivity.
  - intros H. refine (_ (proj1 (proj1 (validated_rules_are_served (rules_config [literal_rule; named_rule]) []
      (rules_config [literal_rule; named_rule]) UNSPECIFIED _)) H)); [|vm_compute; reflexivity].
    simpl. intros [_ [[_ [x Hx]] _]%Forall_cons]%Forall_cons. vm_compute in Hx. discriminate.
Defined.

Theorem instance_serves_until_shutdown_witness :
  r_connections (instance_start sample_instance working_calls
    ([Accepted (mkSocketAddr LOCALHOST 1)] ++ ShutdownSignal :: [Accepted (mkSocketAddr LOCALHOST 2)]) [])
  = [mkSocketAddr LOCALHOST 1].
Proof.
  refine (proj1 (instance_serves_until_shutdown sample_instance working_calls [Accepted (mkSocketAddr LOCALHOST 1)]
    [Accepted (mkSocketAddr LOCALHOST 2)] [] _ _)); [reflexivity|].
  intros [H|H]%elem_of_cons; [discriminate|]. by apply elem_of_nil in H.
Defined.

Theorem started_server_reports_idle_witness :
  get_status (start (mkProxyServer LOCALHOST [sample_instance]) false (fun _ => (working_calls, [], []))).1.2
  = mkServerStatus LOCALHOST 1 0.
Proof.
  refine (proj2 (proj2 (started_server_reports_idle (mkProxyServer LOCALHOST [sample_instance])
    (fun _ => (working_calls, [], [])) _))).
  intros n. split; [reflexivity|]. intros H. by apply elem_of_nil in H.
Defined.

Theorem start_returns_after_shutdown_witness :
  (start (mkProxyServer LOCALHOST [sample_instance]) true (fun _ => (working_calls, [ShutdownSignal], []))).1.1
  = Some (Ok tt).
Proof.
  refine (proj1 (start_returns_after_shutdown (mkProxyServer LOCALHOST [sample_instance])
    (fun _ => (working_calls, [ShutdownSignal], [])) _)). intros n. left.
Defined.
