(* ===== verification/ForwardPath.v ===== *)
(** * ForwardPath: a rule of the configuration to its remote server, end to end
    (src/src/proxy/server.rs, stealth_connection_handler.rs, stealth_handler.rs,
    zero_copy.rs)

    The composition of the forward proxy's parts: a validated rule, the instance
    the builder makes of it, the accept loop of the instance, and what its
    handler does with a connection, alone or among any others. *)

From Stdlib Require Import Ascii String ZArith Lia.
From stdpp Require Import base gmap strings list.
From S2P Require Import Prelude Text NetAddr Errors Config ConfigSpec Blackhole Stealth Copy Splice Forward Concurrent ProxyServer.

(** ** The world around an instance *)

(** What there is at an address: how connecting to it ends and what is sent over
    the connection. *)
Record host := mkHost { h_connect : result unit IoError; h_data : list byte }.

(** A connection from outside, with everything that happens to it. *)
Record visitor := mkVisitor {
  v_addr : SocketAddr;
  v_now : Z;
  v_data : list byte;
  v_nodelay : result unit IoError;
  v_keepalive : result unit IoError;
  v_setup : Setup;
  v_schedule : list event;
  v_clock : Z;
  v_seed : Z;
  v_rounds : list round }.

(** The handler connects to the address it was made with, whatever its source
    address. *)
Definition calls_of (hosts : SocketAddr -> host) (h : StealthConnectionHandler) (v : visitor) : ConnectionCalls :=
  let remote := hosts (remote_addr h) in
  mkConnectionCalls (v_nodelay v) (v_keepalive v) (h_connect remote) (v_setup v) (v_data v) (h_data remote)
    (v_schedule v) (v_clock v) (v_seed v) (v_rounds v).

(** The task spawned for an accepted connection, whose socket knows its peer. *)
Definition visit (hosts : SocketAddr -> host) (i : ProxyInstance) (v : visitor) (st : State)
  : outcome (option (Result unit)) * State :=
  let peer := Some (sa_ip (v_addr v)) in
  handle_connection (connection_handler i) (v_now v) peer peer
    (calls_of hosts (connection_handler i) v) st.

Definition visit_event (id : nat) (v : visitor) : live_event :=
  let peer := Some (sa_ip (v_addr v)) in
  Arrive id peer peer (v_now v) (v_nodelay v) (v_keepalive v) (v_data v).

(** ** A connection nothing goes wrong with *)

Record smooth (cap chunk : nat) (server_data : list byte) (v : visitor) : Prop := {
  smooth_nodelay : is_ok (v_nodelay v) = true;
  smooth_setup : is_ok (zero_copy_start (v_setup v) (v_data v) server_data) = true;
  smooth_schedule : exists before after,
    v_schedule v = before ++ PipeMade (Done (Ok tt)) :: after /\
    first_thread_only before /\ undisturbed after /\
    flawless cap chunk (v_data v) (c2s_replies (v_schedule v)) /\ flawless cap chunk server_data (s2c_replies after);
  smooth_client : in_u 64 (Z.of_nat (length (v_data v)));
  smooth_server : in_u 64 (Z.of_nat (length server_data)) }.

(** What both peers have got when the connection is over. *)
Definition exchanged (client_data server_data : list byte) (s : session) : Prop :=
  sink (work (c2s s)) = client_data /\ exists t, s2c s = Some t /\ sink (work t) = server_data.

Lemma smooth_forwards cap chunk server_data v :
  (0 < cap)%nat -> smooth cap chunk server_data v ->
  zero_copy_bidirectional (v_setup v) (v_data v) server_data (v_schedule v) =
    Some (Ok (Z.of_nat (length (v_data v)), Z.of_nat (length server_data))) /\
  exchanged (v_data v) server_data (zero_copy_run (session_start (v_data v) server_data) (v_schedule v)).
Proof.
  intros Hcap [_ Hset (before & after & Hs & Hb & Ha & Fc & Fs) Uc Us]. unfold zero_copy_bidirectional.
  destruct (zero_copy_start _ _ _) as [s0|] eqn:Hst; [|done]. apply zero_copy_start_ok in Hst as ->.
  rewrite Hs in *.
  destruct (session_delivers cap chunk (v_data v) server_data before after Hcap Hb Ha Fc Fs Uc Us) as (H1 & H2 & H3).
  rewrite H1. split; [done|]. by split.
Qed.

(** An admitted connection to a server that answers runs to its end and gives
    its slot back. *)
Lemma visit_succeeds cap chunk hosts i v st :
  (0 < cap)%nat -> let h := connection_handler i in
  is_ok (fst (check_security h (v_now v) (sa_ip (v_addr v)) (ip_stats st))) = true ->
  h_connect (hosts (remote_addr h)) = Ok tt -> smooth cap chunk (h_data (hosts (remote_addr h))) v ->
  let '(res, st') := visit hosts i v st in
  res = Val (Some (Ok tt)) /\
  ip_stats st' = register_disconnection h (sa_ip (v_addr v))
    (snd (check_security h (v_now v) (sa_ip (v_addr v)) (ip_stats st))) /\
  counters st' = count_success (count_start (counters st)).
Proof.
  intros Hcap h Hok Hc Hs. destruct (smooth_forwards _ _ _ _ Hcap Hs) as [Hz _]. pose proof (smooth_nodelay _ _ _ _ Hs) as Hn.
  unfold visit, handle_connection, handle_stealth_run, connection_start. fold h.
  unfold calls_of. cbn [cc_nodelay cc_keepalive cc_connect cc_setup cc_client_data cc_server_data cc_schedule].
  destruct (check_security h _ _ (ip_stats st)) as [[[]|] m]; [|done].
  destruct (v_nodelay v) as [[]|]; [|done]. cbn [apply_tcp_optimizations fst snd]. rewrite Hc. cbn [handle_stealth].
  rewrite Hz. by split_and!.
Qed.

(** The same connection as a task among others: whatever else the handler serves
    between its calls, both peers have everything, the task has succeeded and it
    holds no slot. *)
Lemma visit_among_others cap chunk hosts i v id es s :
  (0 < cap)%nat -> let h := connection_handler i in
  is_ok (fst (check_security h (v_now v) (sa_ip (v_addr v)) (ip_stats (l_state s)))) = true ->
  h_connect (hosts (remote_addr h)) = Ok tt -> smooth cap chunk (h_data (hosts (remote_addr h))) v ->
  l_conns s !! id = None -> events_of id es = body (calls_of hosts h v) ++ [Finish] ->
  exists cn z,
    l_conns (live_run h s (visit_event id v :: es)) !! id = Some cn /\
    cn_task cn = Ended (Ok tt) /\ cn_slot cn = false /\ cn_session cn = Some z /\
    exchanged (v_data v) (h_data (hosts (remote_addr h))) z.
Proof.
  intros Hcap h Hok Hc Hs Hid Hes. destruct (smooth_forwards _ _ _ _ Hcap Hs) as [Hz Hx].
  pose proof (smooth_nodelay _ _ _ _ Hs) as Hn. unfold visit_event. do 2 eexists.
  rewrite (arrive_run_projects _ _ _ _ _ _ _ _ _ _ _ Hid Hes). split; [done|]. unfold arrive, connection_start.
  destruct (check_security h _ _ (ip_stats (l_state s))) as [[[]|] m]; [|done].
  destruct (v_nodelay v) as [[]|]; [|done]. cbn [apply_tcp_optimizations fst snd is_ok].
  pose proof (body_run (Some (sa_ip (v_addr v))) (Some (sa_ip (v_addr v))) (calls_of hosts h v) true) as Hb. cbv zeta in Hb.
  unfold handle_stealth_run in Hb. rewrite own_run_snoc. unfold body in *. rewrite !own_run_cons in *.
  unfold calls_of in *.
  cbn [cc_connect cc_setup cc_client_data cc_server_data cc_now cc_seed cc_schedule cc_rounds own_step cn_task] in *.
  unfold dial in *. rewrite Hc in *. cbn [handle_stealth cn_data cn_ip cn_later cn_slot] in *. rewrite Hz in Hb.
  destruct (zero_copy_start _ _ _) as [z|] eqn:Hst; [|pose proof (smooth_setup _ _ _ _ Hs) as Hn'; by rewrite Hst in Hn'].
  apply zero_copy_start_ok in Hst as ->. cbn [normal_forwarding] in Hb. rewrite Hb.
  cbn [cn_task cn_slot cn_later cn_session map_err]. split; [done|].
  split; [by rewrite (proj2 (own_run_peer _ _))|]. split; [by apply kernel_run_session|done].
Qed.

(** ** Properties *)

(** C5. A validated forward rule is served end to end: when the server is built
    from the configuration, the rule's instance listens on the rule's port,
    hands over every connection accepted before the shutdown, and a connection
    its limits admit is forwarded to the address the rule names: with a server
    there and no failing call, server and client get each other's bytes
    unchanged and to the last one, the handler succeeds, and the address's slot
    is free again; and so it does among any other connections and UDP packets of
    the rule, in whatever order everything happens. *)
Theorem forward_rule_is_served c ws c' ip s n p :
  validate c = (Ok ws, c') -> build (mkBuilder (Some ip) (cf_proxies c')) = Ok s -> cf_proxies c' !! n = Some p ->
  exists i remote,
    proxy_instances s !! n = Some i /\ remote_of p = Some remote /\
    ProxySection.get_local_port p = Ok (sa_port (bind_addr i)) /\
    (forall listen accepts after datagrams addr,
       calls_ok listen -> ShutdownSignal ∉ accepts -> Accepted addr ∈ accepts ->
       addr ∈ r_connections (instance_start i listen (accepts ++ ShutdownSignal :: after) datagrams)) /\
    (forall cap chunk hosts v st,
       (0 < cap)%nat ->
       is_ok (fst (check_security (connection_handler i) (v_now v) (sa_ip (v_addr v)) (ip_stats st))) = true ->
       h_connect (hosts remote) = Ok tt -> smooth cap chunk (h_data (hosts remote)) v ->
       let '(res, st') := visit hosts i v st in
       res = Val (Some (Ok tt)) /\
       exchanged (v_data v) (h_data (hosts remote))
         (zero_copy_run (session_start (v_data v) (h_data (hosts remote))) (v_schedule v)) /\
       ip_stats st' = register_disconnection (connection_handler i) (sa_ip (v_addr v))
         (snd (check_security (connection_handler i) (v_now v) (sa_ip (v_addr v)) (ip_stats st)))) /\
    (forall cap chunk hosts v id es l,
       (0 < cap)%nat ->
       is_ok (fst (check_security (connection_handler i) (v_now v) (sa_ip (v_addr v)) (ip_stats (l_state l)))) = true ->
       h_connect (hosts remote) = Ok tt -> smooth cap chunk (h_data (hosts remote)) v ->
       l_conns l !! id = None -> events_of id es = body (calls_of hosts (connection_handler i) v) ++ [Finish] ->
       exists cn z,
         l_conns (live_run (connection_handler i) l (visit_event id v :: es)) !! id = Some cn /\
         cn_task cn = Ended (Ok tt) /\ cn_slot cn = false /\ cn_session cn = Some z /\
         exchanged (v_data v) (h_data (hosts remote)) z).
Proof.
  intros Hv Hb Hp. apply (build_validated _ _ _ _ _ Hv) in Hb as [_ Hs].
  destruct (Forall2_lookup_l _ _ _ _ _ Hs Hp) as (i & Hi & Hserve).
  assert (remote_addr (connection_handler i) = pi_remote_addr i) as Hr by (by rewrite (serves_handler _ _ _ Hserve)).
  exists i, (pi_remote_addr i). split; [done|]. split; [apply Hserve|]. split; [apply Hserve|]. split; [|split].
  - intros listen accepts after datagrams addr Hl Hn Ha. rewrite instance_start_ok by done.
    rewrite accept_loop_shutdown by done. simpl. unfold accepted. apply list_elem_of_omap. by exists (Accepted addr).
  - intros cap chunk hosts v st Hcap Hok Hc Hsm.
    rewrite <- Hr in Hc, Hsm |- *. pose proof (visit_succeeds cap chunk hosts i v st Hcap Hok Hc Hsm) as Hvisit.
    destruct (visit hosts i v st) as [res st']. destruct Hvisit as (H1 & H2 & _).
    split; [done|]. split; [|done]. by eapply smooth_forwards.
  - rewrite <- Hr. intros cap chunk hosts v id es l. by apply visit_among_others.
Qed.

(** ** Witnesses *)

Definition sample_visitor : visitor :=
  mkVisitor (mkSocketAddr (V4 192 0 2 7) 40000) 0 sample_data (Ok tt) (Ok tt) sample_setup
    (sample_before ++ PipeMade (Done (Ok tt)) :: sample_after) 0 0 [].
Definition sample_hosts (addr : SocketAddr) : host := mkHost (Ok tt) sample_reply.

Lemma sample_smooth : smooth 16 8 sample_reply sample_visitor.
Proof.
  constructor; [done|done| |by vm_compute|by vm_compute].
  exists sample_before, sample_after. split; [done|]. split; [repeat constructor|]. split; [repeat constructor|].
  exact sample_flawless.
Qed.

(** The visitor beside the blackholed connection of [sample_run]. *)
Definition beside : list live_event :=
  Arrive 1 (Some sample_ip) (Some sample_ip) 0 (Ok tt) (Ok tt) [] ::
  alternate 0 1 (body (calls_of sample_hosts (connection_handler sample_instance) sample_visitor) ++ [Finish]) (body racing).

Theorem forward_rule_is_served_witness :
  fst (visit sample_hosts sample_instance sample_visitor Stealth.initial) = Val (Some (Ok tt)) /\
  exchanged sample_data sample_reply (zero_copy_run (session_start sample_data sample_reply) (v_schedule sample_visitor)) /\
  exists cn z,
    l_conns (live_run (connection_handler sample_instance) quiet (visit_event 0 sample_visitor :: beside)) !! 0%nat = Some cn /\
    cn_task cn = Ended (Ok tt) /\ cn_slot cn = false /\ cn_session cn = Some z /\ exchanged sample_data sample_reply z.
Proof.
  destruct (forward_rule_is_served (rules_config [literal_rule]) [] (rules_config [literal_rule]) UNSPECIFIED
    (mkProxyServer UNSPECIFIED [sample_instance]) 0 literal_rule) as (i & remote & Hi & _ & _ & _ & H & Hamong);
    [vm_compute; reflexivity..|].
  injection Hi as <-.
  specialize (H 16%nat 8%nat sample_hosts sample_visitor Stealth.initial ltac:(lia) eq_refl eq_refl sample_smooth).
  specialize (Hamong 16%nat 8%nat sample_hosts sample_visitor 0%nat beside quiet ltac:(lia) eq_refl eq_refl sample_smooth
    eq_refl eq_refl).
  destruct (visit sample_hosts sample_instance sample_visitor Stealth.initial) as [res st].
  destruct H as (H1 & H2 & _). split; [exact H1|]. split; [exact H2|exact Hamong].
Defined.
