(* ===== verification/Runtime.v ===== *)
(** * Runtime: from a configuration to running services
    (src/src/config/runtime.rs, src/src/main.rs)

    [RuntimeManager::run] starts a forward proxy, a reverse proxy server and a
    reverse proxy client as the configuration asks, and ends when the first of
    them does; [main] is the command line around it. *)

From Stdlib Require Import Ascii String ZArith Lia SpecFloat.
From stdpp Require Import base gmap strings list.
From S2P Require Import Prelude Text NetAddr Errors Config ConfigSpec Totp Stream Protocol ReverseServer ReverseClient ProxyServer.

(** ** Starting the services *)

(** A task that [run] has spawned. *)
Inductive service : Type :=
| ForwardProxy (server : ProxyServer)
| ReverseProxyServerTask (server : ReverseProxyServer)
| ReverseProxyClientTask (client : ReverseProxyClient).

Definition debug_enabled (c : ConfigFile) : bool :=
  default false (match cf_server c with Some s => ss_debug s | None => None end).

(** The address the services listen on. *)
Definition runtime_bind_ip (c : ConfigFile) : Result IpAddr :=
  match cf_server c with
  | Some server_section =>
      match ss_bind_ip server_section with
      | Some bind_ip_str => parse_ip_address bind_ip_str
      | None => Ok UNSPECIFIED
      end
  | None => Ok UNSPECIFIED
  end.

Definition start_forward (ip : IpAddr) (c : ConfigFile) : Result (list service) :=
  if negb (length (cf_proxies c) =? 0)%nat then
    let? server := build (add_proxies (with_bind_ip new_builder ip) (cf_proxies c)) in
    Ok [ForwardProxy server]
  else Ok [].

Definition start_reverse_server (env_token : option string) (ip : IpAddr) (c : ConfigFile) : list service :=
  match cf_reverse_proxy_server c with
  | Some server_config => [ReverseProxyServerTask (ReverseServer.new env_token ip (rps_port server_config))]
  | None => []
  end.

Definition start_reverse_client (env_token : option string) (c : ConfigFile) : Result (list service) :=
  match cf_reverse_proxy_client c with
  | Some client_config =>
      match parse_socket_addr (rpc_server client_config) with
      | Some addr => Ok [ReverseProxyClientTask (ReverseClient.new env_token addr c)]
      | None => Err (Internal ("Invalid server address: " +:+ rpc_server client_config))
      end
  | None => Ok []
  end.

Definition no_services : AppError := Config (InvalidConfigValue "config" "No services configured").

(** The tasks spawned, and the error that ends [run] before it waits for them. *)
Definition spawn (env_token : option string) (c : ConfigFile) : list service * option AppError :=
  match runtime_bind_ip c with
  | Err e => ([], Some e)
  | Ok ip =>
      match start_forward ip c with
      | Err e => ([], Some e)
      | Ok forward =>
          let handles := forward ++ start_reverse_server env_token ip c in
          match start_reverse_client env_token c with
          | Err e => (handles, Some e)
          | Ok client =>
              let handles := handles ++ client in
              (handles, if (length handles =? 0)%nat then Some no_services else None)
          end
      end
  end.

(** [run]: [first] is how the task that ends first ends, [Err] when it panicked
    (or was cancelled); its own result is only printed. *)
Definition run (env_token : option string) (c : ConfigFile) (first : result unit string) : Result unit :=
  match spawn env_token c with
  | (_, Some e) => Err e
  | (_, None) => map_err (fun e => Internal ("Service task failed: " +:+ e)) first
  end.

(** ** The command line *)

Inductive main_outcome : Type :=
| PrintedSecret (uri secret_b32 : string)
| Exit (code : Z).

Section Main.
Context (b32_encode : list byte -> string).
Context (toml_from_str : string -> result ConfigFile TomlError).
Context (fs_read : string -> result string IoError) (fs_exists : string -> bool).
Context (args : list string) (debug_path : string -> string) (debug_paths : list string -> string).
(** [REVERSE_PROXY_TOKEN], the ten random bytes drawn, and how the first service ends. *)
Context (env_token : option string) (rnd : list byte) (first : result unit string).

Definition main : outcome main_outcome :=
  match args with
  | _ :: "-g" :: rest =>
      let label := match rest with l :: _ => l | [] => "user@gsc-fq" end in
      let '(totp, secret_b32) := generate_random b32_encode rnd in
      Val (PrintedSecret (generate_otpauth_uri b32_encode totp label "GSC-FQ") secret_b32)
  | _ =>
      let! r := load_with_search toml_from_str fs_read fs_exists args debug_path debug_paths in
      Val (match r with
           | Ok (config, _) =>
               match run env_token config first with
               | Ok _ => Exit 0
               | Err _ => Exit 1
               end
           | Err _ => Exit 1
           end)
  end.
End Main.

(** [print_search_paths], line by line. *)
Definition print_search_paths (fs_exists : string -> bool) : list string :=
  "🔍 Configuration file search paths (in priority order):" ::
  imap (fun i path => "  " +:+ show_dec (Z.of_nat i + 1) +:+ ". " +:+ (if fs_exists path then "✅" else "❌") +:+ " " +:+ path)
    get_config_search_paths.

(** ** Lemmas *)

Lemma runtime_bind_ip_normal c :
  normalised c -> exists ip, runtime_bind_ip c = Ok ip.
Proof.
  intros [Hb _]. unfold runtime_bind_ip. destruct (cf_server c) as [s|]; [|eauto].
  specialize (Hb s eq_refl). unfold bind_normal in Hb. destruct (ss_bind_ip s) as [b|]; [|eauto].
  destruct Hb as (He & _ & [ip Hip]). unfold parse_ip_address. rewrite <- He, Hip. eauto.
Qed.

Definition client_address_ok (c : ConfigFile) : Prop :=
  forall cl, cf_reverse_proxy_client c = Some cl -> is_Some (parse_socket_addr (rpc_server cl)).

Lemma start_forward_Ok ip c ws c' :
  validate c = (Ok ws, c') ->
  is_ok (start_forward ip c') = true <-> Forall (buildable ip) (cf_proxies c').
Proof.
  intros Hv. unfold start_forward, add_proxies, with_bind_ip, new_builder. simpl.
  rewrite <- (build_succeeds_iff _ _ _ ip Hv). destruct (cf_proxies c') as [|p ps]; [done|].
  simpl negb. cbv iota. by destruct (build _).
Qed.

Lemma start_reverse_client_Ok env_token c :
  is_ok (start_reverse_client env_token c) = true <-> client_address_ok c.
Proof.
  unfold start_reverse_client, client_address_ok. destruct (cf_reverse_proxy_client c) as [cl|]; [|done].
  destruct (parse_socket_addr (rpc_server cl)) as [a|] eqn:Ha; split; intros H; try done.
  - intros ? [= <-]. eauto.
  - destruct (H cl eq_refl) as [x Hx]. congruence.
Qed.

Lemma start_forward_length ip c l :
  start_forward ip c = Ok l -> length l = (if bool_decide (cf_proxies c = []) then 0 else 1)%nat.
Proof.
  unfold start_forward. destruct (cf_proxies c) as [|p ps]; simpl; [by intros [= <-]|].
  destruct (build _); [|done]. by intros [= <-].
Qed.

Lemma start_reverse_client_length env_token c l :
  start_reverse_client env_token c = Ok l ->
  length l = (if bool_decide (is_Some (cf_reverse_proxy_client c)) then 1 else 0)%nat.
Proof.
  unfold start_reverse_client. destruct (cf_reverse_proxy_client c) as [cl|]; [|by intros [= <-]].
  destruct (parse_socket_addr _); [|done]. by intros [= <-].
Qed.

(** The tasks [spawn] leaves, by role. *)
Lemma spawned env_token c sv :
  sv ∈ (spawn env_token c).1 ->
  exists ip, runtime_bind_ip c = Ok ip /\
    ((exists fw, start_forward ip c = Ok fw /\ sv ∈ fw) \/
     sv ∈ start_reverse_server env_token ip c \/
     exists cl, start_reverse_client env_token c = Ok cl /\ sv ∈ cl).
Proof.
  unfold spawn. destruct (runtime_bind_ip c) as [ip|]; [|by intros ?%elem_of_nil].
  destruct (start_forward ip c) as [fw|] eqn:Hfw; [|by intros ?%elem_of_nil].
  destruct (start_reverse_client env_token c) as [cl|] eqn:Hcl; simpl; rewrite ?elem_of_app; intros Hin; exists ip.
  all: split; [done|]; naive_solver.
Qed.

Lemma start_forward_elem ip c fw sv : start_forward ip c = Ok fw -> sv ∈ fw -> exists server, sv = ForwardProxy server.
Proof.
  unfold start_forward. destruct (negb _); [destruct (build _); [|done]|]; intros [= <-] Hx.
  - apply list_elem_of_singleton in Hx. eauto.
  - by apply elem_of_nil in Hx.
Qed.

Lemma start_server_elem env_token ip c sv :
  sv ∈ start_reverse_server env_token ip c ->
  exists sc, cf_reverse_proxy_server c = Some sc /\ sv = ReverseProxyServerTask (ReverseServer.new env_token ip (rps_port sc)).
Proof.
  unfold start_reverse_server. destruct (cf_reverse_proxy_server c) as [sc|]; intros Hx.
  - apply list_elem_of_singleton in Hx. eauto.
  - by apply elem_of_nil in Hx.
Qed.

Lemma start_client_elem env_token c cl sv :
  start_reverse_client env_token c = Ok cl -> sv ∈ cl ->
  exists addr, sv = ReverseProxyClientTask (ReverseClient.new env_token addr c).
Proof.
  unfold start_reverse_client. destruct (cf_reverse_proxy_client c) as [cc|]; [destruct (parse_socket_addr _); [|done]|];
    intros [= <-] Hx.
  - apply list_elem_of_singleton in Hx. eauto.
  - by apply elem_of_nil in Hx.
Qed.

(** The server and the client that [run] starts, and what they know. *)
Lemma spawned_server env_token c srv :
  ReverseProxyServerTask srv ∈ (spawn env_token c).1 -> exists ip port, srv = ReverseServer.new env_token ip port.
Proof.
  intros (ip & _ & [(fw & Hfw & Hin)|[Hin|(cl & Hcl & Hin)]])%spawned.
  - by destruct (start_forward_elem _ _ _ _ Hfw Hin).
  - apply start_server_elem in Hin as (sc & _ & [= ->]). eauto.
  - by destruct (start_client_elem _ _ _ _ Hcl Hin).
Qed.

Lemma spawned_client env_token c cl :
  ReverseProxyClientTask cl ∈ (spawn env_token c).1 -> exists addr, cl = ReverseClient.new env_token addr c.
Proof.
  intros (ip & _ & [(fw & Hfw & Hin)|[Hin|(cls & Hcl & Hin)]])%spawned.
  - by destruct (start_forward_elem _ _ _ _ Hfw Hin).
  - by apply start_server_elem in Hin as (sc & _ & ?).
  - destruct (start_client_elem _ _ _ _ Hcl Hin) as [addr [= ->]]. eauto.
Qed.

(** ** Properties *)

(** C19. What a validated configuration starts: all services come up exactly
    when the forward rules name literal addresses, the client's server address
    is a literal socket address and something is configured; then there is one
    task per configured role, and otherwise [run] fails whatever the services
    do.  A forward rule that cannot be served keeps every other service from
    starting. *)
Theorem validated_config_starts env_token c ws c' ip :
  validate c = (Ok ws, c') -> runtime_bind_ip c' = Ok ip ->
  ((spawn env_token c').2 = None <->
   Forall (buildable ip) (cf_proxies c') /\ client_address_ok c' /\ get_runtime_mode c' <> "unknown") /\
  ((spawn env_token c').2 = None ->
   length (spawn env_token c').1 =
     ((if bool_decide (cf_proxies c' = []) then 0 else 1)
      + (if bool_decide (is_Some (cf_reverse_proxy_server c')) then 1 else 0)
      + (if bool_decide (is_Some (cf_reverse_proxy_client c')) then 1 else 0))%nat) /\
  (~ Forall (buildable ip) (cf_proxies c') ->
   (spawn env_token c').1 = [] /\ forall first, is_ok (run env_token c' first) = false).
Proof.
  intros Hv Hip. pose proof (start_forward_Ok ip _ _ _ Hv) as Hf.
  pose proof (start_reverse_client_Ok env_token c') as Hc.
  unfold run, spawn, get_runtime_mode. rewrite Hip.
  destruct (start_forward ip c') as [fw|e] eqn:Hfw.
  2: { simpl in Hf. split_and!.
       - split; [done|]. intros (Hb & _). by apply Hf in Hb.
       - done.
       - done. }
  apply start_forward_length in Hfw as Hfl.
  assert (Forall (buildable ip) (cf_proxies c')) as Hb by by apply Hf.
  destruct (start_reverse_client env_token c') as [cl|e] eqn:Hcl.
  2: { split_and!; [|done|done]. split; [done|]. intros (_ & Ha & _). by apply Hc in Ha. }
  apply start_reverse_client_length in Hcl as Hcll.
  assert (client_address_ok c') as Ha by by apply Hc.
  assert (length (start_reverse_server env_token ip c') =
          if bool_decide (is_Some (cf_reverse_proxy_server c')) then 1%nat else 0%nat) as Hsl
    by (unfold start_reverse_server; by destruct (cf_reverse_proxy_server c')).
  simpl. rewrite !length_app, Hfl, Hcll, Hsl. split_and!; [|done|done].
  destruct (cf_proxies c') as [|p ps]; destruct (cf_reverse_proxy_server c'), (cf_reverse_proxy_client c');
    simpl; split; intros H; split_and?; try done; by destruct H as (_ & _ & []).
Qed.

(** C29. The credentials in the configuration do not guard the server it starts:
    whatever [allowed_tokens] and [totp_secret] a configuration sets, unless the
    environment variable is set the reverse proxy server that [run] starts
    accepts a client with any token and any one-time code or none. *)
Theorem configured_credentials_ignored `{Env} c srv wall token code p ps json :
  ReverseProxyServerTask srv ∈ (spawn None c).1 ->
  to_json (p :: ps) = Ok json ->
  check_hello srv wall (ClientHello PROTOCOL_VERSION token code (p :: ps) (sha256_hex json)) =
    Val (Accept (p :: ps)).
Proof.
  intros Hin Hj.
  apply spawned_server in Hin as (ip & port & ->).
  unfold check_hello, token_valid, totp_valid. simpl. rewrite Hj, String.eqb_refl. done.
Qed.

(** ** Witnesses *)

#[local] Existing Instance sample_env.

(** A server with credentials beside a forward rule. *)
Definition guarded_config (rule : ProxySection) : ConfigFile :=
  mkConfigFile None [rule] None None [] (Some (mkReverseProxyServerSection 9001 ["secret"] (Some "JBSWY3DPEHPK3PXP"))) None.

Theorem validated_config_starts_witness :
  (spawn None (guarded_config literal_rule)).2 = None /\
  length (spawn None (guarded_config literal_rule)).1 = 2%nat /\
  (spawn None (guarded_config named_rule)).1 = [] /\
  is_ok (run None (guarded_config named_rule) (Ok tt)) = false.
Proof.
  destruct (validated_config_starts None (guarded_config literal_rule) [] (guarded_config literal_rule) UNSPECIFIED)
    as (_ & Hl & _); [vm_compute; reflexivity|reflexivity|].
  assert ((spawn None (guarded_config literal_rule)).2 = None) as Hs by (vm_compute; reflexivity).
  split; [exact Hs|]. split; [exact (Hl Hs)|].
  destruct (validated_config_starts None (guarded_config named_rule) [] (guarded_config named_rule) UNSPECIFIED)
    as (_ & _ & Hn); [vm_compute; reflexivity|reflexivity|].
  assert (~ Forall (buildable UNSPECIFIED) (cf_proxies (guarded_config named_rule))) as Hb.
  { intros [[_ [x Hx]] _]%Forall_cons. vm_compute in Hx. discriminate. }
  split; [exact (proj1 (Hn Hb))|exact (proj2 (Hn Hb) (Ok tt))].
Defined.

Theorem configured_credentials_ignored_witness :
  exists srv json, rps_allowed_tokens <$> cf_reverse_proxy_server (guarded_config literal_rule) = Some ["secret"] /\
    check_hello srv 0 (ClientHello PROTOCOL_VERSION "wrong" None sample_proxies (sha256_hex json)) =
    Val (Accept sample_proxies).
Proof.
  exists (ReverseServer.new None UNSPECIFIED 9001). eexists. split; [reflexivity|].
  refine (configured_credentials_ignored (guarded_config literal_rule) (ReverseServer.new None UNSPECIFIED 9001)
    0 "wrong" None (mkReverseProxyConfig 8080 None "localhost" 80) [] _ _ _); [|reflexivity].
  assert ((spawn None (guarded_config literal_rule)).1 =
    [ForwardProxy (mkProxyServer UNSPECIFIED [sample_instance]);
     ReverseProxyServerTask (ReverseServer.new None UNSPECIFIED 9001)]) as -> by (vm_compute; reflexivity).
  right. left.
Defined.
