(* ===== verification/Deployment.v ===== *)
(** * Deployment: a reverse proxy from two configurations to its local services
    (src/src/config/runtime.rs, reverse_proxy/server.rs, client.rs)

    The composition of the reverse proxy's parts on its two machines: what [run]
    starts from the server's and from the client's configuration (Runtime), the
    handshake between the two (ReverseClient, ReverseServer), the session and its
    listeners, and the tunnel with every connection it carries (TunnelRelay).  No
    code of its own is modelled here. *)

From Stdlib Require Import Ascii String ZArith Lia.
From stdpp Require Import base gmap strings list relations.
From S2P Require Import Prelude Text NetAddr Errors Config ConfigSpec Totp Stream Protocol ReverseServer Tunnel ReverseClient.
From S2P Require Import TunnelRelay ReversePath ProxyServer Runtime.

(** ** What the two sides know of each other *)

(** [REVERSE_PROXY_TOKEN] is unset on the server, or the client has the same. *)
Definition tokens_match (env_s env_c : option string) : Prop := env_s = None \/ env_s = env_c.

Lemma matching_token env_s env_c ip port addr c :
  tokens_match env_s env_c ->
  token_valid (ReverseServer.new env_s ip port) (default "" (ReverseClient.auth_token (ReverseClient.new env_c addr c))) = true.
Proof.
  intros [-> | ->]; [done|]. unfold token_valid. simpl. destruct env_c as [t|]; [|done]. simpl.
  by rewrite String.eqb_refl.
Qed.

(** A validated rule on the client, with the proxy list the client sends. *)
Lemma client_rule cc ws cc' env addr r :
  validate cc = (Ok ws, cc') -> r ∈ cf_reverse_proxies cc' ->
  exists ps p, parse_proxy_configs (ReverseClient.new env addr cc') = Ok ps /\ p ∈ ps /\ parse_proxy_config r = Ok p /\
    NoDup (map server_port ps) /\ valid_port (server_port p) /\
    Forall (fun p => valid_port (server_port p) /\ valid_port (local_port p)) ps.
Proof.
  intros Hv Hr. destruct (validate_normal _ _ _ Hv) as (_ & _ & Hok & _).
  destruct (validated_rules_parse_all cc' env addr Hok) as (ps & Hps & Hnd & Hports).
  pose proof (proj1 (parse_proxy_configs_Ok _ _) Hps) as Hall.
  apply list_elem_of_lookup in Hr as [i Hi].
  destruct (Forall2_lookup_l _ _ _ _ _ Hall Hi) as (p & Hp%list_elem_of_lookup_2 & Hpr).
  exists ps, p. split_and!; try done. rewrite Forall_forall in Hports. apply (Hports p Hp).
Qed.

(** ** Properties *)

(** C1. A reverse rule is served from the two configuration files on: a server that
    [run] starts from any configuration and a client that [run] starts from a
    validated one shake hands, whatever credentials the files hold, when the
    server's REVERSE_PROXY_TOKEN is unset or the client's and the hello and its
    answer fit their frames; the client goes on to its tunnel loop; the server has
    a listener on the rule's port if the system permits it and nobody held it; and
    in every run of the session's tunnel, whatever else it carries, a stream opened
    for a connection on that port reaches the rule's local service as soon as its
    header has come across and the client can connect, none reaches any other, and
    each end receives a prefix of what the other end of that same connection
    sends. *)
Theorem deployed_rule_is_served `{E : Env, CD : CodecLaws, CL : CopyingLaws, ML : MpscLaws TunnelRequest, MX : Multiplexer}
    cs env_s srv cc ws cc' env_c cl r :
  ReverseProxyServerTask srv ∈ (spawn env_s cs).1 ->
  validate cc = (Ok ws, cc') -> ReverseProxyClientTask cl ∈ (spawn env_c cc').1 ->
  tokens_match env_s env_c -> r ∈ cf_reverse_proxies cc' ->
  exists ps p, parse_proxy_configs cl = Ok ps /\ p ∈ ps /\ parse_proxy_config r = Ok p /\
    forall os wall_c wall_s now addr st events json code,
      to_json ps = Ok json -> totp_code cl wall_c = Val code ->
      sendable (ClientHello PROTOCOL_VERSION (default "" (ReverseClient.auth_token cl)) code ps (sha256_hex json)) ->
      sendable (hello_ok wall_s addr ps) ->
      os (Tcp, server_port p) = true -> (Tcp, server_port p) ∉ bound st ->
      exists to_server to_client session,
        do_handshake cl wall_c ps (reader_of (wr_out to_client)) open_writer = Val (Ok tt, reader_of [], to_server) /\
        run_connection cl wall_c (Ok (reader_of (wr_out to_client), open_writer)) events = Val (tunnel_loop events) /\
        admit_client os srv wall_s now addr (reader_of (wr_out to_server)) open_writer st =
          Val (Ok tt, reader_of [], to_client, open_session os now addr ps st) /\
        clients (open_session os now addr ps st) !! client_id addr = Some session /\
        (Tcp, server_port p) ∈ cs_listeners session /\ serves_rule ps p session.
Proof.
  intros (ip & port & ->)%spawned_server Hv (a & ->)%spawned_client Henv Hr.
  destruct (client_rule cc ws cc' env_c a r Hv Hr) as (ps & p & Hps & Hp & Hpr & Hnd & Hvp & Hports).
  exists ps, p. split_and!; [done..|]. intros os wall_c wall_s now addr st events json code Hj Hc Hs Hrep Hos Hfree.
  assert (ps <> []) as Hne by (by intros ->; apply elem_of_nil in Hp).
  destruct (agreed_handshake os (ReverseClient.new env_c a cc') (ReverseServer.new env_s ip port) wall_c wall_s now addr ps
    json code st Hj Hne (matching_token _ _ _ _ _ _ Henv) Hc eq_refl Hs Hrep) as (wc & wsv & Hdo & Hhc).
  destruct (bind_all os ps (bound st)) as [ls b'] eqn:Hb.
  assert (clients (open_session os now addr ps st) !! client_id addr = Some (mkClientSession ps ls now)) as Hsess
    by (unfold open_session; rewrite Hb; apply lookup_insert_eq).
  exists wc, wsv, (mkClientSession ps ls now). split_and!; try done.
  - unfold run_connection. rewrite Hps. destruct ps; [done|]. by rewrite Hdo.
  - simpl. eapply bind_all_binds; try done. unfold valid_port in Hvp. lia.
  - apply session_serves_rule; [done..|]. by eapply session_ports.
Qed.

(** ** Witness *)

#[local] Existing Instances FixedWidth.codec FixedWidth.laws ReverseServer.sample_env.
#[local] Existing Instances sample_copying sample_copying_laws sample_mpsc sample_mpsc_laws sample_multiplexer.

(** The server's file sets credentials, the client's others; neither machine
    has the environment variable. *)
Definition deployed_client : ReverseProxyClient := ReverseClient.new None (mkSocketAddr (V4 10 0 0 1) 9001) sample_config.

Definition deployed_json : string := default "" (result_ok (to_json sample_ps)).

Lemma deployed_hello code :
  totp_code deployed_client 1700000025 = Val code ->
  sendable (ClientHello PROTOCOL_VERSION "guest" code sample_ps
    (sha256_hex deployed_json)).
Proof.
  intros Hc. vm_compute in Hc. injection Hc as <-. apply sendable_by_eval; [vm_compute; reflexivity|].
  split; [unfold in_u, PROTOCOL_VERSION; lia|]. split; [simpl; unfold in_u; lia|exact sample_wf_proxies].
Qed.

Lemma deployed_reply : sendable (hello_ok 1700000000 ReverseServer.sample_peer sample_ps).
Proof.
  apply sendable_by_eval; [vm_compute; reflexivity|].
  split; [unfold in_u, PROTOCOL_VERSION; lia|]. apply Forall_map. eapply Forall_impl; [exact sample_wf_proxies|].
  intros x Hx. exact (proj1 Hx).
Qed.

Theorem deployed_rule_is_served_witness :
  exists to_server to_client,
    do_handshake deployed_client 1700000025 sample_ps (reader_of (wr_out to_client)) open_writer =
      Val (Ok tt, reader_of [], to_server) /\
    run_connection deployed_client 1700000025 (Ok (reader_of (wr_out to_client), open_writer)) [Shutdown] =
      Val (Some (Ok tt), []) /\
    exists s, t_streams (tunnel_run sample_ps (tunnel_start [(Tcp, 8080); (Udp, 8080)]) relay_events) !! 0%nat = Some s /\
      st_target s = Some (local_addr_of (mkReverseProxyConfig 8080 None "127.0.0.1" 80)) /\
      p_sink (st_up s) = map z_byte [71; 69] /\ p_sink (st_up s) `prefix_of` relay_request.
Proof.
  destruct (deployed_rule_is_served (guarded_config literal_rule) None (ReverseServer.new None UNSPECIFIED 9001)
    sample_config [] sample_config None deployed_client (mkReverseProxySection "8080" "127.0.0.1:80" None))
    as (ps & p & Hps & Hp & Hpr & H).
  - assert ((spawn None (guarded_config literal_rule)).1 =
      [ForwardProxy (mkProxyServer UNSPECIFIED [sample_instance]);
       ReverseProxyServerTask (ReverseServer.new None UNSPECIFIED 9001)]) as -> by (vm_compute; reflexivity).
    right. left.
  - vm_compute. reflexivity.
  - vm_compute. right. left.
  - left. reflexivity.
  - left.
  - vm_compute in Hps. injection Hps as <-. vm_compute in Hpr. injection Hpr as <-.
    destruct (totp_code deployed_client 1700000025) as [code|] eqn:Hc; [|vm_compute in Hc; discriminate].
    destruct (H (fun _ => true) 1700000025 1700000000 0 ReverseServer.sample_peer initial [Shutdown]
      deployed_json code ltac:(vm_compute; reflexivity) Hc (deployed_hello code Hc) deployed_reply eq_refl
      ltac:(vm_compute; intros Hx; discriminate Hx)) as (ws & wc & session & H1 & H2 & _ & Hsess & _ & Hd).
    exists ws, wc. split; [exact H1|]. split; [exact H2|].
    vm_compute in Hsess. injection Hsess as <-.
    eexists. split; [vm_compute; reflexivity|]. split; [reflexivity|].
    destruct (Hd relay_events 0%nat _ ltac:(vm_compute; reflexivity) eq_refl) as [Hr _].
    destruct (Hr "127.0.0.1:80" eq_refl) as (_ & (data & Hsock & _ & Hpre) & _).
    vm_compute in Hsock. injection Hsock as <-. split; [reflexivity|exact Hpre].
Defined.
