(* ===== verification/Handler.v ===== *)
(** * Handler: the plain connection handler and its pool
    (src/src/proxy/handler.rs, high_perf.rs)

    [ConnectionHandler::handle_connection] connects to the remote server,
    possibly from a given source address, and forwards both ways with
    [tokio::io::copy]; [HandlerPool] adds up what its handlers allow. *)

From Stdlib Require Import Ascii String ZArith Lia.
From stdpp Require Import base gmap strings list.
From S2P Require Import Prelude Text NetAddr Errors ProxyServer.

(** ** Data *)

Record ConnectionHandler := mkConnectionHandler {
  ch_remote_addr : SocketAddr;
  ch_source_ip : option IpAddr;
  ch_max_connections : option Z }.

Record ConnectionStats := mkConnectionStats {
  cs_remote_addr : SocketAddr;
  cs_source_ip : option IpAddr;
  cs_max_connections : Z;
  cs_active_connections : Z;
  cs_available_slots : Z }.

(** A pool owns handlers in the order they were added. *)
Record HandlerPool := mkHandlerPool { handlers : list ConnectionHandler }.

Record PoolStats := mkPoolStats {
  total_handlers : Z;
  total_max_connections : Z;
  total_active_connections : Z;
  total_available_slots : Z }.

(** ** Forwarding *)

(** How a spawned copy ends: bytes, an I/O error, or a panic of the task. *)
Inductive copy_end : Type := Copied (bytes : Z) | CopyFailed (e : IoError) | TaskPanicked.

Definition copy_bytes (c : copy_end) : Z := match c with Copied n => n | CopyFailed _ | TaskPanicked => 0 end.

(** [optimized_bidirectional]: the ends of the two copies *)
Definition optimized_bidirectional (client_to_server server_to_client : copy_end) : Result (Z * Z) :=
  Ok (copy_bytes client_to_server, copy_bytes server_to_client).

(** [high_perf::adaptive_copy] *)
Definition high_perf_adaptive_copy := optimized_bidirectional.

(** The answers to the calls of one connection; [None] is the 10-second
    timeout of [connect]. *)
Record HandlerCalls := mkHandlerCalls {
  hc_peer_addr : result SocketAddr IoError;
  hc_socket : result unit IoError;
  hc_bind : SocketAddr -> result unit IoError;
  hc_connect : option (result unit IoError);
  hc_client_nodelay : result unit IoError;
  hc_remote_nodelay : result unit IoError;
  hc_client_to_server : copy_end;
  hc_server_to_client : copy_end }.

Definition connect_failed (addr : SocketAddr) (e : IoError) : NetworkError :=
  ConnectionFailed ("Failed to connect to remote " +:+ show_socket_addr addr +:+ ": " +:+ io_text e).

Definition timed (addr : SocketAddr) (connected : option (result unit IoError)) : Result unit :=
  match connected with
  | None => Err (Network ConnectionTimeout)
  | Some r => network (connect_failed addr) r
  end.

Definition connect_with_source_ip (h : ConnectionHandler) (c : HandlerCalls) (src : IpAddr) : Result unit :=
  let local_addr := mkSocketAddr src 0 in
  let? _ :=
    match is_v4 src, is_v4 (sa_ip (ch_remote_addr h)) with
    | true, true => network (fun e => ConnectionFailed ("Failed to create IPv4 socket: " +:+ io_text e)) (hc_socket c)
    | false, false => network (fun e => ConnectionFailed ("Failed to create IPv6 socket: " +:+ io_text e)) (hc_socket c)
    | _, _ => Err (Network (ConnectionFailed "Source IP family does not match remote address family"))
    end in
  let? _ := network (fun e => ConnectionFailed ("Failed to bind to source IP " +:+ show_ip src +:+ ": " +:+ io_text e))
              (hc_bind c local_addr) in
  timed (ch_remote_addr h) (hc_connect c).

Definition forward_data (c : HandlerCalls) : Result unit :=
  let? _ := map_err (fun e => Proxy (ForwardingFailed ("Failed to set client nodelay: " +:+ io_text e)))
              (hc_client_nodelay c) in
  let? _ := map_err (fun e => Proxy (ForwardingFailed ("Failed to set remote nodelay: " +:+ io_text e)))
              (hc_remote_nodelay c) in
  map_ok (fun _ => tt) (high_perf_adaptive_copy (hc_client_to_server c) (hc_server_to_client c)).

Definition handle_connection (h : ConnectionHandler) (c : HandlerCalls) : Result unit :=
  let? _ := network (fun e => ConnectionFailed ("Failed to get client address: " +:+ io_text e)) (hc_peer_addr c) in
  let? _ :=
    match ch_source_ip h with
    | Some src => connect_with_source_ip h c src
    | None => timed (ch_remote_addr h) (hc_connect c)
    end in
  forward_data c.

(** ** Statistics *)

Definition get_connection_stats (h : ConnectionHandler) : ConnectionStats :=
  let max_connections := default usize_max (ch_max_connections h) in
  mkConnectionStats (ch_remote_addr h) (ch_source_ip h) max_connections 0 (sat_sub max_connections 0).

Definition new_pool : HandlerPool := mkHandlerPool [].
Definition add_handler (p : HandlerPool) (h : ConnectionHandler) : HandlerPool :=
  mkHandlerPool (handlers p ++ [h]).
Definition get_handler (p : HandlerPool) (index : nat) : option ConnectionHandler := handlers p !! index.

(** [Iterator::reduce] *)
Definition reduce {A} (f : A -> A -> A) (l : list A) : option A :=
  match l with [] => None | x :: l => Some (fold_left f l x) end.

Definition get_pool_stats (p : HandlerPool) : PoolStats :=
  let total_max :=
    default usize_max (reduce (sat_add 64) (map (fun h => cs_max_connections (get_connection_stats h)) (handlers p))) in
  mkPoolStats (Z.of_nat (length (handlers p))) total_max 0 total_max.

Definition show_pool_stats (s : PoolStats) : string :=
  "Connection Pool Stats:" +:+ Config.nl +:+ "- Total Handlers: " +:+ show_dec (total_handlers s)
  +:+ Config.nl +:+ "- Total Max Connections: " +:+ show_dec (total_max_connections s)
  +:+ Config.nl +:+ "- Total Active Connections: " +:+ show_dec (total_active_connections s)
  +:+ Config.nl +:+ "- Total Available Slots: " +:+ show_dec (total_available_slots s).

Definition show_connection_stats (s : ConnectionStats) : string :=
  "Connection Stats for " +:+ show_socket_addr (cs_remote_addr s) +:+ ":"
  +:+ Config.nl +:+ "- Source IP: "
  +:+ match cs_source_ip s with Some ip => "Some(" +:+ show_ip ip +:+ ")" | None => "None" end
  +:+ Config.nl +:+ "- Max Connections: " +:+ show_dec (cs_max_connections s)
  +:+ Config.nl +:+ "- Active Connections: " +:+ show_dec (cs_active_connections s)
  +:+ Config.nl +:+ "- Available Slots: " +:+ show_dec (cs_available_slots s).

(** [optimized_standard_copy]: how the two copies end, or [None] after 30
    seconds; nothing of it is reported. *)
Definition optimized_standard_copy (ends : option (copy_end * copy_end)) : Result unit := Ok tt.

(** ** Lemmas *)

Definition capacities (p : HandlerPool) : list Z := map (fun h => default usize_max (ch_max_connections h)) (handlers p).

Lemma fold_sat_add l x :
  in_u 64 x -> Forall (in_u 64) l ->
  fold_left (sat_add 64) l x = Z.min (foldr Z.add 0 l + x) usize_max.
Proof.
  revert x. induction l as [|y l IH]; intros x Hx Hl; simpl.
  - unfold usize_max, in_u in *. lia.
  - apply Forall_cons in Hl as [Hy Hl]. rewrite IH; [|unfold sat_add, in_u in *; lia|done].
    assert (0 <= foldr Z.add 0 l).
    { clear -Hl. induction Hl as [|z l [Hz _] _ IHl]; simpl; lia. }
    unfold sat_add, usize_max, in_u in *. lia.
Qed.

(** ** Properties *)

(** What a handled connection returns is decided before any data moves: it
    fails exactly when the peer is unknown, the source address and the remote
    address are of different families, a socket call fails, or the connection
    fails or times out.  Once the sockets are set up it succeeds however the
    copies end, so the branch for a connection reset is never taken. *)
Theorem handle_connection_ok_iff h c :
  is_ok (handle_connection h c) = true <->
  is_ok (hc_peer_addr c) = true /\
  (forall src, ch_source_ip h = Some src ->
     is_v4 src = is_v4 (sa_ip (ch_remote_addr h)) /\ is_ok (hc_socket c) = true /\
     is_ok (hc_bind c (mkSocketAddr src 0)) = true) /\
  hc_connect c = Some (Ok tt) /\
  is_ok (hc_client_nodelay c) = true /\ is_ok (hc_remote_nodelay c) = true.
Proof.
  assert (is_ok (timed (ch_remote_addr h) (hc_connect c)) = true <-> hc_connect c = Some (Ok tt)) as Ht.
  { unfold timed, network. destruct (hc_connect c) as [[[]|e]|]; naive_solver. }
  assert (is_ok (forward_data c) = true <-> is_ok (hc_client_nodelay c) = true /\ is_ok (hc_remote_nodelay c) = true) as Hf.
  { unfold forward_data. destruct (hc_client_nodelay c), (hc_remote_nodelay c); simpl; naive_solver. }
  rewrite <- Ht, <- Hf. clear Ht Hf. unfold handle_connection. unfold network at 1.
  destruct (hc_peer_addr c); simpl; [|naive_solver].
  destruct (ch_source_ip h) as [src|].
  2: { destruct (timed _ _), (forward_data c); naive_solver. }
  assert (is_ok (connect_with_source_ip h c src) = true <->
    (is_v4 src = is_v4 (sa_ip (ch_remote_addr h)) /\ is_ok (hc_socket c) = true /\
     is_ok (hc_bind c (mkSocketAddr src 0)) = true) /\ is_ok (timed (ch_remote_addr h) (hc_connect c)) = true) as Hs.
  { unfold connect_with_source_ip, network.
    destruct (is_v4 src), (is_v4 (sa_ip (ch_remote_addr h))), (hc_socket c), (hc_bind c _), (timed _ _);
      simpl; naive_solver. }
  transitivity (is_ok (connect_with_source_ip h c src) = true /\ is_ok (forward_data c) = true).
  { destruct (connect_with_source_ip h c src), (forward_data c); naive_solver. }
  rewrite Hs. naive_solver.
Qed.

(** A pool offers the sum of its handlers' limits, saturated at the largest
    [usize], where a handler without a limit counts as that largest value; a
    pool without handlers claims the largest value too. *)
Theorem pool_capacity p :
  Forall (in_u 64) (capacities p) ->
  total_max_connections (get_pool_stats p) =
    (if bool_decide (handlers p = []) then usize_max else Z.min (foldr Z.add 0 (capacities p)) usize_max) /\
  total_available_slots (get_pool_stats p) = total_max_connections (get_pool_stats p).
Proof.
  intros Hc. split; [|done]. unfold get_pool_stats, capacities in *. simpl.
  destruct (handlers p) as [|h l]; [done|]. simpl in *. apply Forall_cons in Hc as [Hh Hl].
  rewrite fold_sat_add by done. lia.
Qed.

(** ** Witnesses *)

Theorem pool_capacity_witness :
  total_max_connections (get_pool_stats (mkHandlerPool
    [mkConnectionHandler (mkSocketAddr LOCALHOST 80) None (Some 10);
     mkConnectionHandler (mkSocketAddr LOCALHOST 81) None (Some 32)])) = 42.
Proof.
  refine (proj1 (pool_capacity (mkHandlerPool
    [mkConnectionHandler (mkSocketAddr LOCALHOST 80) None (Some 10);
     mkConnectionHandler (mkSocketAddr LOCALHOST 81) None (Some 32)]) _)).
  repeat constructor; simpl; lia.
Defined.
