(* ===== verification/EnhancedHandler.v ===== *)
(** * EnhancedHandler: the handler on resilient connections
    (src/src/proxy/enhanced_handler.rs, handler_copy.rs)

    [EnhancedConnectionHandler] composes the connection manager and the adaptive
    forwarder of Resilient with the plain set-up of Handler.  No [mod]
    declaration reaches either file. *)

From Stdlib Require Import Ascii String ZArith Lia SpecFloat.
From stdpp Require Import base gmap strings list.
From S2P Require Import Prelude Text F64 NetAddr Errors ProxyServer Handler Resilient.

(** ** Data *)

Record EnhancedConnectionHandler := mkEnhancedHandler {
  eh_remote_addr : SocketAddr;
  eh_source_ip : option IpAddr;
  eh_max_connections : option Z;
  resilient_manager : Manager;
  adaptive_forwarder : AdaptiveForwarder;
  resilient_mode : bool }.

(** 8 attempts, 50 ms growing by 1.5 up to 15 s, 15 s per attempt. *)
Definition enhanced_config : ReconnectConfig :=
  mkReconnectConfig 8 (from_millis 50) (from_secs 15) (f_div (f_of_Z 3) (f_of_Z 2)) (from_secs 15).

Definition new_enhanced (now : Z) (remote_addr : SocketAddr) (source_ip : option IpAddr)
    (max_connections : option Z) : EnhancedConnectionHandler :=
  mkEnhancedHandler remote_addr source_ip max_connections (with_config now enhanced_config) (new_forwarder now) true.

Definition with_resilient_mode (enabled : bool) (h : EnhancedConnectionHandler) : EnhancedConnectionHandler :=
  mkEnhancedHandler (eh_remote_addr h) (eh_source_ip h) (eh_max_connections h) (resilient_manager h)
    (adaptive_forwarder h) enabled.

Definition with_manager (m : Manager) (h : EnhancedConnectionHandler) : EnhancedConnectionHandler :=
  mkEnhancedHandler (eh_remote_addr h) (eh_source_ip h) (eh_max_connections h) m (adaptive_forwarder h)
    (resilient_mode h).

(** ** One connection *)

(** How the spawned forwarding task sees the world: what setting the socket
    options gives, the two directions, and a join error if it panics. *)
Record ForwardCalls := mkForwardCalls {
  fc_client_nodelay : result unit IoError;
  fc_remote_nodelay : result unit IoError;
  fc_quality1 : ConnectionQuality;
  fc_quality2 : ConnectionQuality;
  fc_size1 : Z;
  fc_size2 : Z;
  fc_from_client : list Resilient.io_event;
  fc_from_remote : list Resilient.io_event }.

Definition forwarded (c : ForwardCalls) : Result forwarding :=
  forward_adaptive
    (let? _ := optimize_tcp_socket (fc_client_nodelay c) in optimize_tcp_socket (fc_remote_nodelay c))
    (fc_quality1 c) (fc_quality2 c) (fc_size1 c) (fc_size2 c) (fc_from_client c) (fc_from_remote c).

Record EnhancedCalls := mkEnhancedCalls {
  ec_peer_addr : result SocketAddr IoError;
  ec_id : nat;               (** the new session's identifier *)
  ec_now : Z;
  ec_connect : Z -> connect_outcome;
  ec_forward : ForwardCalls;
  ec_reconnect : Z -> connect_outcome;
  ec_recovered_at : Z;
  ec_join : option string }.

(** The spawned task: a failure starts a recovery, whose stream and data go
    nowhere. *)
Definition forwarding_task (c : EnhancedCalls) (session_id : nat) (m : Manager) : Manager :=
  match forwarded (ec_forward c) with
  | Ok _ => m
  | Err _ => snd (recover_connection (ec_reconnect c) session_id (ec_recovered_at c) m)
  end.

Definition handle_resilient_connection (c : EnhancedCalls) (client_addr : string)
    (h : EnhancedConnectionHandler) : Result unit * EnhancedConnectionHandler :=
  match create_resilient_connection (ec_connect c) (ec_id c) (ec_now c) client_addr
          (show_socket_addr (eh_remote_addr h)) (resilient_manager h) with
  | (Err e, m) => (Err e, with_manager m h)
  | (Ok (session_id, _), m) =>
      (match ec_join c with
       | Some text => Err (Proxy (ForwardingFailed ("Task join error: " +:+ text)))
       | None => Ok tt
       end, with_manager (forwarding_task c session_id m) h)
  end.

Definition handle_connection (c : EnhancedCalls) (h : EnhancedConnectionHandler)
  : Result unit * EnhancedConnectionHandler :=
  match ec_peer_addr c with
  | Err e => (Err (Network (ConnectionFailed ("Failed to get client address: " +:+ io_text e))), h)
  | Ok client_addr => handle_resilient_connection c (show_socket_addr client_addr) h
  end.

(** [handle_standard_connection]; its source address handling is that of the
    plain handler. *)
Definition plain (h : EnhancedConnectionHandler) : ConnectionHandler :=
  mkConnectionHandler (eh_remote_addr h) (eh_source_ip h) (eh_max_connections h).

Definition handle_standard_connection (calls : HandlerCalls) (c : ForwardCalls) (h : EnhancedConnectionHandler)
  : Result unit :=
  let? _ :=
    match eh_source_ip h with
    | Some src => connect_with_source_ip (plain h) calls src
    | None => timed (eh_remote_addr h) (hc_connect calls)
    end in
  map_ok (fun _ => tt) (forwarded c).

(** [start_health_monitor], with the ticks of the interval. *)
Definition start_health_monitor (ticks : list Z) (h : EnhancedConnectionHandler) : EnhancedConnectionHandler :=
  if resilient_mode h then with_manager (start_health_check ticks (resilient_manager h)) h else h.

(** ** Statistics *)

Record EnhancedConnectionStats := mkEnhancedStats {
  es_remote_addr : SocketAddr;
  es_source_ip : option IpAddr;
  es_max_connections : Z;
  es_active_connections : Z;
  es_available_slots : Z;
  es_resilient_mode : bool;
  es_quality_stats : QualityStats }.

Definition enhanced_stats (now : Z) (h : EnhancedConnectionHandler) : EnhancedConnectionStats :=
  let max_connections := default usize_max (eh_max_connections h) in
  mkEnhancedStats (eh_remote_addr h) (eh_source_ip h) max_connections 0 max_connections (resilient_mode h)
    (get_quality_stats now (resilient_manager h)).

Definition show_bool (b : bool) : string := if b then "true" else "false".

Definition show_enhanced_stats (s : EnhancedConnectionStats) : string :=
  "Enhanced Connection Stats for " +:+ show_socket_addr (es_remote_addr s) +:+ ":"
  +:+ Config.nl +:+ "- Source IP: "
  +:+ match es_source_ip s with Some ip => "Some(" +:+ show_ip ip +:+ ")" | None => "None" end
  +:+ Config.nl +:+ "- Max Connections: " +:+ show_dec (es_max_connections s)
  +:+ Config.nl +:+ "- Active Connections: " +:+ show_dec (es_active_connections s)
  +:+ Config.nl +:+ "- Available Slots: " +:+ show_dec (es_available_slots s)
  +:+ Config.nl +:+ "- Resilient Mode: " +:+ show_bool (es_resilient_mode s)
  +:+ Config.nl +:+ "- Healthy: " +:+ show_bool (qs_is_healthy (es_quality_stats s))
  +:+ Config.nl +:+ "- Active Sessions: " +:+ show_dec (active_sessions (es_quality_stats s)).

Record EnhancedConnectionPool := mkEnhancedPool { enhanced_handlers : list EnhancedConnectionHandler }.

Definition new_enhanced_pool : EnhancedConnectionPool := mkEnhancedPool [].
Definition add_enhanced (h : EnhancedConnectionHandler) (p : EnhancedConnectionPool) : EnhancedConnectionPool :=
  mkEnhancedPool (enhanced_handlers p ++ [h]).
Definition get_enhanced (index : nat) (p : EnhancedConnectionPool) : option EnhancedConnectionHandler :=
  enhanced_handlers p !! index.
Definition start_all_health_monitors (ticks : list Z) (p : EnhancedConnectionPool) : EnhancedConnectionPool :=
  mkEnhancedPool (map (start_health_monitor ticks) (enhanced_handlers p)).

Record EnhancedPoolStats := mkEnhancedPoolStats {
  ep_total_handlers : Z;
  ep_total_max_connections : Z;
  ep_total_active_connections : Z;
  ep_total_available_slots : Z;
  ep_all_healthy : bool;
  ep_total_sessions : Z }.

(** One round of the loop: [+=] on [usize], which wraps in a release build. *)
Definition add_stats (t : EnhancedPoolStats) (s : EnhancedConnectionStats) : EnhancedPoolStats :=
  mkEnhancedPoolStats (ep_total_handlers t)
    (u64_add (ep_total_max_connections t) (es_max_connections s))
    (u64_add (ep_total_active_connections t) (es_active_connections s))
    (u64_add (ep_total_available_slots t) (es_available_slots s))
    (if qs_is_healthy (es_quality_stats s) then ep_all_healthy t else false)
    (u64_add (ep_total_sessions t) (active_sessions (es_quality_stats s))).

Definition enhanced_pool_stats (now : Z) (p : EnhancedConnectionPool) : EnhancedPoolStats :=
  foldl (fun t h => add_stats t (enhanced_stats now h))
    (mkEnhancedPoolStats (Z.of_nat (length (enhanced_handlers p))) 0 0 0 true 0) (enhanced_handlers p).

Definition show_enhanced_pool (s : EnhancedPoolStats) : string :=
  "Enhanced Pool Stats:" +:+ Config.nl +:+ "- Total Handlers: " +:+ show_dec (ep_total_handlers s)
  +:+ Config.nl +:+ "- Total Max Connections: " +:+ show_dec (ep_total_max_connections s)
  +:+ Config.nl +:+ "- Total Active Connections: " +:+ show_dec (ep_total_active_connections s)
  +:+ Config.nl +:+ "- Total Available Slots: " +:+ show_dec (ep_total_available_slots s)
  +:+ Config.nl +:+ "- All Healthy: " +:+ show_bool (ep_all_healthy s)
  +:+ Config.nl +:+ "- Total Active Sessions: " +:+ show_dec (ep_total_sessions s).

(** ** [forward_data_with_two_copies] of handler_copy.rs

    The two tasks' results when both ended within 30 seconds: [Err] is a join
    error; the result of the copy inside is not looked at. *)
Definition forward_data_with_two_copies (client_nodelay remote_nodelay : result unit IoError)
    (tasks : option (result (Result Z) string * result (Result Z) string)) : Result unit :=
  let? _ := map_err (fun e => Proxy (ForwardingFailed ("Failed to set client nodelay: " +:+ io_text e))) client_nodelay in
  let? _ := map_err (fun e => Proxy (ForwardingFailed ("Failed to set remote nodelay: " +:+ io_text e))) remote_nodelay in
  match tasks with
  | None | Some (Ok _, Ok _) => Ok tt
  | Some (Err _, _) | Some (_, Err _) => Err (Proxy (ForwardingFailed "Task failed"))
  end.

(** ** Lemmas *)

Lemma forwarded_ok c :
  is_ok (fc_client_nodelay c) = true -> is_ok (fc_remote_nodelay c) = true -> is_ok (forwarded c) = true.
Proof.
  unfold forwarded, forward_adaptive, optimize_tcp_socket. destruct (fc_client_nodelay c), (fc_remote_nodelay c); try done.
  intros _ _. simpl.
  destruct (pump (fc_quality1 c) (fc_size1 c) (fc_from_client c)) as [[[? ?] ?] ?].
  by destruct (pump (fc_quality2 c) (fc_size2 c) (fc_from_remote c)) as [[[? ?] ?] ?].
Qed.

(** Creating a connection stores its session, whether it succeeds or not. *)
Lemma create_sessions connect id now a t m :
  sessions (snd (create_resilient_connection connect id now a t m)) = <[id := new_session id now a t]> (sessions m).
Proof.
  unfold create_resilient_connection.
  by destruct (connect_with_retry connect (reconnect_config m) (quality m)) as [[r q] sl].
Qed.

Lemma recover_keeps_session connect id now m s :
  sessions m !! id = Some s ->
  exists s', sessions (snd (recover_connection connect id now m)) !! id = Some s' /\ si_pending_data s' = [].
Proof.
  intros Hs. unfold recover_connection. rewrite Hs. simpl.
  destruct (connect_with_retry connect (reconnect_config m) (quality m)) as [[r q] sl]. simpl.
  rewrite lookup_insert_eq. eexists. by split.
Qed.

Lemma pool_stats_fold now t hs :
  let t' := foldl (fun t h => add_stats t (enhanced_stats now h)) t hs in
  in_u 64 (ep_total_max_connections t) ->
  ep_total_max_connections t' =
    wrap 64 (ep_total_max_connections t + foldr Z.add 0 (map (fun h => default usize_max (eh_max_connections h)) hs)) /\
  ep_all_healthy t' = ep_all_healthy t && forallb (fun h => is_healthy now (quality (resilient_manager h))) hs.
Proof.
  revert t. induction hs as [|h hs IH]; intros t t' Ht; unfold t'; cbn [foldl].
  - simpl. rewrite Z.add_0_r, wrap_small by done. by rewrite andb_true_r.
  - destruct (IH (add_stats t (enhanced_stats now h))) as [-> ->]; [apply u64_add_in|]. simpl. split.
    + unfold u64_add. rewrite wrap_add_l. f_equal. lia.
    + by destruct (is_healthy now _), (ep_all_healthy t).
Qed.

(** ** Properties *)

(** The resilience of the enhanced handler is never used: once the socket
    options are set, no failure of either stream counts as one, so whatever the
    two streams do the connection ends as a success without a recovery; its
    session is left behind in the table. *)
Theorem recovery_never_follows_breakage c h client_addr stream m :
  ec_peer_addr c = Ok client_addr ->
  create_resilient_connection (ec_connect c) (ec_id c) (ec_now c) (show_socket_addr client_addr)
    (show_socket_addr (eh_remote_addr h)) (resilient_manager h) = (Ok (ec_id c, stream), m) ->
  is_ok (fc_client_nodelay (ec_forward c)) = true -> is_ok (fc_remote_nodelay (ec_forward c)) = true ->
  ec_join c = None ->
  handle_connection c h = (Ok tt, with_manager m h) /\
  is_Some (sessions (resilient_manager (snd (handle_connection c h))) !! ec_id c).
Proof.
  intros Hp Hc Hn1 Hn2 Hj.
  assert (handle_connection c h = (Ok tt, with_manager m h)) as Hh.
  { unfold handle_connection, handle_resilient_connection, forwarding_task. rewrite Hp, Hc, Hj.
    pose proof (forwarded_ok (ec_forward c) Hn1 Hn2) as Hf. by destruct (forwarded (ec_forward c)). }
  split; [done|]. rewrite Hh. simpl.
  pose proof (create_sessions (ec_connect c) (ec_id c) (ec_now c) (show_socket_addr client_addr)
    (show_socket_addr (eh_remote_addr h)) (resilient_manager h)) as Hs.
  rewrite Hc in Hs. simpl in Hs. rewrite Hs, lookup_insert_eq. by eexists.
Qed.

(** And when the options cannot be set, the recovery's stream is dropped, what
    was cached for the session with it, and the caller still sees a success. *)
Theorem recovered_stream_is_dropped c h client_addr e :
  ec_peer_addr c = Ok client_addr -> fc_client_nodelay (ec_forward c) = Err e -> ec_join c = None ->
  is_ok (fst (create_resilient_connection (ec_connect c) (ec_id c) (ec_now c) (show_socket_addr client_addr)
    (show_socket_addr (eh_remote_addr h)) (resilient_manager h))) = true ->
  fst (handle_connection c h) = Ok tt /\
  exists s, sessions (resilient_manager (snd (handle_connection c h))) !! ec_id c = Some s /\ si_pending_data s = [].
Proof.
  intros Hp He Hj Hok. unfold handle_connection, handle_resilient_connection, forwarding_task. rewrite Hp.
  pose proof (create_sessions (ec_connect c) (ec_id c) (ec_now c) (show_socket_addr client_addr)
    (show_socket_addr (eh_remote_addr h)) (resilient_manager h)) as Hs.
  destruct (create_resilient_connection _ _ _ _ _ _) as [[[id stream]|] m] eqn:Hc; [|done].
  assert (id = ec_id c) as ->.
  { unfold create_resilient_connection in Hc. destruct (connect_with_retry _ _ _) as [[[]] ?]; by simplify_eq/=. }
  unfold forwarded, forward_adaptive, optimize_tcp_socket. rewrite He, Hj. simpl in *. split; [done|].
  eapply recover_keeps_session. rewrite Hs, lookup_insert_eq. done.
Qed.

(** [with_resilient_mode(false)] does not switch the mode off: connections are
    handled the same way, and only the clean-up of old sessions stops. *)
Theorem resilient_mode_only_disables_cleanup c h ticks :
  fst (handle_connection c (with_resilient_mode false h)) = fst (handle_connection c h) /\
  snd (handle_connection c (with_resilient_mode false h)) = with_resilient_mode false (snd (handle_connection c h)) /\
  start_health_monitor ticks (with_resilient_mode false h) = with_resilient_mode false h.
Proof.
  split; [|split; [|done]]; unfold handle_connection, handle_resilient_connection;
    destruct (ec_peer_addr c); try done; simpl;
    by destruct (create_resilient_connection _ _ _ _ _ _) as [[[]|] m].
Qed.

(** The enhanced pool's totals wrap around instead of saturating: its
    capacity is the sum of the handlers' limits modulo 2^64, where a handler
    without a limit counts as the largest [usize], so adding a second such
    handler lowers the capacity; it is healthy when every handler is. *)
Theorem enhanced_pool_totals now p :
  ep_total_max_connections (enhanced_pool_stats now p) =
    wrap 64 (foldr Z.add 0 (map (fun h => default usize_max (eh_max_connections h)) (enhanced_handlers p))) /\
  (ep_all_healthy (enhanced_pool_stats now p) = true <->
   Forall (fun h => is_healthy now (quality (resilient_manager h)) = true) (enhanced_handlers p)) /\
  (forall h h', eh_max_connections h = None -> eh_max_connections h' = None ->
   ep_total_max_connections (enhanced_pool_stats now (add_enhanced h' (add_enhanced h new_enhanced_pool))) <
   ep_total_max_connections (enhanced_pool_stats now (add_enhanced h new_enhanced_pool))).
Proof.
  assert (forall p, ep_total_max_connections (enhanced_pool_stats now p) =
    wrap 64 (foldr Z.add 0 (map (fun h => default usize_max (eh_max_connections h)) (enhanced_handlers p))) /\
    ep_all_healthy (enhanced_pool_stats now p) =
      forallb (fun h => is_healthy now (quality (resilient_manager h))) (enhanced_handlers p)) as Hall.
  { intros q. unfold enhanced_pool_stats.
    match goal with |- context [foldl ?f ?t ?l] => destruct (pool_stats_fold now t l) as [-> ->] end.
    - apply zero_in. lia.
    - done. }
  destruct (Hall p) as [H1 H2]. split; [done|]. split.
  - rewrite H2, forallb_forall. rewrite Forall_forall. split; intros Hf h Hh; apply Hf; by apply list_elem_of_In.
  - intros h h' Hn Hn'. rewrite !(proj1 (Hall _)). simpl. rewrite Hn, Hn'. simpl. vm_compute. done.
Qed.

(** ** Witnesses *)

Definition sample_quality : ConnectionQuality := new_quality 0.
Definition sample_forward (nodelay : result unit IoError) : ForwardCalls :=
  mkForwardCalls nodelay (Ok tt) sample_quality sample_quality (kb 64) (kb 64) [ReadBroken] [ReadBroken].
Definition sample_calls (nodelay : result unit IoError) : EnhancedCalls :=
  mkEnhancedCalls (Ok (mkSocketAddr LOCALHOST 5000)) 7 0 (fun _ => Connected 1) (sample_forward nodelay)
    (fun _ => Connected 2) 5 None.
Definition sample_enhanced : EnhancedConnectionHandler := new_enhanced 0 (mkSocketAddr LOCALHOST 80) None None.

Theorem recovery_never_follows_breakage_witness :
  fst (handle_connection (sample_calls (Ok tt)) sample_enhanced) = Ok tt.
Proof.
  rewrite (proj1 (recovery_never_follows_breakage (sample_calls (Ok tt)) sample_enhanced
    (mkSocketAddr LOCALHOST 5000) 1
    (snd (create_resilient_connection (fun _ => Connected 1) 7 0 (show_socket_addr (mkSocketAddr LOCALHOST 5000))
       (show_socket_addr (mkSocketAddr LOCALHOST 80)) (resilient_manager sample_enhanced)))
    eq_refl eq_refl eq_refl eq_refl eq_refl)).
  reflexivity.
Defined.

Theorem recovered_stream_is_dropped_witness :
  fst (handle_connection (sample_calls (Err (mkIoError OtherKind "Bad file descriptor"))) sample_enhanced) = Ok tt.
Proof.
  exact (proj1 (recovered_stream_is_dropped (sample_calls (Err (mkIoError OtherKind "Bad file descriptor")))
    sample_enhanced (mkSocketAddr LOCALHOST 5000) _ eq_refl eq_refl eq_refl eq_refl)).
Defined.
