(* ===== verification/Monitoring.v ===== *)
(** * Monitoring: counters, error log and health (src/src/monitoring/mod.rs)

    [MonitoringSystem] behind its global lock: every recorder is one update of
    the record, given the clock readings it makes.  Instants are numbers of
    nanoseconds, wall-clock times too. *)

From Stdlib Require Import Ascii String ZArith Lia SpecFloat.
From stdpp Require Import base gmap strings list fin_maps.
From S2P Require Import Prelude Text F64.

(** ** Data *)

Record ConnectionMetrics := mkConnectionMetrics {
  total_connections : Z;
  active_connections : Z;
  failed_connections : Z;
  connection_rate : f64;
  avg_connection_duration_ms : Z;
  total_bytes_transferred : Z;
  total_packets_transferred : Z }.

Record PerformanceMetrics := mkPerformanceMetrics {
  cpu_utilization_percent : f64;
  memory_usage_bytes : Z;
  network_throughput_mbps : f64;
  request_rate : f64;
  avg_response_time_ms : Z;
  error_rate_percent : f64;
  load_average : f64 * f64 * f64 }.

Record ErrorEvent := mkErrorEvent {
  timestamp : Z;
  error_type : string;
  error_message : string;
  context : gmap string string }.

Record ErrorMetrics := mkErrorMetrics {
  total_errors : Z;
  errors_by_type : gmap string Z;
  recent_errors : list ErrorEvent;
  error_rate_trend : list (Z * f64) }.

Inductive HealthStatus : Type := Healthy | Degraded | Unhealthy.

Record ServiceHealth := mkServiceHealth {
  svc_name : string;
  svc_status : HealthStatus;
  svc_response_time_ms : Z;
  svc_last_check : Z;
  svc_details : gmap string string }.

Record SystemHealth := mkSystemHealth {
  status : HealthStatus;
  uptime_seconds : Z;
  last_check : Z;
  services : gmap string ServiceHealth }.

Record MonitoringSystem := mkMonitoringSystem {
  connections : ConnectionMetrics;
  performance : PerformanceMetrics;
  errors : ErrorMetrics;
  health : SystemHealth;
  start_time : Z;
  last_update : Z;
  collection_interval : Z }.

(** The clocks as one call reads them. *)
Record Clock := mkClock { instant : Z; system_time : Z }.

Definition zero : f64 := S754_zero false.

Definition new (c : Clock) : MonitoringSystem :=
  mkMonitoringSystem (mkConnectionMetrics 0 0 0 zero 0 0 0)
    (mkPerformanceMetrics zero 0 zero zero 0 zero (zero, zero, zero))
    (mkErrorMetrics 0 ∅ [] []) (mkSystemHealth Healthy 0 (system_time c) ∅)
    (instant c) (instant c) (5 * 10 ^ 9).

Definition with_connections (m : MonitoringSystem) (x : ConnectionMetrics) : MonitoringSystem :=
  mkMonitoringSystem x (performance m) (errors m) (health m) (start_time m) (last_update m) (collection_interval m).
Definition with_performance (m : MonitoringSystem) (x : PerformanceMetrics) : MonitoringSystem :=
  mkMonitoringSystem (connections m) x (errors m) (health m) (start_time m) (last_update m) (collection_interval m).
Definition with_errors (m : MonitoringSystem) (x : ErrorMetrics) : MonitoringSystem :=
  mkMonitoringSystem (connections m) (performance m) x (health m) (start_time m) (last_update m) (collection_interval m).

(** [self.start_time.elapsed().as_secs_f64()] *)
Definition elapsed_secs (c : Clock) (m : MonitoringSystem) : f64 := f_of_nanos (sat_sub (instant c) (start_time m)).

(** ** Derived rates *)

Definition update_connection_rate (c : Clock) (m : MonitoringSystem) : MonitoringSystem :=
  let elapsed := elapsed_secs c m in
  let x := connections m in
  if f_gt elapsed zero then
    with_connections m (mkConnectionMetrics (total_connections x) (active_connections x) (failed_connections x)
      (f_div (f_of_Z (total_connections x)) elapsed) (avg_connection_duration_ms x)
      (total_bytes_transferred x) (total_packets_transferred x))
  else m.

Definition update_network_throughput (c : Clock) (m : MonitoringSystem) : MonitoringSystem :=
  let elapsed := elapsed_secs c m in
  let x := performance m in
  if f_gt elapsed zero then
    let bytes_per_second := f_div (f_of_Z (total_bytes_transferred (connections m))) elapsed in
    with_performance m (mkPerformanceMetrics (cpu_utilization_percent x) (memory_usage_bytes x)
      (f_div (f_mul bytes_per_second (f_of_Z 8)) (f_mul (f_of_Z 1024) (f_of_Z 1024)))
      (request_rate x) (avg_response_time_ms x) (error_rate_percent x) (load_average x))
  else m.

(** [v.push(x); if v.len() > 100 { v.remove(0); }] *)
Definition push_window {A} (l : list A) (x : A) : list A :=
  let l := l ++ [x] in if (100 <? length l)%nat then tail l else l.

Definition update_error_rate (c : Clock) (m : MonitoringSystem) : MonitoringSystem :=
  let elapsed := elapsed_secs c m in
  let x := errors m in
  if f_gt elapsed zero then
    with_errors m (mkErrorMetrics (total_errors x) (errors_by_type x) (recent_errors x)
      (push_window (error_rate_trend x) (system_time c, f_div (f_of_Z (total_errors x)) elapsed)))
  else m.

Definition calculate_request_rate (c : Clock) (m : MonitoringSystem) : f64 :=
  let elapsed := elapsed_secs c m in
  if f_gt elapsed zero then f_div (f_of_Z (total_packets_transferred (connections m))) elapsed else zero.

Definition calculate_error_rate (m : MonitoringSystem) : f64 :=
  let total_requests := total_connections (connections m) in
  if 0 <? total_requests then
    f_mul (f_div (f_of_Z (total_errors (errors m))) (f_of_Z total_requests)) (f_of_Z 100)
  else zero.

(** ** Recorders *)

Definition record_connection_established (c : Clock) (m : MonitoringSystem) : MonitoringSystem :=
  let x := connections m in
  update_connection_rate c (with_connections m
    (mkConnectionMetrics (u64_add (total_connections x) 1) (u64_add (active_connections x) 1) (failed_connections x)
       (connection_rate x) (avg_connection_duration_ms x) (total_bytes_transferred x) (total_packets_transferred x))).

Definition record_connection_closed (duration_ms : Z) (m : MonitoringSystem) : MonitoringSystem :=
  let x := connections m in
  let active := if 0 <? active_connections x then active_connections x - 1 else active_connections x in
  let total := total_connections x in
  let avg := if 0 <? total
             then u64_add (wrap 64 (avg_connection_duration_ms x * (total - 1))) duration_ms / total
             else avg_connection_duration_ms x in
  with_connections m (mkConnectionMetrics total active (failed_connections x) (connection_rate x) avg
    (total_bytes_transferred x) (total_packets_transferred x)).

Definition record_connection_failed (c : Clock) (m : MonitoringSystem) : MonitoringSystem :=
  let x := connections m in
  update_connection_rate c (with_connections m
    (mkConnectionMetrics (total_connections x) (active_connections x) (u64_add (failed_connections x) 1)
       (connection_rate x) (avg_connection_duration_ms x) (total_bytes_transferred x) (total_packets_transferred x))).

Definition record_data_transfer (c : Clock) (bytes packets : Z) (m : MonitoringSystem) : MonitoringSystem :=
  let x := connections m in
  update_network_throughput c (with_connections m
    (mkConnectionMetrics (total_connections x) (active_connections x) (failed_connections x)
       (connection_rate x) (avg_connection_duration_ms x) (u64_add (total_bytes_transferred x) bytes)
       (u64_add (total_packets_transferred x) packets))).

Definition record_error (c : Clock) (ty message : string) (ctx : gmap string string) (m : MonitoringSystem)
  : MonitoringSystem :=
  let x := errors m in
  let by_type := <[ty := u64_add (default 0 (errors_by_type x !! ty)) 1]> (errors_by_type x) in
  let event := mkErrorEvent (system_time c) ty message ctx in
  update_error_rate c (with_errors m
    (mkErrorMetrics (u64_add (total_errors x) 1) by_type (push_window (recent_errors x) event) (error_rate_trend x))).

(** ** Health *)

(** [get_cpu_usage] is a random number: [random * 80 + 10]. *)
Definition get_cpu_usage (random : f64) : f64 := f_add (f_mul random (f_of_Z 80)) (f_of_Z 10).
Definition get_memory_usage : Z := 512 * 1024 * 1024.

Definition health_of (cpu error_rate : f64) : HealthStatus :=
  if f_gt cpu (f_of_Z 90) || f_gt error_rate (f_of_Z 10) then Unhealthy
  else if f_gt cpu (f_of_Z 70) || f_gt error_rate (f_of_Z 5) then Degraded
  else Healthy.

Definition update_health_status (c : Clock) (m : MonitoringSystem) : MonitoringSystem :=
  let uptime := sat_sub (instant c) (start_time m) / 10 ^ 9 in
  let p := performance m in
  mkMonitoringSystem (connections m) p (errors m)
    (mkSystemHealth (health_of (cpu_utilization_percent p) (error_rate_percent p)) uptime (system_time c)
       (services (health m)))
    (start_time m) (last_update m) (collection_interval m).

Definition update_performance_metrics (c : Clock) (random : f64) (m : MonitoringSystem) : MonitoringSystem :=
  let x := performance m in
  let m := with_performance m
    (mkPerformanceMetrics (get_cpu_usage random) get_memory_usage (network_throughput_mbps x)
       (calculate_request_rate c m) (avg_response_time_ms x) (calculate_error_rate m) (load_average x)) in
  let m := update_health_status c m in
  mkMonitoringSystem (connections m) (performance m) (errors m) (health m) (start_time m) (instant c)
    (collection_interval m).

(** ** Export *)

Inductive json : Type :=
| JString (s : string) | JNumber (n : Z) | JFloat (f : f64) | JObject (fields : list (string * json)).

Definition show_health (h : HealthStatus) : string :=
  match h with Healthy => "Healthy" | Degraded => "Degraded" | Unhealthy => "Unhealthy" end.

Definition get_status_summary (c : Clock) (m : MonitoringSystem) : json :=
  let x := connections m in let p := performance m in
  JObject [
    ("status", JString (show_health (status (health m))));
    ("uptime_seconds", JNumber (sat_sub (instant c) (start_time m) / 10 ^ 9));
    ("connections", JObject [
      ("total", JNumber (total_connections x)); ("active", JNumber (active_connections x));
      ("failed", JNumber (failed_connections x)); ("rate", JFloat (connection_rate x))]);
    ("performance", JObject [
      ("cpu_percent", JFloat (cpu_utilization_percent p));
      ("memory_mb", JNumber (memory_usage_bytes p / (1024 * 1024)));
      ("throughput_mbps", JFloat (network_throughput_mbps p));
      ("request_rate", JFloat (request_rate p));
      ("avg_response_time_ms", JNumber (avg_response_time_ms p));
      ("error_rate_percent", JFloat (error_rate_percent p))]);
    ("errors", JObject [
      ("total", JNumber (total_errors (errors m)));
      ("recent_count", JNumber (Z.of_nat (length (recent_errors (errors m)))))])].

Section Prometheus.
(** The [Display] rendering of an [f64]. *)
Context (show_f64 : f64 -> string).

Definition lf : string := String "010" "".

Definition prometheus_entry (name help kind value : string) : string :=
  "# HELP " +:+ name +:+ " " +:+ help +:+ lf +:+ "# TYPE " +:+ name +:+ " " +:+ kind +:+ lf
  +:+ name +:+ " " +:+ value +:+ lf.

Definition export_prometheus_metrics (m : MonitoringSystem) : string :=
  prometheus_entry "gsc_fq_connections_total" "Total number of connections" "counter"
    (show_dec (total_connections (connections m)))
  +:+ prometheus_entry "gsc_fq_connections_active" "Current active connections" "gauge"
    (show_dec (active_connections (connections m)))
  +:+ prometheus_entry "gsc_fq_bytes_transferred_total" "Total bytes transferred" "counter"
    (show_dec (total_bytes_transferred (connections m)))
  +:+ prometheus_entry "gsc_fq_cpu_utilization_percent" "CPU utilization percentage" "gauge"
    (show_f64 (cpu_utilization_percent (performance m)))
  +:+ prometheus_entry "gsc_fq_memory_usage_bytes" "Memory usage in bytes" "gauge"
    (show_dec (memory_usage_bytes (performance m)))
  +:+ prometheus_entry "gsc_fq_network_throughput_mbps" "Network throughput in MB/s" "gauge"
    (show_f64 (network_throughput_mbps (performance m)))
  +:+ prometheus_entry "gsc_fq_errors_total" "Total number of errors" "counter"
    (show_dec (total_errors (errors m))).
End Prometheus.

(** ** The global instance *)

(** What a caller can record; each call takes the lock for one update. *)
Inductive event : Type :=
| Established (c : Clock)
| Closed (duration_ms : Z)
| FailedConnection (c : Clock)
| Transferred (c : Clock) (bytes packets : Z)
| ErrorRecorded (c : Clock) (ty message : string) (ctx : gmap string string)
| MetricsUpdated (c : Clock) (random : f64).

Definition record (e : event) (m : MonitoringSystem) : MonitoringSystem :=
  match e with
  | Established c => record_connection_established c m
  | Closed d => record_connection_closed d m
  | FailedConnection c => record_connection_failed c m
  | Transferred c bytes packets => record_data_transfer c bytes packets m
  | ErrorRecorded c ty message ctx => record_error c ty message ctx m
  | MetricsUpdated c random => update_performance_metrics c random m
  end.

(** [MonitoringSystem::global()]: created on first use, at [c]. *)
Definition on_global (c : Clock) (e : event) (g : option MonitoringSystem) : option MonitoringSystem :=
  Some (record e (default (new c) g)).

Definition run (c : Clock) (es : list event) : MonitoringSystem := foldl (fun m e => record e m) (new c) es.

(** ** Lemmas *)

Lemma push_window_last_n {A} (l : list A) x : push_window (last_n 100 l) x = last_n 100 (l ++ [x]).
Proof. unfold push_window. rewrite last_n_snoc by lia. done. Qed.

Lemma update_connection_rate_frame c m :
  errors (update_connection_rate c m) = errors m /\
  total_connections (connections (update_connection_rate c m)) = total_connections (connections m) /\
  active_connections (connections (update_connection_rate c m)) = active_connections (connections m) /\
  failed_connections (connections (update_connection_rate c m)) = failed_connections (connections m) /\
  total_bytes_transferred (connections (update_connection_rate c m)) = total_bytes_transferred (connections m) /\
  avg_connection_duration_ms (connections (update_connection_rate c m)) = avg_connection_duration_ms (connections m).
Proof. unfold update_connection_rate. by destruct (f_gt _ _). Qed.

Lemma update_network_throughput_frame c m :
  errors (update_network_throughput c m) = errors m /\ connections (update_network_throughput c m) = connections m.
Proof. unfold update_network_throughput. by destruct (f_gt _ _). Qed.

Lemma update_error_rate_frame c m :
  connections (update_error_rate c m) = connections m /\
  total_errors (errors (update_error_rate c m)) = total_errors (errors m) /\
  errors_by_type (errors (update_error_rate c m)) = errors_by_type (errors m) /\
  recent_errors (errors (update_error_rate c m)) = recent_errors (errors m).
Proof. unfold update_error_rate. by destruct (f_gt _ _). Qed.

(** The errors an event records, and its effect on the three totals. *)
Definition error_of (e : event) : option ErrorEvent :=
  match e with ErrorRecorded c ty msg ctx => Some (mkErrorEvent (system_time c) ty msg ctx) | _ => None end.

Lemma record_errors e m :
  let x := errors m in
  let x' := errors (record e m) in
  match error_of e with
  | Some ev =>
      total_errors x' = u64_add (total_errors x) 1 /\
      errors_by_type x' = <[error_type ev := u64_add (default 0 (errors_by_type x !! error_type ev)) 1]> (errors_by_type x) /\
      recent_errors x' = push_window (recent_errors x) ev
  | None => x' = x
  end.
Proof.
  destruct e; simpl; try done.
  - unfold record_connection_established. by rewrite (proj1 (update_connection_rate_frame _ _)).
  - unfold record_connection_failed. by rewrite (proj1 (update_connection_rate_frame _ _)).
  - unfold record_data_transfer. by rewrite (proj1 (update_network_throughput_frame _ _)).
  - unfold record_error. match goal with |- context [update_error_rate ?c ?x] =>
      destruct (update_error_rate_frame c x) as (_ & -> & -> & ->) end. done.
Qed.

Definition opened (e : event) : Z := match e with Established _ => 1 | _ => 0 end.
Definition failures (e : event) : Z := match e with FailedConnection _ => 1 | _ => 0 end.
Definition bytes_moved (e : event) : Z := match e with Transferred _ b _ => b | _ => 0 end.
Definition total_of (f : event -> Z) (es : list event) : Z := foldr Z.add 0 (map f es).

Lemma total_of_snoc f es e : total_of f (es ++ [e]) = total_of f es + f e.
Proof. unfold total_of. induction es as [|x es IH]; simpl in *; lia. Qed.

Lemma record_connections e m :
  let x := connections m in
  let x' := connections (record e m) in
  (total_connections x' = match e with Established _ => u64_add (total_connections x) 1 | _ => total_connections x end) /\
  (failed_connections x' = match e with FailedConnection _ => u64_add (failed_connections x) 1 | _ => failed_connections x end) /\
  (total_bytes_transferred x' =
     match e with Transferred _ b _ => u64_add (total_bytes_transferred x) b | _ => total_bytes_transferred x end) /\
  (active_connections x' =
     match e with
     | Established _ => u64_add (active_connections x) 1
     | Closed _ => if 0 <? active_connections x then active_connections x - 1 else active_connections x
     | _ => active_connections x
     end) /\
  (avg_connection_duration_ms x' =
     match e with
     | Closed d =>
         if 0 <? total_connections x
         then u64_add (wrap 64 (avg_connection_duration_ms x * (total_connections x - 1))) d / total_connections x
         else avg_connection_duration_ms x
     | _ => avg_connection_duration_ms x
     end).
Proof.
  destruct e; simpl; try done.
  - unfold record_connection_established.
    match goal with |- context [update_connection_rate ?c ?x] =>
      destruct (update_connection_rate_frame c x) as (_ & -> & -> & -> & -> & ->) end. done.
  - unfold record_connection_failed.
    match goal with |- context [update_connection_rate ?c ?x] =>
      destruct (update_connection_rate_frame c x) as (_ & -> & -> & -> & -> & ->) end. done.
  - unfold record_data_transfer. rewrite (proj2 (update_network_throughput_frame _ _)). done.
  - unfold record_error. rewrite (proj1 (update_error_rate_frame _ _)). done.
Qed.

Lemma run_snoc c es e : run c (es ++ [e]) = record e (run c es).
Proof. unfold run. by rewrite foldl_app. Qed.

Lemma u64_add_wrap a b : u64_add (wrap 64 a) b = wrap 64 (a + b).
Proof. apply wrap_add_l. Qed.

(** A counter that every event adds to. *)
Lemma counter_total c (get : ConnectionMetrics -> Z) f es :
  get (connections (new c)) = 0 ->
  (forall e m, get (connections (record e m)) = u64_add (get (connections m)) (f e) \/
               f e = 0 /\ get (connections (record e m)) = get (connections m)) ->
  get (connections (run c es)) = wrap 64 (total_of f es).
Proof.
  intros H0 Hf. induction es as [|e es IH] using rev_ind; [exact H0|].
  rewrite run_snoc, total_of_snoc. destruct (Hf e (run c es)) as [->|[-> ->]]; rewrite IH.
  - apply u64_add_wrap.
  - by rewrite Z.add_0_r.
Qed.

(** Every connection closes at most once, after it was opened. *)
Definition balance (e : event) : Z := match e with Established _ => 1 | Closed _ => -1 | _ => 0 end.
Definition balanced (es : list event) : Prop := forall n, 0 <= total_of balance (take n es).

Lemma balanced_snoc es e : balanced (es ++ [e]) -> balanced es /\ 0 <= total_of balance (es ++ [e]).
Proof.
  intros H. split.
  - intros n. destruct (decide (n <= length es)%nat).
    + specialize (H n). by rewrite take_app_le in H.
    + specialize (H (length es)). rewrite take_app_length in H. by rewrite take_ge by lia.
  - specialize (H (length (es ++ [e]))). by rewrite firstn_all in H.
Qed.

(** ** Properties *)

(** C39. The error log is exact: the total and every per-type counter count the
    errors recorded so far (modulo the width of [u64]), and the recent list is
    the last hundred of them in order, whatever else is recorded in between. *)
Theorem errors_accounted c es ty :
  let recorded := omap error_of es in
  let x := errors (run c es) in
  total_errors x = wrap 64 (Z.of_nat (length recorded)) /\
  default 0 (errors_by_type x !! ty) =
    wrap 64 (Z.of_nat (length (filter (fun ev => error_type ev = ty) recorded))) /\
  recent_errors x = last_n 100 recorded.
Proof.
  cbv zeta. induction es as [|e es (IHt & IHb & IHr)] using rev_ind; [done|].
  rewrite run_snoc, omap_app. pose proof (record_errors e (run c es)) as He. cbv zeta in He. simpl omap.
  destruct (error_of e) as [ev|]; [|rewrite He, app_nil_r; done].
  destruct He as (-> & -> & ->). rewrite IHt, IHr. split_and!.
  - rewrite u64_add_wrap, length_app. f_equal. simpl. lia.
  - rewrite filter_app, filter_cons, filter_nil, length_app. destruct (decide (error_type ev = ty)) as [<-|Hne].
    + rewrite lookup_insert_eq. simpl default at 1. rewrite IHb, u64_add_wrap. f_equal. simpl. lia.
    + rewrite lookup_insert_ne by done. simpl. by rewrite Nat.add_0_r.
  - apply push_window_last_n.
Qed.

(** The connection counters are exact: connections, failures and bytes are
    the sums of what was recorded, and as long as every close follows its open
    the gauge is the number of connections still open. *)
Theorem connections_accounted c es :
  let x := connections (run c es) in
  total_connections x = wrap 64 (total_of opened es) /\
  failed_connections x = wrap 64 (total_of failures es) /\
  total_bytes_transferred x = wrap 64 (total_of bytes_moved es) /\
  (balanced es -> Z.of_nat (length es) < 2 ^ 64 -> active_connections x = total_of balance es).
Proof.
  split_and!.
  - apply counter_total; [done|]. intros e m. rewrite (proj1 (record_connections e m)). destruct e; simpl; auto.
  - apply counter_total; [done|]. intros e m.
    rewrite (proj1 (proj2 (record_connections e m))). destruct e; simpl; auto.
  - apply counter_total; [done|]. intros e m.
    rewrite (proj1 (proj2 (proj2 (record_connections e m)))). destruct e; simpl; auto.
  - intros Hb Hl. induction es as [|e es IH] using rev_ind; [done|].
    apply balanced_snoc in Hb as [Hb He]. rewrite length_app in Hl. simpl in Hl.
    rewrite total_of_snoc in *. rewrite run_snoc.
    rewrite (proj1 (proj2 (proj2 (proj2 (record_connections e (run c es)))))), IH by (done || lia).
    specialize (Hb (length es)) as Hb'. rewrite firstn_all in Hb'.
    assert (total_of balance es <= Z.of_nat (length es)).
    { clear. unfold total_of. induction es as [|x es IH]; [done|]. simpl in *. destruct x; simpl; lia. }
    destruct e; simpl in *; rewrite ?Z.add_0_r; try done.
    + unfold u64_add. apply wrap_small. unfold in_u. lia.
    + destruct (Z.ltb_spec 0 (total_of balance es)); lia.
Qed.

(** The average duration is not one: a closed connection is averaged over
    all connections ever opened, so with [n] open the first to close, after [d]
    milliseconds, sets the average to [d / n] instead of [d]. *)
Theorem average_divides_by_opened c n d :
  (0 < n)%nat -> Z.of_nat n < 2 ^ 64 -> in_u 64 d ->
  avg_connection_duration_ms (connections (run c (replicate n (Established c) ++ [Closed d]))) = d / Z.of_nat n.
Proof.
  intros Hn Hb Hd. rewrite run_snoc.
  assert (total_connections (connections (run c (replicate n (Established c)))) = Z.of_nat n /\
          avg_connection_duration_ms (connections (run c (replicate n (Established c)))) = 0) as [Ht Ha].
  { clear Hn. induction n as [|n IH]; [done|]. rewrite replicate_S_end, run_snoc.
    destruct (record_connections (Established c) (run c (replicate n (Established c)))) as (-> & _ & _ & _ & ->).
    destruct IH as [-> ->]; [lia|]. split; [|done]. unfold u64_add. rewrite wrap_small; unfold in_u; lia. }
  destruct (record_connections (Closed d) (run c (replicate n (Established c)))) as (_ & _ & _ & _ & ->).
  rewrite Ht, Ha. rewrite (proj2 (Z.ltb_lt _ _)) by lia. simpl. unfold u64_add. by rewrite wrap_small.
Qed.

(** ** Machine types *)

#[export] Instance connection_metrics_typed : Typed ConnectionMetrics := fun x =>
  in_u 64 (total_connections x) /\ in_u 64 (active_connections x) /\ in_u 64 (failed_connections x) /\
  in_u 64 (avg_connection_duration_ms x) /\ in_u 64 (total_bytes_transferred x) /\
  in_u 64 (total_packets_transferred x).
#[export] Instance performance_typed : Typed PerformanceMetrics := fun x =>
  in_u 64 (memory_usage_bytes x) /\ in_u 64 (avg_response_time_ms x).
(** The two windows never hold more than a hundred entries. *)
#[export] Instance error_metrics_typed : Typed ErrorMetrics := fun x =>
  in_u 64 (total_errors x) /\ map_Forall (fun _ => in_u 64) (errors_by_type x) /\
  (length (recent_errors x) <= 100)%nat /\ (length (error_rate_trend x) <= 100)%nat.
#[export] Instance monitoring_typed : Typed MonitoringSystem := fun m =>
  typed (connections m) /\ typed (performance m) /\ typed (errors m) /\ in_u 64 (uptime_seconds (health m)).
#[export] Instance clock_typed : Typed Clock := fun c => in_u 64 (instant c).
#[export] Instance event_typed : Typed event := fun e =>
  match e with
  | Established c | FailedConnection c | Transferred c _ _ | ErrorRecorded c _ _ _ | MetricsUpdated c _ => typed c
  | Closed d => in_u 64 d
  end.

Lemma push_window_bound {A} (l : list A) x : (length l <= 100)%nat -> (length (push_window l x) <= 100)%nat.
Proof.
  intros H. unfold push_window. destruct (Nat.ltb_spec 100 (length (l ++ [x]))) as [Hl|]; [|done].
  destruct l as [|y l]; [simpl; lia|]. simpl in *. rewrite length_app. simpl. lia.
Qed.

Lemma with_connections_typed m x : typed m -> typed x -> typed (with_connections m x).
Proof. intros (_ & H) Hx. exact (conj Hx H). Qed.

Lemma with_performance_typed m x : typed m -> typed x -> typed (with_performance m x).
Proof. intros (H1 & _ & H) Hx. exact (conj H1 (conj Hx H)). Qed.

Lemma with_errors_typed m x : typed m -> typed x -> typed (with_errors m x).
Proof. intros (H1 & H2 & _ & H) Hx. exact (conj H1 (conj H2 (conj Hx H))). Qed.

(** The fields of a record, one by one. *)
Ltac fields :=
  repeat match goal with |- _ /\ _ => split end; simpl; auto with gsc.

Lemma connection_metrics_ok a b c d e f g :
  in_u 64 a -> in_u 64 b -> in_u 64 c -> in_u 64 e -> in_u 64 f -> in_u 64 g ->
  typed (mkConnectionMetrics a b c d e f g).
Proof. intros. unfold typed, connection_metrics_typed. fields. Qed.

Lemma error_metrics_ok a b c d :
  in_u 64 a -> map_Forall (fun _ => in_u 64) b -> (length c <= 100)%nat -> (length d <= 100)%nat ->
  typed (mkErrorMetrics a b c d).
Proof. intros. unfold typed, error_metrics_typed. fields. Qed.

Lemma update_connection_rate_typed c m : typed m -> typed (update_connection_rate c m).
Proof.
  intros Hm. unfold update_connection_rate. destruct (f_gt _ _); [|done].
  apply with_connections_typed; [done|]. destruct Hm as ((? & ? & ? & ? & ? & ?) & _). by apply connection_metrics_ok.
Qed.

Lemma update_network_throughput_typed c m : typed m -> typed (update_network_throughput c m).
Proof.
  intros Hm. unfold update_network_throughput. destruct (f_gt _ _); [|done].
  apply with_performance_typed; [done|]. exact (proj1 (proj2 Hm)).
Qed.

Lemma update_error_rate_typed c m : typed m -> typed (update_error_rate c m).
Proof.
  intros Hm. unfold update_error_rate. destruct (f_gt _ _); [|done].
  apply with_errors_typed; [done|]. destruct Hm as (_ & _ & (? & ? & ? & ?) & _).
  apply error_metrics_ok; try done. by apply push_window_bound.
Qed.

#[local] Hint Resolve with_connections_typed with_errors_typed connection_metrics_ok error_metrics_ok
  update_connection_rate_typed update_network_throughput_typed update_error_rate_typed push_window_bound : gsc.

Lemma uptime_in c m : in_u 64 (instant c) -> in_u 64 (start_time m) ->
  in_u 64 (sat_sub (instant c) (start_time m) / 10 ^ 9).
Proof. intros Hc [Hs _]. auto with gsc lia. Qed.

Lemma record_start e m : start_time (record e m) = start_time m.
Proof.
  destruct e; simpl; try done; unfold record_connection_established, record_connection_failed, record_data_transfer,
    record_error, update_connection_rate, update_network_throughput, update_error_rate; by destruct (f_gt _ _).
Qed.

Lemma record_typed e m : in_u 64 (start_time m) -> typed e -> typed m -> typed (record e m).
Proof.
  intros Hs He Hm. pose proof Hm as ((? & ? & ? & ? & ? & ?) & (? & ?) & (? & Hb & ? & ?) & Hu).
  destruct e as [c|d|c|c b p|c ty msg ctx|c rnd]; cbn [record].
  - unfold record_connection_established. auto 10 with gsc.
  - unfold record_connection_closed. apply with_connections_typed; [done|]. apply connection_metrics_ok; auto.
    + destruct (Z.ltb_spec 0 (active_connections (connections m))); [|done]. unfold in_u in *. lia.
    + destruct (Z.ltb_spec 0 (total_connections (connections m))); auto with gsc.
  - unfold record_connection_failed. auto 10 with gsc.
  - unfold record_data_transfer. auto 10 with gsc.
  - unfold record_error. apply update_error_rate_typed, with_errors_typed; [done|].
    apply error_metrics_ok; auto with gsc. apply map_Forall_insert_2; auto with gsc.
  - unfold update_performance_metrics, update_health_status. destruct Hm as (Hc & _ & Hx & _).
    split; [exact Hc|]. split; [split; [unfold get_memory_usage, in_u; simpl; lia|done]|]. split; [exact Hx|].
    by apply uptime_in.
Qed.

(** The monitoring state keeps its types and its size: whatever is recorded
    and whenever, every counter stays a [u64] (the subtraction of a closed
    connection included), and the two windows never exceed a hundred entries. *)
Theorem monitoring_state_typed c es : typed c -> Forall typed es -> typed (run c es).
Proof.
  intros Hc Hes. assert (in_u 64 (start_time (run c es)) /\ typed (run c es)) as [_ H]; [|exact H].
  induction es as [|e es IH] using rev_ind.
  - assert (in_u 64 0) as H0 by (apply zero_in; lia).
    split; [exact Hc|]. split; [by apply connection_metrics_ok|]. split; [by split|]. split; [|exact H0].
    apply error_metrics_ok; simpl; [exact H0|apply map_Forall_empty|lia..].
  - apply Forall_app in Hes as [Hes He]. apply Forall_inv in He. destruct (IH Hes) as [Hs Ht].
    rewrite run_snoc. split; [by rewrite record_start|by apply record_typed].
Qed.

(** ** Witnesses *)

Definition sample_clock : Clock := mkClock 0 1700000000.

Theorem average_divides_by_opened_witness :
  avg_connection_duration_ms (connections (run sample_clock (replicate 4 (Established sample_clock) ++ [Closed 1000]))) = 250.
Proof. apply (average_divides_by_opened sample_clock 4 1000); [lia|lia|unfold in_u; lia]. Defined.

Theorem connections_accounted_witness :
  active_connections (connections (run sample_clock [Established sample_clock; Established sample_clock; Closed 5])) = 1.
Proof.
  refine (proj2 (proj2 (proj2 (connections_accounted sample_clock
    [Established sample_clock; Established sample_clock; Closed 5]))) _ _); [|reflexivity].
  intros n. do 4 (destruct n as [|n]; [cbn; lia|]). cbn. lia.
Defined.

Theorem monitoring_state_typed_witness :
  typed (run sample_clock [Established sample_clock; Closed 5; Closed 7]).
Proof.
  apply monitoring_state_typed; repeat constructor; vm_compute; discriminate.
Defined.
