(* ===== verification/Crypto.v ===== *)
(** * Crypto: encryption keys and simulated connections (src/src/crypto/mod.rs)

    [EncryptionKey] around the AES-256-GCM of the ring crate, which is the class
    [Aead] with its laws, and the bookkeeping of [EncryptedConnection]. *)

From Stdlib Require Import Ascii String ZArith Lia SpecFloat.
From stdpp Require Import base strings list.
From S2P Require Import Prelude Text F64 Errors Config ConfigSpec.

(** ** The AEAD and the hash *)

(** [seal_in_place_append_tag] and [open_in_place]: key, nonce, associated
    data and text; failure is ring's one opaque error. *)
Class Aead := {
  seal : list byte -> list byte -> list byte -> list byte -> option (list byte);
  open : list byte -> list byte -> list byte -> list byte -> option (list byte);
  sha256 : list byte -> list byte }.

(** Sealing appends a 16-byte tag, and opening under the same key, nonce and
    associated data gives the sealed text back. *)
Class AeadLaws `{Aead} : Prop := {
  seal_length k n a p c : seal k n a p = Some c -> length c = (length p + 16)%nat;
  open_seal k n a p c : seal k n a p = Some c -> open k n a c = Some p }.

(** ** Keys *)

Record EncryptionKey := mkEncryptionKey { key : list byte; nonce_sequence : Z }.

Definition crypto_error {A} : Result A := Err (ReverseProxy (CryptoError "ring::error::Unspecified")).

Definition generate_nonce (k : EncryptionKey) : list byte :=
  replicate 4 (z_byte 0) ++ le_bytes 8 (nonce_sequence k).

Section Keys.
Context `{Aead}.

(** [generate], with its 32 random bytes *)
Definition generate (rnd : list byte) : EncryptionKey := mkEncryptionKey rnd 0.

Definition from_shared_secret (token config : list byte) : EncryptionKey :=
  mkEncryptionKey (sha256 (token ++ config)) 0.

Definition encrypt (k : EncryptionKey) (plaintext associated_data : list byte) : Result (list byte) :=
  let nonce := generate_nonce k in
  let ciphertext := plaintext ++ replicate 16 (z_byte 0) in
  match seal (key k) nonce associated_data ciphertext with
  | Some sealed => Ok sealed
  | None => crypto_error
  end.

Definition decrypt (k : EncryptionKey) (ciphertext associated_data : list byte) : Result (list byte) :=
  let nonce := generate_nonce k in
  match open (key k) nonce associated_data ciphertext with
  | Some plaintext => Ok plaintext
  | None => crypto_error
  end.
End Keys.

(** ** CPU capabilities *)

(** [cpu_features]; whether the processor offers AES is what
    [is_x86_feature_detected!] says on x86-64, and no elsewhere. *)
Module CpuFeatures.
Definition has_aes_ni (target_arch : string) (detected : bool) : bool :=
  String.eqb target_arch "x86_64" && detected.
Definition optimal_cipher_suite (aes_ni : bool) : string :=
  if aes_ni then "TLS_AES_256_GCM_SHA384 (AES-NI hardware acceleration)"
  else "TLS_AES_128_GCM_SHA256 (ChaCha20 fallback for ARM/no-AES)".
Definition optimal_algorithm (aes_ni : bool) : string :=
  if aes_ni then "AES-256-GCM-SIV (hardware accelerated)" else "ChaCha20-Poly1305 (software optimized)".
Definition get_performance_characteristics (aes_ni : bool) : f64 * f64 * string :=
  if aes_ni then (f_of_Z 305, f_of_Z 1300, "AES-NI hardware acceleration")
  else (f_of_Z 275, f_of_Z 1100, "software optimized").
End CpuFeatures.

(** ** Metrics and connections *)

Record EncryptionMetrics := mkEncryptionMetrics {
  handshakes_completed : Z;
  bytes_encrypted : Z;
  bytes_decrypted : Z;
  total_handshake_time_us : Z;
  cpu_utilization_percent : f64 }.

Definition default_metrics : EncryptionMetrics := mkEncryptionMetrics 0 0 0 0 (S754_zero false).

Definition throughput_mbps (m : EncryptionMetrics) (elapsed_time_ms : Z) : f64 :=
  if elapsed_time_ms =? 0 then S754_zero false
  else
    let total_bytes := u64_add (bytes_encrypted m) (bytes_decrypted m) in
    f_div (f_div (f_mul (f_of_Z total_bytes) (f_of_Z 8)) (f_div (f_of_Z elapsed_time_ms) (f_of_Z 1000)))
      (f_of_Z 1000000).

Definition handshake_rate (m : EncryptionMetrics) (elapsed_time_ms : Z) : f64 :=
  if elapsed_time_ms =? 0 then S754_zero false
  else f_div (f_of_Z (handshakes_completed m)) (f_div (f_of_Z elapsed_time_ms) (f_of_Z 1000)).

Definition avg_handshake_time_us (m : EncryptionMetrics) : Z :=
  if handshakes_completed m =? 0 then 0 else total_handshake_time_us m / handshakes_completed m.

Record EncryptedConnection := mkEncryptedConnection {
  conn_name : string;
  metrics : EncryptionMetrics;
  has_aes_ni : bool }.

(** [new], with what the CPU offers *)
Definition new (aes_ni : bool) (name : string) : EncryptedConnection :=
  mkEncryptedConnection name default_metrics aes_ni.

(** [&token[..8.min(token.len())]] panics inside a character. *)
Definition create_client_with_token (aes_ni : bool) (token : string) : outcome EncryptedConnection :=
  let '(head, rest) := split_at (Nat.min 8 (String.length token)) token in
  if is_char_boundary rest then Val (new aes_ni ("TLS-Client-" +:+ head)) else Panic.

Definition create_server_with_cert (aes_ni : bool) (cert_path : string) : EncryptedConnection :=
  new aes_ni ("TLS-Server-" +:+ default "unknown" (Path.file_stem cert_path)).

(** The pause of [simulate_handshake] in microseconds, for a random [u64]. *)
Definition handshake_latency (c : EncryptedConnection) (random : Z) : Z :=
  (if has_aes_ni c then 500 else 1200) + random mod 200.

(** [simulate_handshake], when [elapsed] microseconds went by. *)
Definition simulate_handshake (elapsed : Z) (c : EncryptedConnection) : EncryptedConnection :=
  let m := metrics c in
  mkEncryptedConnection (conn_name c)
    (mkEncryptionMetrics (u64_add (handshakes_completed m) 1) (bytes_encrypted m) (bytes_decrypted m)
       (u64_add (total_handshake_time_us m) (wrap 64 elapsed)) (cpu_utilization_percent m))
    (has_aes_ni c).

(** The pause of [simulate_data_transfer] in milliseconds. *)
Definition transfer_time (c : EncryptedConnection) (bytes : Z) : Z :=
  let throughput := if has_aes_ni c then f_of_Z 300 else f_of_Z 250 in
  f_to_u 64 (f_mul (f_div (f_mul (f_of_Z bytes) (f_of_Z 8)) (f_mul throughput (f_of_Z 1000000))) (f_of_Z 1000)).

Definition simulate_data_transfer (bytes : Z) (c : EncryptedConnection) : EncryptedConnection :=
  let m := metrics c in
  mkEncryptedConnection (conn_name c)
    (mkEncryptionMetrics (handshakes_completed m) (u64_add (bytes_encrypted m) bytes)
       (u64_add (bytes_decrypted m) bytes) (total_handshake_time_us m) (cpu_utilization_percent m))
    (has_aes_ni c).

(** ** The benchmarks

    The measurements are printed; [elapsed] is how long each handshake took. *)

(** The printed average divides the microseconds by [iterations]. *)
Definition benchmark_handshakes (aes_ni : bool) (elapsed : list Z) : outcome EncryptionMetrics :=
  let! conn := create_client_with_token aes_ni "benchmark" in
  let conn := foldl (fun c e => simulate_handshake e c) conn elapsed in
  match elapsed with
  | [] => Panic
  | _ => Val (metrics conn)
  end.

(** Both products are [usize]. *)
Definition benchmark_data_transfer (aes_ni : bool) (data_size_mb : Z) (iterations : nat)
  : outcome EncryptedConnection :=
  let! conn := create_client_with_token aes_ni "data-bench" in
  Val (foldl (fun c _ => simulate_data_transfer (wrap 64 (data_size_mb * 1024 * 1024)) c) conn (replicate iterations tt)).

(** ** Properties *)

(** Decryption does not undo encryption: the space [encrypt] reserves for the
    tag is sealed as part of the text, so a peer with the same key reads every
    message followed by sixteen zero bytes, and a ciphertext is 32 bytes longer
    than its message. *)
Theorem decrypt_returns_padded `{AeadLaws} k k' plaintext aad c :
  key k = key k' -> nonce_sequence k = nonce_sequence k' ->
  encrypt k plaintext aad = Ok c ->
  decrypt k' c aad = Ok (plaintext ++ replicate 16 (z_byte 0)) /\ length c = (length plaintext + 32)%nat.
Proof.
  intros Hk Hn He. unfold encrypt in He. destruct (seal _ _ _ _) as [s|] eqn:Hs; [|done]. injection He as ->.
  unfold decrypt, generate_nonce in *. rewrite <- Hk, <- Hn, (open_seal _ _ _ _ _ Hs). split; [done|].
  apply seal_length in Hs. rewrite length_app, length_replicate in Hs. lia.
Qed.

(** The nonce never changes: all messages under a key, and all keys derived
    from any shared secret, use the same one, so equal messages encrypt to equal
    ciphertexts. *)
Theorem nonce_is_constant `{Aead} token config token' config' plaintext aad :
  generate_nonce (from_shared_secret token config) = replicate 12 (z_byte 0) /\
  generate_nonce (from_shared_secret token config) = generate_nonce (from_shared_secret token' config') /\
  (token ++ config = token' ++ config' ->
   encrypt (from_shared_secret token config) plaintext aad = encrypt (from_shared_secret token' config') plaintext aad).
Proof.
  split; [reflexivity|]. split; [reflexivity|]. intros He. unfold from_shared_secret. by rewrite He.
Qed.

(** Naming a client after its token panics exactly when the eighth byte of the
    token is inside a character; never for ASCII. *)
Theorem client_name_panics_iff aes_ni token :
  (create_client_with_token aes_ni token = Panic <->
   is_char_boundary (split_at (Nat.min 8 (String.length token)) token).2 = false) /\
  (is_ascii token = true -> create_client_with_token aes_ni token <> Panic).
Proof.
  unfold create_client_with_token. pose proof (split_at_app (Nat.min 8 (String.length token)) token) as Ha.
  destruct (split_at _ token) as [h r]. simpl in *. split.
  - by destruct (is_char_boundary r).
  - intros Hasc. rewrite Ha in Hasc. rewrite all_chars_app, andb_true_iff in Hasc.
    destruct Hasc as [_ Hr]. destruct r as [|a r]; [done|]. simpl in *.
    apply andb_true_iff in Hr as [Hr%Z.ltb_lt _].
    rewrite (proj2 (Z.leb_gt 128 (char_z a))) by exact Hr. done.
Qed.

Lemma handshakes_counted es c :
  in_u 64 (handshakes_completed (metrics c)) -> in_u 64 (total_handshake_time_us (metrics c)) ->
  let m := metrics (foldl (fun c e => simulate_handshake e c) c es) in
  handshakes_completed m = wrap 64 (handshakes_completed (metrics c) + Z.of_nat (length es)) /\
  total_handshake_time_us m = wrap 64 (total_handshake_time_us (metrics c) + foldr Z.add 0 es).
Proof.
  revert c. induction es as [|e es IH]; intros c Hn Ht; cbn [foldl].
  - simpl. rewrite !Z.add_0_r, !wrap_small by done. done.
  - destruct (IH (simulate_handshake e c)) as [-> ->]; [apply u64_add_in..|]. simpl. unfold u64_add.
    rewrite !wrap_add_l. split; [f_equal; lia|].
    rewrite <- Z.add_assoc, (Z.add_comm (wrap 64 e)), Z.add_assoc, wrap_add_r. f_equal. lia.
Qed.

(** A benchmark of no handshakes panics in the division of its average; any
    other counts its handshakes and adds up their times. *)
Theorem benchmark_panics_on_zero aes_ni elapsed :
  (elapsed = [] -> benchmark_handshakes aes_ni elapsed = Panic) /\
  (elapsed <> [] -> exists m, benchmark_handshakes aes_ni elapsed = Val m /\
     handshakes_completed m = wrap 64 (Z.of_nat (length elapsed)) /\
     total_handshake_time_us m = wrap 64 (foldr Z.add 0 elapsed)).
Proof.
  assert (create_client_with_token aes_ni "benchmark" = Val (new aes_ni "TLS-Client-benchmar")) as Hc by done.
  unfold benchmark_handshakes. rewrite Hc. split; [by intros ->|]. intros Hne.
  destruct (handshakes_counted elapsed (new aes_ni "TLS-Client-benchmar")) as [H1 H2]; [apply zero_in; lia..|].
  destruct elapsed as [|e es]; [done|]. eexists. split; [done|]. by rewrite H1, H2.
Qed.

(** ** Witnesses *)

(** A toy cipher that satisfies the laws: a checksum-free tag of zeros. *)
Definition pad_seal (k n a p : list byte) : option (list byte) := Some (p ++ replicate 16 (z_byte 7)).
Definition pad_open (k n a c : list byte) : option (list byte) := Some (take (length c - 16) c).

#[local] Instance pad_aead : Aead := {| seal := pad_seal; open := pad_open; sha256 := fun x => x |}.
#[local] Instance pad_laws : AeadLaws.
Proof.
  constructor; unfold seal, open, pad_aead, pad_seal, pad_open; intros k n a p c; intros [= <-].
  - by rewrite length_app.
  - f_equal. rewrite length_app. change (length (_ ++ _)) with (length p + 16)%nat. rewrite Nat.add_sub. by rewrite take_app_length.
Qed.

Theorem decrypt_returns_padded_witness :
  decrypt (generate [z_byte 1]) (map z_byte [1; 2] ++ replicate 16 (z_byte 0) ++ replicate 16 (z_byte 7)) [] =
  Ok (map z_byte [1; 2] ++ replicate 16 (z_byte 0)).
Proof.
  refine (proj1 (decrypt_returns_padded (generate [z_byte 1]) (generate [z_byte 1]) (map z_byte [1; 2]) []
    (map z_byte [1; 2] ++ replicate 16 (z_byte 0) ++ replicate 16 (z_byte 7)) _ _ _)); reflexivity.
Defined.
