(* ===== verification/StreamCipher.v ===== *)
(** * StreamCipher: the encrypted stream and its handshake
    (src/src/crypto/stream_cipher.rs, handshake.rs)

    [EncryptedStream] frames every message as nonce length, nonce, text length
    and sealed text over the byte streams of Stream, with the keys of Crypto.
    Neither file is part of the module tree: stream_cipher.rs names an error
    variant [ReverseProxyError::IoError] that error/types.rs does not have, so
    the errors of the stream are a type of their own here. *)

From Stdlib Require Import Ascii String ZArith Lia SpecFloat.
From stdpp Require Import base strings list.
From S2P Require Import Prelude Text F64 Errors Stream Crypto.

(** [ReverseProxyError::IoError] and [CryptoError]. *)
Inductive StreamError : Type := IoFailure (e : IoError) | CryptoFailure (s : string).
Abbreviation SResult A := (result A StreamError).

Record EncryptedStream := mkEncryptedStream {
  input : Reader;
  output : Writer;
  encryption_key : EncryptionKey;
  read_buffer : list byte;
  read_pos : nat;
  read_len : nat;
  message_counter : Z }.

Definition new_stream (input : Reader) (output : Writer) (k : EncryptionKey) : EncryptedStream :=
  mkEncryptedStream input output k [] 0 0 0.

Definition with_output (w : Writer) (s : EncryptedStream) : EncryptedStream :=
  mkEncryptedStream (input s) w (encryption_key s) (read_buffer s) (read_pos s) (read_len s) (message_counter s).
Definition with_input (r : Reader) (s : EncryptedStream) : EncryptedStream :=
  mkEncryptedStream r (output s) (encryption_key s) (read_buffer s) (read_pos s) (read_len s) (message_counter s).

(** The counter and four random bytes. *)
Definition stream_nonce (rnd : list byte) (s : EncryptedStream) : list byte :=
  le_bytes 8 (message_counter s) ++ take 4 rnd.

Definition create_associated_data (nonce : list byte) (s : EncryptedStream) : list byte :=
  le_bytes 8 (message_counter s) ++ nonce.

(** ** Sending *)

(** One [write_all(..).await.map_err(..)?] after another. *)
Fixpoint write_parts (parts : list (list byte)) (w : Writer) : SResult unit * Writer :=
  match parts with
  | [] => let '(r, w) := flush w in (map_err IoFailure r, w)
  | bs :: parts =>
      match write_all bs w with
      | (Err e, w) => (Err (IoFailure e), w)
      | (Ok _, w) => write_parts parts w
      end
  end.

(** Four big-endian bytes of a length [as u32]. *)
Definition len_bytes (bs : list byte) : list byte := be_bytes 4 (wrap 32 (Z.of_nat (length bs))).

Definition write_message (nonce encrypted_data : list byte) (s : EncryptedStream)
  : SResult unit * EncryptedStream :=
  match write_parts [len_bytes nonce; nonce; len_bytes encrypted_data; encrypted_data] (output s) with
  | (Err e, w) => (Err e, with_output w s)
  | (Ok _, w) =>
      (Ok tt, mkEncryptedStream (input s) w (encryption_key s) (read_buffer s) (read_pos s) (read_len s)
                (u64_add (message_counter s) 1))
  end.

Section WithAead.
Context `{Aead}.

Definition encrypt_send (rnd data : list byte) (s : EncryptedStream) : SResult unit * EncryptedStream :=
  let nonce := stream_nonce rnd s in
  match encrypt (encryption_key s) data (create_associated_data nonce s) with
  | Err e => (Err (CryptoFailure (show_AppError e)), s)
  | Ok encrypted_data => write_message nonce encrypted_data s
  end.

Definition send_control_message (rnd : list byte) (message_type : byte) (payload : list byte)
    (s : EncryptedStream) : SResult unit * EncryptedStream :=
  encrypt_send rnd (message_type :: payload) s.

(** [poll_write]; the error keeps its text only. *)
Definition show_StreamError (e : StreamError) : string :=
  match e with
  | IoFailure e => io_text e
  | CryptoFailure s => show_AppError (ReverseProxy (CryptoError s))
  end.
Definition poll_write (rnd buf : list byte) (s : EncryptedStream) : result nat IoError * EncryptedStream :=
  match encrypt_send rnd buf s with
  | (Ok _, s) => (Ok (length buf), s)
  | (Err e, s) => (Err (mkIoError OtherKind (show_StreamError e)), s)
  end.

(** ** Receiving *)

(** A 32-bit length and that many bytes. *)
Definition read_block (r : Reader) : result (list byte) IoError * Reader :=
  match read_exact 4 r with
  | (Err e, r) => (Err e, r)
  | (Ok len, r) => read_exact (Z.to_nat (be_value len)) r
  end.

Definition fill_read_buffer (s : EncryptedStream) : SResult unit * EncryptedStream :=
  match read_block (input s) with
  | (Err e, r) => (Err (IoFailure e), with_input r s)
  | (Ok nonce, r) =>
      match read_block r with
      | (Err e, r) => (Err (IoFailure e), with_input r s)
      | (Ok encrypted_data, r) =>
          match decrypt (encryption_key s) encrypted_data (create_associated_data nonce s) with
          | Err e => (Err (CryptoFailure (show_AppError e)), with_input r s)
          | Ok data =>
              (Ok tt, mkEncryptedStream r (output s) (encryption_key s) data 0 (length data) (message_counter s))
          end
      end
  end.

(** The bytes copied into a buffer of [len] bytes. *)
Definition decrypt_receive (len : nat) (s : EncryptedStream) : SResult (list byte) * EncryptedStream :=
  let copy s :=
    let to_copy := Nat.min (read_len s - read_pos s) len in
    (Ok (take to_copy (drop (read_pos s) (read_buffer s))),
     mkEncryptedStream (input s) (output s) (encryption_key s) (read_buffer s) (read_pos s + to_copy)
       (read_len s) (message_counter s)) in
  if (read_len s <=? read_pos s)%nat then
    match fill_read_buffer s with
    | (Err e, s) => (Err e, s)
    | (Ok _, s) => copy s
    end
  else copy s.

Definition poll_read (len : nat) (s : EncryptedStream) : result (list byte) IoError * EncryptedStream :=
  let '(r, s) := decrypt_receive len s in
  (map_err (fun e => mkIoError OtherKind (show_StreamError e)) r, s).

(** The loop of [receive_control_message]; [None]: the rounds are used up. *)
Fixpoint receive_payload (rounds : nat) (payload : list byte) (s : EncryptedStream)
  : option (SResult (list byte)) * EncryptedStream :=
  match rounds with
  | O => (None, s)
  | S rounds =>
      match decrypt_receive 4096 s with
      | (Err e, s) => (Some (Err e), s)
      | (Ok [], s) => (Some (Ok payload), s)
      | (Ok bytes, s) => receive_payload rounds (payload ++ bytes) s
      end
  end.

(** A first byte that was not read stays 0. *)
Definition receive_control_message (rounds : nat) (s : EncryptedStream)
  : option (SResult (byte * list byte)) * EncryptedStream :=
  match decrypt_receive 1 s with
  | (Err e, s) => (Some (Err e), s)
  | (Ok header, s) =>
      let '(r, s) := receive_payload rounds [] s in
      (map_ok (fun payload => (default (z_byte 0) (head header), payload)) <$> r, s)
  end.

(** ** Metrics and the handshake *)

Record StreamMetrics := mkStreamMetrics {
  messages_encrypted : Z;
  messages_decrypted : Z;
  sm_bytes_encrypted : Z;
  sm_bytes_decrypted : Z;
  encryption_time_ms : Z;
  decryption_time_ms : Z;
  sm_cpu_utilization_percent : f64 }.

Definition new_metrics : StreamMetrics := mkStreamMetrics 0 0 0 0 0 0 (S754_zero false).

Definition stream_throughput_mbps (m : StreamMetrics) : f64 :=
  let total_bytes := u64_add (sm_bytes_encrypted m) (sm_bytes_decrypted m) in
  let total_time_ms := u64_add (encryption_time_ms m) (decryption_time_ms m) in
  if total_time_ms =? 0 then S754_zero false
  else f_div (f_div (f_mul (f_of_Z total_bytes) (f_of_Z 8)) (f_div (f_of_Z total_time_ms) (f_of_Z 1000)))
         (f_of_Z 1000000).

Record HandshakeResult := mkHandshakeResult {
  hr_encryption_key : EncryptionKey;
  session_id : string;
  algorithm_used : string;
  supports_aes_ni : bool;
  handshake_time_ms : Z }.

Record ClientHandshake := mkClientHandshake { hs_auth_token : string; hs_config_hash : string }.

(** [perform_handshake], with the clock, a random [u32], what the CPU offers and
    the time it took. *)
Definition perform_handshake (c : ClientHandshake) (now_secs random : Z) (aes_ni : bool) (elapsed_ms : Z)
  : HandshakeResult :=
  mkHandshakeResult (from_shared_secret (bytes_of (hs_auth_token c)) (bytes_of (hs_config_hash c)))
    ("session_" +:+ show_dec now_secs +:+ "_" +:+ show_dec random)
    (CpuFeatures.optimal_algorithm aes_ni) aes_ni (wrap 64 elapsed_ms).
End WithAead.

(** ** Lemmas *)

(** What one message looks like on the wire. *)
Definition frame (nonce sealed : list byte) : list byte :=
  len_bytes nonce ++ nonce ++ len_bytes sealed ++ sealed.

Definition fits (bs : list byte) : Prop := Z.of_nat (length bs) < 2 ^ 32.

Lemma read_block_frame bs rest f :
  fits bs -> read_block (mkReader (len_bytes bs ++ bs ++ rest) f) = (Ok bs, mkReader rest f).
Proof.
  intros Hb. unfold read_block.
  assert (length (len_bytes bs) = 4%nat) as Hl by (unfold len_bytes; apply length_be_bytes).
  replace 4%nat with (length (len_bytes bs)) by done. rewrite read_exact_app.
  unfold len_bytes. rewrite wrap_small, be_value_bytes_small, Nat2Z.id by (unfold fits, in_u in *; lia).
  apply read_exact_app.
Qed.

Lemma write_parts_flushed parts w :
  wr_room w = None ->
  exists w', write_parts parts w = (Ok tt, w') /\ wr_out w' = wr_out w ++ concat parts /\ wr_room w' = None.
Proof.
  revert w. induction parts as [|bs parts IH]; intros w Hw; simpl.
  - eexists. split; [done|]. simpl. by rewrite app_nil_r.
  - unfold write_all. rewrite Hw. destruct (IH (mkWriter (wr_out w ++ bs) None (wr_err w) (wr_flushed w)))
      as (w' & H1 & H2 & H3); [done|].
    exists w'. split; [done|]. split; [|done]. rewrite H2. simpl. by rewrite (assoc_L (++)).
Qed.

Lemma nonce_fits (n : list byte) : length n = 12%nat -> fits n.
Proof. unfold fits. by intros ->. Qed.

Section Frames.
Context `{AeadLaws}.

Lemma encrypt_send_frame rnd data s c :
  wr_room (output s) = None ->
  encrypt (encryption_key s) data (create_associated_data (stream_nonce rnd s) s) = Ok c ->
  exists s', encrypt_send rnd data s = (Ok tt, s') /\
    wr_out (output s') = wr_out (output s) ++ frame (stream_nonce rnd s) c /\ wr_room (output s') = None /\
    encryption_key s' = encryption_key s /\ message_counter s' = u64_add (message_counter s) 1.
Proof.
  intros Hw He. unfold encrypt_send. rewrite He. unfold write_message.
  destruct (write_parts_flushed [len_bytes (stream_nonce rnd s); stream_nonce rnd s; len_bytes c; c] (output s) Hw)
    as (w & -> & Ho & Hr).
  eexists. split; [done|]. split; [|done]. simpl. rewrite Ho. unfold frame. simpl. by rewrite app_nil_r.
Qed.

(** Filling depends on the input, the key and the counter only. *)
Lemma fill_read_buffer_same s s' :
  input s = input s' -> encryption_key s = encryption_key s' -> message_counter s = message_counter s' ->
  fst (fill_read_buffer s) = fst (fill_read_buffer s').
Proof.
  intros H1 H2 H3. unfold fill_read_buffer, create_associated_data. rewrite H1, H2, H3.
  destruct (read_block (input s')) as [[nonce|e] r]; [|done].
  destruct (read_block r) as [[c|e] r']; [|done]. by destruct (decrypt _ _ _).
Qed.

Lemma fill_read_buffer_frame s nonce c rest f :
  fits nonce -> fits c -> input s = mkReader (frame nonce c ++ rest) f ->
  fill_read_buffer s =
  match decrypt (encryption_key s) c (create_associated_data nonce s) with
  | Err e => (Err (CryptoFailure (show_AppError e)), with_input (mkReader rest f) s)
  | Ok data =>
      (Ok tt, mkEncryptedStream (mkReader rest f) (output s) (encryption_key s) data 0 (length data) (message_counter s))
  end.
Proof.
  intros Hn Hc Hi. unfold fill_read_buffer. rewrite Hi. unfold frame. rewrite <- !(assoc_L (++)).
  rewrite read_block_frame by done. by rewrite read_block_frame.
Qed.

(** A buffer that is not drained is copied from, without reading. *)
Lemma decrypt_receive_buffered len s :
  (read_pos s < read_len s)%nat -> (0 < len)%nat ->
  exists n, (0 < n)%nat /\
  decrypt_receive len s =
    (Ok (take n (drop (read_pos s) (read_buffer s))),
     mkEncryptedStream (input s) (output s) (encryption_key s) (read_buffer s) (read_pos s + n) (read_len s)
       (message_counter s)) /\
  (read_pos s + n <= read_len s)%nat.
Proof.
  intros Hp Hl. exists (Nat.min (read_len s - read_pos s) len). unfold decrypt_receive.
  rewrite (proj2 (Nat.leb_gt _ _) Hp). split; [lia|]. split; [done|]. lia.
Qed.

Lemma decrypt_receive_fails len s e :
  (read_len s <= read_pos s)%nat -> fst (fill_read_buffer s) = Err e -> fst (decrypt_receive len s) = Err e.
Proof.
  intros Hp He. unfold decrypt_receive. rewrite (proj2 (Nat.leb_le _ _) Hp).
  destruct (fill_read_buffer s) as [[]]; simpl in *; congruence.
Qed.

(** A payload loop whose next fill fails fails with it, whatever is buffered. *)
Lemma receive_payload_fails rounds payload s e :
  length (read_buffer s) = read_len s -> fst (fill_read_buffer s) = Err e ->
  (forall x, fst (receive_payload rounds payload s) <> Some (Ok x)) /\
  ((read_len s - read_pos s < rounds)%nat -> fst (receive_payload rounds payload s) = Some (Err e)).
Proof.
  revert payload s. induction rounds as [|rounds IH]; intros payload s Hb He; [split; [done|lia]|].
  destruct (decide (read_len s <= read_pos s)%nat) as [Hp|Hp].
  - pose proof (decrypt_receive_fails 4096 s e Hp He) as Hd. cbn [receive_payload].
    destruct (decrypt_receive 4096 s) as [r s']. simpl in Hd. rewrite Hd. by split.
  - destruct (decrypt_receive_buffered 4096 s) as (n & Hn & Hd & Hle); [lia|lia|].
    cbn [receive_payload]. rewrite Hd.
    destruct (take n (drop (read_pos s) (read_buffer s))) as [|b bs] eqn:Ht.
    { apply (f_equal length) in Ht. rewrite length_take, length_drop in Ht. simpl in Ht. lia. }
    edestruct (IH (payload ++ b :: bs)) as [H1 H2]; [| |split; [exact H1|]].
    + exact Hb.
    + rewrite <- He. by apply fill_read_buffer_same.
    + simpl in *. intros Hr. apply H2. lia.
Qed.
End Frames.

(** Associated data is authenticated: a text sealed under one counter does not
    open under another. *)
Class AeadAuthentic `{Aead} : Prop := {
  open_other_counter k n rest c c' p t :
    in_u 64 c -> in_u 64 c' -> c <> c' ->
    seal k n (le_bytes 8 c ++ rest) p = Some t -> open k n (le_bytes 8 c' ++ rest) t = None }.

(** Messages one after the other, each with its random bytes; the errors of the
    calls are the caller's to look at. *)
Definition send_all `{Aead} (msgs : list (list byte * list byte)) (s : EncryptedStream) : EncryptedStream :=
  foldl (fun s m => snd (encrypt_send m.1 m.2 s)) s msgs.

Definition padding : list byte := replicate 16 (z_byte 0).

Section Properties.
Context `{AeadLaws} `{!AeadAuthentic}.

(** A message that can be sealed and framed. *)
Definition sendable (k : EncryptionKey) (m : list byte * list byte) : Prop :=
  length m.1 = 4%nat /\ Z.of_nat (length m.2) + 32 < 2 ^ 32 /\
  forall ad, is_ok (encrypt k m.2 ad) = true.

Lemma decrypt_encrypt k data ad c : encrypt k data ad = Ok c -> decrypt k c ad = Ok (data ++ padding).
Proof.
  unfold encrypt, decrypt. destruct (seal _ _ _ _) eqn:Hs; [|done]. intros [= <-].
  by rewrite (open_seal _ _ _ _ _ Hs).
Qed.

Lemma encrypt_length k data ad c : encrypt k data ad = Ok c -> length c = (length data + 32)%nat.
Proof.
  unfold encrypt. destruct (seal _ _ _ _) eqn:Hs; [|done]. intros [= <-]. apply seal_length in Hs.
  rewrite Hs, length_app, length_replicate. lia.
Qed.

(** The frame a sender with counter [c] puts on the wire. *)
Lemma send_one k s m :
  sendable k m -> wr_room (output s) = None -> encryption_key s = k ->
  exists nonce c, length nonce = 12%nat /\ fits c /\
    encrypt k m.2 (le_bytes 8 (message_counter s) ++ nonce) = Ok c /\
    let s' := snd (encrypt_send m.1 m.2 s) in
    wr_out (output s') = wr_out (output s) ++ frame nonce c /\ wr_room (output s') = None /\
    encryption_key s' = k /\ message_counter s' = u64_add (message_counter s) 1.
Proof.
  intros (Hrnd & Hlen & Hok) Hw Hk.
  specialize (Hok (create_associated_data (stream_nonce m.1 s) s)).
  destruct (encrypt k m.2 (create_associated_data (stream_nonce m.1 s) s)) as [c|] eqn:He; [|done].
  exists (stream_nonce m.1 s), c. split.
  { unfold stream_nonce. rewrite length_app, length_le_bytes, length_take. lia. }
  split; [unfold fits; rewrite (encrypt_length _ _ _ _ He); lia|]. split; [done|].
  rewrite <- Hk in He. destruct (encrypt_send_frame m.1 m.2 s c Hw He) as (s' & -> & Ho & Hr & Hk' & Hc).
  simpl. by rewrite Hk'.
Qed.

Lemma send_all_appends k msgs s :
  Forall (sendable k) msgs -> wr_room (output s) = None -> encryption_key s = k ->
  exists tail, wr_out (output (send_all msgs s)) = wr_out (output s) ++ tail.
Proof.
  intros Hm. revert s. induction Hm as [|m msgs Hs _ IH]; intros s Hw Hk.
  - exists []. by rewrite app_nil_r.
  - destruct (send_one k s m Hs Hw Hk) as (n & c & _ & _ & _ & Ho & Hr & Hk' & _).
    destruct (IH _ Hr Hk') as [tail Ht]. exists (frame n c ++ tail).
    unfold send_all in *. cbn [foldl]. by rewrite Ht, Ho, (assoc_L (++)).
Qed.

(** A receiver whose counter is 0 on a frame sealed under another counter. *)
Lemma fill_wrong_counter s nonce c data counter rest f :
  length nonce = 12%nat -> fits c -> in_u 64 counter -> counter <> 0 -> message_counter s = 0 ->
  encrypt (encryption_key s) data (le_bytes 8 counter ++ nonce) = Ok c ->
  input s = mkReader (frame nonce c ++ rest) f ->
  exists e, fst (fill_read_buffer s) = Err (CryptoFailure e).
Proof.
  intros Hn Hc Hu Hnz Hm He Hi. rewrite (fill_read_buffer_frame s nonce c rest f) by (done || by apply nonce_fits).
  unfold create_associated_data. rewrite Hm. unfold encrypt, decrypt in *.
  destruct (seal _ _ _ _) as [t|] eqn:Hs; [|done]. injection He as ->.
  rewrite (open_other_counter _ _ nonce counter 0 _ _ Hu ltac:(apply zero_in; lia) Hnz Hs).
  by eexists.
Qed.

(** Behind the first message a reader finds the end or a text it cannot open. *)
Lemma next_fill_fails k msgs s :
  Forall (sendable k) msgs -> wr_room (output s) = None -> encryption_key s = k -> message_counter s = u64_add 0 1 ->
  exists rest, wr_out (output (send_all msgs s)) = wr_out (output s) ++ rest /\
    forall r, input r = mkReader rest None -> encryption_key r = k -> message_counter r = 0 ->
    exists e, fst (fill_read_buffer r) = Err e.
Proof.
  intros Hm Hw Hk Hc. destruct Hm as [|m msgs Hm Hms].
  - exists []. split; [by rewrite app_nil_r|]. intros r Hi _ _.
    exists (IoFailure unexpected_eof). unfold fill_read_buffer. by rewrite Hi.
  - destruct (send_one k s m Hm Hw Hk) as (n & c & Ln & Fc & E & O & R & K & _).
    destruct (send_all_appends k msgs (snd (encrypt_send m.1 m.2 s)) Hms R K) as [rest Hrest].
    exists (frame n c ++ rest). split.
    { change (send_all (m :: msgs) s) with (send_all msgs (snd (encrypt_send m.1 m.2 s))).
      by rewrite Hrest, O, <- (assoc_L (++)). }
    intros r Hi Hkr Hr. destruct (fill_wrong_counter r n c m.2 1 rest None) as [e He]; try done.
    + rewrite Hkr. change 1 with (u64_add 0 1). rewrite <- Hc. exact E.
    + by exists (CryptoFailure e).
Qed.


(** [receive_control_message] never returns a message: its loop only ends when
    nothing is left to read, and then it reads again; at the end of the stream
    that is an I/O error, and with another message behind it one of decryption.
    Enough rounds always end the loop. *)
Theorem control_messages_never_received s :
  read_buffer s = [] -> read_len s = 0%nat -> read_pos s = 0%nat -> message_counter s = 0 ->
  forall m msgs, Forall (sendable (encryption_key s)) (m :: msgs) ->
  rd_fail (input s) = None ->
  rd_data (input s) = wr_out (output (send_all (m :: msgs) (new_stream (reader_of []) open_writer (encryption_key s)))) ->
  (forall rounds x, fst (receive_control_message rounds s) <> Some (Ok x)) /\
  exists e, forall rounds, (length m.2 + 16 <= rounds)%nat ->
    fst (receive_control_message rounds s) = Some (Err e).
Proof.
  intros Hb Hl Hp Hc m msgs Hm Hf Hd. apply Forall_cons in Hm as [Hm1 Hms]. set (k := encryption_key s) in *.
  set (s0 := new_stream (reader_of []) open_writer k) in *.
  destruct (send_one k s0 m Hm1 eq_refl eq_refl) as (n1 & c1 & Ln1 & Fc1 & E1 & O1 & R1 & K1 & C1).
  change (send_all (m :: msgs) s0) with (send_all msgs (snd (encrypt_send m.1 m.2 s0))) in Hd.
  set (s1 := snd (encrypt_send m.1 m.2 s0)) in *.
  destruct (next_fill_fails k msgs s1 Hms R1 K1 C1) as (rest & Hrest & Hnext). rewrite O1 in Hrest.
  change (wr_out (output s0)) with (@nil byte) in Hrest. cbn [app] in Hrest.
  assert (Hfill : fill_read_buffer s = (Ok tt,
    mkEncryptedStream (mkReader rest None) (output s) k (m.2 ++ padding) 0 (length (m.2 ++ padding)) 0)).
  { rewrite (fill_read_buffer_frame s n1 c1 rest None);
      [|by apply nonce_fits|done|destruct (input s); simpl in *; congruence].
    unfold create_associated_data. rewrite Hc. fold k. change (message_counter s0) with 0 in E1.
    by rewrite (decrypt_encrypt _ _ _ _ E1). }
  assert (exists r x, decrypt_receive 1 s = (Ok x, r) /\ input r = mkReader rest None /\ encryption_key r = k /\
    message_counter r = 0 /\ length (read_buffer r) = read_len r /\ (read_len r - read_pos r < length m.2 + 16)%nat)
    as (r & x & Hr & Hi & Hk & Hcr & Hlen & Hrem).
  { unfold decrypt_receive. rewrite Hl, Hp. cbv [Nat.leb]. rewrite Hfill. eexists _, _. split; [reflexivity|].
    cbn [read_len read_pos read_buffer input output encryption_key message_counter].
    rewrite length_app. change (length padding) with 16%nat. split_and!; try done. lia. }
  destruct (Hnext r Hi Hk Hcr) as [e He]. split.
  - intros rounds y. unfold receive_control_message. rewrite Hr.
    destruct (receive_payload_fails rounds [] r e Hlen He) as [Hno _].
    destruct (receive_payload rounds [] r) as [[[p|]|] r']; simpl in *; try done. by specialize (Hno p).
  - exists e. intros rounds Hrounds. unfold receive_control_message. rewrite Hr.
    destruct (receive_payload_fails rounds [] r e Hlen He) as [_ Herr]. specialize (Herr ltac:(lia)).
    destruct (receive_payload rounds [] r) as [y r']. simpl in Herr. by subst y.
Qed.
End Properties.

(** ** Witnesses *)

(** A toy cipher whose tag carries the counter. *)
Definition tag_of (a : list byte) : list byte := take 8 a ++ replicate (16 - length (take 8 a)) (z_byte 0).
#[local] Instance byte_dec : EqDecision byte := Byte.byte_eq_dec.
Definition tag_seal (k n a p : list byte) : option (list byte) := Some (p ++ tag_of a).
Definition tag_open (k n a c : list byte) : option (list byte) :=
  if decide (drop (length c - 16) c = tag_of a) then Some (take (length c - 16) c) else None.

#[local] Instance tag_aead : Aead := {| seal := tag_seal; open := tag_open; sha256 := fun x => x |}.

Lemma tag_length a : length (tag_of a) = 16%nat.
Proof. unfold tag_of. rewrite length_app, length_replicate, length_take. lia. Qed.

#[local] Instance tag_laws : AeadLaws.
Proof.
  constructor; intros k n a p c; simpl; unfold tag_seal, tag_open; intros [= <-].
  - by rewrite length_app, tag_length.
  - rewrite length_app, tag_length, Nat.add_sub, drop_app_length, take_app_length. by rewrite decide_True.
Qed.

Lemma tag_counter c c' rest :
  in_u 64 c -> in_u 64 c' -> tag_of (le_bytes 8 c ++ rest) = tag_of (le_bytes 8 c' ++ rest) -> c = c'.
Proof.
  intros Hc Hc' He. unfold tag_of in He.
  rewrite !(take_app_length' _ _ 8) in He by (by rewrite length_le_bytes). rewrite !length_le_bytes in He.
  apply app_inv_tail, (f_equal le_value) in He. rewrite !le_value_bytes in He.
  by rewrite !wrap_small in He.
Qed.

#[local] Instance tag_authentic : AeadAuthentic.
Proof.
  constructor. intros k n rest c c' p t Hc Hc' Hne Ht. cbn [seal open tag_aead] in *.
  apply Some_inj in Ht as <-. unfold tag_open.
  rewrite length_app, tag_length, Nat.add_sub, drop_app_length, decide_False; [done|].
  by intros He%tag_counter.
Qed.

Definition sample_msgs : list (list byte * list byte) :=
  [(replicate 4 (z_byte 1), map z_byte [5; 6]); (replicate 4 (z_byte 2), [z_byte 7])].

Lemma sample_msgs_sendable k : Forall (sendable k) sample_msgs.
Proof. repeat constructor. Qed.


Theorem control_messages_never_received_witness :
  let sent := send_all sample_msgs (new_stream (reader_of []) open_writer (generate [])) in
  let receiver := new_stream (reader_of (wr_out (output sent))) open_writer (generate []) in
  forall x, fst (receive_control_message 30 receiver) <> Some (Ok x).
Proof.
  intros sent receiver.
  exact (proj1 (control_messages_never_received receiver eq_refl eq_refl eq_refl eq_refl
    (replicate 4 (z_byte 1), map z_byte [5; 6]) [(replicate 4 (z_byte 2), [z_byte 7])] (sample_msgs_sendable _)
    eq_refl eq_refl) 30%nat).
Defined.
