(* ===== verification/Service.v ===== *)
(** * Service: installing and controlling the system service
    (src/src/service/manager.rs, cli.rs)

    [GscFqServiceManager] drives the service_manager crate, which is the class
    [ServiceManager] over the state of the operating system; nothing is assumed of
    it, as the crate is not even among the dependencies.  The module is not
    declared in lib.rs. *)

From Stdlib Require Import Ascii String ZArith Lia.
From stdpp Require Import base gmap strings list.
From S2P Require Import Prelude Text Errors Config.

(** ** The service_manager crate *)

(** Not found, or anything else with its text. *)
Inductive ServiceError : Type := ServiceNotFound | OtherServiceError (text : string).

Record ServiceConfig := mkServiceConfig {
  sc_name : string;
  display_name : string;
  description : option string;
  exec_path : string;
  sc_args : list string;
  working_dir : string;
  environment : list (string * string);
  autostart : bool;
  stdout : option string;
  stderr : option string }.

(** [status] tells whether the service is active. *)
Class ServiceManager := {
  os : Type;
  sm_install : ServiceConfig -> os -> result unit string * os;
  sm_remove : string -> os -> result unit string * os;
  sm_start : string -> os -> result unit string * os;
  sm_stop : string -> os -> result unit string * os;
  sm_status : string -> os -> result bool ServiceError }.

(** ** [GscFqServiceManager] *)

Definition SERVICE_NAME : string := "gsc-fq".

(** On every Unix, macOS included, the first [return] is the one for Unix. *)
Inductive platform : Type := Unix | WindowsPlatform.

(** [std::env::var] of the one variable a platform looks at. *)
Definition get_log_path (p : platform) (program_data : option string) : string :=
  match p with
  | Unix => "/var/log/gsc-fq"
  | WindowsPlatform => default "C:\ProgramData" program_data +:+ "\gsc-fq\logs"
  end.

Definition get_config_path (p : platform) (program_data : option string) : string :=
  match p with
  | Unix => "/etc/gsc-fq"
  | WindowsPlatform => default "C:\ProgramData" program_data +:+ "\gsc-fq\config"
  end.

Definition internal {A E} (prefix : string) (show : E -> string) (r : result A E) : Result A :=
  map_err (fun e => Internal (prefix +:+ show e)) r.

Definition ensure_log_directory (p : platform) (program_data : option string)
    (create_dir_all : string -> result unit IoError) (chmod : result unit IoError) : Result unit :=
  let log_path := get_log_path p program_data in
  let? _ := internal ("Failed to create log directory '" +:+ log_path +:+ "': ") io_text (create_dir_all log_path) in
  match p with
  | Unix => internal "Failed to set log directory permissions: " io_text chmod
  | WindowsPlatform => Ok tt
  end.

Definition ensure_config_directory (p : platform) (program_data : option string)
    (create_dir_all : string -> result unit IoError) : Result unit :=
  let config_path := get_config_path p program_data in
  internal ("Failed to create config directory '" +:+ config_path +:+ "': ") io_text (create_dir_all config_path).

Definition service_config (exe_path log_path : string) : ServiceConfig :=
  mkServiceConfig SERVICE_NAME "GSC-FQ High-Performance TCP Proxy"
    (Some "GSC-FQ TCP proxy service for high-performance network forwarding") exe_path ["service-mode"]
    (default "/" (Path.parent exe_path)) [("RUST_LOG", "info")] true
    (Some (Path.path_join log_path "gsc-fq.log")) (Some (Path.path_join log_path "gsc-fq.err")).

Inductive ServiceStatus : Type := NotInstalled | Stopped | Running.

Definition as_str (s : ServiceStatus) : string :=
  match s with NotInstalled => "not installed" | Stopped => "stopped" | Running => "running" end.

Section Manager.
Context `{ServiceManager}.

(** A call of the crate with its error wrapped. *)
Definition call (prefix : string) (r : result unit string * os) : Result unit * os :=
  (internal prefix id r.1, r.2).

Definition install (exe_path log_path : string) (s : os) : Result unit * os :=
  call "Failed to install service: " (sm_install (service_config exe_path log_path) s).
Definition start (s : os) : Result unit * os := call "Failed to start service: " (sm_start SERVICE_NAME s).
Definition stop (s : os) : Result unit * os := call "Failed to stop service: " (sm_stop SERVICE_NAME s).

Definition restart (s : os) : Result unit * os :=
  match stop s with
  | (Err e, s) => (Err e, s)
  | (Ok _, s) => start s
  end.

Definition is_installed (s : os) : Result bool :=
  match sm_status SERVICE_NAME s with
  | Ok _ => Ok true
  | Err ServiceNotFound => Ok false
  | Err (OtherServiceError text) => Err (Internal ("Failed to check service status: " +:+ text))
  end.

Definition is_running (s : os) : Result bool :=
  match sm_status SERVICE_NAME s with
  | Ok active => Ok active
  | Err ServiceNotFound => Ok false
  | Err (OtherServiceError text) => Err (Internal ("Failed to check service status: " +:+ text))
  end.

(** Two status calls, nothing in between. *)
Definition status (s : os) : Result ServiceStatus :=
  let? installed := is_installed s in
  if installed : bool then
    match sm_status SERVICE_NAME s with
    | Ok active => Ok (if active : bool then Running else Stopped)
    | Err ServiceNotFound => Ok NotInstalled
    | Err (OtherServiceError text) => Err (Internal ("Failed to get service status: " +:+ text))
    end
  else Ok NotInstalled.

Definition uninstall (s : os) : Result unit * os :=
  match is_running s with
  | Err e => (Err e, s)
  | Ok running =>
      match if running : bool then stop s else (Ok tt, s) with
      | (Err e, s) => (Err e, s)
      | (Ok _, s) => call "Failed to uninstall service: " (sm_remove SERVICE_NAME s)
      end
  end.

(** ** The command line *)

(** What the process sees of the rest of the system. *)
Record CliCalls := mkCliCalls {
  cli_platform : platform;
  cli_program_data : option string;
  cli_build : result unit string;          (** [ServiceManagerBuilder::build] *)
  cli_current_exe : result string IoError;
  cli_create_dir_all : string -> result unit IoError;
  cli_chmod : result unit IoError }.

Inductive handled : Type := Returned (r : Result unit) | ExitProcess (code : Z).

Definition handle_service_command (c : CliCalls) (command : string) (s : os) : handled * os :=
  let run (r : Result unit * os) := (Returned r.1, r.2) in
  match internal "Failed to create service manager: " id (cli_build c) with
  | Err e => (Returned (Err e), s)
  | Ok _ =>
      if String.eqb command "install" then
        match (let? exe := internal "Failed to get current executable path: " io_text (cli_current_exe c) in
               let? _ := ensure_log_directory (cli_platform c) (cli_program_data c) (cli_create_dir_all c) (cli_chmod c) in
               let? _ := ensure_config_directory (cli_platform c) (cli_program_data c) (cli_create_dir_all c) in
               Ok exe) with
        | Err e => (Returned (Err e), s)
        | Ok exe => run (install exe (get_log_path (cli_platform c) (cli_program_data c)) s)
        end
      else if String.eqb command "uninstall" then run (uninstall s)
      else if String.eqb command "start" then run (start s)
      else if String.eqb command "stop" then run (stop s)
      else if String.eqb command "restart" then run (restart s)
      else if String.eqb command "status" then (Returned (map_ok (fun _ => tt) (status s)), s)
      else (ExitProcess 1, s)
  end.
End Manager.

(** [run_as_daemon]: the two log files, then the fork. *)
Definition run_as_daemon (p : platform) (open_log open_err : result unit IoError) (daemonize : result unit string)
  : Result unit :=
  match p with
  | Unix =>
      let? _ := map_err Io open_log in
      let? _ := map_err Io open_err in
      internal "Failed to daemonize: " id daemonize
  | WindowsPlatform =>
      Err (Internal "Daemon mode is only supported on Unix-like systems. Use service management instead.")
  end.

(** [run_service_mode]: [runtime] is what loading gives, [run] how it ends. *)
Definition run_service_mode {A} (runtime : Result A) (build : result unit string) (log_directory : Result unit)
    (run : A -> Result unit) : Result unit :=
  let? r := runtime in
  let? _ := internal "Failed to create service manager: " id build in
  let? _ := log_directory in
  run r.

(** ** Properties *)

(** The two status calls agree with one, when nothing happens in between. *)
Lemma status_spec `{ServiceManager} s :
  status s = match sm_status SERVICE_NAME s with
             | Ok true => Ok Running
             | Ok false => Ok Stopped
             | Err ServiceNotFound => Ok NotInstalled
             | Err (OtherServiceError text) => Err (Internal ("Failed to check service status: " +:+ text))
             end.
Proof. unfold status, is_installed. by destruct (sm_status SERVICE_NAME s) as [[]|[]]. Qed.

(** An uninstall that succeeds has found the service stopped or has stopped it
    first, whatever the crate's calls do; one that cannot learn the status calls
    nothing. *)
Theorem uninstall_stops_first `{ServiceManager} s x s' :
  uninstall s = (x, s') ->
  (is_ok x = true ->
     exists s1, sm_remove SERVICE_NAME s1 = (Ok tt, s') /\
       ((sm_status SERVICE_NAME s = Ok true /\ sm_stop SERVICE_NAME s = (Ok tt, s1)) \/
        (sm_status SERVICE_NAME s <> Ok true /\ s1 = s))) /\
  (forall text, sm_status SERVICE_NAME s = Err (OtherServiceError text) -> is_ok x = false /\ s' = s).
Proof.
  unfold uninstall, is_running, stop, call, internal.
  destruct (sm_status SERVICE_NAME s) as [[]|[|text]] eqn:Hst; simpl.
  - destruct (sm_stop SERVICE_NAME s) as [[[]|e] s1]; simpl; [|by intros [= <- <-]].
    destruct (sm_remove SERVICE_NAME s1) as [[[]|e] s2] eqn:Hr; simpl; intros [= <- <-]; [|done].
    split; [|done]. intros _. exists s1. auto.
  - destruct (sm_remove SERVICE_NAME s) as [[[]|e] s2] eqn:Hr; simpl; intros [= <- <-]; [|done].
    split; [|done]. intros _. exists s. auto.
  - destruct (sm_remove SERVICE_NAME s) as [[[]|e] s2] eqn:Hr; simpl; intros [= <- <-]; [|done].
    split; [|done]. intros _. exists s. auto.
  - intros [= <- <-]. split; [done|]. by intros text' [= <-].
Qed.

(** The configuration directory the service commands create and print is not
    one the loader looks into: it searches the working directory only. *)
Theorem service_config_directory_unused path :
  path ∈ get_config_search_paths -> Path.is_absolute path = false /\ Path.parent path = Some "".
Proof. unfold get_config_search_paths. rewrite !elem_of_cons, elem_of_nil. by intros [->|[->|[->|[]]]]. Qed.

(** ** Witnesses *)

(** An operating system that knows which services there are and which run. *)
Definition toy_status (n : string) (s : gmap string bool) : result bool ServiceError :=
  match s !! n with Some b => Ok b | None => Err ServiceNotFound end.
Definition toy_set (n : string) (b : bool) (s : gmap string bool) : result unit string * gmap string bool :=
  match s !! n with Some _ => (Ok tt, <[n := b]> s) | None => (Err "not loaded", s) end.
Definition toy_remove (n : string) (s : gmap string bool) : result unit string * gmap string bool :=
  match s !! n with Some _ => (Ok tt, delete n s) | None => (Err "not loaded", s) end.

#[local] Instance toy_manager : ServiceManager := {|
  os := gmap string bool;
  sm_install := fun c s => (Ok tt, <[sc_name c := false]> s);
  sm_remove := toy_remove;
  sm_start := fun n => toy_set n true;
  sm_stop := fun n => toy_set n false;
  sm_status := toy_status |}.

Definition installed_os : os := ({[ SERVICE_NAME := true ]} : gmap string bool).

Theorem uninstall_stops_first_witness :
  exists s1, sm_remove SERVICE_NAME s1 = (Ok tt, snd (uninstall installed_os)) /\
    sm_stop SERVICE_NAME installed_os = (Ok tt, s1).
Proof.
  destruct (uninstall_stops_first installed_os _ _ (surjective_pairing (uninstall installed_os))) as [H _].
  destruct (H eq_refl) as (s1 & Hr & [[_ Hs]|[Hn _]]); [exists s1; split; [exact Hr|exact Hs]|].
  destruct Hn. vm_compute. reflexivity.
Defined.

Theorem service_config_directory_unused_witness : Path.is_absolute "config.toml" = false.
Proof.
  refine (proj1 (service_config_directory_unused "config.toml" _)).
  right. left.
Defined.
