(* ===== verification/Utils.v ===== *)
(** * Utils: the debug switch, signals and system checks
    (src/src/utils/debug.rs, signal.rs, system.rs)

    [SignalHandler] is a transition system over tokio's [Notify]; the system
    checks are given what the calls they make return. *)

From Stdlib Require Import Ascii String ZArith Lia.
From stdpp Require Import base gmap strings list.
From S2P Require Import Prelude Text Errors Config.

(** ** debug.rs *)

Record DebugState := mkDebugState { debug_enabled : bool; logger_installed : bool }.

(** [env_logger::init] panics when a logger is installed already. *)
Definition init_debug (enabled : bool) (s : DebugState) : outcome DebugState :=
  if enabled then (if logger_installed s then Panic else Val (mkDebugState true true))
  else Val (mkDebugState false (logger_installed s)).

Definition is_debug_enabled (s : DebugState) : bool := debug_enabled s.

(** [debug_println!]: the line, or nothing. *)
Definition debug_println (line : string) (s : DebugState) : list string :=
  if is_debug_enabled s then [line] else [].

(** ** signal.rs *)

(** [tokio::sync::Notify]: who waits, who was woken, and the permit that
    [notify_one] leaves when nobody waits. *)
Record Notify := mkNotify { waiting : gset nat; woken : gset nat; permit : bool }.

Definition new_notify : Notify := mkNotify ∅ ∅ false.

(** [notified().await] of a task that has not waited before. *)
Definition notified (task : nat) (n : Notify) : Notify :=
  if permit n then mkNotify (waiting n) (woken n ∪ {[task]}) false
  else mkNotify (waiting n ∪ {[task]}) (woken n) false.

(** Wakes who waits now and leaves nothing for who comes later. *)
Definition notify_waiters (n : Notify) : Notify := mkNotify ∅ (woken n ∪ waiting n) (permit n).

(** The handler and its two tasks, each of which receives one signal and ends. *)
Record SignalHandler := mkSignalHandler {
  shutdown_notify : Notify;
  sigterm_task : bool;
  sigint_task : bool }.

Definition new_handler : SignalHandler := mkSignalHandler new_notify false false.

Definition with_notify (n : Notify) (h : SignalHandler) : SignalHandler :=
  mkSignalHandler n (sigterm_task h) (sigint_task h).

(** [setup_signal_handlers] on Unix; the first task runs even when the second
    signal cannot be set up. *)
Definition setup_signal_handlers (sigterm sigint : result unit IoError) (h : SignalHandler)
  : Result unit * SignalHandler :=
  let failed name (e : IoError) :=
    Err (System (SignalHandlingFailed ("Failed to setup " +:+ name +:+ " handler: " +:+ io_text e))) in
  match sigterm with
  | Err e => (failed "SIGTERM" e, h)
  | Ok _ =>
      let h := mkSignalHandler (shutdown_notify h) true (sigint_task h) in
      match sigint with
      | Err e => (failed "SIGINT" e, h)
      | Ok _ => (Ok tt, mkSignalHandler (shutdown_notify h) true true)
      end
  end.

Definition wait_for_shutdown (task : nat) (h : SignalHandler) : SignalHandler :=
  with_notify (notified task (shutdown_notify h)) h.

Definition trigger_shutdown (h : SignalHandler) : SignalHandler :=
  with_notify (notify_waiters (shutdown_notify h)) h.

Inductive signal_event : Type := Wait (task : nat) | SigTerm | SigInt | Trigger.

Definition signal_step (h : SignalHandler) (e : signal_event) : SignalHandler :=
  match e with
  | Wait task => wait_for_shutdown task h
  | SigTerm =>
      if sigterm_task h
      then mkSignalHandler (notify_waiters (shutdown_notify h)) false (sigint_task h) else h
  | SigInt =>
      if sigint_task h
      then mkSignalHandler (notify_waiters (shutdown_notify h)) (sigterm_task h) false else h
  | Trigger => trigger_shutdown h
  end.

Definition signal_run (h : SignalHandler) (es : list signal_event) : SignalHandler := foldl signal_step h es.

Definition armed (h : SignalHandler) : SignalHandler := snd (setup_signal_handlers (Ok tt) (Ok tt) h).

(** ** system.rs *)

Section System.
(** The file system and the environment. *)
Context (fs_read : string -> result string IoError) (fs_exists : string -> bool) (env_var : string -> option string).

Definition read_sysfs_value (path : string) : Result string :=
  match fs_read path with
  | Ok s => Ok (trim s)
  | Err e => Err (System (SystemCallFailed ("Failed to read " +:+ path +:+ ": " +:+ io_text e)))
  end.

(** Two pipes; the bytes written and spliced between them are not looked at. *)
Definition check_splice_availability (pipe1 pipe2 : result unit string) : Result unit :=
  let? _ := map_err (fun e => System (SystemCallFailed ("Failed to create test pipe: " +:+ e))) pipe1 in
  let? _ := map_err (fun e => System (SystemCallFailed ("Failed to create second test pipe: " +:+ e))) pipe2 in
  Ok tt.

(** The values read are dropped. *)
Definition check_linux_network_settings (pipe1 pipe2 : result unit string) : Result unit :=
  check_splice_availability pipe1 pipe2.

Definition check_file_descriptor_limits : Result unit := Ok tt.
Definition check_memory_limits : Result unit := Ok tt.

Definition check_system_requirements (linux : bool) (pipe1 pipe2 : result unit string) : Result unit :=
  let? _ := check_file_descriptor_limits in
  let? _ := if linux then check_linux_network_settings pipe1 pipe2 else Ok tt in
  check_memory_limits.

Definition optimize_system_settings : Result unit := Ok tt.

Definition is_running_in_container (linux : bool) : bool :=
  if linux then
    if fs_exists "/.dockerenv" then true
    else if match fs_read "/proc/1/cgroup" with
            | Ok content => contains "docker" content || contains "containerd" content
            | Err _ => false
            end then true
    else bool_decide (is_Some (env_var "container"))
  else false.
End System.

Record SystemInfo := mkSystemInfo { si_os : string; si_arch : string; si_target_env : string; si_family : string }.

(** [target_env] repeats the operating system. *)
Definition get_system_info (os arch family : string) : SystemInfo := mkSystemInfo os arch os family.

Definition show_SystemInfo (i : SystemInfo) : string :=
  "System Information:" +:+ nl +:+ "- OS: " +:+ si_os i +:+ nl +:+ "- Architecture: " +:+ si_arch i
  +:+ nl +:+ "- Environment: " +:+ si_target_env i +:+ nl +:+ "- Family: " +:+ si_family i.

(** ** Lemmas *)

(** Once both tasks have ended, signals do nothing. *)
Lemma spent_ignores_signals h es :
  sigterm_task h = false ->
  Forall (fun e => match e with Wait _ | SigTerm => True | _ => False end) es ->
  permit (shutdown_notify h) = false ->
  woken (shutdown_notify (signal_run h es)) = woken (shutdown_notify h).
Proof.
  intros Ht Hes. revert h Ht. induction Hes as [|e es He _ IH]; intros h Ht Hp; [done|].
  unfold signal_run. cbn [foldl]. fold (signal_run (signal_step h e) es).
  destruct e as [task| | |]; try done; cbn [signal_step].
  - unfold wait_for_shutdown, notified. rewrite Hp. rewrite IH; done.
  - rewrite Ht. by apply IH.
Qed.

(** ** Properties *)

(** A shutdown signal is not remembered: one that arrives while nobody waits
    wakes no later waiter, and since its task ends with it every further signal
    of that kind is lost too; a waiter that comes in time is woken by the first. *)
Theorem early_signal_is_lost task es :
  Forall (fun e => match e with Wait _ | SigTerm => True | _ => False end) es ->
  woken (shutdown_notify (signal_run (armed new_handler) (SigTerm :: es))) = ∅ /\
  task ∈ woken (shutdown_notify (signal_run (armed new_handler) [Wait task; SigTerm])).
Proof.
  intros Hes. split.
  - unfold signal_run. cbn [foldl]. fold (signal_run (signal_step (armed new_handler) SigTerm) es).
    rewrite spent_ignores_signals; [|done..]. simpl. set_solver.
  - simpl. set_solver.
Qed.

(** The system check fails exactly when Linux cannot make a pipe; what the
    limits and settings are does not matter. *)
Theorem requirements_are_pipes linux pipe1 pipe2 :
  is_ok (check_system_requirements linux pipe1 pipe2) = negb linux || (is_ok pipe1 && is_ok pipe2).
Proof. by destruct linux, pipe1, pipe2. Qed.

(** Debug output appears exactly when the switch is on, and switching it on
    twice panics. *)
Theorem debug_output_iff enabled line s s' :
  init_debug enabled s = Val s' ->
  (debug_println line s' = [line] <-> enabled = true) /\ (enabled = true -> init_debug true s' = Panic).
Proof.
  unfold init_debug, debug_println, is_debug_enabled.
  destruct enabled, (logger_installed s); simpl; try done; intros [= <-]; simpl; split; done.
Qed.

(** ** Witnesses *)

Theorem early_signal_is_lost_witness :
  woken (shutdown_notify (signal_run (armed new_handler) [SigTerm; Wait 1; SigTerm])) = ∅.
Proof. apply (early_signal_is_lost 1 [Wait 1; SigTerm]). repeat constructor. Defined.

Theorem debug_output_iff_witness : debug_println "x" (mkDebugState true true) = ["x"].
Proof. apply (debug_output_iff true "x" (mkDebugState false false) (mkDebugState true true) eq_refl). reflexivity. Defined.
