(* ===== verification/Bench.v ===== *)
(** * Bench: the throughput benchmark (src/src/bin/bench_throughput.rs)

    A sink that counts what each connection sends and a source that sends
    blocks of 64 KB; each has a task that prints the speed of the last second. *)

From Stdlib Require Import Ascii String ZArith Lia.
From stdpp Require Import base gmap strings list.
From S2P Require Import Prelude Text Errors F64.

(** ** The mode *)

Inductive bench_mode : Type := BenchServer (addr : string) | BenchClient (addr : string).

(** [main]: both [expect]s and the unknown mode panic. *)
Definition bench_main (args : list string) : outcome bench_mode :=
  match args !! 1%nat, args !! 2%nat with
  | Some mode, Some port =>
      let addr := "127.0.0.1:" +:+ port in
      if String.eqb mode "server" then Val (BenchServer addr)
      else if String.eqb mode "client" then Val (BenchClient addr)
      else Panic
  | _, _ => Panic
  end.

(** ** The counter and its printer *)

(** [total_bytes], the printer's [last_bytes], the differences it has printed
    with the totals, and whether the connection's loop still runs. *)
Record gauge := mkGauge {
  total_bytes : Z;
  last_bytes : Z;
  printed : list (Z * Z);
  looping : bool }.

Definition fresh_gauge : gauge := mkGauge 0 0 [] true.

Definition counted (n : Z) (g : gauge) : gauge :=
  mkGauge (u64_add (total_bytes g) n) (last_bytes g) (printed g) (looping g).
Definition loop_over (g : gauge) : gauge := mkGauge (total_bytes g) (last_bytes g) (printed g) false.

(** One second of the stats printer, which nothing stops. *)
Definition print_stats (g : gauge) : gauge :=
  let current_bytes := total_bytes g in
  mkGauge current_bytes current_bytes (printed g ++ [(u64_sub current_bytes (last_bytes g), current_bytes)]) (looping g).

(** [n as f64 / 1024.0 / 1024.0] *)
Definition megabytes (n : Z) : f64 := f_div (f_div (f_of_Z n) (f_of_Z 1024)) (f_of_Z 1024).

(** [{:.2}] is a parameter. *)
Definition server_line (fixed2 : f64 -> string) (p : Z * Z) : string :=
  "Speed: " +:+ fixed2 (megabytes (fst p)) +:+ " MB/s | Total: " +:+ fixed2 (megabytes (snd p)) +:+ " MB".
Definition client_line (fixed2 : f64 -> string) (p : Z * Z) : string :=
  "Sending Speed: " +:+ fixed2 (megabytes (fst p)) +:+ " MB/s".

(** ** The sink *)

Inductive bench_event : Type :=
| BenchRead (n : result Z IoError)
| BenchSecond.

Definition BENCH_BUFFER : Z := 64 * 1024.

(** A connection of [run_server]. *)
Definition sink_step (g : gauge) (e : bench_event) : gauge :=
  match e with
  | BenchRead r =>
      if looping g then
        match r with
        | Ok n => if n =? 0 then loop_over g else counted n g
        | Err _ => loop_over g
        end
      else g
  | BenchSecond => print_stats g
  end.

Definition sink_run (es : list bench_event) : gauge := foldl sink_step fresh_gauge es.

(** ** The source *)

Inductive source_event : Type :=
| BenchWrite (r : result unit IoError)
| SourceSecond.

(** [run_client] once it is connected. *)
Definition source_step (g : gauge) (e : source_event) : gauge :=
  match e with
  | BenchWrite r =>
      if looping g then match r with Ok _ => counted BENCH_BUFFER g | Err _ => loop_over g end else g
  | SourceSecond => print_stats g
  end.

Definition source_run (es : list source_event) : gauge := foldl source_step fresh_gauge es.

(** The connection comes first: its error ends the program. *)
Definition run_client (connected : result unit IoError) (es : list source_event) : result gauge IoError :=
  match connected with Err e => Err e | Ok _ => Ok (source_run es) end.

(** ** What the lines say *)

Definition speeds (g : gauge) : Z := foldr Z.add 0 (map fst (printed g)).

(** No second is counted twice or left out, as long as the total fits. *)
Definition gauge_ok (g : gauge) : Prop :=
  speeds g = last_bytes g /\ 0 <= last_bytes g <= total_bytes g.

Lemma foldr_sum_snoc l x : foldr Z.add 0 (l ++ [x]) = foldr Z.add 0 l + x.
Proof. induction l as [|y l IH]; simpl; lia. Qed.

Lemma print_stats_ok g : gauge_ok g -> total_bytes g < 2 ^ 64 -> gauge_ok (print_stats g).
Proof.
  intros [Hs Hl] Hb. unfold gauge_ok, speeds, print_stats in *. cbn [printed last_bytes total_bytes]. rewrite map_app.
  cbn [map fst]. rewrite foldr_sum_snoc, Hs. unfold u64_sub. rewrite wrap_small by (unfold in_u; lia). lia.
Qed.

(** The bytes of the reads before the loop ends. *)
Fixpoint bench_received (es : list bench_event) : Z :=
  match es with
  | [] => 0
  | BenchRead (Ok n) :: es => if n =? 0 then 0 else n + bench_received es
  | BenchRead (Err _) :: _ => 0
  | BenchSecond :: es => bench_received es
  end.

Definition reads_fit (e : bench_event) : Prop :=
  match e with BenchRead (Ok n) => 0 <= n <= BENCH_BUFFER | _ => True end.

Lemma bench_received_nonneg es : Forall reads_fit es -> 0 <= bench_received es.
Proof.
  induction 1 as [|e es He _ IH]; simpl; [lia|]. destruct e as [[n|]|]; simpl in *; try lia. destruct (n =? 0); lia.
Qed.

Lemma stopped_counts_nothing g es : looping g = false -> total_bytes (foldl sink_step g es) = total_bytes g.
Proof.
  revert g. induction es as [|e es IH]; intros g Hg; [done|]. simpl. rewrite IH; destruct e; simpl; by rewrite ?Hg.
Qed.

Lemma sink_total g es :
  Forall reads_fit es -> gauge_ok g -> looping g = true -> total_bytes g + bench_received es < 2 ^ 64 ->
  total_bytes (foldl sink_step g es) = total_bytes g + bench_received es.
Proof.
  intros Hf. revert g. induction Hf as [|e es He Hf IH]; intros g Hg Hloop Hb; [simpl; lia|].
  pose proof (bench_received_nonneg es Hf) as Hn. cbn [foldl]. destruct e as [[n|e]|]; simpl in Hb, He |- *; rewrite ?Hloop.
  - destruct (Z.eqb_spec n 0) as [->|H0]; [rewrite stopped_counts_nothing; simpl; lia|].
    assert (total_bytes (counted n g) = total_bytes g + n) as Hc.
    { simpl. unfold u64_add. apply wrap_small. unfold gauge_ok in Hg. unfold in_u. lia. }
    rewrite IH, Hc; [lia| |done|lia]. destruct Hg as [Hs Hl]. split; [exact Hs|]. rewrite Hc. simpl. lia.
  - rewrite stopped_counts_nothing; simpl; lia.
  - rewrite IH; [done|apply print_stats_ok; [done|lia]|done|done].
Qed.

(** The total of a connection is what it has sent until its end. *)
Lemma bench_counts_bytes es :
  Forall reads_fit es -> bench_received es < 2 ^ 64 -> total_bytes (sink_run es) = bench_received es.
Proof. intros Hf Hb. unfold sink_run. rewrite sink_total; [done|done|done|done|done]. Qed.

(** The printer of a closed connection goes on. *)
Lemma bench_printer_never_stops es n :
  length (printed (sink_run (es ++ replicate n BenchSecond))) = (length (printed (sink_run es)) + n)%nat.
Proof.
  unfold sink_run. rewrite foldl_app. generalize (foldl sink_step fresh_gauge es). clear es.
  induction n as [|n IH]; intros g; simpl; [lia|]. rewrite IH. simpl. rewrite length_app. simpl. lia.
Qed.
