(* ===== verification/Terminal.v ===== *)
(** * Terminal: what the program tells its user

    The lines the server, the runtime manager, the reverse client, the service
    commands and the encryption demonstration print, without the escapes of the
    terminal; a line break is an element of the list.  Number formats with a
    precision ([{:.2}], [{:.0}]) are parameters.  Sources: src/src/proxy/server.rs,
    config/runtime.rs, reverse_proxy/client.rs, service/cli.rs, crypto/mod.rs and
    crypto/handshake.rs. *)

From Stdlib Require Import Ascii String ZArith Lia.
From stdpp Require Import base gmap strings list.
From S2P Require Import Prelude Text NetAddr Errors F64 Config ConfigSpec Protocol ReverseServer ReverseClient Stealth ProxyServer Runtime Crypto Service.

(** ** The forward server *)

Definition is_running (i : ProxyInstance) : bool := running i.
Definition get_remote_addr (i : ProxyInstance) : SocketAddr := pi_remote_addr i.
Definition get_source_ip (i : ProxyInstance) : option IpAddr := pi_source_ip i.
Definition get_bind_addr (i : ProxyInstance) : SocketAddr := bind_addr i.

(** [wait_for_shutdown] on Unix: a signal that cannot be set up panics; the
    first of the two ends the wait. *)
Definition wait_for_shutdown (sigterm sigint : result unit IoError) (signals : list bool) : outcome bool :=
  match sigterm, sigint with
  | Ok _, Ok _ => Val (negb (length signals =? 0)%nat)
  | _, _ => Panic
  end.

Definition banner (version : string) (ip : IpAddr) : list string :=
  ["🚀 GSC-FQ Proxy Server v" +:+ version; "================================"; "📡 Server listening on: " +:+ show_ip ip; ""].

(** The [i]-th rule, in the server at [ip]. *)
Definition rule_line (ip : IpAddr) (i : nat) (instance : ProxyInstance) : string :=
  "  " +:+ show_dec (Z.of_nat (i + 1)) +:+ ". " +:+ show_ip ip +:+ ":" +:+ show_dec (sa_port (bind_addr instance)) +:+ " -> "
  +:+ show_ip (sa_ip (pi_remote_addr instance)) +:+ ":" +:+ show_dec (sa_port (pi_remote_addr instance))
  +:+ match pi_source_ip instance with Some src => " (via " +:+ show_ip src +:+ ")" | None => "" end.

Definition rule_lines (ip : IpAddr) (probe : nat -> ProbeCalls) (i : nat) (instance : ProxyInstance) : list string :=
  [rule_line ip i instance;
   "     Status: " +:+ connectivity_status (test_remote_connectivity instance (probe i)); ""].

(** [display_startup_info]; [probe] answers the connection to the [i]-th remote. *)
Definition display_startup_info (version : string) (s : ProxyServer) (probe : nat -> ProbeCalls) : list string :=
  banner version (bind_ip s) ++
  match proxy_instances s with
  | [] => ["⚠️  No proxy rules configured"; ""]
  | instances =>
      ["🔄 Checking remote server connectivity..."; ""] ++
      concat (imap (rule_lines (bind_ip s) probe) instances) ++
      ["✅ Server started successfully"; "🛑 Press Ctrl+C to stop the server"; ""]
  end.

(** ** The runtime manager *)

Definition started_line : string := "✅ All services started successfully!".

Definition missing_services : list string :=
  ["❌ No services configured! Please add one of the following to your config file:";
   "   - [[proxies]] for forward proxy"; "   - [reverse_proxy_server] for reverse proxy server";
   "   - [reverse_proxy_client] for reverse proxy client"].

Definition forward_line (c : ConfigFile) : list string :=
  if negb (length (cf_proxies c) =? 0)%nat
  then ["📡 Starting forward proxy with " +:+ show_dec (Z.of_nat (length (cf_proxies c))) +:+ " rules..."] else [].
Definition reverse_server_line (c : ConfigFile) : list string :=
  match cf_reverse_proxy_server c with
  | Some s => ["🏠 Starting reverse proxy server on port " +:+ show_dec (rps_port s) +:+ "..."]
  | None => []
  end.
Definition reverse_client_line (c : ConfigFile) : list string :=
  match cf_reverse_proxy_client c with
  | Some s => ["🌐 Starting reverse proxy client connecting to " +:+ rpc_server s +:+ "..."]
  | None => []
  end.

(** What [run] has printed when it starts to wait or gives up. *)
Definition run_messages (env_token : option string) (c : ConfigFile) : list string :=
  match runtime_bind_ip c with
  | Err _ => []
  | Ok ip =>
      forward_line c ++
      match start_forward ip c with
      | Err _ => []
      | Ok forward =>
          reverse_server_line c ++ reverse_client_line c ++
          match start_reverse_client env_token c with
          | Err _ => []
          | Ok client =>
              if (length (forward ++ start_reverse_server env_token ip c ++ client) =? 0)%nat
              then missing_services else [started_line]
          end
      end
  end.

(** [RuntimeManager::new], [config] and [config_path]. *)
Record RuntimeManager := mkRuntimeManager { rm_config : ConfigFile; rm_config_path : string }.

Definition new_runtime (loaded : Result (ConfigFile * string)) : Result (RuntimeManager * list string) :=
  let? p := loaded in
  let '(config, config_path) := p in
  Ok (mkRuntimeManager config config_path, ["🚀 Loading configuration: " +:+ config_path]).

(** ** The reverse client: step 4 of a connection *)

Definition active_proxies (ps : list ReverseProxyConfig) : list string :=
  [""; "📡 Active Reverse Proxies:"] ++
  map (fun p => "   Server:" +:+ show_dec (server_port p) +:+ " → Local:" +:+ local_host p +:+ ":" +:+ show_dec (local_port p)) ps ++
  [""].

(** ** The service commands *)

Definition emoji (s : ServiceStatus) : string :=
  match s with NotInstalled => "❌" | Stopped => "⏸️" | Service.Running => "✅" end.

(** [made]: whether the service manager exists on this system. *)
Definition print_service_help (p : platform) (program_data : option string) (made : result unit string) : list string :=
  let path f := match made with Ok _ => f p program_data | Err _ => "N/A" end in
  ["GSC-FQ Service Management Commands"; ""; "USAGE:"; "  gsc-fq service <command>"; ""; "COMMANDS:";
   "  install    Install GSC-FQ as system service"; "  uninstall  Remove GSC-FQ service";
   "  start      Start GSC-FQ service"; "  stop       Stop GSC-FQ service"; "  restart    Restart GSC-FQ service";
   "  status     Show service status"; ""; "PLATFORM SPECIFIC:"] ++
  match p with
  | Unix => ["  Linux/macOS: Run with 'sudo' for install/uninstall/start/stop commands"]
  | WindowsPlatform => ["  Windows: Run as Administrator for install/uninstall/start/stop commands"]
  end ++ [""; "EXAMPLES:"] ++
  match p with
  | Unix => ["  sudo gsc-fq service install"]
  | WindowsPlatform => ["  gsc-fq service install  # (run as Administrator)"]
  end ++
  ["  gsc-fq service status"; "  gsc-fq service restart"; ""; "CONFIGURATION:";
   "  System config: " +:+ path get_config_path; "  Log directory: " +:+ path get_log_path].

(** ** The encryption demonstration *)

Section Numbers.
(** [{:.0}] and [{:.2}] *)
Context (fixed0 fixed2 : f64 -> string).

Definition print_cpu_info (arch : string) (aes_ni : bool) : list string :=
  let '(throughput, handshakes, accel_type) := CpuFeatures.get_performance_characteristics aes_ni in
  ["🔧 CPU Encryption Capabilities:"; "   Architecture: " +:+ arch;
   "   AES-NI support: " +:+ (if aes_ni then "✅ Available" else "❌ Not Available");
   "   Optimal cipher: " +:+ CpuFeatures.optimal_cipher_suite aes_ni;
   "   Optimal algorithm: " +:+ CpuFeatures.optimal_algorithm aes_ni;
   "   Expected throughput: " +:+ fixed0 throughput +:+ " MB/s (" +:+ accel_type +:+ ")";
   "   Expected handshakes: " +:+ fixed0 handshakes +:+ "/sec";
   "   Rustls optimizations: ✅ Ring, post-quantum support";
   "   Hardware offload: " +:+ (if aes_ni then "✅ AES-NI acceleration" else "⚠️ Software optimized")].

Definition in_mb (bytes : Z) : f64 := f_div (f_of_Z bytes) (f_of_Z 1048576).

Definition print_performance_summary (c : EncryptedConnection) : list string :=
  let m := Crypto.metrics c in
  [""; "📊 " +:+ conn_name c +:+ " Performance Summary:";
   "   🔐 Handshakes: " +:+ show_dec (handshakes_completed m);
   "   ⏱️ Avg handshake: " +:+ show_dec (avg_handshake_time_us m) +:+ "μs";
   "   📤 Bytes encrypted: " +:+ fixed2 (in_mb (bytes_encrypted m)) +:+ " MB";
   "   📤 Bytes decrypted: " +:+ fixed2 (in_mb (bytes_decrypted m)) +:+ " MB";
   "   🚀 AES-NI: " +:+ (if has_aes_ni c then "✅ Active" else "❌ Not Available")] ++
  if 0 <? handshakes_completed m then
    let total_time_ms := total_handshake_time_us m / 1000 in
    ["   🔥 Handshake rate: " +:+ fixed2 (handshake_rate m total_time_ms) +:+ "/sec";
     "   📡 Throughput: " +:+ fixed2 (throughput_mbps m total_time_ms) +:+ " MB/s"]
  else [].

Definition benchmark_demonstration (arch : string) (aes_ni : bool) : list string :=
  [""; "🚀 Rustls High-Performance TLS Encryption for GSC-FQ"] ++ print_cpu_info arch aes_ni ++
  [""; "📊 Production Performance Benchmarks (per core):"; "   🔄 TLS Handshakes: 1,300+ per second";
   "   📡 AES-256-GCM: 305+ MB/s (AES-NI hardware acceleration)";
   "   📡 ChaCha20-Poly1305: 275+ MB/s (software optimized)"; "   ⚡ Session Resumption: 19,000+ per second";
   "   🔐 Post-Quantum: X25519MLKEM768 support available"; ""; "💡 Integration Benefits for GSC-FQ:";
   "   ✅ Industry-standard security (battle-tested)"; "   ✅ Automatic CPU optimization (AES-NI detection)";
   "   ✅ Session resumption support (19x faster handshakes)"; "   ✅ Post-quantum cryptography ready";
   "   ✅ Zero-configuration secure defaults"; "   ✅ Rust memory safety guarantees"; "";
   "🎯 Usage Scenarios:"; "   🔐 Secure reverse proxy tunneling"; "   🌐 WAN/Internet communication";
   "   🏢 Enterprise deployments"; "   🛡️ Compliance requirements (PCI-DSS, SOC2)"].

(** [handshake::demonstrate_performance] of a build with or without the [aes]
    target feature; the first unwrap that fails panics.  [shown]: the two
    durations as [{:?}] with their seconds. *)
Definition handshake_demonstration `{Aead} (arch : string) (aes_target aes_ni : bool) (rnd : list byte)
    (encrypting decrypting : string * f64) : outcome (list string) :=
  let key := Crypto.generate rnd in
  let test_data := bytes_of "Hello, high-performance encryption world!" in
  let associated_data := bytes_of "metadata" in
  let speed (seconds : f64) := f_div (f_div (f_of_Z (41 * 10000)) seconds) (f_of_Z 1000000) in
  let measured name (d : string * f64) :=
    "   ✅ " +:+ name +:+ ": 10000 iterations in " +:+ fst d +:+ " (" +:+ fixed2 (speed (snd d)) +:+ " MB/s)" in
  let! middle :=
    if aes_target then
      match encrypt key test_data associated_data with
      | Err _ => Panic
      | Ok encrypted =>
          match decrypt key encrypted associated_data with
          | Err _ => Panic
          | Ok _ =>
              Val [""; "🔐 AES-256-GCM-SIV Performance Test (AES-NI Hardware Acceleration):";
                   measured "Encryption" encrypting; measured "Decryption" decrypting;
                   "   🎯 Hardware Offload: AES-NI acceleration active"]
          end
      end
    else Val [""; "⚠️  AES-NI not available - using software encryption";
              "   💡 Consider using a CPU with AES-NI for 10x+ performance boost"] in
  Val (["🚀 High-Performance Encryption Performance Demo"] ++ print_cpu_info arch aes_ni ++ middle ++
       [""; "💾 Memory Efficiency:"; "   🔑 Key size: 32 bytes (256-bit)";
        "   📊 Zero-copy encryption support: Available";
        "   🚀 Hardware acceleration: " +:+ (if aes_ni then "✅ Active" else "❌ Not Available")]).
End Numbers.

(** ** What the lines are worth *)

(** No line of a concrete list is the one asked for. *)
Ltac other_lines H :=
  rewrite ?elem_of_cons in H; decompose [or] H; try done;
  repeat match goal with H : _ ∈ [] |- _ => by apply not_elem_of_nil in H end.

Lemma not_started c : started_line ∉ forward_line c ++ reverse_server_line c ++ reverse_client_line c.
Proof.
  unfold forward_line, reverse_server_line, reverse_client_line.
  destruct (negb _), (cf_reverse_proxy_server c), (cf_reverse_proxy_client c); simpl;
    intros H; other_lines H.
Qed.

(** [run] says that all services have started exactly when it goes on to wait for
    them. *)
Lemma run_messages_truthful env_token c :
  started_line ∈ run_messages env_token c <-> snd (spawn env_token c) = None.
Proof.
  pose proof (not_started c) as Hn. rewrite !not_elem_of_app in Hn. destruct Hn as (H1 & H2 & H3).
  unfold run_messages, spawn. destruct (runtime_bind_ip c) as [ip|]; [|by split; [intros ?%not_elem_of_nil|]].
  rewrite elem_of_app. destruct (start_forward ip c) as [forward|]; [|split; [intros [?|?%not_elem_of_nil]|]; done].
  rewrite !elem_of_app. destruct (start_reverse_client env_token c) as [client|]; simpl.
  - rewrite <- (assoc_L (++)). destruct (length _ =? 0)%nat; split; try done.
    + unfold missing_services. intros Hx. other_lines Hx.
    + intros _. right. right. right. apply elem_of_cons. by left.
  - split; [|done]. intros [?|[?|[?|?%not_elem_of_nil]]]; done.
Qed.

(** Every rule is listed, with its position and the result of its probe. *)
Lemma startup_lists_rules version s probe i instance :
  proxy_instances s !! i = Some instance ->
  rule_line (bind_ip s) i instance ∈ display_startup_info version s probe.
Proof.
  intros Hi. unfold display_startup_info. apply elem_of_app. right.
  destruct (proxy_instances s) as [|x l] eqn:Hl; [done|]. rewrite <- Hl in *. clear Hl x l.
  apply elem_of_app. right. apply elem_of_app. left. apply list_elem_of_In, in_concat.
  exists (rule_lines (bind_ip s) probe i instance). split; [|by left].
  apply list_elem_of_In, list_elem_of_lookup. exists i. by rewrite list_lookup_imap, Hi.
Qed.

(** A rule with a local address of its own is shown at the server's address: two
    servers whose rules listen on different addresses look the same. *)
Lemma startup_hides_local_address version ip probe port remote src allow conns cps a b :
  display_startup_info version (mkProxyServer ip [new_instance a port remote src allow conns cps]) probe =
  display_startup_info version (mkProxyServer ip [new_instance b port remote src allow conns cps]) probe.
Proof. reflexivity. Qed.

(** The demonstration panics only where encrypting or decrypting fails, which
    a build without the [aes] feature never tries. *)
Lemma demonstration_without_aes `{Aead} fixed0 fixed2 arch aes_ni rnd d1 d2 :
  exists lines, handshake_demonstration fixed0 fixed2 arch false aes_ni rnd d1 d2 = Val lines.
Proof. by eexists. Qed.
