(* ===== verification/Sha1.v ===== *)
(** * Sha1: the standard functions behind Totp

    Totp takes HMAC-SHA1 (the [ring] crate) and Base32 (the [data_encoding]
    crate) as parameters.  Here are the functions those crates document: SHA-1
    (FIPS 180-4), HMAC (RFC 2104) and Base32 (RFC 4648), executable, so that the
    model computes the published one-time passwords.  The codec gives back what it
    encoded. *)

From Stdlib Require Import Ascii String ZArith Lia.
From stdpp Require Import base gmap strings list.
From S2P Require Import Prelude Text.

(** ** SHA-1 *)

Definition add32 (a b : Z) : Z := wrap 32 (a + b).
Definition not32 (a : Z) : Z := 2 ^ 32 - 1 - a.
Definition rotl (n a : Z) : Z := Z.lor (wrap 32 (Z.shiftl a n)) (Z.shiftr a (32 - n)).

(** The five words of the state. *)
Record words := mkWords { wa : Z; wb : Z; wc : Z; wd : Z; we : Z }.

Definition initial_words : words := mkWords 0x67452301 0xEFCDAB89 0x98BADCFE 0x10325476 0xC3D2E1F0.

(** The function and constant of round [t]. *)
Definition round_function (t : nat) (b c d : Z) : Z :=
  if (t <? 20)%nat then Z.lor (Z.land b c) (Z.land (not32 b) d)
  else if (t <? 40)%nat then Z.lxor (Z.lxor b c) d
  else if (t <? 60)%nat then Z.lor (Z.lor (Z.land b c) (Z.land b d)) (Z.land c d)
  else Z.lxor (Z.lxor b c) d.

Definition round_constant (t : nat) : Z :=
  if (t <? 20)%nat then 0x5A827999
  else if (t <? 40)%nat then 0x6ED9EBA1
  else if (t <? 60)%nat then 0x8F1BBCDC
  else 0xCA62C1D6.

Definition sha1_round (t : nat) (w : Z) (s : words) : words :=
  mkWords (add32 (add32 (add32 (add32 (rotl 5 (wa s)) (round_function t (wb s) (wc s) (wd s))) (we s)) w) (round_constant t))
    (wa s) (rotl 30 (wb s)) (wc s) (wd s).

(** The sixteen words of the message schedule from the current one on: the next
    word enters as the first leaves. *)
Definition next_window (w : list Z) : list Z :=
  tail w ++ [rotl 1 (Z.lxor (Z.lxor (Z.lxor (nth 13 w 0) (nth 8 w 0)) (nth 2 w 0)) (nth 0 w 0))].

Fixpoint sha1_rounds (n t : nat) (w : list Z) (s : words) : words :=
  match n with
  | O => s
  | S n => sha1_rounds n (S t) (next_window w) (sha1_round t (nth 0 w 0) s)
  end.

Definition sha1_block (s : words) (w : list Z) : words :=
  let s' := sha1_rounds 80 0 w s in
  mkWords (add32 (wa s) (wa s')) (add32 (wb s) (wb s')) (add32 (wc s) (wc s')) (add32 (wd s) (wd s')) (add32 (we s) (we s')).

(** Pieces of [n] elements; the fuel is the length of the list. *)
Fixpoint chunks {A} (fuel n : nat) (l : list A) : list (list A) :=
  match fuel, l with
  | O, _ | _, [] => []
  | S fuel, _ => take n l :: chunks fuel n (drop n l)
  end.

Definition in_chunks {A} (n : nat) (l : list A) : list (list A) := chunks (length l) n l.

Definition sha1_padding (len : nat) : list byte :=
  z_byte 128 :: replicate ((119 - len mod 64) mod 64) (z_byte 0) ++ be_bytes 8 (8 * Z.of_nat len).

Definition sha1 (msg : list byte) : list byte :=
  let blocks := in_chunks 64 (msg ++ sha1_padding (length msg)) in
  let s := foldl (fun s block => sha1_block s (map be_value (in_chunks 4 block))) initial_words blocks in
  be_bytes 4 (wa s) ++ be_bytes 4 (wb s) ++ be_bytes 4 (wc s) ++ be_bytes 4 (wd s) ++ be_bytes 4 (we s).

(** ** HMAC *)

Definition xor_with (x : Z) (key : list byte) : list byte := map (fun b => z_byte (Z.lxor (byte_z b) x)) key.

Definition hmac_key (key : list byte) : list byte :=
  let key := if (64 <? length key)%nat then sha1 key else key in
  key ++ replicate (64 - length key) (z_byte 0).

Definition hmac_sha1 (key msg : list byte) : list byte :=
  let k := hmac_key key in sha1 (xor_with 92 k ++ sha1 (xor_with 54 k ++ msg)).

(** ** Base32 *)

Fixpoint bits_of (n : nat) (z : Z) : list bool :=
  match n with
  | O => []
  | S n => Z.testbit z (Z.of_nat n) :: bits_of n z
  end.

Definition value_of (bits : list bool) : Z := foldl (fun z (b : bool) => 2 * z + (if b then 1 else 0)) 0 bits.

Definition letter (v : Z) : ascii := ascii_of_nat (Z.to_nat (if v <? 26 then 65 + v else 24 + v)).

Definition letter_value (c : ascii) : option Z :=
  let n := Z.of_nat (nat_of_ascii c) in
  if (65 <=? n) && (n <=? 90) then Some (n - 65)
  else if (50 <=? n) && (n <=? 55) then Some (n - 24)
  else None.

(** The letters of a group of at most five bytes, filled up with [=]. *)
Definition encode_group (bs : list byte) : list ascii :=
  let bits := concat (map (fun b => bits_of 8 (byte_z b)) bs) in
  let letters := map (fun g => letter (value_of (g ++ replicate (5 - length g) false))) (in_chunks 5 bits) in
  letters ++ replicate (8 - length letters) "="%char.

Definition base32_encode (bs : list byte) : string :=
  string_of_list_ascii (concat (map encode_group (in_chunks 5 bs))).

Fixpoint letters_of (s : list ascii) : option (list Z) :=
  match s with
  | [] => Some []
  | c :: s => match letter_value c, letters_of s with Some v, Some vs => Some (v :: vs) | _, _ => None end
  end.

(** Eight letters of which the last may be [=]; the bits left over are zero. *)
Definition decode_group (s : list ascii) : option (list byte) :=
  let letters := filter (fun c => c <> "="%char) s in
  match letters_of letters with
  | Some vs =>
      let bits := concat (map (bits_of 5) vs) in
      let n := (5 * length vs / 8)%nat in
      if bool_decide (s = letters ++ replicate (8 - length letters) "="%char /\ length s = 8%nat /\
           Forall (fun b => b = false) (drop (8 * n) bits) /\ (5 * length vs - 8 * n < 5)%nat)
      then Some (map (fun g => z_byte (value_of g)) (in_chunks 8 (take (8 * n) bits)))
      else None
  | None => None
  end.

Fixpoint decode_groups (gs : list (list ascii)) : option (list byte) :=
  match gs with
  | [] => Some []
  | g :: gs => match decode_group g, decode_groups gs with Some a, Some b => Some (a ++ b) | _, _ => None end
  end.

Definition base32_decode (s : string) : result (list byte) string :=
  match decode_groups (in_chunks 8 (list_ascii_of_string s)) with
  | Some bs => Ok bs
  | None => Err "invalid symbol"
  end.

(** ** The published values *)

Lemma length_sha1 msg : length (sha1 msg) = 20%nat.
Proof. unfold sha1. by rewrite !length_app, !length_be_bytes. Qed.

Lemma length_hmac_sha1 key msg : length (hmac_sha1 key msg) = 20%nat.
Proof. apply length_sha1. Qed.

(** FIPS 180, example 1; RFC 2202, case 2; RFC 4648, section 10. *)
Example sha1_abc : be_value (sha1 (bytes_of "abc")) = 0xa9993e364706816aba3e25717850c26c9cd0d89d.
Proof. vm_compute. reflexivity. Qed.

Example hmac_jefe :
  be_value (hmac_sha1 (bytes_of "Jefe") (bytes_of "what do ya want for nothing?")) = 0xeffcdf6ae5eb2fa2d27416d5f184df9c259a7c79.
Proof. vm_compute. reflexivity. Qed.

Example base32_vectors :
  map (fun s => base32_encode (bytes_of s)) ["f"; "fo"; "foo"; "foob"; "fooba"; "foobar"] =
    ["MY======"; "MZXQ===="; "MZXW6==="; "MZXW6YQ="; "MZXW6YTB"; "MZXW6YTBOI======"] /\
  map base32_decode ["MY======"; "MZXQ===="; "MZXW6==="; "MZXW6YQ="; "MZXW6YTB"; "MZXW6YTBOI======"] =
    map (fun s => Ok (bytes_of s)) ["f"; "fo"; "foo"; "foob"; "fooba"; "foobar"] /\
  base32_decode "MZ======" = Err "invalid symbol" /\ base32_decode "M1======" = Err "invalid symbol".
Proof. vm_compute. split_and!; reflexivity. Qed.

(** ** The Base32 codec

    A group is taken apart into bits and put together again; a text is the
    concatenation of its groups. *)

Lemma length_bits_of n z : length (bits_of n z) = n.
Proof. induction n; simpl; congruence. Qed.

Lemma value_of_acc bits a :
  foldl (fun z (b : bool) => 2 * z + (if b then 1 else 0)) a bits = a * 2 ^ Z.of_nat (length bits) + value_of bits.
Proof.
  unfold value_of. revert a. induction bits as [|b bits IH]; intros a; cbn [foldl length]; [simpl; lia|].
  rewrite IH, (IH (2 * 0 + _)). rewrite Nat2Z.inj_succ, Z.pow_succ_r by lia. destruct b; ring.
Qed.

Lemma value_of_cons b bits :
  value_of (b :: bits) = (if b : bool then 2 ^ Z.of_nat (length bits) else 0) + value_of bits.
Proof. unfold value_of at 1. cbn [foldl]. rewrite value_of_acc. destruct b; ring. Qed.

Lemma value_of_bound bits : 0 <= value_of bits < 2 ^ Z.of_nat (length bits).
Proof.
  induction bits as [|b bits IH]; [by unfold value_of|]. rewrite value_of_cons. cbn [length].
  rewrite Nat2Z.inj_succ, Z.pow_succ_r by lia. destruct b; lia.
Qed.

Lemma value_of_bits n z : value_of (bits_of n z) = z mod 2 ^ Z.of_nat n.
Proof.
  induction n as [|n IH]; [by rewrite Z.mod_1_r|]. cbn [bits_of]. rewrite value_of_cons, length_bits_of, IH.
  rewrite Nat2Z.inj_succ, Z.pow_succ_r by lia. rewrite (Z.mul_comm 2), Z.rem_mul_r by lia.
  rewrite <- Z.testbit_spec' by lia. destruct (Z.testbit z (Z.of_nat n)); simpl; ring.
Qed.

Lemma bits_of_mod n m z : (n <= m)%nat -> bits_of n (z mod 2 ^ Z.of_nat m) = bits_of n z.
Proof.
  induction n as [|n IH]; intros H; [done|]. cbn [bits_of]. rewrite IH by lia.
  by rewrite Z.mod_pow2_bits_low by lia.
Qed.

Lemma bits_of_value bits : bits_of (length bits) (value_of bits) = bits.
Proof.
  induction bits as [|b bits IH]; [done|]. cbn [length bits_of]. pose proof (value_of_bound bits) as Hb.
  rewrite value_of_cons. set (n := Z.of_nat (length bits)) in *.
  assert (Z.testbit ((if b then 2 ^ n else 0) + value_of bits) n = b) as ->.
  { rewrite Z.testbit_odd, Z.shiftr_div_pow2 by lia. destruct b.
    - rewrite <- (Z.mul_1_l (2 ^ n)) at 1. by rewrite Z.div_add_l, Z.div_small by lia.
    - by rewrite Z.div_small by lia. }
  f_equal. rewrite <- (bits_of_mod _ (length bits)) by done. fold n.
  replace (((if b then 2 ^ n else 0) + value_of bits) mod 2 ^ n) with (value_of bits); [done|].
  destruct b; [|by rewrite Z.mod_small].
  rewrite <- (Z.mul_1_l (2 ^ n)) at 1. rewrite Z.add_comm, Z.mod_add by lia. by rewrite Z.mod_small.
Qed.

Lemma byte_of_bits b : z_byte (value_of (bits_of 8 (byte_z b))) = b.
Proof. rewrite value_of_bits, Z.mod_small by apply byte_z_range. apply z_byte_of. Qed.

(** The 32 letters. *)
Lemma letter_table :
  forallb (fun v => bool_decide (letter_value (letter v) = Some v) && negb (Ascii.eqb (letter v) "="))
    (map Z.of_nat (seq 0 32)) = true.
Proof. vm_compute. reflexivity. Qed.

Lemma letter_ok v : 0 <= v < 32 -> letter_value (letter v) = Some v /\ letter v <> "="%char.
Proof.
  intros Hv. pose proof letter_table as H. rewrite forallb_forall in H. specialize (H v).
  rewrite !andb_true_iff, !negb_true_iff, bool_decide_eq_true, !Ascii.eqb_neq in H.
  destruct H as [? ?]; [|done]. apply in_map_iff. exists (Z.to_nat v). split; [lia|]. apply in_seq. lia.
Qed.

Definition five (g : list bool) : Prop := length g = 5%nat.

Lemma letters_of_values gs :
  Forall five gs -> letters_of (map (fun g => letter (value_of g)) gs) = Some (map value_of gs).
Proof.
  induction 1 as [|g gs Hg _ IH]; [done|]. cbn [map letters_of]. rewrite IH.
  pose proof (value_of_bound g) as Hb. rewrite Hg in Hb. by rewrite (proj1 (letter_ok _ Hb)).
Qed.

Lemma five_bits gs : Forall five gs -> concat (map (bits_of 5) (map value_of gs)) = concat gs.
Proof.
  induction 1 as [|g gs Hg _ IH]; [done|]. cbn [map concat]. rewrite IH. f_equal.
  rewrite <- Hg. apply bits_of_value.
Qed.

Lemma filter_letters gs k :
  Forall five gs ->
  filter (fun c => c <> "="%char) (map (fun g => letter (value_of g)) gs ++ replicate k "="%char) =
    map (fun g => letter (value_of g)) gs.
Proof.
  intros H. rewrite filter_app. assert (filter (fun c => c <> "="%char) (replicate k "="%char) = []) as ->.
  { induction k as [|k IH]; [done|]. cbn [replicate]. by rewrite filter_cons_False by naive_solver. }
  rewrite app_nil_r. induction H as [|g gs Hg _ IH]; [done|]. cbn [map]. pose proof (value_of_bound g) as Hb.
  rewrite Hg in Hb. rewrite filter_cons_True by apply (letter_ok _ Hb). by rewrite IH.
Qed.

(** The bits of a group of at most five bytes, in fives. *)
Definition group_bits (bs : list byte) : list bool := concat (map (fun b => bits_of 8 (byte_z b)) bs).
Definition fives (bs : list byte) : list (list bool) :=
  map (fun g => g ++ replicate (5 - length g) false) (in_chunks 5 (group_bits bs)).

Lemma encode_group_fives bs :
  encode_group bs = map (fun g => letter (value_of g)) (fives bs) ++ replicate (8 - length (fives bs)) "="%char.
Proof. unfold encode_group, fives. by rewrite !map_map, !length_map. Qed.

Lemma fives_ok bs :
  (0 < length bs <= 5)%nat ->
  let pad := (5 * length (fives bs) - 8 * length bs)%nat in
  Forall five (fives bs) /\ concat (fives bs) = group_bits bs ++ replicate pad false /\
  (pad < 5)%nat /\ (5 * length (fives bs) / 8 = length bs)%nat /\ (length (fives bs) <= 8)%nat.
Proof.
  intros Hl. destruct bs as [|b1 [|b2 [|b3 [|b4 [|b5 [|]]]]]]; simpl in Hl; try lia; unfold fives, group_bits, five;
    cbn -[Z.testbit Nat.div]; split_and!; try reflexivity; try lia; repeat constructor.
Qed.

Lemma length_group_bits bs : length (group_bits bs) = (8 * length bs)%nat.
Proof. unfold group_bits. induction bs as [|b bs IH]; [done|]. cbn [map concat]. rewrite length_app, IH, length_bits_of. simpl. lia. Qed.

(** ** Chunks *)

Lemma chunks_fuel {A} n f g (l : list A) :
  (0 < n)%nat -> (length l <= f)%nat -> (length l <= g)%nat -> chunks f n l = chunks g n l.
Proof.
  intros Hn. revert g l. induction f as [|f IH]; intros g [|x l] Hf Hg; try (by destruct g); [simpl in *; lia|].
  destruct g as [|g]; [simpl in *; lia|]. cbn [chunks]. f_equal.
  apply IH; rewrite length_drop; simpl in *; lia.
Qed.

Lemma in_chunks_app {A} n (c l : list A) : (0 < n)%nat -> length c = n -> in_chunks n (c ++ l) = c :: in_chunks n l.
Proof.
  intros Hn Hc. unfold in_chunks. destruct c as [|x c]; [simpl in Hc; lia|].
  cbn [app length chunks]. change (x :: c ++ l) with ((x :: c) ++ l). rewrite take_app_length' by done. f_equal.
  rewrite drop_app_length' by done. apply chunks_fuel; rewrite ?length_app; lia.
Qed.

Lemma in_chunks_concat {A} n (gs : list (list A)) :
  (0 < n)%nat -> Forall (fun g => length g = n) gs -> in_chunks n (concat gs) = gs.
Proof.
  intros Hn H. induction H as [|g gs Hg _ IH]; [done|]. cbn [concat]. by rewrite in_chunks_app, IH.
Qed.

(** Every list is its chunks. *)
Lemma in_chunks_pieces {A} n (l : list A) :
  (0 < n)%nat -> concat (in_chunks n l) = l /\ Forall (fun g => (0 < length g <= n)%nat) (in_chunks n l).
Proof.
  intros Hn. remember (length l) as k eqn:Hk. revert l Hk.
  induction k as [k IH] using lt_wf_ind. intros l ->. destruct l as [|x l]; [done|].
  assert (in_chunks n (x :: l) = take n (x :: l) :: in_chunks n (drop n (x :: l))) as ->.
  { unfold in_chunks at 1. cbn [length chunks]. f_equal. apply chunks_fuel; rewrite ?length_drop; simpl; lia. }
  destruct (IH (length (drop n (x :: l)))  ltac:(rewrite length_drop; simpl; lia) _ eq_refl) as [Hc Hf].
  cbn [concat]. rewrite Hc, take_drop. split; [done|]. constructor; [|done]. rewrite length_take. simpl. lia.
Qed.

Lemma bytes_of_group_bits bs : map (fun g => z_byte (value_of g)) (in_chunks 8 (group_bits bs)) = bs.
Proof.
  unfold group_bits. rewrite in_chunks_concat; [|lia|].
  - rewrite map_map. rewrite <- (map_id bs) at 2. apply map_ext, byte_of_bits.
  - apply Forall_map, Forall_true. intros b. apply length_bits_of.
Qed.

(** ** The round trip *)

Lemma length_encode_group bs : (0 < length bs <= 5)%nat -> length (encode_group bs) = 8%nat.
Proof.
  intros Hl. destruct (fives_ok bs Hl) as (_ & _ & _ & _ & H8).
  rewrite encode_group_fives, length_app, length_map, length_replicate. lia.
Qed.

Lemma decode_encode_group bs : (0 < length bs <= 5)%nat -> decode_group (encode_group bs) = Some bs.
Proof.
  intros Hl. pose proof (length_encode_group bs Hl) as H8. destruct (fives_ok bs Hl) as (Hf & Hc & Hp & Hn & _).
  rewrite encode_group_fives in *. unfold decode_group. rewrite filter_letters, letters_of_values by done.
  rewrite five_bits, !length_map, Hn, Hc by done. rewrite bool_decide_eq_true_2.
  - by rewrite <- length_group_bits, take_app_length, bytes_of_group_bits.
  - split; [done|]. split; [done|]. split; [|done].
    rewrite <- length_group_bits, drop_app_length. by apply Forall_replicate.
Qed.

(** The decoder gives back what was encoded, from text of whole groups. *)
Lemma base32_roundtrip bs : base32_decode (base32_encode bs) = Ok bs.
Proof.
  unfold base32_decode, base32_encode. rewrite list_ascii_of_string_of_list_ascii.
  destruct (in_chunks_pieces 5 bs ltac:(lia)) as [Hc Hf]. rewrite in_chunks_concat; [|lia|].
  - assert (decode_groups (map encode_group (in_chunks 5 bs)) = Some (concat (in_chunks 5 bs))) as ->; [|by rewrite Hc].
    clear Hc. induction Hf as [|g gs Hg _ IH]; [done|]. cbn [map decode_groups concat].
    by rewrite decode_encode_group, IH.
  - apply Forall_map. eapply Forall_impl; [exact Hf|]. apply length_encode_group.
Qed.

Lemma length_string_of_list l : String.length (string_of_list_ascii l) = length l.
Proof. induction l as [|a l IH]; [done|]. simpl. by rewrite IH. Qed.

Lemma base32_length bs : (String.length (base32_encode bs) mod 8 = 0)%nat.
Proof.
  unfold base32_encode. rewrite length_string_of_list.
  destruct (in_chunks_pieces 5 bs ltac:(lia)) as [_ Hf].
  induction Hf as [|g gs Hg _ IH]; [done|]. cbn [map concat]. rewrite length_app, length_encode_group by done.
  rewrite Nat.add_comm, <- (Nat.mul_1_l 8) at 1. by rewrite Nat.Div0.mod_add.
Qed.
