(* ===== verification/Enrolment.v ===== *)
(** * Enrolment: a one-time-password secret from [gsc-fq -g] to the handshake
    (src/src/main.rs, utils/totp.rs, reverse_proxy/client.rs, server.rs)

    The composition of [main]'s [-g], the Base32 import of Totp and the checks of
    ReverseClient and ReverseServer, over the real HMAC-SHA1 and Base32 of Sha1.
    No code of its own is modelled here. *)

From Stdlib Require Import Ascii String ZArith Lia.
From stdpp Require Import base gmap strings list.
From S2P Require Import Prelude Text NetAddr Errors Config Totp Sha1 ReverseServer ReverseClient Runtime.

(** ** What a user may type *)

Definition equals_signs (k : nat) : string := string_of_list_ascii (replicate k "="%char).

(** The printed secret with spaces anywhere, in any case, with or without its
    padding. *)
Definition as_typed (typed secret : string) : Prop :=
  exists k, (k < 8)%nat /\ ascii_upper (drop_spaces typed) +:+ equals_signs k = secret.

(** The functions of the [ring] and [data_encoding] crates, beside any JSON
    printer and SHA-256. *)
Definition real_env (json : list Protocol.ReverseProxyConfig -> result string string) (sha256 : string -> string) : Env :=
  {| ReverseServer.hmac_sha1 := Sha1.hmac_sha1; to_uppercase := ascii_upper; b32_decode := base32_decode;
     to_json := json; sha256_hex := sha256 |}.

(** ** Import *)

Lemma equals_signs_S k s : s +:+ equals_signs (S k) = (s +:+ "=") +:+ equals_signs k.
Proof. by rewrite str_app_assoc. Qed.

(** [from_base32] puts back the padding. *)
Lemma pad8_fills k fuel s :
  (k <= fuel)%nat -> (k < 8)%nat -> (String.length (s +:+ equals_signs k) mod 8 = 0)%nat ->
  pad8 fuel s = s +:+ equals_signs k.
Proof.
  revert fuel s. induction k as [|k IH]; intros fuel s Hf Hk Hm.
  - change (equals_signs 0) with "" in *. rewrite str_app_nil_r in *. by apply pad8_done.
  - destruct fuel as [|fuel]; [lia|]. cbn [pad8]. rewrite equals_signs_S.
    rewrite (IH fuel) by (rewrite <- ?equals_signs_S; (done || lia)).
    destruct (Nat.eqb_spec (String.length s mod 8) 0) as [Hz|]; [|done]. rewrite str_length_app in Hm.
    assert (String.length (equals_signs (S k)) = S k) as Hl
      by (unfold equals_signs; by rewrite length_string_of_list, length_replicate).
    rewrite Hl, Nat.Div0.add_mod, Hz, Nat.add_0_l, Nat.Div0.mod_mod, Nat.mod_small in Hm by lia. lia.
Qed.

Lemma typed_imports typed rnd :
  as_typed typed (base32_encode rnd) -> from_base32 ascii_upper base32_decode typed = Ok (Totp.new rnd).
Proof.
  intros (k & Hk & He). unfold from_base32.
  rewrite (pad8_fills k); [|lia|done|by rewrite He; apply base32_length].
  by rewrite He, base32_roundtrip.
Qed.

(** ** Both sides of the handshake *)

Lemma typed_totp json sha256 typed rnd :
  as_typed typed (base32_encode rnd) -> totp_of_secret (H := real_env json sha256) typed = Totp.new rnd.
Proof. intros H. unfold totp_of_secret. simpl. by rewrite (typed_imports typed rnd). Qed.

Lemma new_wf rnd : wf_totp (Totp.new rnd).
Proof. unfold wf_totp. simpl. lia. Qed.

(** ** Properties *)

(** C21. The secret that [gsc-fq -g] prints works: however it is typed, with
    spaces, in any case and with or without its padding, both the client and the
    server read it as the one random secret that was drawn, and when it is their
    TOTP secret, the code the client sends is the one of the drawn secret for its
    time, and the server accepts it while their clocks differ by at most one
    step. *)
Theorem printed_secret_enrols json sha256 toml fs_read fs_exists prog rest debug_path debug_paths env_token rnd first :
  exists uri secret,
    main base32_encode toml fs_read fs_exists (prog :: "-g" :: rest) debug_path debug_paths env_token rnd first =
      Val (PrintedSecret uri secret) /\
    uri = generate_otpauth_uri base32_encode (Totp.new rnd) (default "user@gsc-fq" (head rest)) "GSC-FQ" /\
    (forall typed, as_typed typed secret ->
       from_base32 ascii_upper base32_decode typed = Ok (Totp.new rnd) /\
       totp_of_secret (H := real_env json sha256) typed = Totp.new rnd) /\
    forall (c : ReverseProxyClient) (srv : ReverseProxyServer) typed_c typed_s wall_c wall_s,
      ReverseClient.totp_secret c = Some typed_c -> ReverseServer.totp_secret srv = Some typed_s ->
      as_typed typed_c secret -> as_typed typed_s secret ->
      in_u 64 wall_c -> in_u 64 wall_s -> wall_s + 30 < 2 ^ 64 -> Z.abs (wall_c - wall_s) <= 30 ->
      exists code,
        Totp.generate Sha1.hmac_sha1 (Totp.new rnd) wall_c = Val code /\
        totp_code (H := real_env json sha256) c wall_c = Val (Some code) /\
        totp_valid (H := real_env json sha256) srv wall_s (Some code) = Val true.
Proof.
  eexists _, (base32_encode rnd). split; [reflexivity|]. split; [by destruct rest|].
  split; [intros typed Ht; split; [by apply typed_imports|by apply typed_totp]|].
  intros c srv tc ts wc ws Hc Hs Htc Hts Hwc Hws Hm Ha. unfold totp_code, totp_valid. rewrite Hc, Hs.
  rewrite (typed_totp _ _ tc rnd Htc), (typed_totp _ _ ts rnd Hts).
  destruct (generated_code_verifies Sha1.hmac_sha1 (Totp.new rnd) wc ws length_hmac_sha1 (new_wf rnd))
    as (code & Hg & Hv); [done..|].
  exists code. simpl. rewrite Hg. by split_and!.
Qed.

(** ** Witness *)

Definition drawn : list byte := map z_byte [72; 101; 108; 108; 111; 33; 222; 173; 190; 239].

Theorem printed_secret_enrols_witness :
  exists code,
    totp_code (H := real_env (fun _ => Ok "[]") (fun s => s))
      (mkReverseProxyClient (mkSocketAddr (V4 10 0 0 1) 9001) sample_config None (Some "jbsw y3dp ehpk 3pxp")) 1700000025 =
      Val (Some code) /\
    totp_valid (H := real_env (fun _ => Ok "[]") (fun s => s))
      (with_totp_secret (ReverseServer.new None UNSPECIFIED 9001) (Some "JBSWY3DPEHPK3PXP")) 1700000000 (Some code) = Val true.
Proof.
  destruct (printed_secret_enrols (fun _ => Ok "[]") (fun s => s) (fun _ => Ok sample_config) (fun _ => Ok "") (fun _ => true)
    "gsc-fq" [] (fun s => s) (fun _ => "") None drawn (Ok tt)) as (uri & secret & Hm & _ & _ & H).
  vm_compute in Hm. injection Hm as _ <-.
  edestruct H as (code & _ & H1 & H2); [..|exists code; split; [exact H1|exact H2]]; [reflexivity|reflexivity|exists 0%nat|exists 0%nat|unfold in_u; lia|unfold in_u; lia|lia|lia];
    (split; [lia|vm_compute; reflexivity]).
Defined.
