(* ===== verification/Conformance.v ===== *)
(** * Conformance: the source's own unit tests, run on the model

    One Module per file of the source; a [test_...] is the test of that name,
    its assertions in their order, with the definitions of the model in the place
    of the functions it calls.  Where a test needs something outside the source
    (a TOML text parsed, a clock, HMAC-SHA1) the model's parameter is the value
    documented for that input.  Tests that only look at the machine they run on
    are left out. *)

From Stdlib Require Import Ascii String ZArith Lia.
From stdpp Require Import base gmap strings list.
From S2P Require Import Prelude Text NetAddr Errors F64 Stream Config Totp Sha1 Protocol Metrics Selector.
From S2P Require Import Blackhole Stealth Splice Copy Resilient Handler EnhancedHandler ProxyServer Monitoring Crypto StreamCipher Utils.

(** ** src/utils/totp.rs *)
Module TotpTests.

Definition rfc_secret : list byte := bytes_of "12345678901234567890".

Definition test_totp_generation_and_verification (now : Z) : Prop :=
  let totp := Totp.new rfc_secret in
  exists code,
    Totp.generate_current hmac_sha1 totp (Some now) = Val code /\
    Totp.verify hmac_sha1 totp now code = Val true /\
    Totp.verify hmac_sha1 totp now 999999 = Val false.

Definition test_rfc_6238_vectors : Prop :=
  let totp := with_digits rfc_secret 8 in
  Totp.generate hmac_sha1 totp 59 = Val 94287082 /\
  Totp.generate hmac_sha1 totp 1111111109 = Val 7081804 /\
  Totp.generate hmac_sha1 totp 1111111111 = Val 14050471 /\
  Totp.generate hmac_sha1 totp 1234567890 = Val 89005924 /\
  let totp_6 := with_digits rfc_secret 6 in
  Totp.generate hmac_sha1 totp_6 59 = Val 287082.

Definition test_base32_and_uri : Prop :=
  let hello := bytes_of "Hello!" in
  let b32_secret := base32_encode hello in
  exists totp,
    from_base32 ascii_upper base32_decode b32_secret = Ok totp /\
    secret totp = hello /\
    let uri := generate_otpauth_uri base32_encode totp "test@example.com" "GSC-FQ" in
    contains ("secret=" +:+ b32_secret) uri = true /\ contains "issuer=GSC-FQ" uri = true.

(** All of them. *)
Definition all : Prop :=
  test_totp_generation_and_verification 1700000000 /\ test_rfc_6238_vectors /\ test_base32_and_uri.
End TotpTests.

(** ** src/config/loader.rs *)
Module LoaderTests.

(** Lines of a TOML text, with apostrophes for its double quotes. *)
Definition text (lines : list string) : string :=
  join nl (map (map_str (fun c => if Ascii.eqb c "'" then "034"%char else c)) lines).

(** The [toml] crate on one text. *)
Definition parses (content : string) (r : result ConfigFile TomlError) (s : string) : result ConfigFile TomlError :=
  if String.eqb s content then r else Err (mkTomlError "unexpected text" None).

Definition rule (local remote : string) (source_ip : option string) : ProxySection :=
  mkProxySection local remote source_ip None None None.
Definition rules (server : option ServerSection) (token : option string) (ps : list ProxySection) : ConfigFile :=
  mkConfigFile server ps token None [] None None.

Definition reason_contains (part : string) (r : result (list string) ConfigError) : bool :=
  match r with Err (InvalidConfigValue _ reason) => contains part reason | _ => false end.

Definition test_validate_detects_invalid_source_ip : Prop :=
  let config := rules None (Some "default") [rule "8080" "example.com:80" (Some "invalid-ip")] in
  let result := (validate config).1 in
  is_ok result = false /\ reason_contains "not a valid IP address" result = true.

(** The shape of three tests: [source_ip] is null, in a text or in its value. *)
Definition null_source_ip (local remote content sanitized : string) : Prop :=
  exists config warnings,
    load_from_str_with_warnings (parses sanitized (Ok (rules None None [rule local remote (Some "null")]))) content
      = Val (Ok (config, warnings)) /\
    existsb (fun w => contains "source_ip" w && contains "null" w) warnings = true /\
    (p ← head (cf_proxies config); ps_source_ip p) = None.

Definition test_validate_handles_null_source_ip : Prop :=
  let content := text [""; "[[proxies]]"; "local = '9000'"; "remote = 'example.com:443'"; "source_ip = 'null'"; ""] in
  null_source_ip "9000" "example.com:443" content content.

Definition test_sanitize_unquoted_null_source_ip : Prop :=
  let lines ip := [""; "[[proxies]]"; "local = '8000'"; "remote = 'example.org:80'"; "source_ip = " +:+ ip; ""] in
  null_source_ip "8000" "example.org:80" (text (lines "null")) (text (lines "'null'")).

Definition test_missing_required_field_error : Prop :=
  let content := text [""; "[[proxies]]"; "local = '7000'"; "# Missing remote field on purpose"; ""] in
  load_from_str_with_warnings (parses content (Err (mkTomlError "missing field `remote`" (Some 1%nat)))) content
    = Val (Err (MissingRequiredField "remote")).

Definition test_duplicate_local_port_detection : Prop :=
  let config := rules None (Some "default") [rule "8080" "example.com:80" None; rule "8080" "example.net:8080" None] in
  let result := (validate config).1 in
  is_ok result = false /\ reason_contains "Duplicate local port" result = true.

Definition test_config_file_not_found : Prop :=
  let missing _ := Err (mkIoError NotFound "No such file or directory (os error 2)") in
  match load_from_file (fun _ => Err (mkTomlError "" None)) missing "does_not_exist.toml" with
  | Val (Err (Config (ConfigFileNotFound path))) => contains "does_not_exist.toml" path = true
  | _ => False
  end.

Definition test_read_and_validate_from_file : Prop :=
  let lines ip := [""; "[[proxies]]"; "local = '8100'"; "remote = 'example.com:8101'"; "source_ip = " +:+ ip; ""] in
  let toml := parses (text (lines "'null'")) (Ok (rules None None [rule "8100" "example.com:8101" (Some "null")])) in
  exists config,
    load_from_file toml (fun _ => Ok (text (lines "null"))) "/tmp/config" = Val (Ok config) /\
    (p ← head (cf_proxies config); ps_source_ip p) = None.

Definition test_server_bind_ip_empty_defaults : Prop :=
  let content := text ["[server]"; "bind_ip = ''"; "allowed_tokens = []"; ""; "[[proxies]]"; "local = '8200'";
                       "remote = 'example.com:8201'"; ""] in
  let parsed := rules (Some (mkServerSection (Some "") None)) None [rule "8200" "example.com:8201" None] in
  exists config warnings,
    load_from_str_with_warnings (parses content (Ok parsed)) content = Val (Ok (config, warnings)) /\
    existsb (contains "bind_ip") warnings = true /\
    (s ← cf_server config; ss_bind_ip s) = Some "127.0.0.1".

Definition test_ip_parsing : Prop :=
  parse_ip_address "192.168.1.1" = Ok (V4 192 168 1 1) /\
  parse_ip_address "::1" = Ok (V6 [0; 0; 0; 0; 0; 0; 0; 1]) /\
  parse_ip_address " 127.0.0.1 " = Ok (V4 127 0 0 1) /\
  is_ok (parse_ip_address "invalid") = false.

Definition test_load_from_str : Prop :=
  let content := text ["[server]"; "bind_ip = ' 127.0.0.1 '"; "allowed_tokens = []"; ""; "[[proxies]]"; "local = '8080'";
                       "remote = 'example.com:80'"; ""] in
  let parsed := rules (Some (mkServerSection (Some " 127.0.0.1 ") None)) None [rule "8080" "example.com:80" None] in
  exists config warnings,
    load_from_str_with_warnings (parses content (Ok parsed)) content = Val (Ok (config, warnings)) /\
    warnings = [] /\
    (s ← cf_server config; ss_bind_ip s) = Some "127.0.0.1" /\
    map (fun p => (ps_local p, ps_remote p)) (cf_proxies config) = [("8080", "example.com:80")].

(** All of them. *)
Definition all : Prop :=
  test_validate_detects_invalid_source_ip /\ test_validate_handles_null_source_ip /\
  test_sanitize_unquoted_null_source_ip /\ test_missing_required_field_error /\
  test_duplicate_local_port_detection /\ test_config_file_not_found /\
  test_read_and_validate_from_file /\ test_server_bind_ip_empty_defaults /\
  test_ip_parsing /\ test_load_from_str.
End LoaderTests.

(** ** src/error/types.rs *)
Module ErrorTests.

Definition test_error_severity : Prop :=
  severity (Config (InvalidIpAddress "test")) = Fatal /\ severity (Network ConnectionClosed) = Warning.

Definition test_recoverable_errors : Prop :=
  is_recoverable (Network ConnectionTimeout) = true /\ is_recoverable (System InsufficientFileDescriptors) = false.

(** All of them. *)
Definition all : Prop :=
  test_error_severity /\ test_recoverable_errors.
End ErrorTests.

(** ** src/proxy/connection_metrics.rs, quality_aware_connection.rs *)
Module MetricsTests.
Import Metrics.

Definition test_new_metrics (now : Z) : Prop :=
  let metrics := Metrics.new now in
  rtt metrics = None /\ length (rtt_samples metrics) = 0%nat /\ success_count metrics = 0 /\ failure_count metrics = 0.

Definition test_quality_score_no_data (now : Z) : Prop := calculate_quality_score (Metrics.new now) = 62.

(** The public fields the tests assign. *)
Definition assigned (m : Metrics.ConnectionMetrics) (loss : f64) (ok fail : Z) (bandwidth : f64) : Metrics.ConnectionMetrics :=
  Metrics.mkConnectionMetrics (rtt m) (rtt_samples m) loss (packets_sent m) (packets_lost m) ok fail bandwidth
    (bytes_sent m) (bytes_received m) (created_at m) (last_health_check m) (last_activity m).

Definition test_quality_score_excellent (now : Z) : Prop :=
  let metrics := add_rtt_sample now (Metrics.from_millis 30) (Metrics.new now) in
  95 <= calculate_quality_score (assigned metrics (f_of_Z 0) 100 0 (f_of_Z 15)).

Definition test_quality_score_poor (now : Z) : Prop :=
  let metrics := add_rtt_sample now (Metrics.from_millis 600) (Metrics.new now) in
  calculate_quality_score (assigned metrics (f_div (f_of_Z 15) (f_of_Z 100)) 10 90 (f_div (f_of_Z 3) (f_of_Z 10))) <= 35.

Definition test_rtt_samples_limit (now : Z) : Prop :=
  let metrics := foldl (fun m i => add_rtt_sample now (Metrics.from_millis (Z.of_nat i)) m) (Metrics.new now) (seq 0 150) in
  length (rtt_samples metrics) = 100%nat.

Definition test_avg_rtt (now : Z) : Prop :=
  let metrics := foldl (fun m ms => add_rtt_sample now (Metrics.from_millis ms) m) (Metrics.new now) [100; 200; 300] in
  avg_rtt metrics = Some (Metrics.from_millis 200).

Definition test_record_success_failure (now : Z) : Prop :=
  let metrics := record_failure now (record_success now (record_success now (Metrics.new now))) in
  success_count metrics = 2 /\ failure_count metrics = 1 /\
  let score := calculate_success_score metrics in
  let expected := f_div (f_of_Z 6666) (f_of_Z 100) in
  f_gt (f_of_Z 1) (f_sub score expected) = true /\ f_gt (f_of_Z 1) (f_sub expected score) = true.

Definition test_new_connection (now : Z) : Prop := success_count (Metrics.new now) = 0.

Definition test_quality_score (now : Z) : Prop :=
  let metrics := add_rtt_sample now (Metrics.from_millis 50) (Metrics.new now) in
  70 <= calculate_quality_score (assigned metrics (packet_loss_rate metrics) 10 0 (bandwidth_mbps metrics)).

(** All of them. *)
Definition all (now : Z) : Prop :=
  test_new_metrics now /\ test_quality_score_no_data now /\
  test_quality_score_excellent now /\ test_quality_score_poor now /\
  test_rtt_samples_limit now /\ test_avg_rtt now /\
  test_record_success_failure now /\ test_new_connection now /\
  test_quality_score now.
End MetricsTests.

(** ** src/proxy/connection_selector.rs *)
Module SelectorTests.
Import Metrics.

Definition create_test_connection_with_score (now score : Z) (uuid : string) : QualityAwareConnection :=
  let m := Metrics.new now in
  let metrics :=
    if 90 <=? score then
      MetricsTests.assigned (add_rtt_sample now (Metrics.from_millis 30) m) (packet_loss_rate m) 100 0 (f_of_Z 15)
    else if 70 <=? score then
      MetricsTests.assigned (add_rtt_sample now (Metrics.from_millis 100) m) (packet_loss_rate m) 80 20 (f_of_Z 8)
    else
      MetricsTests.assigned (add_rtt_sample now (Metrics.from_millis 500) m) (packet_loss_rate m) 20 80 half in
  new_with_metrics (reader_of []) metrics uuid.

Definition test_strategy_from_str : Prop :=
  from_str "best_quality" = Some BestQuality /\ from_str "WEIGHTED_RANDOM" = Some WeightedRandom /\
  from_str "roundrobin" = Some RoundRobin /\ from_str "invalid" = None.

Definition test_select_best_quality (now : Z) : Prop :=
  let pool := [create_test_connection_with_score now 50 "a"; create_test_connection_with_score now 90 "b";
               create_test_connection_with_score now 70 "c"] in
  match select_best_quality quality_score pool with
  | Some (selected, pool) => 85 <= quality_score selected /\ length pool = 2%nat
  | None => False
  end.

Definition test_select_round_robin (now : Z) : Prop :=
  let pool := [create_test_connection_with_score now 50 "a"; create_test_connection_with_score now 60 "b";
               create_test_connection_with_score now 70 "c"] in
  match select_round_robin pool 0 with
  | (Some (_, pool), index) =>
      length pool = 2%nat /\ index = 1%nat /\
      match select_round_robin pool index with
      | (Some (_, pool), index) => length pool = 1%nat /\ index = 0%nat
      | _ => False
      end
  | _ => False
  end.

(** All of them. *)
Definition all (now : Z) : Prop :=
  test_strategy_from_str /\ test_select_best_quality now /\
  test_select_round_robin now.
End SelectorTests.

(** ** src/proxy/blackhole.rs, stealth_handler.rs, stealth_connection_handler.rs *)
Module StealthTests.

Definition test_connection_reset_detection : Prop :=
  is_connection_reset (mkIoError ConnectionReset "test") = true /\
  is_connection_reset (mkIoError ConnectionRefused "test") = true /\
  is_connection_reset (mkIoError OtherKind "test") = false.

Definition test_rejection_detection : Prop :=
  is_rejection (ForwardingFailed "connection refused") = true /\
  is_rejection (ForwardingFailed "Server timeout") = true /\
  is_rejection (ForwardingFailed "unknown error") = false.

Definition test_stealth_handler_creation : Prop :=
  forall addr, parse_ip "127.0.0.1" = Some (sa_ip addr) -> sa_port addr = 8080 ->
  let handler := mkHandler addr None None None None in
  remote_addr handler = addr /\ Stealth.total_connections (counters Stealth.initial) = 0.

Definition test_connection_stats : Prop :=
  let stats := mkCounters 10 0 8 2 0 in
  let snapshot := Stealth.get_connection_stats (Stealth.mkState ∅ stats ∅) in
  Stealth.total_connections snapshot = 10 /\ successful_connections snapshot = 8 /\ Stealth.failed_connections snapshot = 2.

(** All of them. *)
Definition all : Prop :=
  test_connection_reset_detection /\ test_rejection_detection /\
  test_stealth_handler_creation /\ test_connection_stats.
End StealthTests.

(** ** src/proxy/adaptive_copy.rs, adaptive_stream.rs, zero_copy.rs, splice_optimizer.rs *)
Module CopyTests.

(** [Cursor::new(&data)], read in whatever pieces the reader asks for. *)
Definition cursor (data : list byte) (events : list read_event) : Prop :=
  payload events = data /\ ends_well events /\ sample_fits 0 events.

(** [vec!\[42u8; n\]] *)
Definition forty_twos (n : Z) : list byte := replicate (Z.to_nat n) (z_byte 42).

(** A copy returns the length and has written the data. *)
Definition copies (data : list byte) (r : option (Result Z) * Copy.sink) : Prop :=
  fst r = Some (Ok (Z.of_nat (length data))) /\ sk_out (snd r) = data.

(** [tokio::io::copy] on a cursor. *)
Definition io_copy (events : list read_event) (s : sink) : option (result Z IoError) * sink :=
  (Some (Ok (Z.of_nat (length (payload events)))), mkSink (sk_out s ++ payload events) (sk_flushed s) (sk_room s) (sk_flushes s)).

Definition test_optimal_buffer_size_selection (os : target_os) : Prop :=
  AdaptiveCopy.optimal_buffer_size os (100 * 1024) = 8 * 1024 /\
  AdaptiveCopy.optimal_buffer_size os (200 * 1024) = 8 * 1024 /\
  128 * 1024 <= AdaptiveCopy.optimal_buffer_size os (1 * 1024 * 1024) /\
  128 * 1024 <= AdaptiveCopy.optimal_buffer_size os (10 * 1024 * 1024).

Definition adaptive_copy_of (os : target_os) (n : Z) : Prop :=
  let data := forty_twos n in
  forall events, cursor data events -> copies data (AdaptiveCopy.adaptive_copy os io_copy events n open_sink).

Definition test_adaptive_copy_small_file (os : target_os) : Prop := adaptive_copy_of os (100 * 1024).
Definition test_adaptive_copy_large_file (os : target_os) : Prop := adaptive_copy_of os (10 * 1024 * 1024).

Definition adaptive_stream_of (os : target_os) (n : Z) : Prop :=
  let data := forty_twos n in
  forall events, cursor data events -> copies data (adaptive_stream_copy os events open_sink).

Definition test_adaptive_stream_small_packet (os : target_os) : Prop := adaptive_stream_of os (4 * 1024).
Definition test_adaptive_stream_medium_data (os : target_os) : Prop := adaptive_stream_of os (100 * 1024).
Definition test_adaptive_stream_large_data (os : target_os) : Prop := adaptive_stream_of os (5 * 1024 * 1024).

Definition test_strategy_selection (os : target_os) : Prop :=
  (exists b, analyze_traffic_pattern os (4 * 1024) true = SmallPacket b) /\
  (exists b f, analyze_traffic_pattern os (32 * 1024) false = BurstTraffic b f) /\
  (exists b f, analyze_traffic_pattern os (128 * 1024) false = ContinuousStream b f).

Definition bulk_copy_of (n : Z) : Prop :=
  let data := forty_twos n in
  forall events, cursor data events -> copies data (ZeroCopy.bulk_copy events open_sink).

Definition test_bulk_copy : Prop := bulk_copy_of (1024 * 1024).

Definition test_format_size : Prop :=
  splice_format_size 1024 = "1KB" /\ splice_format_size (1024 * 1024) = "1MB" /\ splice_format_size 512 = "512B".

Lemma length_forty_twos n : 0 <= n -> Z.of_nat (length (forty_twos n)) = n.
Proof. intros Hn. unfold forty_twos. rewrite length_replicate. lia. Qed.

Lemma adaptive_copy_holds os n : 0 <= n < 2 ^ 64 -> adaptive_copy_of os n.
Proof.
  intros Hn events (Hp & He & _). pose proof (length_forty_twos n (proj1 Hn)) as Hl.
  unfold AdaptiveCopy.adaptive_copy. destruct (_ =? _).
  - unfold copies, io_copy. simpl. by rewrite Hp.
  - destruct (copy_loop_complete (bulk_policy (if kib 256 <=? AdaptiveCopy.optimal_buffer_size os n then mib 4 else mib 2)
      (AdaptiveCopy.optimal_buffer_size os n)) "Copy error: " events 0 0 open_sink) as (s & H & Ho & _);
      [done|done|lia|rewrite Hp; lia|].
    unfold AdaptiveCopy.bulk_copy_optimized, copies. rewrite H. simpl. rewrite Ho, Hp. done.
Qed.

Lemma adaptive_stream_holds os n : 0 <= n < 2 ^ 64 -> adaptive_stream_of os n.
Proof.
  intros Hn events (Hp & He & Hs). pose proof (length_forty_twos n (proj1 Hn)) as Hl.
  destruct (adaptive_stream_delivers os events He Hs) as (s & H & Ho & _); [rewrite Hp; lia|].
  unfold copies. rewrite H. simpl. by rewrite Ho, Hp.
Qed.

Lemma bulk_copy_holds n : 0 <= n < 2 ^ 64 -> bulk_copy_of n.
Proof.
  intros Hn events (Hp & He & _). pose proof (length_forty_twos n (proj1 Hn)) as Hl.
  destruct (bulk_copy_delivers events (kib 128) open_sink He (conj eq_refl eq_refl)) as (s & H & Ho); [rewrite Hp; lia|].
  unfold copies, ZeroCopy.bulk_copy. rewrite H. simpl. by rewrite Ho, Hp.
Qed.

(** All of them. *)
Definition all (os : target_os) : Prop :=
  test_optimal_buffer_size_selection os /\ test_adaptive_copy_small_file os /\
  test_adaptive_copy_large_file os /\ test_adaptive_stream_small_packet os /\
  test_adaptive_stream_medium_data os /\ test_adaptive_stream_large_data os /\
  test_strategy_selection os /\ test_bulk_copy /\ test_format_size.
End CopyTests.

(** ** src/proxy/handler.rs, enhanced_handler.rs *)
Module HandlerTests.

Definition remote : SocketAddr := mkSocketAddr (V4 192 168 1 100) 8080.
Definition second_remote : SocketAddr := mkSocketAddr (V4 192 168 1 101) 8081.
Definition source : IpAddr := V4 10 0 0 50.

Definition test_connection_handler_creation : Prop :=
  let handler := mkConnectionHandler remote (Some source) (Some 100) in
  ch_remote_addr handler = remote /\ ch_source_ip handler = Some source.

Definition test_connection_stats : Prop :=
  let stats := Handler.get_connection_stats (mkConnectionHandler remote (Some source) (Some 100)) in
  cs_remote_addr stats = remote /\ cs_source_ip stats = Some source /\ cs_max_connections stats = 100.

Definition test_connection_pool : Prop :=
  let pool := add_handler (add_handler new_pool (mkConnectionHandler remote None None)) (mkConnectionHandler second_remote None None) in
  length (handlers pool) = 2%nat /\ is_Some (get_handler pool 0) /\ is_Some (get_handler pool 1) /\ get_handler pool 2 = None.

Definition test_pool_stats : Prop :=
  let stats := get_pool_stats (add_handler new_pool (mkConnectionHandler remote None (Some 100))) in
  total_handlers stats = 1 /\ total_max_connections stats = 100 /\ total_active_connections stats = 0 /\
  total_available_slots stats = 100.

Definition test_enhanced_handler_creation (now : Z) : Prop :=
  let handler := new_enhanced now remote (Some source) (Some 100) in
  eh_remote_addr handler = remote /\ eh_source_ip handler = Some source /\ resilient_mode handler = true.

Definition test_resilient_mode_toggle (now : Z) : Prop :=
  resilient_mode (with_resilient_mode false (new_enhanced now remote None None)) = false.

Definition test_enhanced_pool (now : Z) : Prop :=
  let pool := add_enhanced (new_enhanced now second_remote None None)
                (add_enhanced (new_enhanced now remote None None) new_enhanced_pool) in
  length (enhanced_handlers pool) = 2%nat.

(** All of them. *)
Definition all (now : Z) : Prop :=
  test_connection_handler_creation /\ test_connection_stats /\
  test_connection_pool /\ test_pool_stats /\
  test_enhanced_handler_creation now /\ test_resilient_mode_toggle now /\
  test_enhanced_pool now.
End HandlerTests.

(** ** src/proxy/resilient.rs *)
Module ResilientTests.

Definition test_connection_quality (now : Z) : Prop :=
  let quality := record_rtt now (Resilient.from_millis 200) (record_rtt now (Resilient.from_millis 100) (new_quality now)) in
  get_average_rtt quality = Some (Resilient.from_millis 150).

Definition test_session_info (id : nat) (now : Z) : Prop :=
  let session := add_pending_data now (bytes_of "test data") (new_session id now "127.0.0.1:12345" "example.com:80") in
  fst (take_pending_data now session) = [bytes_of "test data"].

Definition test_reconnect_config : Prop :=
  max_retries default_config = 5 /\ initial_delay default_config = Resilient.from_millis 100 /\
  max_delay default_config = Resilient.from_secs 10.

(** All of them. *)
Definition all (id : nat) (now : Z) : Prop :=
  test_connection_quality now /\ test_session_info id now /\ test_reconnect_config.
End ResilientTests.

(** ** src/proxy/server.rs *)
Module ServerTests.

Definition test_proxy_server_creation : Prop :=
  let server := new_server (V4 127 0 0 1) in
  st_bind_ip (get_status server) = V4 127 0 0 1 /\ total_instances (get_status server) = 0.

Definition test_proxy_instance_creation : Prop :=
  let instance := new_instance (V4 127 0 0 1) 8080 HandlerTests.remote (Some HandlerTests.source) None None None in
  sa_ip (bind_addr instance) = V4 127 0 0 1 /\ sa_port (bind_addr instance) = 8080 /\
  pi_remote_addr instance = HandlerTests.remote /\ pi_source_ip instance = Some HandlerTests.source /\
  running instance = false.

Definition test_proxy_server_builder : Prop :=
  let proxy_config := mkProxySection "8080" "192.168.1.100:8080" None None None None in
  exists server,
    build (builder_add_proxy (with_bind_ip new_builder (V4 127 0 0 1)) proxy_config) = Ok server /\
    let status := get_status server in
    st_bind_ip status = V4 127 0 0 1 /\ total_instances status = 1.

Definition test_server_status_display : Prop :=
  let display := show_status (mkServerStatus (V4 127 0 0 1) 3 2) in
  contains "127.0.0.1" display = true /\ contains "3" display = true /\ contains "2" display = true.

Definition test_proxy_instance_ipv6 : Prop :=
  let ip := V6 [0; 0; 0; 0; 0; 0; 0; 1] in
  let remote := mkSocketAddr (V6 [0x2001; 0xdb8; 0; 0; 0; 0; 0; 1]) 8080 in
  let instance := new_instance ip 8080 remote None None None None in
  sa_ip (bind_addr instance) = ip /\ pi_remote_addr instance = remote.

Definition test_proxy_server_builder_default : Prop :=
  b_bind_ip new_builder = None /\ b_proxy_configs new_builder = [].

Definition test_proxy_server_without_bind_ip : Prop :=
  exists server, build new_builder = Ok server /\ st_bind_ip (get_status server) = LOCALHOST.

(** All of them. *)
Definition all : Prop :=
  test_proxy_server_creation /\ test_proxy_instance_creation /\ test_proxy_server_builder /\
  test_server_status_display /\ test_proxy_instance_ipv6 /\
  test_proxy_server_builder_default /\ test_proxy_server_without_bind_ip.
End ServerTests.

(** ** src/monitoring/mod.rs *)
Module MonitoringTests.

Definition test_monitoring_system_creation (c : Clock) : Prop :=
  let monitoring := Monitoring.new c in
  Monitoring.total_connections (connections monitoring) = 0 /\
  Monitoring.active_connections (connections monitoring) = 0.

Definition test_connection_tracking (c : Clock) : Prop :=
  let monitoring := record_connection_established c (Monitoring.new c) in
  Monitoring.total_connections (connections monitoring) = 1 /\
  Monitoring.active_connections (connections monitoring) = 1 /\
  let monitoring := record_connection_closed 1000 monitoring in
  Monitoring.active_connections (connections monitoring) = 0.

Definition test_error_tracking (c : Clock) : Prop :=
  let context := {[ "test_key" := "test_value" ]} in
  let monitoring := Monitoring.record_error c "TestError" "Test error message" context (Monitoring.new c) in
  total_errors (errors monitoring) = 1 /\ length (recent_errors (errors monitoring)) = 1%nat /\
  errors_by_type (errors monitoring) !! "TestError" = Some 1.

(** [summary.get(key).is_some()] *)
Definition has_field (key : string) (j : json) : bool :=
  match j with JObject fields => existsb (fun f => String.eqb (fst f) key) fields | _ => false end.

Definition test_global_monitoring (c : Clock) (global : option MonitoringSystem) : Prop :=
  let global := on_global c (Closed 100) (on_global c (Established c) global) in
  let summary := get_status_summary c (default (Monitoring.new c) global) in
  has_field "connections" summary = true /\ has_field "performance" summary = true /\ has_field "errors" summary = true.

(** All of them. *)
Definition all (c : Clock) (global : option MonitoringSystem) : Prop :=
  test_monitoring_system_creation c /\ test_connection_tracking c /\
  test_error_tracking c /\ test_global_monitoring c global.
End MonitoringTests.

(** ** src/crypto/mod.rs, handshake.rs, stream_cipher.rs *)
Module CryptoTests.

Definition test_encrypted_connection_creation (aes_ni : bool) : Prop :=
  let conn := Crypto.new aes_ni "test" in
  conn_name conn = "test" /\ handshakes_completed (Crypto.metrics conn) = 0.

Definition test_cpu_features (aes_ni : bool) : Prop := CpuFeatures.optimal_cipher_suite aes_ni <> "".

(** [elapsed]: the microseconds the pause took; tokio's timer counts whole
    milliseconds. *)
Definition test_handshake_simulation (aes_ni : bool) (elapsed : Z) : Prop :=
  exists conn,
    create_client_with_token aes_ni "test-token" = Val conn /\
    (1000 <= elapsed -> 0 < elapsed / 1000) /\
    handshakes_completed (Crypto.metrics (simulate_handshake elapsed conn)) = 1.

Definition test_data_transfer_simulation (aes_ni : bool) : Prop :=
  exists conn,
    create_client_with_token aes_ni "test-token" = Val conn /\
    0 < transfer_time conn (1024 * 1024) /\
    let conn := simulate_data_transfer (1024 * 1024) conn in
    bytes_encrypted (Crypto.metrics conn) = 1024 * 1024 /\ bytes_decrypted (Crypto.metrics conn) = 1024 * 1024.

Definition test_handshake_benchmark (aes_ni : bool) (elapsed : Z) : Prop :=
  exists metrics, benchmark_handshakes aes_ni (replicate 10 elapsed) = Val metrics /\ handshakes_completed metrics = 10.

Definition test_handshake_creation : Prop :=
  let client := mkClientHandshake "test-token" "config-hash" in
  hs_auth_token client = "test-token" /\ hs_config_hash client = "config-hash".

Definition test_handshake_performance `{Aead} (now_secs random elapsed : Z) (aes_ni : bool) : Prop :=
  let result := perform_handshake (mkClientHandshake "test-token" "config-hash") now_secs random aes_ni elapsed in
  session_id result <> "" /\ algorithm_used result <> "".

Definition test_encryption_metrics : Prop :=
  stream_throughput_mbps new_metrics = f_of_Z 0 /\
  stream_throughput_mbps (mkStreamMetrics 0 0 1000000 0 1000 0 (f_of_Z 0)) = f_of_Z 8.

(** All of them. *)
Definition all `{Aead} (aes_ni : bool) (elapsed : Z) (now_secs : Z) (random : Z) : Prop :=
  test_encrypted_connection_creation aes_ni /\ test_cpu_features aes_ni /\
  test_handshake_simulation aes_ni elapsed /\ test_data_transfer_simulation aes_ni /\
  test_handshake_benchmark aes_ni elapsed /\ test_handshake_creation /\
  test_handshake_performance now_secs random elapsed aes_ni /\ test_encryption_metrics.
End CryptoTests.

(** ** src/reverse_proxy/protocol.rs *)
Module ProtocolTests.
#[local] Existing Instance FixedWidth.codec.

Definition test_message_serialization : Prop :=
  let msg := ClientHello PROTOCOL_VERSION "test-token" (Some 123456) [mkReverseProxyConfig 8080 None "localhost" 80] "abc123" in
  exists bytes,
    to_bytes msg = Ok bytes /\
    match from_bytes bytes with
    | Ok (ClientHello version token totp_code proxies config_hash) =>
        version = PROTOCOL_VERSION /\ length proxies = 1%nat /\ server_port <$> head proxies = Some 8080 /\
        token = "test-token" /\ config_hash = "abc123" /\ totp_code = Some 123456
    | _ => False
    end.

Definition test_message_read_write : Prop :=
  let '(written, buffer) := Protocol.write_to Ping open_writer in
  written = Ok tt /\ fst (Protocol.read_from (reader_of (wr_out buffer))) = Ok Ping.

(** All of them. *)
Definition all : Prop :=
  test_message_serialization /\ test_message_read_write.
End ProtocolTests.

(** ** src/utils/signal.rs, system.rs *)
Module UtilsTests.

Definition test_shutdown_notifier (task : nat) : Prop :=
  let handler := wait_for_shutdown task new_handler in
  task ∈ woken (notify_waiters (shutdown_notify handler)).

Definition test_system_info_display (os arch family : string) : Prop :=
  let display := show_SystemInfo (get_system_info os arch family) in
  contains "OS:" display = true /\ contains "Architecture:" display = true.

Definition test_optimize_system_settings : Prop := is_ok optimize_system_settings = true.

(** All of them. *)
Definition all (task : nat) (os : string) (arch : string) (family : string) : Prop :=
  test_shutdown_notifier task /\ test_system_info_display os arch family /\
  test_optimize_system_settings.
End UtilsTests.

(** ** The tests pass *)

(** Evaluates the assertions of a test. *)
Ltac assertions := repeat match goal with |- _ /\ _ => split | |- exists _, _ => eexists end.
Ltac evaluate := assertions; (solve [vm_compute; reflexivity] || solve [vm_compute; congruence]).
Ltac run_test := red; unfold LoaderTests.null_source_ip; cbv zeta; evaluate.

Lemma totp_tests_pass : TotpTests.all.
Proof. red. split_and!; run_test. Qed.

Lemma loader_tests_pass : LoaderTests.all.
Proof. red. split_and!; run_test. Qed.

Lemma error_tests_pass : ErrorTests.all.
Proof. red. split_and!; run_test. Qed.

Lemma metrics_tests_pass now : MetricsTests.all now.
Proof. red. split_and!; run_test. Qed.

Lemma selector_tests_pass now : SelectorTests.all now.
Proof. red. split_and!; [run_test|..]; vm_compute; split_and?; congruence. Qed.

Lemma stealth_tests_pass : StealthTests.all.
Proof. red. split_and!; [run_test|run_test|by intros addr|run_test]. Qed.

Lemma copy_tests_pass os : CopyTests.all os.
Proof.
  red. split_and!; [destruct os; run_test|apply CopyTests.adaptive_copy_holds; lia|apply CopyTests.adaptive_copy_holds; lia
    |apply CopyTests.adaptive_stream_holds; lia|apply CopyTests.adaptive_stream_holds; lia|apply CopyTests.adaptive_stream_holds; lia
    |destruct os; run_test|apply CopyTests.bulk_copy_holds; lia|run_test].
Qed.

Lemma handler_tests_pass now : HandlerTests.all now.
Proof. red. split_and!; try run_test. red. cbv zeta. split_and!; try done; by eexists. Qed.

Lemma resilient_tests_pass id now : ResilientTests.all id now.
Proof. red. split_and!; run_test. Qed.

Lemma server_tests_pass : ServerTests.all.
Proof. red. split_and!; run_test. Qed.

Lemma monitoring_tests_pass c global : MonitoringTests.all c global.
Proof.
  red. split_and!.
  - run_test.
  - red. cbv zeta. unfold record_connection_established, update_connection_rate. destruct (f_gt _ _); evaluate.
  - red. cbv zeta. unfold Monitoring.record_error, update_error_rate. destruct (f_gt _ _); evaluate.
  - by split_and!.
Qed.

Lemma crypto_tests_pass `{Aead} aes_ni elapsed now_secs random : CryptoTests.all aes_ni elapsed now_secs random.
Proof.
  red. split_and!; [run_test|destruct aes_ni; run_test| |destruct aes_ni; run_test| |run_test|by destruct aes_ni|run_test].
  - eexists. split; [reflexivity|]. split; [|done]. intros He. apply Z.div_str_pos. lia.
  - by eexists.
Qed.

Lemma protocol_tests_pass : ProtocolTests.all.
Proof. red. split; [eexists; split; vm_compute; [reflexivity|by split_and!]|vm_compute; by split]. Qed.

Lemma utils_tests_pass task os arch family : UtilsTests.all task os arch family.
Proof.
  red. split_and!; [|split|done].
  - unfold UtilsTests.test_shutdown_notifier. simpl. set_solver.
  - reflexivity.
  - set (rest := " " +:+ arch +:+ nl +:+ "- Environment: " +:+ os +:+ nl +:+ "- Family: " +:+ family).
    transitivity (contains "Architecture:" (("System Information:" +:+ nl +:+ "- OS: " +:+ os +:+ nl +:+ "- ")
      +:+ "Architecture:" +:+ rest)); [|apply contains_app].
    f_equal. unfold show_SystemInfo, get_system_info, rest. simpl. by rewrite !str_app_assoc.
Qed.

(** ** Properties *)

(** The model computes the published one-time passwords: with SHA-1, HMAC and
    Base32 as their standards define them, the test vectors of RFC 6238 come out
    in eight and in six digits, a code verifies at its time, a wrong one does
    not, and a secret survives its Base32 form. *)
Theorem published_passwords :
  Totp.generate hmac_sha1 (with_digits TotpTests.rfc_secret 8) 59 = Val 94287082 /\ TotpTests.all.
Proof. split; [vm_compute; reflexivity|exact totp_tests_pass]. Qed.

(** The model passes the source's own unit tests: every test that does not
    depend on the machine holds, for every clock reading, operating system and
    state the test leaves open. *)
Theorem unit_tests_pass `{Aead} now os id c global aes_ni elapsed random task os_name arch family :
  LoaderTests.all /\ ErrorTests.all /\ MetricsTests.all now /\ SelectorTests.all now /\ StealthTests.all /\
  CopyTests.all os /\ HandlerTests.all now /\ ResilientTests.all id now /\ ServerTests.all /\
  MonitoringTests.all c global /\ CryptoTests.all aes_ni elapsed now random /\ ProtocolTests.all /\
  UtilsTests.all task os_name arch family.
Proof.
  split_and!; eauto using loader_tests_pass, error_tests_pass, metrics_tests_pass, selector_tests_pass, stealth_tests_pass,
    copy_tests_pass, handler_tests_pass, resilient_tests_pass, server_tests_pass, monitoring_tests_pass,
    crypto_tests_pass, protocol_tests_pass, utils_tests_pass.
Qed.
